(** * Super Bowl squares: the odds pipeline, embedded and verified

    A shallow embedding of the odds-computation services of the squares
    board (squareOddsService.ts, realtimeSquareOddsService.ts,
    liveGameFeedService.ts, liveSentimentService.ts and constants.ts) and
    the properties of its specification proved over it.

    Conventions of the embedding.
    - A JavaScript [number] is a value of [num]: NaN, the two infinities,
      or a finite number.  Finite numbers are exact rationals, kept in
      lowest terms: the rounding of IEEE doubles and the sign of zero are
      outside the model, the special values and the way they travel
      through [+ - * /], [Math.max], [Math.min] and the comparisons are
      inside it.
    - Numbers the code prints with [String(...)] or reduces with [% 10]
      (scores, the period, lengths) are integers of [Z].
    - Strings are sequences of ASCII code units.
    - A computation that may throw returns an [outcome]; the while loop of
      the Poisson sampler runs on fuel, and [OutOfFuel] stands for a call
      without a result: a loop that was cut off, or an async function
      that awaits a promise which never settles.
    - What the runtime supplies ([Math.exp], [Number.parseFloat], the
      clock, the network) is a variable of the section that uses it. *)

From Stdlib Require Import ZArith QArith Qround Qabs Qminmax Lia Lqa Ascii String.
From Stdlib Require Import Permutation.
From stdpp Require Import base option list gmap strings.

#[local] Open Scope string_scope.
#[local] Open Scope list_scope.
#[local] Open Scope Z_scope.

(** ** JavaScript numbers *)

Inductive num : Type :=
| NaN
| PInf
| NInf
| Fin (q : Q).

(** Every finite result is stored in lowest terms, so that two finite
    numbers are the same value exactly when they are the same term. *)
Definition fin (q : Q) : num := Fin (Qred q).

Definition ofZ (z : Z) : num := Fin (inject_Z z).

Definition Qsgn (q : Q) : Z := Z.sgn (Qnum q).

Definition Qltb (a b : Q) : bool := negb (Qle_bool b a).

Module JS.

Definition neg (a : num) : num :=
  match a with
  | NaN => NaN
  | PInf => NInf
  | NInf => PInf
  | Fin q => fin (- q)
  end.

Definition add (a b : num) : num :=
  match a, b with
  | NaN, _ | _, NaN => NaN
  | PInf, NInf | NInf, PInf => NaN
  | PInf, _ | _, PInf => PInf
  | NInf, _ | _, NInf => NInf
  | Fin p, Fin q => fin (p + q)
  end.

Definition sub (a b : num) : num := add a (neg b).

(** The sign of an infinite product; a zero factor gives NaN. *)
Definition infBySign (s : Z) : num :=
  match s with
  | Z0 => NaN
  | Zpos _ => PInf
  | Zneg _ => NInf
  end.

Definition sgn (a : num) : Z :=
  match a with
  | NaN => 0
  | PInf => 1
  | NInf => -1
  | Fin q => Qsgn q
  end.

Definition mul (a b : num) : num :=
  match a, b with
  | NaN, _ | _, NaN => NaN
  | Fin p, Fin q => fin (p * q)
  | _, _ => infBySign (sgn a * sgn b)
  end.

(** Division.  A finite number over zero is an infinity of the sign of
    the numerator (the divisor is taken as +0), and 0/0 is NaN. *)
Definition div (a b : num) : num :=
  match a, b with
  | NaN, _ | _, NaN => NaN
  | Fin p, Fin q =>
      if Qeq_bool q 0 then infBySign (Qsgn p) else fin (p / q)
  | Fin _, _ => Fin 0
  | _, Fin q => if Qeq_bool q 0 then a else infBySign (sgn a * Qsgn q)
  | _, _ => NaN
  end.

(** [a < b], false as soon as one side is NaN. *)
Definition ltb (a b : num) : bool :=
  match a, b with
  | NaN, _ | _, NaN => false
  | _, NInf => false
  | NInf, _ => true
  | PInf, _ => false
  | _, PInf => true
  | Fin p, Fin q => Qltb p q
  end.

Definition leb (a b : num) : bool :=
  match a, b with
  | NaN, _ | _, NaN => false
  | NInf, _ => true
  | _, PInf => true
  | _, NInf => false
  | PInf, _ => false
  | Fin p, Fin q => Qle_bool p q
  end.

Definition gtb (a b : num) : bool := ltb b a.
Definition geb (a b : num) : bool := leb b a.

(** [a === b] on numbers: NaN is different from itself. *)
Definition eqb (a b : num) : bool :=
  match a, b with
  | PInf, PInf | NInf, NInf => true
  | Fin p, Fin q => Qeq_bool p q
  | _, _ => false
  end.

Definition isFinite (a : num) : bool :=
  match a with Fin _ => true | _ => false end.

Definition isInteger (a : num) : bool :=
  match a with
  | Fin q => Pos.eqb (Qden (Qred q)) 1
  | _ => false
  end.

(** [Math.max] and [Math.min] of two arguments: NaN wins. *)
Definition max (a b : num) : num :=
  match a, b with
  | NaN, _ | _, NaN => NaN
  | _, _ => if ltb a b then b else a
  end.

Definition min (a b : num) : num :=
  match a, b with
  | NaN, _ | _, NaN => NaN
  | _, _ => if ltb b a then b else a
  end.

Definition abs (a : num) : num :=
  match a with
  | NaN => NaN
  | PInf | NInf => PInf
  | Fin q => fin (Qabs q)
  end.

(** [Math.round]: the nearest integer, halves going up. *)
Definition round (a : num) : num :=
  match a with
  | Fin q => ofZ (Qfloor (q + (1 # 2)))
  | _ => a
  end.

(** [Math.trunc] on a rational. *)
Definition truncate (q : Q) : Z :=
  if Qle_bool 0 q then Qfloor q else Qceiling q.

(** [a % b]: the remainder has the sign of the dividend. *)
Definition rem (a b : num) : num :=
  match a, b with
  | Fin p, Fin q =>
      if Qeq_bool q 0 then NaN else fin (p - q * inject_Z (truncate (p / q)))
  | Fin p, (PInf | NInf) => a
  | _, _ => NaN
  end.

End JS.

Declare Scope num_scope.
Delimit Scope num_scope with num.
Bind Scope num_scope with num.
Infix "+" := JS.add : num_scope.
Infix "-" := JS.sub : num_scope.
Infix "*" := JS.mul : num_scope.
Infix "/" := JS.div : num_scope.
Notation "- x" := (JS.neg x) : num_scope.
Infix "<?" := JS.ltb : num_scope.
Infix "<=?" := JS.leb : num_scope.
Infix ">?" := JS.gtb : num_scope.
Infix ">=?" := JS.geb : num_scope.

(** A decimal literal [n / 10^k]. *)
Definition dec (n : Z) (k : nat) : num := fin (n # Z.to_pos (10 ^ Z.of_nat k)).

(** [const clamp = (value, min, max) => Math.min(max, Math.max(min, value))]
    (the same helper in every service). *)
Definition clamp (value lo hi : num) : num := JS.min hi (JS.max lo value).

(** The value of a finite number; [x] is the rational [q]. *)
Definition isQ (x : num) (q : Q) : Prop :=
  match x with
  | Fin p => p == q
  | _ => False
  end.

(** ** Outcomes of computations that may throw *)

Inductive outcome (A : Type) : Type :=
| Ok (a : A)
| Throw (message : string)
| OutOfFuel.
Arguments Ok {A} a.
Arguments Throw {A} message.
Arguments OutOfFuel {A}.

#[global] Instance outcome_ret : MRet outcome := fun A a => Ok a.
#[global] Instance outcome_bind : MBind outcome := fun A B f m =>
  match m with
  | Ok a => f a
  | Throw e => Throw e
  | OutOfFuel => OutOfFuel
  end.
#[global] Instance outcome_fmap : FMap outcome := fun A B f m =>
  match m with
  | Ok a => Ok (f a)
  | Throw e => Throw e
  | OutOfFuel => OutOfFuel
  end.

Definition throws {A} (m : outcome A) : Prop := exists e, m = Throw e.
Definition returns {A} (m : outcome A) : Prop := exists a, m = Ok a.

(** [TypeError: Cannot read properties of undefined]. *)
Definition TypeError {A} : outcome A :=
  Throw "TypeError: Cannot read properties of undefined".

(** ** Strings *)

Module Str.

Definition code (c : ascii) : Z := Z.of_N (N_of_ascii c).

Definition inRange (lo hi : Z) (c : ascii) : bool :=
  ((lo <=? code c)%Z && (code c <=? hi)%Z)%bool.

Definition isDigit : ascii -> bool := inRange 48 57.
Definition isLower : ascii -> bool := inRange 97 122.
Definition isUpper : ascii -> bool := inRange 65 90.

(** The ASCII part of the class [\s]. *)
Definition isSpace (c : ascii) : bool :=
  (inRange 9 13 c || (code c =? 32)%Z)%bool.

Definition lowerChar (c : ascii) : ascii :=
  if isUpper c then ascii_of_N (N_of_ascii c + 32) else c.
Definition upperChar (c : ascii) : ascii :=
  if isLower c then ascii_of_N (N_of_ascii c - 32) else c.

Definition chars : string -> list ascii := list_ascii_of_string.
Definition ofChars : list ascii -> string := string_of_list_ascii.

Definition toLowerCase (s : string) : string := ofChars (map lowerChar (chars s)).
Definition toUpperCase (s : string) : string := ofChars (map upperChar (chars s)).

Fixpoint dropWhile {A} (p : A -> bool) (l : list A) : list A :=
  match l with
  | [] => []
  | x :: r => if p x then dropWhile p r else l
  end.

Definition trimChars (l : list ascii) : list ascii :=
  rev (dropWhile isSpace (rev (dropWhile isSpace l))).

Definition trim (s : string) : string := ofChars (trimChars (chars s)).

(** [s.slice(0, n)]. *)
Definition sliceTo (n : nat) (s : string) : string := ofChars (take n (chars s)).

Definition eqb (a b : string) : bool := bool_decide (a = b).

Fixpoint isPrefix (p l : list ascii) : bool :=
  match p, l with
  | [], _ => true
  | _, [] => false
  | a :: p', b :: l' => bool_decide (a = b) && isPrefix p' l'
  end.

Definition endsWith (s suffix : string) : bool :=
  isPrefix (rev (chars suffix)) (rev (chars s)).

(** [s.includes(part)] *)
Fixpoint isInfix (p l : list ascii) : bool :=
  match l with
  | [] => isPrefix p []
  | _ :: r => (isPrefix p l || isInfix p r)%bool
  end.

Definition includes (s part : string) : bool := isInfix (chars part) (chars s).

Definition digitValue (c : ascii) : Z := code c - 48.

(** [String(n)] for an integer. *)
Fixpoint digitsOfPos (fuel : nat) (n : Z) (acc : list ascii) : list ascii :=
  match fuel with
  | O => acc
  | S f =>
      let acc' := ascii_of_N (Z.to_N (48 + n mod 10)) :: acc in
      if n / 10 =? 0 then acc' else digitsOfPos f (n / 10) acc'
  end.

Definition fromZ (n : Z) : string :=
  let body := digitsOfPos (S (Z.to_nat (Z.log2 (Z.abs n)))) (Z.abs n) [] in
  ofChars (if n <? 0 then "-"%char :: body else body).

(** [parts.join(sep)]. *)
Fixpoint join (sep : string) (parts : list string) : string :=
  match parts with
  | [] => ""
  | [p] => p
  | p :: rest => p +:+ sep +:+ join sep rest
  end.

(** The value of a run of decimal digits, most significant first. *)
Definition digitsValue (ds : list ascii) : Z :=
  fold_left (fun acc c => 10 * acc + digitValue c) ds 0.

Fixpoint takeWhile {A} (p : A -> bool) (l : list A) : list A :=
  match l with
  | [] => []
  | x :: r => if p x then x :: takeWhile p r else []
  end.

(** [Number.parseInt(s, 10)]: leading white space, a sign, then the
    longest run of digits; NaN when there is no digit. *)
Definition parseInt (s : string) : num :=
  let body := dropWhile isSpace (chars s) in
  let '(negative, rest) :=
    match body with
    | "-"%char :: r => (true, r)
    | "+"%char :: r => (false, r)
    | _ => (false, body)
    end in
  match takeWhile isDigit rest with
  | [] => NaN
  | ds => ofZ (if negative : bool then - digitsValue ds else digitsValue ds)
  end.

End Str.

(** ** What the JavaScript runtime supplies *)

Class Runtime : Type := {
  Math_exp : num -> num;
  Math_log : num -> num;
  Math_sqrt : num -> num;
  Math_cos : num -> num;
  Math_PI : num;
  Number_parseFloat : string -> num;
  String_localeCompare : string -> string -> Z;
}.

(** * Part I: the services *)

(** ** constants.ts *)

Module Constants.

Record Team : Type := { id : string; name : string; color : string }.

Definition NFL_TEAMS : list Team := [
  {| id := "ARI"; name := "Cardinals"; color := "#97233F" |};
  {| id := "ATL"; name := "Falcons"; color := "#A71930" |};
  {| id := "BAL"; name := "Ravens"; color := "#241773" |};
  {| id := "BUF"; name := "Bills"; color := "#00338D" |};
  {| id := "CAR"; name := "Panthers"; color := "#0085CA" |};
  {| id := "CHI"; name := "Bears"; color := "#0B162A" |};
  {| id := "CIN"; name := "Bengals"; color := "#FB4F14" |};
  {| id := "CLE"; name := "Browns"; color := "#311D00" |};
  {| id := "DAL"; name := "Cowboys"; color := "#003594" |};
  {| id := "DEN"; name := "Broncos"; color := "#FB4F14" |};
  {| id := "DET"; name := "Lions"; color := "#0076B6" |};
  {| id := "GB"; name := "Packers"; color := "#203731" |};
  {| id := "HOU"; name := "Texans"; color := "#03202F" |};
  {| id := "IND"; name := "Colts"; color := "#002C5F" |};
  {| id := "JAX"; name := "Jaguars"; color := "#006778" |};
  {| id := "KC"; name := "Chiefs"; color := "#E31837" |};
  {| id := "LV"; name := "Raiders"; color := "#000000" |};
  {| id := "LAC"; name := "Chargers"; color := "#0080C6" |};
  {| id := "LAR"; name := "Rams"; color := "#003594" |};
  {| id := "MIA"; name := "Dolphins"; color := "#008E97" |};
  {| id := "MIN"; name := "Vikings"; color := "#4F2683" |};
  {| id := "NE"; name := "Patriots"; color := "#002244" |};
  {| id := "NO"; name := "Saints"; color := "#D3BC8D" |};
  {| id := "NYG"; name := "Giants"; color := "#0B2265" |};
  {| id := "NYJ"; name := "Jets"; color := "#125740" |};
  {| id := "PHI"; name := "Eagles"; color := "#004C54" |};
  {| id := "PIT"; name := "Steelers"; color := "#FFB612" |};
  {| id := "SF"; name := "49ers"; color := "#AA0000" |};
  {| id := "SEA"; name := "Seahawks"; color := "#002244" |};
  {| id := "TB"; name := "Buccaneers"; color := "#D50A0A" |};
  {| id := "TEN"; name := "Titans"; color := "#0C2340" |};
  {| id := "WAS"; name := "Commanders"; color := "#5A1414" |}
].

End Constants.

(** ** types.ts *)

Abbreviation DigitProbabilityMatrix := (list (list num)).

Inductive SquareOddsSourceMode : Type := full | baseline.

Inductive SquareOddsComputationSource : Type :=
| nflverse_games
| nflverse_closing_lines
| espn_team_stats
| thesportsdb_recent_form
| espn_live_scoreboard
| espn_live_summary
| live_commentary_sentiment
| fallback_model.

#[global] Instance SquareOddsComputationSource_eq_dec :
  EqDecision SquareOddsComputationSource.
Proof. solve_decision. Defined.

Record SquareOddsComputationResult : Type := {
  boardPercentages : list (list num);
  digitProbabilities : DigitProbabilityMatrix;
  generatedAt : string;
  sourceMode : SquareOddsSourceMode;
  sourcesUsed : list SquareOddsComputationSource;
  warnings : list string;
  expectedHomePoints : num;
  expectedAwayPoints : num;
}.

Inductive LiveGameStatus : Type :=
| pregame
| in_progress
| halftime
| final
| postponed
| unknown.

#[global] Instance LiveGameStatus_eq_dec : EqDecision LiveGameStatus.
Proof. solve_decision. Defined.

(** The string a status is at run time. *)
Definition statusText (s : LiveGameStatus) : string :=
  match s with
  | pregame => "pregame"
  | in_progress => "in_progress"
  | halftime => "halftime"
  | final => "final"
  | postponed => "postponed"
  | unknown => "unknown"
  end.

(** Both producers of a clock (the feed parser and the local simulator
    of App.tsx) round the period and read the seconds off an [mm:ss]
    string: they are integers. *)
Record LiveGameClock : Type := {
  period : Z;
  displayClock : string;
  secondsRemainingInPeriod : option Z;
  secondsRemainingGame : option Z;
}.

Record LivePlayEvent : Type := {
  play_id : string;
  play_text : string;
  teamCode : option string;
  play_period : option Z;
  play_clock : option string;
  isScoringPlay : bool;
  isPenalty : bool;
  isTurnover : bool;
  isExplosivePlay : bool;
  sentimentScore : num;
}.

Record LiveCommentarySentiment : Type := {
  sentiment_home : num;
  sentiment_away : num;
  sentiment_neutral : num;
}.

(** Scores are whole points: the feed parser stores
    [Math.max(0, Math.round(...))], the simulator [Math.max(0, parseInt)]. *)
Record LiveGameSnapshot : Type := {
  eventId : string;
  fetchedAt : string;
  status : LiveGameStatus;
  statusDetail : string;
  homeTeamCode : string;
  awayTeamCode : string;
  homeTeamName : string;
  awayTeamName : string;
  homeScore : Z;
  awayScore : Z;
  clock : LiveGameClock;
  plays : list LivePlayEvent;
  sentiment : LiveCommentarySentiment;
}.

Record LiveFeatureVector : Type := {
  remainingGameSeconds : num;
  elapsedGameSeconds : num;
  homeMomentum : num;
  awayMomentum : num;
  homePenaltyPressure : num;
  awayPenaltyPressure : num;
  homeTurnoverPressure : num;
  awayTurnoverPressure : num;
  homeRecentScoringRate : num;
  awayRecentScoringRate : num;
  playPacePerMinute : num;
}.

(** [RealtimeSquareOddsComputationResult extends
    SquareOddsComputationResult]; [engineMode] is the constant
    ["realtime"]. *)
Record RealtimeSquareOddsComputationResult : Type := {
  base : SquareOddsComputationResult;
  engineMode : string;
  liveEventId : string;
  liveStatus : LiveGameStatus;
  liveStatusDetail : string;
  liveClock : string;
  liveSnapshotAt : string;
  featureVector : LiveFeatureVector;
}.

(** ** services/liveSentimentService.ts *)

Module Sentiment.

Definition POSITIVE_TERMS : gset string := list_to_set [
  "touchdown"; "scores"; "scored"; "good"; "great"; "huge"; "explosive";
  "interception"; "sack"; "forced"; "stops"; "stop"; "efficient";
  "conversion"; "converted"; "first"; "down"; "win"; "winning";
  "momentum"; "dominant"; "clutch"; "redzone"; "red"; "zone" ].

Definition NEGATIVE_TERMS : gset string := list_to_set [
  "penalty"; "foul"; "flags"; "flag"; "missed"; "miss"; "intercepted";
  "fumble"; "turnover"; "safety"; "stuffed"; "stalled"; "punt"; "sacked";
  "loss"; "losing"; "injury"; "slow"; "struggling"; "struggle";
  "incomplete"; "delay" ].

(** [.replace(/[^a-z0-9\s]/g, " ")] *)
Definition blankOthers (l : list ascii) : list ascii :=
  map (fun c => if (Str.isLower c || Str.isDigit c || Str.isSpace c)%bool
                then c else " "%char) l.

(** [.replace(/\s+/g, " ")] *)
Fixpoint collapseSpaces (inRun : bool) (l : list ascii) : list ascii :=
  match l with
  | [] => []
  | c :: r =>
      if Str.isSpace c
      then if inRun then collapseSpaces true r
           else " "%char :: collapseSpaces true r
      else c :: collapseSpaces false r
  end.

Definition normalizeText (value : string) : string :=
  Str.trim (Str.ofChars (collapseSpaces false (blankOthers
    (Str.chars (Str.toLowerCase value))))).

(** [s.split(" ")] *)
Fixpoint splitOnSpace (l : list ascii) : list (list ascii) :=
  match l with
  | [] => [[]]
  | c :: r =>
      if bool_decide (c = " "%char) then [] :: splitOnSpace r
      else match splitOnSpace r with
           | h :: t => (c :: h) :: t
           | [] => [[c]]
           end
  end.

Definition tokenize (value : string) : list string :=
  let normalized := normalizeText value in
  if Str.eqb normalized "" then []
  else filter (fun t => t <> "")
         (map Str.ofChars (splitOnSpace (Str.chars normalized))).

Definition tokenScore (score : Z) (token : string) : Z :=
  let score := if bool_decide (token ∈ POSITIVE_TERMS) then score + 1 else score in
  if bool_decide (token ∈ NEGATIVE_TERMS) then score - 1 else score.

Definition scoreCommentaryText (text : string) : num :=
  let tokens := tokenize text in
  if bool_decide (length tokens = 0%nat) then Fin 0
  else
    let score := fold_left tokenScore tokens 0 in
    let normalized :=
      (ofZ score / JS.max (ofZ (Z.of_nat (length tokens))) (ofZ 4))%num in
    clamp (normalized * dec 24 1)%num (ofZ (-1)) (ofZ 1).

(** The sides a text or a play can be for; [None] is [null]. *)
Inductive TeamSide : Type := home | away.

Record TeamSentimentContext : Type := {
  homeTeamCode : string;
  awayTeamCode : string;
  homeTeamName : string;
  awayTeamName : string;
}.

Record TeamAliasLookup : Type := {
  homeAliases : gset string;
  awayAliases : gset string;
}.

Record SentimentEntry : Type := {
  text : string;
  teamCode : option string;
}.

Definition toAliasSet (teamCode teamName : string) : gset string :=
  let upperCode := Str.toUpperCase teamCode in
  let aliases : gset string := {[ Str.toLowerCase upperCode ]} in
  let teamMatch :=
    List.find (fun team => Str.eqb (Str.toUpperCase (Constants.id team)) upperCode)
              Constants.NFL_TEAMS in
  let baseName := default teamName (Constants.name <$> teamMatch) in
  fold_left (fun aliases name =>
      let normalized := normalizeText name in
      if Str.eqb normalized "" then aliases
      else
        fold_left (fun aliases token =>
            if (3 <=? String.length token)%nat then aliases ∪ {[ token ]}
            else aliases)
          (map Str.ofChars (splitOnSpace (Str.chars normalized)))
          (aliases ∪ {[ normalized ]}))
    [teamName; baseName] aliases.

Definition buildAliasLookup (context : TeamSentimentContext) : TeamAliasLookup :=
  {| homeAliases := toAliasSet (homeTeamCode context) (homeTeamName context);
     awayAliases := toAliasSet (awayTeamCode context) (awayTeamName context) |}.

Definition detectTeamSideFromText (text : string) (aliases : TeamAliasLookup)
  : option TeamSide :=
  let normalized := normalizeText text in
  if Str.eqb normalized "" then None
  else
    let matches (set : gset string) :=
      existsb (fun alias =>
          (negb (Str.eqb alias "") && Str.includes normalized alias)%bool)
        (elements set) in
    let homeMatch := matches (homeAliases aliases) in
    let awayMatch := matches (awayAliases aliases) in
    if (homeMatch && negb awayMatch)%bool then Some home
    else if (awayMatch && negb homeMatch)%bool then Some away
    else None.

(** The six running sums of [analyzeCommentarySentiment]. *)
Record SentimentTotals : Type := {
  homeWeighted : num;
  awayWeighted : num;
  neutralWeighted : num;
  homeWeight : num;
  awayWeight : num;
  neutralWeight : num;
}.

Section Analysis.
Context `{Runtime}.

(** The side of an entry: its team code decides when there is one
    and it is the code of a team of the game, else the text. *)
Definition entrySide (entry : SentimentEntry) (context : TeamSentimentContext)
    (aliases : TeamAliasLookup) : option TeamSide :=
  let side :=
    match teamCode entry with
    | Some code =>
        if Str.eqb code "" then None
        else
          let normalizedCode := Str.toUpperCase code in
          let side :=
            if Str.eqb normalizedCode (Str.toUpperCase (homeTeamCode context))
            then Some home else None in
          if Str.eqb normalizedCode (Str.toUpperCase (awayTeamCode context))
          then Some away else side
    | None => None
    end in
  match side with
  | Some _ => side
  | None => detectTeamSideFromText (text entry) aliases
  end.

Definition analyzeCommentarySentiment (entries : list SentimentEntry)
    (context : TeamSentimentContext) : LiveCommentarySentiment :=
  if bool_decide (length entries = 0%nat)
  then {| sentiment_home := Fin 0; sentiment_away := Fin 0;
          sentiment_neutral := ofZ 1 |}
  else
    let aliases := buildAliasLookup context in
    let totals :=
      fold_left (fun totals '(index, entry) =>
          let recencyWeight :=
            Math_exp (- ofZ (Z.of_nat (length entries) - 1 - Z.of_nat index)
                      / ofZ 14)%num in
          let baseScore := scoreCommentaryText (text entry) in
          match entrySide entry context aliases with
          | Some home =>
              {| homeWeighted := (homeWeighted totals + baseScore * recencyWeight)%num;
                 awayWeighted := awayWeighted totals;
                 neutralWeighted := neutralWeighted totals;
                 homeWeight := (homeWeight totals + recencyWeight)%num;
                 awayWeight := awayWeight totals;
                 neutralWeight := neutralWeight totals |}
          | Some away =>
              {| homeWeighted := homeWeighted totals;
                 awayWeighted := (awayWeighted totals + baseScore * recencyWeight)%num;
                 neutralWeighted := neutralWeighted totals;
                 homeWeight := homeWeight totals;
                 awayWeight := (awayWeight totals + recencyWeight)%num;
                 neutralWeight := neutralWeight totals |}
          | None =>
              {| homeWeighted := homeWeighted totals;
                 awayWeighted := awayWeighted totals;
                 neutralWeighted :=
                   (neutralWeighted totals + baseScore * recencyWeight)%num;
                 homeWeight := homeWeight totals;
                 awayWeight := awayWeight totals;
                 neutralWeight := (neutralWeight totals + recencyWeight)%num |}
          end)
        (combine (seq 0 (length entries)) entries)
        {| homeWeighted := Fin 0; awayWeighted := Fin 0; neutralWeighted := Fin 0;
           homeWeight := Fin 0; awayWeight := Fin 0; neutralWeight := Fin 0 |} in
    {| sentiment_home :=
         if (homeWeight totals >? Fin 0)%num
         then clamp (homeWeighted totals / homeWeight totals)%num (ofZ (-1)) (ofZ 1)
         else Fin 0;
       sentiment_away :=
         if (awayWeight totals >? Fin 0)%num
         then clamp (awayWeighted totals / awayWeight totals)%num (ofZ (-1)) (ofZ 1)
         else Fin 0;
       sentiment_neutral :=
         if (neutralWeight totals >? Fin 0)%num
         then clamp ((neutralWeighted totals / neutralWeight totals + ofZ 1)
                     / ofZ 2)%num (Fin 0) (ofZ 1)
         else ofZ 1 |}.

End Analysis.

End Sentiment.

(** ** services/liveGameFeedService.ts *)

Module LiveGame.

Definition clampZ (value lo hi : Z) : Z := Z.min hi (Z.max lo value).

(** [/^(\d{1,2}):(\d{2})$/]: the minutes and the seconds groups. *)
Definition matchClock (l : list ascii) : option (list ascii * list ascii) :=
  let allDigits := forallb Str.isDigit in
  match l with
  | [m1; sep; s1; s2] =>
      if (bool_decide (sep = ":"%char) && allDigits [m1; s1; s2])%bool
      then Some ([m1], [s1; s2]) else None
  | [m1; m2; sep; s1; s2] =>
      if (bool_decide (sep = ":"%char) && allDigits [m1; m2; s1; s2])%bool
      then Some ([m1; m2], [s1; s2]) else None
  | _ => None
  end.

Definition parseClockToSeconds (clock : option string) : option Z :=
  match clock with
  | None => None
  | Some c =>
      if Str.eqb c "" then None
      else
        match matchClock (Str.trimChars (Str.chars c)) with
        | None => None
        | Some (mins, secs) =>
            let minutes := Str.digitsValue mins in
            let seconds := Str.digitsValue secs in
            Some (clampZ (minutes * 60 + seconds) 0 (15 * 60))
        end
  end.

Definition calculateRemainingGameSeconds
    (status : LiveGameStatus) (period : Z) (secondsInPeriod : option Z)
  : option Z :=
  if bool_decide (status = final \/ status = postponed) then Some 0
  else if bool_decide (status = pregame) then Some (4 * 15 * 60)
  else if bool_decide (status = halftime) then Some (2 * 15 * 60)
  else
    match secondsInPeriod with
    | None => None
    | Some seconds =>
        if period <=? 4 then
          let clampedPeriod := clampZ period 1 4 in
          Some ((4 - clampedPeriod) * 15 * 60 + clampZ seconds 0 (15 * 60))
        else Some (clampZ seconds 0 (15 * 60))
    end.

(** [getString]: a trimmed, non-empty string, or null.  A JSON value
    that is not a string is [None]. *)
Definition getString (value : option string) : option string :=
  match value with
  | Some s => if Str.eqb (Str.trim s) "" then None else Some (Str.trim s)
  | None => None
  end.

(** The clock of [parseCoreFromCompetition], from the status it has
    mapped, the finite number [getNumber] read for the period (if any)
    and the [displayClock] node. *)
Definition parseClock
    (status : LiveGameStatus) (periodNumber : option Q)
    (displayClockNode : option string) : LiveGameClock :=
  let period :=
    Z.max 1 (Qfloor (default (1 # 1) periodNumber + (1 # 2))%Q) in
  let displayClock :=
    default (if bool_decide (status = pregame) then "15:00"
             else if bool_decide (status = final) then "0:00" else "")
            (getString displayClockNode) in
  let secondsRemainingInPeriod := parseClockToSeconds (Some displayClock) in
  let secondsRemainingGame :=
    calculateRemainingGameSeconds status period secondsRemainingInPeriod in
  {| period := period;
     displayClock := if Str.eqb displayClock "" then "--:--" else displayClock;
     secondsRemainingInPeriod := secondsRemainingInPeriod;
     secondsRemainingGame := secondsRemainingGame |}.

(** The feed has its own copy of [normalizeText], the text of the one
    of the sentiment service. *)
Definition normalizeText (value : string) : string :=
  Str.trim (Str.ofChars (Sentiment.collapseSpaces false (Sentiment.blankOthers
    (Str.chars (Str.toLowerCase value))))).

Record TeamResolution : Type := { code : string; name : string }.

Definition resolveTeam (teamNameOrCode : string) : outcome TeamResolution :=
  let normalized := normalizeText teamNameOrCode in
  let byId :=
    List.find (fun team => Str.eqb (normalizeText (Constants.id team)) normalized)
              Constants.NFL_TEAMS in
  let byName :=
    List.find (fun team => Str.eqb (normalizeText (Constants.name team)) normalized)
              Constants.NFL_TEAMS in
  let bySuffix :=
    List.find (fun team => Str.endsWith normalized (normalizeText (Constants.name team)))
              Constants.NFL_TEAMS in
  let matched :=
    match byId with
    | Some team => Some team
    | None => match byName with
              | Some team => Some team
              | None => bySuffix
              end
    end in
  match matched with
  | None => Throw ("Unsupported team: " +:+ teamNameOrCode)
  | Some team =>
      Ok {| code := Str.toUpperCase (Constants.id team);
            name := Constants.name team |}
  end.

Definition mapStatus (state : option string) (detail : string) : LiveGameStatus :=
  let lowerDetail := Str.toLowerCase detail in
  if bool_decide (state = Some "pre") then pregame
  else if bool_decide (state = Some "in") then
    if Str.includes lowerDetail "halftime" then halftime else in_progress
  else if bool_decide (state = Some "post") then
    if (Str.includes lowerDetail "postponed" || Str.includes lowerDetail "canceled")%bool
    then postponed else final
  else if Str.includes lowerDetail "halftime" then halftime
  else if Str.includes lowerDetail "final" then final
  else unknown.

(** [/^(\d{4})-(\d{2})-(\d{2})$/] on the trimmed text, and the three
    groups one after the other. *)
Definition toScoreboardDate (rawDate : option string) : option string :=
  match rawDate with
  | None => None
  | Some raw =>
      if Str.eqb raw "" then None
      else
        match Str.trimChars (Str.chars raw) with
        | [y1; y2; y3; y4; d1; m1; m2; d2; t1; t2] =>
            if (bool_decide (d1 = "-"%char) && bool_decide (d2 = "-"%char)
                && forallb Str.isDigit [y1; y2; y3; y4; m1; m2; t1; t2])%bool
            then Some (Str.ofChars [y1; y2; y3; y4; m1; m2; t1; t2])
            else None
        | _ => None
        end
  end.

Definition getLivePollIntervalMs (snapshot : option LiveGameSnapshot) : Z :=
  match snapshot with
  | None => 45000
  | Some snapshot =>
      if bool_decide (status snapshot = in_progress) then
        let remaining := secondsRemainingGame (clock snapshot) in
        match remaining with
        | Some seconds =>
            if seconds <=? 8 * 60 then 5000
            else if seconds <=? 20 * 60 then 8000
            else 12000
        | None => 12000
        end
      else if bool_decide (status snapshot = halftime) then 20000
      else if bool_decide (status snapshot = pregame) then 45000
      else 60000
  end.

End LiveGame.

(** ** Arrays of numbers, as both odds services use them *)

Definition DIGIT_COUNT : nat := 10.

(** The digits [0 .. 9], the range of every [for] loop over a matrix. *)
Definition digits : list nat := seq 0 DIGIT_COUNT.

(** [Array.from({ length: 10 }, () => Array.from({ length: 10 }, () => v))] *)
Definition constantMatrix (v : num) : DigitProbabilityMatrix :=
  replicate DIGIT_COUNT (replicate DIGIT_COUNT v).

Definition createZeroMatrix : DigitProbabilityMatrix := constantMatrix (Fin 0).

(** [values[i]] where a number is expected: an absent element is
    [undefined], which arithmetic and [Math.max] turn into NaN. *)
Definition numberAt (values : list num) (i : nat) : num :=
  default NaN (values !! i).

(** [matrix[r][c]] where a number is expected: reading a column of an
    absent row is a TypeError. *)
Definition cellAt (matrix : DigitProbabilityMatrix) (r c : nat) : outcome num :=
  match matrix !! r with
  | Some row => Ok (numberAt row c)
  | None => TypeError
  end.

(** A loop that threads an accumulator and may throw. *)
Fixpoint foldOutcome {A B} (f : B -> A -> outcome B) (l : list A) (b : B)
  : outcome B :=
  match l with
  | [] => Ok b
  | x :: r => b' ← f b x; foldOutcome f r b'
  end.

(** [Array.from({ length }, (_, i) => f(i))] with a callback that may
    throw: the elements are built in order, the first throw ends it. *)
Fixpoint traverse {A B} (f : A -> outcome B) (l : list A) : outcome (list B) :=
  match l with
  | [] => Ok []
  | x :: r => y ← f x; ys ← traverse f r; Ok (y :: ys)
  end.

(** [values.reduce((sum, value) => sum + value, 0)] *)
Definition sumNumbers (values : list num) : num :=
  fold_left JS.add values (Fin 0).

(** A label that passes
    [Number.isInteger(d) && d >= 0 && d <= 9], as an index. *)
Definition labelDigit (label : num) : option nat :=
  match label with
  | Fin q =>
      if (JS.isInteger label && negb (label <? Fin 0)%num
          && negb (label >? ofZ 9)%num)%bool
      then Some (Z.to_nat (Qnum (Qred q)))
      else None
  | _ => None
  end.

(** [mapDigitMatrixToBoard], the same in both services up to the three
    messages. *)
Definition mapDigitMatrixToBoardWith (lengthMessage rowMessage colMessage : string)
    (digitMatrix : DigitProbabilityMatrix) (rowLabels colLabels : list num)
  : outcome (list (list num)) :=
  if bool_decide (length rowLabels <> DIGIT_COUNT \/ length colLabels <> DIGIT_COUNT)
  then Throw lengthMessage
  else
    traverse (fun rowIndex =>
      match labelDigit (numberAt rowLabels rowIndex) with
      | None => Throw rowMessage
      | Some rowDigit =>
          traverse (fun colIndex =>
            match labelDigit (numberAt colLabels colIndex) with
            | None => Throw colMessage
            | Some colDigit =>
                value ← cellAt digitMatrix rowDigit colDigit;
                Ok (value * ofZ 100)%num
            end) digits
      end) digits.

(** [finalizeBoardPercentages], the same in both services. *)
Definition finalizeBoardPercentages (boardPercentages : list (list num))
  : list (list num) :=
  let flat := concat boardPercentages in
  let total := sumNumbers flat in
  if (negb (JS.isFinite total) || (total <=? Fin 0)%num)%bool
  then constantMatrix (ofZ 1)
  else
    let scale := (ofZ 100 / total)%num in
    map (map (fun value => clamp (value * scale)%num (Fin 0) (ofZ 100)))
        boardPercentages.

(** ** services/squareOddsService.ts: numbers and closing lines *)

Module Service.

Definition createUniformDigitDist : list num :=
  replicate DIGIT_COUNT (ofZ 1 / ofZ 10)%num.

Definition createUniformDigitMatrix : DigitProbabilityMatrix :=
  constantMatrix (ofZ 1 / ofZ 100)%num.

Definition normalizeVector (values : list num) : list num :=
  let total := fold_left (fun acc value => (acc + JS.max value (Fin 0))%num)
                         values (Fin 0) in
  if (negb (JS.isFinite total) || (total <=? Fin 0)%num)%bool
  then createUniformDigitDist
  else map (fun value => (JS.max value (Fin 0) / total)%num) values.

(** The cells a double [for] loop over [r] and [c] visits, in order. *)
Definition cells : list (nat * nat) :=
  r ← digits; c ← digits; [(r, c)].

Definition normalizeMatrix (matrix : DigitProbabilityMatrix)
  : outcome DigitProbabilityMatrix :=
  total ← foldOutcome (fun total '(r, c) =>
             value ← cellAt matrix r c;
             Ok (total + JS.max value (Fin 0))%num) cells (Fin 0);
  if (negb (JS.isFinite total) || (total <=? Fin 0)%num)%bool
  then Ok createUniformDigitMatrix
  else Ok (map (map (fun value => (JS.max value (Fin 0) / total)%num)) matrix).

Definition mapDigitMatrixToBoard :=
  mapDigitMatrixToBoardWith
    "Expected row and column labels to each have length 10."
    "Invalid row label while mapping digit probabilities."
    "Invalid column label while mapping digit probabilities.".

Definition americanOddsToImpliedProbability (odds : num) : num :=
  if (negb (JS.isFinite odds) || JS.eqb odds (Fin 0))%bool then dec 5 1
  else if (odds <? Fin 0)%num
  then (JS.abs odds / (JS.abs odds + ofZ 100))%num
  else (ofZ 100 / (odds + ofZ 100))%num.

(** A row of closing_lines.csv, restricted to the selected columns. *)
Record ClosingLineRow : Type := {
  game_id : string;
  type : string;
  side : string;
  odds : string;
}.

Record MoneylineRecord : Type := {
  ml_season : num;
  ml_side : string;
  impliedProbability : num;
}.

Section Parsing.
Context `{Runtime}.

Definition parseNumeric (value : string) : option num :=
  if (Str.eqb value "" || Str.eqb (Str.trim value) "")%bool then None
  else
    let parsed := Number_parseFloat value in
    if JS.isFinite parsed then Some parsed else None.

(** The callback [loadClosingMoneylines] maps over the rows; [None]
    is the [null] that [filter] then drops. *)
Definition moneylineOfRow (row : ClosingLineRow) : option MoneylineRecord :=
  if negb (Str.eqb (type row) "MONEYLINE") then None
  else
    match parseNumeric (odds row) with
    | None => None
    | Some oddsValue =>
        let season := Str.parseInt (Str.sliceTo 4 (game_id row)) in
        if negb (JS.isInteger season) then None
        else Some {|
          ml_season := season;
          ml_side := Str.toUpperCase (Str.trim (side row));
          impliedProbability :=
            clamp (americanOddsToImpliedProbability oddsValue)
                  (dec 1 2) (dec 99 2) |}
    end.

Definition moneylineRecords (rows : list ClosingLineRow) : list MoneylineRecord :=
  omap moneylineOfRow rows.

End Parsing.


(** *** Team names *)

(** [.replace(/[^a-z0-9 ]+/g, " ")]: every run of other characters
    becomes one space. *)
Fixpoint blankRuns (inRun : bool) (l : list ascii) : list ascii :=
  match l with
  | [] => []
  | c :: r =>
      if (Str.isLower c || Str.isDigit c || (Str.code c =? 32)%Z)%bool
      then c :: blankRuns false r
      else if inRun then blankRuns true r
           else " "%char :: blankRuns true r
  end.

Definition normalizeText (value : string) : string :=
  Str.trim (Str.ofChars (Sentiment.collapseSpaces false (blankRuns false
    (Str.chars (Str.toLowerCase value))))).

(** [a ?? b ?? ...]: the first value that is there. *)
Fixpoint firstOf {A} (candidates : list (option A)) : option A :=
  match candidates with
  | [] => None
  | Some a :: _ => Some a
  | None :: rest => firstOf rest
  end.

Definition findTeamByNameOrCode (teamNameOrCode : string) : option Constants.Team :=
  let normalized := normalizeText teamNameOrCode in
  firstOf [
    List.find (fun team => Str.eqb (normalizeText (Constants.id team)) normalized)
              Constants.NFL_TEAMS;
    List.find (fun team => Str.eqb (normalizeText (Constants.name team)) normalized)
              Constants.NFL_TEAMS;
    List.find (fun team => Str.endsWith normalized (normalizeText (Constants.name team)))
              Constants.NFL_TEAMS ].

Definition resolveTeamCode (teamNameOrCode : string) : outcome string :=
  match findTeamByNameOrCode teamNameOrCode with
  | Some matched => Ok (Constants.id matched)
  | None => Throw ("Unsupported team name or code: " +:+ teamNameOrCode)
  end.

(** *** The records of the model *)

Record BuildSquareOddsInput : Type := {
  homeTeamName : string;
  awayTeamName : string;
  rowLabels : list num;
  colLabels : list num;
}.

Record GameRecord : Type := {
  season : num;
  gameday : string;
  awayTeam : string;
  awayScore : num;
  homeTeam : string;
  homeScore : num;
  totalLine : option num;
  spreadLine : option num;
}.

Record TeamContext : Type := {
  offenseDigitDist : list num;
  defenseDigitDist : list num;
  avgPointsFor : num;
  avgPointsAllowed : num;
  sampleSize : Z;
}.

Record EspnTeamDescriptor : Type := {
  espn_id : string;
  abbreviation : string;
  displayName : string;
  shortDisplayName : string;
  nickname : string;
}.

Record EspnTeamStats : Type := {
  pointsPerGame : option num;
  thirdDownPct : option num;
  redZonePct : option num;
  turnoverDiff : option num;
}.

Record SportsDbRecentForm : Type := {
  avgScored : num;
  avgAllowed : num;
  form_offenseDigitDist : list num;
  form_defenseDigitDist : list num;
  form_sampleSize : Z;
}.

Record CachedDigitModel : Type := {
  c_digitProbabilities : DigitProbabilityMatrix;
  c_generatedAt : string;
  c_sourceMode : SquareOddsSourceMode;
  c_sourcesUsed : list SquareOddsComputationSource;
  c_warnings : list string;
  c_expectedHomePoints : num;
  c_expectedAwayPoints : num;
}.

Record CachedEntry : Type := {
  expiresAt : num;
  value : CachedDigitModel;
}.

Definition MODEL_CACHE_PREFIX : string := "sb-lx-smart-odds-model-v1".
Definition MODEL_CACHE_TTL_MS : Z := 1000 * 60 * 30.

(** *** Digits and blends *)

(** [((score % 10) + 10) % 10] *)
Definition toDigit (score : num) : num :=
  JS.rem (JS.rem score (ofZ 10) + ofZ 10)%num (ofZ 10).

(** [counts[digit] += amount] on an array of ten counts, [digit] coming
    from [toDigit] or from [% 10]: a digit that is no integer sets a
    property of the array that is none of its elements. *)
Definition bump (counts : list num) (digit amount : num) : list num :=
  match labelDigit digit with
  | Some i => alter (fun count => (count + amount)%num) i counts
  | None => counts
  end.

(** [counts[r][c] += amount] on a matrix of ten rows: reading the column
    of a row that is not there is a TypeError. *)
Definition bumpCell (counts : DigitProbabilityMatrix) (r c amount : num)
  : outcome DigitProbabilityMatrix :=
  match labelDigit r with
  | Some i =>
      match counts !! i with
      | Some row => Ok (<[i := bump row c amount]> counts)
      | None => TypeError
      end
  | None => TypeError
  end.

Definition outerProduct (a b : list num) : outcome DigitProbabilityMatrix :=
  normalizeMatrix
    (map (fun r => map (fun c => (numberAt a r * numberAt b c)%num) digits) digits).

(** An element of the [parts] of [blendVectors]. *)
Record VectorPart : Type := { values : list num; v_weight : num }.

Definition blendVectors (parts : list VectorPart) : list num :=
  let '(output, weightTotal) :=
    fold_left (fun '(output, weightTotal) part =>
        if (bool_decide (length (values part) <> DIGIT_COUNT)
            || (v_weight part <=? Fin 0)%num)%bool
        then (output, weightTotal)
        else (map (fun i => (numberAt output i
                             + numberAt (values part) i * v_weight part)%num) digits,
              (weightTotal + v_weight part)%num))
      parts (replicate DIGIT_COUNT (Fin 0), Fin 0) in
  if (weightTotal <=? Fin 0)%num then createUniformDigitDist
  else normalizeVector output.

(** An element of the [parts] of [blendMatrices]. *)
Record MatrixPart : Type := { matrix : DigitProbabilityMatrix; m_weight : num }.

Definition blendMatrices (parts : list MatrixPart) : outcome DigitProbabilityMatrix :=
  '(output, weightTotal) ←
    foldOutcome (fun '(output, weightTotal) part =>
        if (m_weight part <=? Fin 0)%num then Ok (output, weightTotal)
        else
          output ← traverse (fun r => traverse (fun c =>
                      cell ← cellAt (matrix part) r c;
                      Ok (numberAt (default [] (output !! r)) c
                          + cell * m_weight part)%num) digits) digits;
          Ok (output, (weightTotal + m_weight part)%num))
      parts (createZeroMatrix, Fin 0);
  if (weightTotal <=? Fin 0)%num then Ok createUniformDigitMatrix
  else normalizeMatrix output.

(** An element of the [parts] of [weightedAverage]. *)
Record ValuePart : Type := { part_value : option num; part_weight : num }.

Definition weightedAverage (parts : list ValuePart) (fallback : num) : num :=
  let '(weightedSum, totalWeight) :=
    fold_left (fun '(weightedSum, totalWeight) part =>
        match part_value part with
        | Some value =>
            if (negb (JS.isFinite value) || (part_weight part <=? Fin 0)%num)%bool
            then (weightedSum, totalWeight)
            else ((weightedSum + value * part_weight part)%num,
                  (totalWeight + part_weight part)%num)
        | None => (weightedSum, totalWeight)
        end)
      parts (Fin 0, Fin 0) in
  if (totalWeight <=? Fin 0)%num then fallback
  else (weightedSum / totalWeight)%num.

(** *** The history of games *)

Definition getLatestSeason (games : list GameRecord) : num :=
  fold_left (fun maxSeason game => JS.max maxSeason (season game)) games (Fin 0).

Definition buildBaselineMatrix (games : list GameRecord) (latestSeason : num)
  : outcome (DigitProbabilityMatrix * Z) :=
  let counts := constantMatrix (ofZ 1) in
  let startSeason := JS.max (ofZ 1999) (latestSeason - ofZ 15)%num in
  '(counts, sampleSize) ←
    foldOutcome (fun '(counts, sampleSize) game =>
        if (season game <? startSeason)%num then Ok (counts, sampleSize)
        else if ((homeScore game <? Fin 0)%num || (awayScore game <? Fin 0)%num)%bool
        then Ok (counts, sampleSize)
        else
          let homeDigit := toDigit (homeScore game) in
          let awayDigit := toDigit (awayScore game) in
          let age := (latestSeason - season game)%num in
          let recencyWeight :=
            clamp (dec 11 1 - age * dec 5 2)%num (dec 35 2) (dec 11 1) in
          counts ← bumpCell counts homeDigit awayDigit recencyWeight;
          Ok (counts, sampleSize + 1))
      games (counts, 0);
  normalized ← normalizeMatrix counts;
  Ok (normalized, sampleSize).

(** [array.sort(compare)]: the sort is stable, an element goes before
    the first one it does not come after. *)
Fixpoint insertSorted {A} (compare : A -> A -> Z) (x : A) (sorted : list A) : list A :=
  match sorted with
  | [] => [x]
  | y :: rest =>
      if compare x y <=? 0 then x :: sorted
      else y :: insertSorted compare x rest
  end.

Definition sortBy {A} (compare : A -> A -> Z) (l : list A) : list A :=
  fold_right (insertSorted compare) [] l.

(** The running sums of [buildTeamContext]. *)
Record ContextTotals : Type := {
  offenseCounts : list num;
  defenseCounts : list num;
  weightedPointsFor : num;
  weightedPointsAgainst : num;
  totalWeight : num;
}.

Definition calculateLeagueAveragePoints (games : list GameRecord) (latestSeason : num)
  : num :=
  let cutoff := (latestSeason - ofZ 3)%num in
  let '(scoreTotal, sample) :=
    fold_left (fun '(scoreTotal, sample) game =>
        if (season game <? cutoff)%num then (scoreTotal, sample)
        else ((scoreTotal + (homeScore game + awayScore game))%num, sample + 2))
      games (Fin 0, 0) in
  if sample =? 0 then ofZ 22 else (scoreTotal / ofZ sample)%num.

Definition calculateTeamMarketImpliedProb (moneylines : list MoneylineRecord)
    (teamCode : string) (latestSeason : num) : option num :=
  let recentRows :=
    List.filter (fun entry =>
        (Str.eqb (ml_side entry) teamCode
         && (ml_season entry >=? latestSeason - ofZ 8)%num)%bool) moneylines in
  if bool_decide (length recentRows = 0%nat) then None
  else
    let '(weightedSum, totalWeight) :=
      fold_left (fun '(weightedSum, totalWeight) entry =>
          let weight :=
            clamp (ofZ 1 + (ml_season entry - (latestSeason - ofZ 8)) * dec 12 2)%num
                  (dec 4 1) (dec 22 1) in
          ((weightedSum + impliedProbability entry * weight)%num,
           (totalWeight + weight)%num))
        recentRows (Fin 0, Fin 0) in
    if (totalWeight <=? Fin 0)%num then None
    else Some (weightedSum / totalWeight)%num.

Definition buildTeamDigitMatrix (homeContext awayContext : option TeamContext)
    (homeSportsDb awaySportsDb : option SportsDbRecentForm)
  : outcome DigitProbabilityMatrix :=
  let orUniform (dist : option (list num)) := default createUniformDigitDist dist in
  let homeDist := blendVectors [
    {| values := orUniform (offenseDigitDist <$> homeContext); v_weight := dec 55 2 |};
    {| values := orUniform (defenseDigitDist <$> awayContext); v_weight := dec 25 2 |};
    {| values := orUniform (form_offenseDigitDist <$> homeSportsDb);
       v_weight := dec 12 2 |};
    {| values := orUniform (form_defenseDigitDist <$> awaySportsDb);
       v_weight := dec 8 2 |} ] in
  let awayDist := blendVectors [
    {| values := orUniform (offenseDigitDist <$> awayContext); v_weight := dec 55 2 |};
    {| values := orUniform (defenseDigitDist <$> homeContext); v_weight := dec 25 2 |};
    {| values := orUniform (form_offenseDigitDist <$> awaySportsDb);
       v_weight := dec 12 2 |};
    {| values := orUniform (form_defenseDigitDist <$> homeSportsDb);
       v_weight := dec 8 2 |} ] in
  outerProduct homeDist awayDist.

Definition estimateExpectedPoints (teamContext opponentContext : option TeamContext)
    (teamEspn opponentEspn : option EspnTeamStats)
    (teamSportsDb : option SportsDbRecentForm) (leagueAvg : num) : num :=
  let orZero (stat : EspnTeamStats -> option num) (espn : option EspnTeamStats) :=
    default (Fin 0) (espn ≫= stat) in
  let expected := weightedAverage [
    {| part_value := avgPointsFor <$> teamContext; part_weight := dec 42 2 |};
    {| part_value := avgPointsAllowed <$> opponentContext; part_weight := dec 28 2 |};
    {| part_value := teamEspn ≫= pointsPerGame; part_weight := dec 15 2 |};
    {| part_value := avgScored <$> teamSportsDb; part_weight := dec 10 2 |};
    {| part_value := Some leagueAvg; part_weight := dec 5 2 |} ] leagueAvg in
  let thirdDownEdge :=
    ((orZero thirdDownPct teamEspn - orZero thirdDownPct opponentEspn) / ofZ 100)%num in
  let expected := (expected + thirdDownEdge * dec 22 1)%num in
  let redZoneEdge :=
    ((orZero redZonePct teamEspn - orZero redZonePct opponentEspn) / ofZ 100)%num in
  let expected := (expected + redZoneEdge * dec 16 1)%num in
  let turnoverEdge :=
    (orZero turnoverDiff teamEspn - orZero turnoverDiff opponentEspn)%num in
  let expected := (expected + turnoverEdge * dec 12 2)%num in
  let expected :=
    match teamSportsDb, teamContext with
    | Some form, Some context =>
        (expected + (avgScored form - avgPointsFor context) * dec 12 2)%num
    | _, _ => expected
    end in
  clamp expected (ofZ 10) (ofZ 45).

Section Numerics.
Context `{Runtime}.

Definition buildTeamContext (games : list GameRecord) (teamCode : string)
    (latestSeason : num) : option TeamContext :=
  let cutoffSeason := (latestSeason - ofZ 6)%num in
  let teamGames :=
    take 48
      (sortBy (fun a b => String_localeCompare (gameday b) (gameday a))
         (List.filter (fun game =>
             ((season game >=? cutoffSeason)%num
              && (Str.eqb (homeTeam game) teamCode
                  || Str.eqb (awayTeam game) teamCode))%bool) games)) in
  if bool_decide (length teamGames = 0%nat) then None
  else
    let totals :=
      fold_left (fun totals '(index, game) =>
          let isHome := Str.eqb (homeTeam game) teamCode in
          let pointsFor := if isHome then homeScore game else awayScore game in
          let pointsAllowed := if isHome then awayScore game else homeScore game in
          if ((pointsFor <? Fin 0)%num || (pointsAllowed <? Fin 0)%num)%bool
          then totals
          else
            let recencyWeight :=
              Math_exp (- ofZ (Z.of_nat index) / ofZ 18)%num in
            {| offenseCounts :=
                 bump (offenseCounts totals) (toDigit pointsFor) recencyWeight;
               defenseCounts :=
                 bump (defenseCounts totals) (toDigit pointsAllowed) recencyWeight;
               weightedPointsFor :=
                 (weightedPointsFor totals + pointsFor * recencyWeight)%num;
               weightedPointsAgainst :=
                 (weightedPointsAgainst totals + pointsAllowed * recencyWeight)%num;
               totalWeight := (totalWeight totals + recencyWeight)%num |})
        (combine (seq 0 (length teamGames)) teamGames)
        {| offenseCounts := replicate DIGIT_COUNT (ofZ 1);
           defenseCounts := replicate DIGIT_COUNT (ofZ 1);
           weightedPointsFor := Fin 0;
           weightedPointsAgainst := Fin 0;
           totalWeight := Fin 0 |} in
    if (totalWeight totals <=? Fin 0)%num then None
    else Some {|
      offenseDigitDist := normalizeVector (offenseCounts totals);
      defenseDigitDist := normalizeVector (defenseCounts totals);
      avgPointsFor := (weightedPointsFor totals / totalWeight totals)%num;
      avgPointsAllowed := (weightedPointsAgainst totals / totalWeight totals)%num;
      sampleSize := Z.of_nat (length teamGames) |}.

Definition poissonDigitDistribution (meanPoints : num) : list num :=
  let lambda := clamp meanPoints (ofZ 8) (ofZ 55) in
  let maxScore := 85%nat in
  let pmf := Math_exp (- lambda)%num in
  let probabilities := bump (replicate DIGIT_COUNT (Fin 0)) (Fin 0) pmf in
  let '(probabilities, _) :=
    fold_left (fun '(probabilities, pmf) score =>
        let pmf := (pmf * (lambda / ofZ score))%num in
        (bump probabilities (ofZ (score mod 10)) pmf, pmf))
      (map Z.of_nat (seq 1 maxScore)) (probabilities, pmf) in
  let assigned := sumNumbers probabilities in
  let tail := JS.max (Fin 0) (ofZ 1 - assigned)%num in
  normalizeVector
    (bump probabilities (JS.rem (JS.round lambda) (ofZ 10)) tail).

Definition buildSimulationMatrix (homeExpectedPoints awayExpectedPoints : num)
  : outcome DigitProbabilityMatrix :=
  let homeDist := poissonDigitDistribution homeExpectedPoints in
  let awayDist := poissonDigitDistribution awayExpectedPoints in
  outerProduct homeDist awayDist.

End Numerics.

(** *** The module's variables, the browser and the network *)

(** A promise, as the caller that awaits it finds it: fulfilled,
    rejected, or never settled. *)
Inductive Promise (A : Type) : Type :=
| Fulfilled (a : A)
| Rejected (message : string)
| Pending.
Arguments Fulfilled {A} a.
Arguments Rejected {A} message.
Arguments Pending {A}.

(** [Promise.all] of two promises: rejected when one of them is, and
    else pending when one of them is.  Of two rejections the first of
    the array is taken. *)
Definition PromiseAll {A B} (first : Promise A) (second : Promise B)
  : Promise (A * B) :=
  match first, second with
  | Rejected e, _ => Rejected e
  | _, Rejected e => Rejected e
  | Fulfilled a, Fulfilled b => Fulfilled (a, b)
  | _, _ => Pending
  end.

(** The addresses the service requests, by the constant or function
    that builds the URL. *)
Inductive Request : Type :=
| NFL_GAMES_CSV_URL
| NFL_CLOSING_LINES_CSV_URL
| ESPN_TEAMS_URL
| ESPN_TEAM_STATS_URL (teamId : string)
| SPORTS_DB_SEARCH_TEAMS_URL (teamName : string)
| SPORTS_DB_EVENTS_LAST_URL (teamId : string).

(** A row of games.csv, restricted to the selected columns. *)
Record GameRow : Type := {
  csv_season : string;
  csv_gameday : string;
  away_team : string;
  away_score : string;
  home_team : string;
  home_score : string;
  total_line : string;
  spread_line : string;
}.

(** The [team] of an entry of the ESPN teams payload. *)
Record EspnTeamJson : Type := {
  team_id : option string;
  team_abbreviation : option string;
  team_displayName : option string;
  team_shortDisplayName : option string;
  team_nickname : option string;
}.

(** A statistic of the ESPN payload; the two values are there when
    they are numbers. *)
Record EspnStatJson : Type := {
  stat_name : option string;
  perGameValue : option num;
  stat_value : option num;
}.

Record SportsDbTeamJson : Type := {
  idTeam : option string;
  strTeam : option string;
  strLeague : option string;
}.

Record SportsDbEventJson : Type := {
  strHomeTeam : option string;
  strAwayTeam : option string;
  intHomeScore : option string;
  intAwayScore : option string;
}.

(** The module-level variables, [window.localStorage] ([None] where
    there is no [window]) and the requests sent so far.  A promise
    variable holds the promise as it settles, or pending when it never
    does; the rejected ones are put back to [null] by their rejection
    handler, see [settlePromises]. *)
Record Store : Type := {
  gamesPromise : option (Promise (list GameRecord));
  closingLinesPromise : option (Promise (list MoneylineRecord));
  espnTeamsPromise : option (Promise (gmap string EspnTeamDescriptor));
  espnStatsPromiseByTeam : gmap string (Promise (option EspnTeamStats));
  sportsDbPromiseByTeam : gmap string (Promise (option SportsDbRecentForm));
  modelMemoryCache : gmap string CachedEntry;
  localStorage : option (gmap string string);
  requests : list Request;
}.

(** What is outside of the program.  A request is answered by what the
    service reads off the response: the selected columns of a CSV file,
    the entries of a JSON payload; it is rejected when the network
    fails, the 12 s timeout aborts it, the status is not ok or the body
    does not parse; it stays pending when the response has come and its
    body never ends, since [fetchWithTimeout] clears its timer once
    [fetch] has resolved and [response.text()] and [response.json()]
    are awaited without one.  An answer may depend on the number of
    requests sent before it.  The text of a stored entry parses into a [CachedEntry]
    or [JSON.parse] throws. *)
Class Environment : Type := {
  games_csv : nat -> Promise (list GameRow);
  closing_lines_csv : nat -> Promise (list ClosingLineRow);
  espn_teams : nat -> Promise (list (option EspnTeamJson));
  espn_team_statistics : string -> nat -> Promise (list (option (list EspnStatJson)));
  sportsdb_searchteams : string -> nat -> Promise (list SportsDbTeamJson);
  sportsdb_eventslast : string -> nat -> Promise (list SportsDbEventJson);
  (** of the two loaders of the first [Promise.all], the moneylines
      settle first *)
  moneylinesSettleFirst : bool;
  Date_now : nat -> Z;
  toISOString : Z -> string;
  JSON_parse : string -> option CachedEntry;
  JSON_stringify : CachedEntry -> string;
  (** [localStorage.setItem(key, text)] throws *)
  quotaExceeded : string -> string -> bool;
}.

Definition setGamesPromise (promise : option (Promise (list GameRecord)))
    (store : Store) : Store :=
  {| gamesPromise := promise;
     closingLinesPromise := closingLinesPromise store;
     espnTeamsPromise := espnTeamsPromise store;
     espnStatsPromiseByTeam := espnStatsPromiseByTeam store;
     sportsDbPromiseByTeam := sportsDbPromiseByTeam store;
     modelMemoryCache := modelMemoryCache store;
     localStorage := localStorage store;
     requests := requests store |}.

Definition setClosingLinesPromise (promise : option (Promise (list MoneylineRecord)))
    (store : Store) : Store :=
  {| gamesPromise := gamesPromise store;
     closingLinesPromise := promise;
     espnTeamsPromise := espnTeamsPromise store;
     espnStatsPromiseByTeam := espnStatsPromiseByTeam store;
     sportsDbPromiseByTeam := sportsDbPromiseByTeam store;
     modelMemoryCache := modelMemoryCache store;
     localStorage := localStorage store;
     requests := requests store |}.

Definition setEspnTeamsPromise
    (promise : option (Promise (gmap string EspnTeamDescriptor)))
    (store : Store) : Store :=
  {| gamesPromise := gamesPromise store;
     closingLinesPromise := closingLinesPromise store;
     espnTeamsPromise := promise;
     espnStatsPromiseByTeam := espnStatsPromiseByTeam store;
     sportsDbPromiseByTeam := sportsDbPromiseByTeam store;
     modelMemoryCache := modelMemoryCache store;
     localStorage := localStorage store;
     requests := requests store |}.

Definition setEspnStatsPromise (teamCode : string)
    (promise : Promise (option EspnTeamStats)) (store : Store) : Store :=
  {| gamesPromise := gamesPromise store;
     closingLinesPromise := closingLinesPromise store;
     espnTeamsPromise := espnTeamsPromise store;
     espnStatsPromiseByTeam := <[teamCode := promise]> (espnStatsPromiseByTeam store);
     sportsDbPromiseByTeam := sportsDbPromiseByTeam store;
     modelMemoryCache := modelMemoryCache store;
     localStorage := localStorage store;
     requests := requests store |}.

Definition setSportsDbPromise (cacheKey : string)
    (promise : Promise (option SportsDbRecentForm)) (store : Store) : Store :=
  {| gamesPromise := gamesPromise store;
     closingLinesPromise := closingLinesPromise store;
     espnTeamsPromise := espnTeamsPromise store;
     espnStatsPromiseByTeam := espnStatsPromiseByTeam store;
     sportsDbPromiseByTeam := <[cacheKey := promise]> (sportsDbPromiseByTeam store);
     modelMemoryCache := modelMemoryCache store;
     localStorage := localStorage store;
     requests := requests store |}.

Definition setModelMemoryCache (cache : gmap string CachedEntry) (store : Store)
  : Store :=
  {| gamesPromise := gamesPromise store;
     closingLinesPromise := closingLinesPromise store;
     espnTeamsPromise := espnTeamsPromise store;
     espnStatsPromiseByTeam := espnStatsPromiseByTeam store;
     sportsDbPromiseByTeam := sportsDbPromiseByTeam store;
     modelMemoryCache := cache;
     localStorage := localStorage store;
     requests := requests store |}.

Definition setLocalStorage (items : option (gmap string string)) (store : Store)
  : Store :=
  {| gamesPromise := gamesPromise store;
     closingLinesPromise := closingLinesPromise store;
     espnTeamsPromise := espnTeamsPromise store;
     espnStatsPromiseByTeam := espnStatsPromiseByTeam store;
     sportsDbPromiseByTeam := sportsDbPromiseByTeam store;
     modelMemoryCache := modelMemoryCache store;
     localStorage := items;
     requests := requests store |}.

Definition logRequest (request : Request) (store : Store) : Store :=
  {| gamesPromise := gamesPromise store;
     closingLinesPromise := closingLinesPromise store;
     espnTeamsPromise := espnTeamsPromise store;
     espnStatsPromiseByTeam := espnStatsPromiseByTeam store;
     sportsDbPromiseByTeam := sportsDbPromiseByTeam store;
     modelMemoryCache := modelMemoryCache store;
     localStorage := localStorage store;
     requests := requests store ++ [request] |}.

(** The rejection handlers [.catch((error) => { variable = null; throw
    error; })] of the three memoised loaders have run: this is the
    state an awaiting caller sees once the promises it waits for are
    settled.  Until then a call that finds the variable set shares the
    promise, as the two [getEspnTeamStats] of one [Promise.all] do. *)
Definition settlePromises (store : Store) : Store :=
  let keep {A} (promise : option (Promise A)) :=
    match promise with
    | Some (Rejected _) => None
    | _ => promise
    end in
  {| gamesPromise := keep (gamesPromise store);
     closingLinesPromise := keep (closingLinesPromise store);
     espnTeamsPromise := keep (espnTeamsPromise store);
     espnStatsPromiseByTeam := espnStatsPromiseByTeam store;
     sportsDbPromiseByTeam := sportsDbPromiseByTeam store;
     modelMemoryCache := modelMemoryCache store;
     localStorage := localStorage store;
     requests := requests store |}.

(** A computation on the store that may throw, or stop for ever at an
    [await] ([OutOfFuel]: the call has no result). *)
Definition Eff (A : Type) : Type := Store -> Store * outcome A.

#[global] Instance Eff_ret : MRet Eff := fun A a store => (store, Ok a).
#[global] Instance Eff_bind : MBind Eff := fun A B f m store =>
  match m store with
  | (store', Ok a) => f a store'
  | (store', Throw e) => (store', Throw e)
  | (store', OutOfFuel) => (store', OutOfFuel)
  end.

Definition liftOutcome {A} (m : outcome A) : Eff A := fun store => (store, m).
Definition throw {A} (message : string) : Eff A := liftOutcome (Throw message).
Definition getStore : Eff Store := fun store => (store, Ok store).
Definition modify (f : Store -> Store) : Eff unit := fun store => (f store, Ok tt).

(** [try { body } catch (error) { handler(error.message) }] *)
Definition tryCatch {A} (body : Eff A) (handler : string -> Eff A) : Eff A :=
  fun store =>
    match body store with
    | (store', Throw e) => handler e store'
    | result => result
    end.

(** [promise.catch(() => null)] and the like: the value, or [None]
    when the body threw. *)
Definition attempt {A} (body : Eff A) : Eff (option A) :=
  tryCatch (a ← body; mret (Some a)) (fun _ => mret None).

(** [(async () => { body })()]: the promise of the body, as it
    settles; a body that stops at an [await] for ever leaves its
    promise pending. *)
Definition async {A} (body : Eff A) : Eff (Promise A) := fun store =>
  match body store with
  | (store', Ok a) => (store', Ok (Fulfilled a))
  | (store', Throw e) => (store', Ok (Rejected e))
  | (store', OutOfFuel) => (store', Ok Pending)
  end.

(** [await promise]: the caller does not resume on a promise that
    never settles. *)
Definition await {A} (promise : Promise A) : Eff A :=
  match promise with
  | Fulfilled a => mret a
  | Rejected e => throw e
  | Pending => liftOutcome OutOfFuel
  end.

(** [Array.from(new Set(values))] and [set.add(x)]: each value once,
    where it first came. *)
Definition setAdd {A} `{EqDecision A} (set : list A) (x : A) : list A :=
  if bool_decide (x ∈ set) then set else set ++ [x].

(** A string that is there and not empty. *)
Definition truthy (text : option string) : option string :=
  match text with
  | Some s => if Str.eqb s "" then None else Some s
  | None => None
  end.

Definition extractEspnNumericStats (categories : list (option (list EspnStatJson)))
  : gmap string num :=
  fold_left (fun output category =>
      match category with
      | Some stats =>
          fold_left (fun output stat =>
              match truthy (stat_name stat) with
              | None => output
              | Some statName =>
                  let finite (v : option num) :=
                    match v with
                    | Some x => if JS.isFinite x then Some x else None
                    | None => None
                    end in
                  match firstOf [finite (perGameValue stat); finite (stat_value stat)] with
                  | Some numericValue => <[statName := numericValue]> output
                  | None => output
                  end
              end) stats output
      | None => output
      end) categories ∅.

Definition matchTeamName (candidate : string) (names : list string) : bool :=
  let normalizedCandidate := normalizeText candidate in
  existsb (fun name =>
      let normalizedName := normalizeText name in
      (Str.eqb normalizedCandidate normalizedName
       || Str.endsWith normalizedCandidate normalizedName
       || Str.endsWith normalizedName normalizedCandidate)%bool) names.

(** The running sums of [getSportsDbRecentForm]. *)
Record FormTotals : Type := {
  form_offenseCounts : list num;
  form_defenseCounts : list num;
  totalScored : num;
  totalAllowed : num;
  form_sample : Z;
}.

Section Effects.
Context `{Runtime} `{Environment}.

(** [new Date()] and [Date.now()]: the clock moves with the requests. *)
Definition now : Eff Z := fun store =>
  (store, Ok (Date_now (length (requests store)))).

(** [fetchText] and [fetchJson], up to what the caller reads off the
    response. *)
Definition fetch {A} (request : Request) (answer : nat -> Promise A) : Eff A :=
  store ← getStore;
  modify (logRequest request);;
  await (answer (length (requests store))).

Definition readCachedEntry (key : string) : Eff (option CachedEntry) :=
  store ← getStore;
  time ← now;
  let fromStorage : Eff (option CachedEntry) :=
    match localStorage store with
    | None => mret None
    | Some items =>
        match truthy (items !! key) with
        | None => mret None
        | Some raw =>
            match JSON_parse raw with
            | Some parsed =>
                if (expiresAt parsed <=? ofZ time)%num
                then modify (setLocalStorage (Some (delete key items)));;
                     mret None
                else modify (setModelMemoryCache
                               (<[key := parsed]> (modelMemoryCache store)));;
                     mret (Some parsed)
            | None =>
                modify (setLocalStorage (Some (delete key items)));;
                mret None
            end
        end
    end in
  match modelMemoryCache store !! key with
  | Some inMemory =>
      if (expiresAt inMemory >? ofZ time)%num then mret (Some inMemory)
      else fromStorage
  | None => fromStorage
  end.

Definition writeCachedEntry (key : string) (value : CachedDigitModel) : Eff unit :=
  time ← now;
  let entry := {| expiresAt := ofZ (time + MODEL_CACHE_TTL_MS); value := value |} in
  store ← getStore;
  modify (setModelMemoryCache (<[key := entry]> (modelMemoryCache store)));;
  match localStorage store with
  | None => mret tt
  | Some items =>
      let text := JSON_stringify entry in
      if quotaExceeded key text then mret tt
      else modify (setLocalStorage (Some (<[key := text]> items)))
  end.

(** The callback [loadGames] maps over the rows; [None] is the [null]
    that [filter] then drops. *)
Definition gameOfRow (row : GameRow) : option GameRecord :=
  match parseNumeric (csv_season row), parseNumeric (away_score row),
        parseNumeric (home_score row) with
  | Some season, Some awayScore, Some homeScore =>
      if (Str.eqb (away_team row) "" || Str.eqb (home_team row) "")%bool then None
      else Some {|
        season := JS.round season;
        gameday := csv_gameday row;
        awayTeam := Str.toUpperCase (Str.trim (away_team row));
        awayScore := JS.round awayScore;
        homeTeam := Str.toUpperCase (Str.trim (home_team row));
        homeScore := JS.round homeScore;
        totalLine := parseNumeric (total_line row);
        spreadLine := parseNumeric (spread_line row) |}
  | _, _, _ => None
  end.

Definition loadGames : Eff (list GameRecord) :=
  store ← getStore;
  match gamesPromise store with
  | Some promise => await promise
  | None =>
      promise ← async (
        rawRows ← fetch NFL_GAMES_CSV_URL games_csv;
        mret (omap gameOfRow rawRows));
      modify (setGamesPromise (Some promise));;
      await promise
  end.

Definition loadClosingMoneylines : Eff (list MoneylineRecord) :=
  store ← getStore;
  match closingLinesPromise store with
  | Some promise => await promise
  | None =>
      promise ← async (
        rawRows ← fetch NFL_CLOSING_LINES_CSV_URL closing_lines_csv;
        mret (moneylineRecords rawRows));
      modify (setClosingLinesPromise (Some promise));;
      await promise
  end.

Definition espnTeamEntry (map : gmap string EspnTeamDescriptor)
    (entry : option EspnTeamJson) : gmap string EspnTeamDescriptor :=
  match entry with
  | Some team =>
      match truthy (team_id team), truthy (team_abbreviation team) with
      | Some id, Some abbreviation =>
          <[Str.toUpperCase abbreviation := {|
              espn_id := id;
              abbreviation := Str.toUpperCase abbreviation;
              displayName :=
                default "" (firstOf [team_displayName team;
                                     team_shortDisplayName team;
                                     team_nickname team]);
              shortDisplayName :=
                default "" (firstOf [team_shortDisplayName team;
                                     team_displayName team]);
              nickname := default "" (team_nickname team) |}]> map
      | _, _ => map
      end
  | None => map
  end.

Definition getEspnTeams : Eff (gmap string EspnTeamDescriptor) :=
  store ← getStore;
  match espnTeamsPromise store with
  | Some promise => await promise
  | None =>
      promise ← async (
        teamEntries ← fetch ESPN_TEAMS_URL espn_teams;
        let map := fold_left espnTeamEntry teamEntries ∅ in
        if bool_decide (size map = 0%nat)
        then throw "Could not map ESPN team IDs."
        else mret map);
      modify (setEspnTeamsPromise (Some promise));;
      await promise
  end.

Definition getEspnTeamStats (teamCode : string)
  : Eff (Promise (option EspnTeamStats)) :=
  store ← getStore;
  match espnStatsPromiseByTeam store !! teamCode with
  | Some cached => mret cached
  | None =>
      promise ← async (tryCatch (
        teams ← getEspnTeams;
        match teams !! teamCode with
        | None => mret None
        | Some team =>
            payload ← fetch (ESPN_TEAM_STATS_URL (espn_id team))
                            (espn_team_statistics (espn_id team));
            let stats := extractEspnNumericStats payload in
            mret (Some {|
              pointsPerGame :=
                firstOf [stats !! "totalPointsPerGame";
                         stats !! "offensivePointsPerGame";
                         stats !! "totalPoints"];
              thirdDownPct := stats !! "thirdDownConvPct";
              redZonePct :=
                firstOf [stats !! "redzoneScoringPct";
                         stats !! "redzoneTouchdownPct";
                         stats !! "redzoneEfficiencyPct"];
              turnoverDiff := stats !! "turnOverDifferential" |})
        end) (fun _ => mret None));
      modify (setEspnStatsPromise teamCode promise);;
      mret promise
  end.

(** The loop of [getSportsDbRecentForm] over the name candidates:
    the id and the name of the first team found. *)
Fixpoint searchSportsDbTeam (nameCandidates : list string)
  : Eff (option (string * string)) :=
  match nameCandidates with
  | [] => mret None
  | name :: rest =>
      teams ← fetch (SPORTS_DB_SEARCH_TEAMS_URL name) (sportsdb_searchteams name);
      let named (team : SportsDbTeamJson) :=
        (bool_decide (is_Some (truthy (idTeam team)))
         && bool_decide (is_Some (truthy (strTeam team))))%bool in
      let nflTeam :=
        firstOf [
          List.find (fun team =>
              (named team
               && bool_decide (Str.toLowerCase <$> strLeague team = Some "nfl"))%bool)
            teams;
          List.find named teams ] in
      match nflTeam ≫= (fun team => truthy (idTeam team)),
            nflTeam ≫= (fun team => truthy (strTeam team)) with
      | Some matchedTeamId, Some matchedTeamName =>
          mret (Some (matchedTeamId, matchedTeamName))
      | _, _ => searchSportsDbTeam rest
      end
  end.

Definition recentFormOfEvents (events : list SportsDbEventJson)
    (names : list string) : option SportsDbRecentForm :=
  let totals :=
    fold_left (fun totals event =>
        match parseNumeric (default "" (intHomeScore event)),
              parseNumeric (default "" (intAwayScore event)) with
        | Some homeScore, Some awayScore =>
            let homeTeam := default "" (strHomeTeam event) in
            let awayTeam := default "" (strAwayTeam event) in
            let isHome := matchTeamName homeTeam names in
            let isAway := matchTeamName awayTeam names in
            if (negb isHome && negb isAway)%bool then totals
            else
              let teamScore := if isHome then homeScore else awayScore in
              let opponentScore := if isHome then awayScore else homeScore in
              {| form_offenseCounts :=
                   bump (form_offenseCounts totals) (toDigit teamScore) (ofZ 1);
                 form_defenseCounts :=
                   bump (form_defenseCounts totals) (toDigit opponentScore) (ofZ 1);
                 totalScored := (totalScored totals + teamScore)%num;
                 totalAllowed := (totalAllowed totals + opponentScore)%num;
                 form_sample := form_sample totals + 1 |}
        | _, _ => totals
        end)
      events
      {| form_offenseCounts := replicate DIGIT_COUNT (ofZ 1);
         form_defenseCounts := replicate DIGIT_COUNT (ofZ 1);
         totalScored := Fin 0;
         totalAllowed := Fin 0;
         form_sample := 0 |} in
  if form_sample totals =? 0 then None
  else Some {|
    avgScored := (totalScored totals / ofZ (form_sample totals))%num;
    avgAllowed := (totalAllowed totals / ofZ (form_sample totals))%num;
    form_offenseDigitDist := normalizeVector (form_offenseCounts totals);
    form_defenseDigitDist := normalizeVector (form_defenseCounts totals);
    form_sampleSize := form_sample totals |}.

Definition getSportsDbRecentForm (teamCode : string) (nameCandidates : list string)
  : Eff (Promise (option SportsDbRecentForm)) :=
  let cacheKey := teamCode +:+ ":" +:+ default "" (head nameCandidates) in
  store ← getStore;
  match sportsDbPromiseByTeam store !! cacheKey with
  | Some cached => mret cached
  | None =>
      promise ← async (tryCatch (
        matched ← searchSportsDbTeam nameCandidates;
        match matched with
        | None => mret None
        | Some (matchedTeamId, matchedTeamName) =>
            events ← fetch (SPORTS_DB_EVENTS_LAST_URL matchedTeamId)
                           (sportsdb_eventslast matchedTeamId);
            if bool_decide (length events = 0%nat) then mret None
            else mret (recentFormOfEvents events (matchedTeamName :: nameCandidates))
        end) (fun _ => mret None));
      modify (setSportsDbPromise cacheKey promise);;
      mret promise
  end.

Definition isoNow : Eff string := time ← now; mret (toISOString time).

Definition displayCandidates (espnTeams : gmap string EspnTeamDescriptor)
    (teamCode : string) : list string :=
  let descriptors := espnTeams !! teamCode in
  let teamNickname :=
    default teamCode
      (Constants.name <$>
         List.find (fun team => Str.eqb (Constants.id team) teamCode)
                   Constants.NFL_TEAMS) in
  let candidates :=
    List.filter (fun value => negb (Str.eqb (Str.trim value) ""))
      (omap truthy [ displayName <$> descriptors;
                     shortDisplayName <$> descriptors;
                     nickname <$> descriptors;
                     Some teamNickname ]) in
  fold_left setAdd candidates [].

(** The promises of a [Promise.all] are started one after the other,
    in the order of the array, each running as far as it gets: they
    share what the store records (the memoised promises), and the
    log lists the requests of one before those of the next.  Then
    the caller awaits them all. *)
Definition buildSmartDigitModel (homeTeamCode awayTeamCode : string)
  : Eff CachedDigitModel :=
  loaded ← attempt loadGames;
  modify settlePromises;;
  match loaded with
  | None =>
      let warnings := [
        "Unable to load NFL historical games dataset. Falling back to baseline simulation only." ] in
      fallbackDigitProbabilities ← liftOutcome (buildSimulationMatrix (ofZ 23) (ofZ 21));
      generatedAt ← isoNow;
      mret {| c_digitProbabilities := fallbackDigitProbabilities;
              c_generatedAt := generatedAt;
              c_sourceMode := baseline;
              c_sourcesUsed := [fallback_model];
              c_warnings := warnings;
              c_expectedHomePoints := ofZ 23;
              c_expectedAwayPoints := ofZ 21 |}
  | Some games =>
      let warnings : list string := [] in
      let sourcesUsed := setAdd [] nflverse_games in
      let latestSeason := getLatestSeason games in
      let leagueAvgPoints := calculateLeagueAveragePoints games latestSeason in
      baselineModel ← liftOutcome (buildBaselineMatrix games latestSeason);
      let homeContext := buildTeamContext games homeTeamCode latestSeason in
      let awayContext := buildTeamContext games awayTeamCode latestSeason in
      let warnings :=
        match homeContext, awayContext with
        | Some _, Some _ => warnings
        | _, _ => warnings ++ [
            "Limited team history found for one or both teams. Probabilities rely more heavily on league baseline." ]
        end in
      moneylinesPromise ← async (attempt loadClosingMoneylines);
      teamsPromise ← async (attempt getEspnTeams);
      modify settlePromises;;
      '(loadedMoneylines, loadedTeams) ←
        await (PromiseAll moneylinesPromise teamsPromise);
      let sourcesUsed :=
        match loadedMoneylines with
        | Some _ => setAdd sourcesUsed nflverse_closing_lines
        | None => sourcesUsed
        end in
      let moneylineWarning :=
        match loadedMoneylines with
        | Some _ => []
        | None => ["Moneyline data could not be loaded. Market adjustments disabled."]
        end in
      let teamsWarning :=
        match loadedTeams with
        | Some _ => []
        | None => ["ESPN team metadata unavailable. Team-level API stats reduced."]
        end in
      let warnings :=
        if moneylinesSettleFirst
        then warnings ++ moneylineWarning ++ teamsWarning
        else warnings ++ teamsWarning ++ moneylineWarning in
      let moneylines := default [] loadedMoneylines in
      let espnTeams := default ∅ loadedTeams in
      let homeDisplayCandidates := displayCandidates espnTeams homeTeamCode in
      let awayDisplayCandidates := displayCandidates espnTeams awayTeamCode in
      homeEspnStatsPromise ← getEspnTeamStats homeTeamCode;
      awayEspnStatsPromise ← getEspnTeamStats awayTeamCode;
      homeSportsDbPromise ← getSportsDbRecentForm homeTeamCode homeDisplayCandidates;
      awaySportsDbPromise ← getSportsDbRecentForm awayTeamCode awayDisplayCandidates;
      modify settlePromises;;
      '(homeEspnStats, awayEspnStats, homeSportsDbRecent, awaySportsDbRecent) ←
        await (PromiseAll (PromiseAll (PromiseAll homeEspnStatsPromise
                                         awayEspnStatsPromise)
                             homeSportsDbPromise)
                 awaySportsDbPromise);
      let '(sourcesUsed, warnings) :=
        match homeEspnStats, awayEspnStats with
        | None, None =>
            (sourcesUsed, warnings ++ [
               "ESPN team stats unavailable. Expected-points model uses historical-only inputs." ])
        | _, _ => (setAdd sourcesUsed espn_team_stats, warnings)
        end in
      let '(sourcesUsed, warnings) :=
        match homeSportsDbRecent, awaySportsDbRecent with
        | None, None =>
            (sourcesUsed, warnings ++ [
               "Recent form feed unavailable. Team trend model uses historical games only." ])
        | _, _ => (setAdd sourcesUsed thesportsdb_recent_form, warnings)
        end in
      let homeMarketProb :=
        calculateTeamMarketImpliedProb moneylines homeTeamCode latestSeason in
      let awayMarketProb :=
        calculateTeamMarketImpliedProb moneylines awayTeamCode latestSeason in
      teamMatrix ← liftOutcome (buildTeamDigitMatrix homeContext awayContext
                                  homeSportsDbRecent awaySportsDbRecent);
      let expectedHomePoints :=
        estimateExpectedPoints homeContext awayContext homeEspnStats awayEspnStats
          homeSportsDbRecent leagueAvgPoints in
      let expectedAwayPoints :=
        estimateExpectedPoints awayContext homeContext awayEspnStats homeEspnStats
          awaySportsDbRecent leagueAvgPoints in
      let '(expectedHomePoints, expectedAwayPoints) :=
        match homeMarketProb, awayMarketProb with
        | Some homeProb, Some awayProb =>
            let marketEdge := (homeProb - awayProb)%num in
            (clamp (expectedHomePoints + marketEdge * dec 45 1)%num (ofZ 10) (ofZ 45),
             clamp (expectedAwayPoints - marketEdge * dec 45 1)%num (ofZ 10) (ofZ 45))
        | _, _ => (expectedHomePoints, expectedAwayPoints)
        end in
      simulationMatrix ← liftOutcome (buildSimulationMatrix expectedHomePoints
                                        expectedAwayPoints);
      let baselineWeight := dec 45 2 in
      let teamWeight := dec 35 2 in
      let simWeight := dec 2 1 in
      let '(baselineWeight, simWeight) :=
        match homeEspnStats, awayEspnStats with
        | None, None => ((baselineWeight + dec 5 2)%num, (simWeight - dec 5 2)%num)
        | _, _ => (baselineWeight, simWeight)
        end in
      let '(baselineWeight, teamWeight) :=
        match homeSportsDbRecent, awaySportsDbRecent with
        | None, None => ((baselineWeight + dec 3 2)%num, (teamWeight - dec 3 2)%num)
        | _, _ => (baselineWeight, teamWeight)
        end in
      let '(baselineWeight, simWeight) :=
        match homeMarketProb, awayMarketProb with
        | Some _, Some _ => (baselineWeight, simWeight)
        | _, _ => ((baselineWeight + dec 2 2)%num, (simWeight - dec 2 2)%num)
        end in
      let baselineWeight := clamp baselineWeight (dec 3 1) (dec 7 1) in
      let teamWeight := clamp teamWeight (dec 15 2) (dec 45 2) in
      let simWeight := clamp simWeight (dec 8 2) (dec 35 2) in
      let totalWeight := (baselineWeight + teamWeight + simWeight)%num in
      digitProbabilities ← liftOutcome (blendMatrices [
        {| matrix := baselineModel.1; m_weight := (baselineWeight / totalWeight)%num |};
        {| matrix := teamMatrix; m_weight := (teamWeight / totalWeight)%num |};
        {| matrix := simulationMatrix; m_weight := (simWeight / totalWeight)%num |} ]);
      let sourceMode :=
        if (3 <=? length sourcesUsed)%nat then full else baseline in
      generatedAt ← isoNow;
      mret {| c_digitProbabilities := digitProbabilities;
              c_generatedAt := generatedAt;
              c_sourceMode := sourceMode;
              c_sourcesUsed := sourcesUsed;
              c_warnings := warnings;
              c_expectedHomePoints := expectedHomePoints;
              c_expectedAwayPoints := expectedAwayPoints |}
  end.

Definition buildFallbackModel (rowLabels colLabels : list num)
  : Eff SquareOddsComputationResult :=
  digitProbabilities ← liftOutcome (buildSimulationMatrix (ofZ 23) (ofZ 21));
  boardPercentages ← liftOutcome (mapDigitMatrixToBoard digitProbabilities
                                    rowLabels colLabels);
  generatedAt ← isoNow;
  mret {| boardPercentages := boardPercentages;
          digitProbabilities := digitProbabilities;
          generatedAt := generatedAt;
          sourceMode := baseline;
          sourcesUsed := [fallback_model];
          warnings := [
            "Live sports data sources were unavailable. Using a mathematically generated baseline model." ];
          expectedHomePoints := ofZ 23;
          expectedAwayPoints := ofZ 21 |}.

(** The result [buildSquareOdds] makes of a model, cached or computed. *)
Definition resultOfModel (model : CachedDigitModel) (input : BuildSquareOddsInput)
  : Eff SquareOddsComputationResult :=
  board ← liftOutcome (mapDigitMatrixToBoard (c_digitProbabilities model)
                         (rowLabels input) (colLabels input));
  mret {| boardPercentages := finalizeBoardPercentages board;
          digitProbabilities := c_digitProbabilities model;
          generatedAt := c_generatedAt model;
          sourceMode := c_sourceMode model;
          sourcesUsed := c_sourcesUsed model;
          warnings := c_warnings model;
          expectedHomePoints := c_expectedHomePoints model;
          expectedAwayPoints := c_expectedAwayPoints model |}.

Definition buildSquareOdds (input : BuildSquareOddsInput)
  : Eff SquareOddsComputationResult :=
  homeTeamCode ← liftOutcome (resolveTeamCode (homeTeamName input));
  awayTeamCode ← liftOutcome (resolveTeamCode (awayTeamName input));
  let cacheKey :=
    MODEL_CACHE_PREFIX +:+ ":" +:+ homeTeamCode +:+ ":" +:+ awayTeamCode in
  tryCatch (
    cached ← readCachedEntry cacheKey;
    match cached with
    | Some entry => resultOfModel (value entry) input
    | None =>
        computed ← buildSmartDigitModel homeTeamCode awayTeamCode;
        writeCachedEntry cacheKey computed;;
        resultOfModel computed input
    end)
  (fun message =>
    fallback ← buildFallbackModel (rowLabels input) (colLabels input);
    mret {| boardPercentages := boardPercentages fallback;
            digitProbabilities := digitProbabilities fallback;
            generatedAt := generatedAt fallback;
            sourceMode := sourceMode fallback;
            sourcesUsed := sourcesUsed fallback;
            warnings := warnings fallback ++ [message];
            expectedHomePoints := expectedHomePoints fallback;
            expectedAwayPoints := expectedAwayPoints fallback |}).

End Effects.

End Service.

(** ** 32-bit integer operators *)

Module Int32.

Definition toInt32 (z : Z) : Z := (z + 2 ^ 31) mod 2 ^ 32 - 2 ^ 31.
Definition toUint32 (z : Z) : Z := z mod 2 ^ 32.

(** [a ^ b], [a | b], [a >>> n] and [Math.imul(a, b)]. *)
Definition xor (a b : Z) : Z := toInt32 (Z.lxor (toInt32 a) (toInt32 b)).
Definition or (a b : Z) : Z := toInt32 (Z.lor (toInt32 a) (toInt32 b)).
Definition ushr (a n : Z) : Z := Z.shiftr (toUint32 a) n.
Definition imul (a b : Z) : Z := toInt32 (toInt32 a * toInt32 b).

End Int32.

(** ** services/realtimeSquareOddsService.ts *)

Module Realtime.

Record BuildRealtimeSquareOddsInput : Type := {
  baseModel : SquareOddsComputationResult;
  snapshot : LiveGameSnapshot;
  rowLabels : list num;
  colLabels : list num;
}.

Definition TOTAL_REGULATION_SECONDS : num := ofZ (4 * 15 * 60).

Definition normalizeMatrix (matrix : DigitProbabilityMatrix)
  : DigitProbabilityMatrix :=
  let total :=
    fold_left (fun sum value =>
                 (sum + JS.max (Fin 0)
                          (if JS.isFinite value then value else Fin 0))%num)
              (concat matrix) (Fin 0) in
  if (negb (JS.isFinite total) || (total <=? Fin 0)%num)%bool
  then constantMatrix (ofZ 1 / ofZ 100)%num
  else map (map (fun value => (JS.max value (Fin 0) / total)%num)) matrix.

Definition mapDigitMatrixToBoard :=
  mapDigitMatrixToBoardWith
    "Expected 10 row labels and 10 column labels for realtime heatmap."
    "Invalid row label while mapping realtime probabilities."
    "Invalid column label while mapping realtime probabilities.".

(** FNV-1a over the code units; [hash] is kept as the signed 32-bit
    value the operators leave, and made unsigned at the end. *)
Definition hashString (value : string) : Z :=
  Int32.toUint32
    (fold_left (fun hash c => Int32.imul (Int32.xor hash (Str.code c)) 16777619)
               (Str.chars value) 2166136261).

(** The closure of [createSeededRandom] is its [state]; one call of the
    generator returns a number of [0, 1) and the next state.  [state]
    grows by additions of doubles, exact below 2^53. *)
Definition seedState (seed : Z) : Z :=
  if seed =? 0 then 0x9e3779b9 else seed.

Definition nextRandom (state : Z) : num * Z :=
  let state := state + 0x6d2b79f5 in
  let t := state in
  let t := Int32.imul (Int32.xor t (Int32.ushr t 15)) (Int32.or t 1) in
  let t := Int32.xor t (t + Int32.imul (Int32.xor t (Int32.ushr t 7)) (Int32.or t 61)) in
  (fin (Int32.toUint32 (Int32.xor t (Int32.ushr t 14)) # 4294967296), state).

(** Computations that draw from the generator: they thread its state,
    and may throw or be cut off. *)
Definition Rand (A : Type) : Type := Z -> outcome (A * Z).

#[global] Instance Rand_ret : MRet Rand := fun A a state => Ok (a, state).
#[global] Instance Rand_bind : MBind Rand := fun A B f m state =>
  match m state with
  | Ok (a, state') => f a state'
  | Throw e => Throw e
  | OutOfFuel => OutOfFuel
  end.

Definition rng : Rand num := fun state => Ok (nextRandom state).

(** A loop that does not end. *)
Definition diverge {A} : Rand A := fun _ => OutOfFuel.

(** [for (let i = 0; i < n; i += 1) acc += body()] *)
Fixpoint sumRepeat (n : nat) (body : Rand Z) (acc : Z) : Rand Z :=
  match n with
  | O => mret acc
  | S n' => points ← body; sumRepeat n' body (acc + points)
  end.

(** The same loop with a bound that is a number: the integers [i >= 0]
    with [i < count].  No integer is below NaN; all are below
    [Infinity]. *)
Definition sumWhileBelow (count : num) (body : Rand Z) : Rand Z :=
  match count with
  | Fin q => sumRepeat (Z.to_nat (Qceiling q)) body 0
  | PInf => diverge
  | _ => mret 0
  end.

Section Sampling.
Context `{Runtime}.

Definition sampleStandardNormal : Rand num :=
  r1 ← rng; let u1 := JS.max r1 (dec 1 10) in
  r2 ← rng; let u2 := JS.max r2 (dec 1 10) in
  mret (Math_sqrt (ofZ (-2) * Math_log u1) * Math_cos (ofZ 2 * Math_PI * u2))%num.

(** [while (product > limit) { count += 1; product *= Math.max(rng(), 1e-10); }] *)
Fixpoint poissonLoop (fuel : nat) (limit product : num) (count : Z) : Rand Z :=
  if (product >? limit)%num then
    match fuel with
    | O => diverge
    | S fuel' =>
        r ← rng;
        poissonLoop fuel' limit (product * JS.max r (dec 1 10))%num (count + 1)
    end
  else mret count.

Definition samplePoisson (fuel : nat) (lambda : num) : Rand num :=
  if (negb (JS.isFinite lambda) || (lambda <=? Fin 0)%num)%bool then mret (Fin 0)
  else if (lambda >? ofZ 30)%num then
    normal ← sampleStandardNormal;
    let gaussian := (lambda + normal * Math_sqrt lambda)%num in
    mret (JS.max (Fin 0) (JS.round gaussian))
  else
    let limit := Math_exp (- lambda)%num in
    count ← poissonLoop fuel limit (ofZ 1) 0;
    mret (JS.max (Fin 0) (ofZ (count - 1))).

End Sampling.

(** Every outcome of the source carries one of the literals 3, 7, 8, 6
    and 2 as its points. *)
Record ScoringOutcomeWeight : Type := {
  ow_points : Z;
  weight : num;
}.

Record ScoringOutcomeProbability : Type := {
  points : Z;
  probability : num;
}.

Record TeamScoringSimulationProfile : Type := {
  expectedScoringEvents : num;
  scoringOutcomes : list ScoringOutcomeProbability;
}.

Definition normalizeScoringOutcomeWeights (outcomes : list ScoringOutcomeWeight)
  : list ScoringOutcomeProbability :=
  let positive :=
    List.filter (fun outcome =>
              ((0 <? ow_points outcome) && JS.isFinite (weight outcome)
               && (weight outcome >? Fin 0)%num)%bool) outcomes in
  if bool_decide (length positive = 0%nat) then
    [ {| points := 3; probability := dec 34 2 |};
      {| points := 7; probability := dec 51 2 |};
      {| points := 8; probability := dec 6 2 |};
      {| points := 6; probability := dec 6 2 |};
      {| points := 2; probability := dec 3 2 |} ]
  else
    let totalWeight :=
      fold_left (fun sum outcome => (sum + weight outcome)%num) positive (Fin 0) in
    map (fun outcome =>
           {| points := ow_points outcome;
              probability := (weight outcome / totalWeight)%num |}) positive.

(** The [for ... of] loop of [sampleScoringOutcomePoints], then the
    last outcome (or 0). *)
Fixpoint pickOutcome (remaining : num) (outcomes : list ScoringOutcomeProbability)
  : option Z :=
  match outcomes with
  | [] => None
  | outcome :: rest =>
      let remaining := (remaining - probability outcome)%num in
      if (remaining <=? Fin 0)%num then Some (points outcome)
      else pickOutcome remaining rest
  end.

Definition sampleScoringOutcomePoints (outcomes : list ScoringOutcomeProbability)
  : Rand Z :=
  remaining ← rng;
  mret (match pickOutcome remaining outcomes with
        | Some p => p
        | None => default 0 (points <$> last outcomes)
        end).

Definition estimateRemainingDrivesPerTeam
    (remainingSeconds playPacePerMinute trailingPressure : num) : num :=
  let adjustedPace := clamp playPacePerMinute (dec 12 1) (dec 48 1) in
  let averagePlaysPerDrive :=
    clamp (ofZ 6 - trailingPressure * dec 9 1)%num (dec 48 1) (dec 62 1) in
  let estimatedDriveSeconds := (averagePlaysPerDrive / adjustedPace * ofZ 60)%num in
  let drives :=
    (remainingSeconds / JS.max (estimatedDriveSeconds * ofZ 2) (ofZ 90))%num in
  clamp drives (dec 35 2) (ofZ 13).

Record TeamScoringInput : Type := {
  expectedAdditionalPoints : num;
  ownMomentum : num;
  opponentMomentum : num;
  ownScoringRate : num;
  ownPenaltyPressure : num;
  ownTurnoverPressure : num;
  opponentTurnoverPressure : num;
  in_playPacePerMinute : num;
  remainingSeconds : num;
  scoreDiff : Z;
}.

Definition buildTeamScoringProfile (input : TeamScoringInput)
  : TeamScoringSimulationProfile :=
  let remainingRatio :=
    clamp (remainingSeconds input / TOTAL_REGULATION_SECONDS)%num (Fin 0) (ofZ 1) in
  let lateGameUrgency :=
    clamp ((ofZ (12 * 60) - remainingSeconds input) / ofZ (12 * 60))%num
          (Fin 0) (ofZ 1) in
  let trailingPressure :=
    if scoreDiff input <? 0
    then clamp (JS.abs (ofZ (scoreDiff input)) / ofZ 17)%num (Fin 0) (ofZ 1)
    else Fin 0 in
  let leadingControl :=
    if 0 <? scoreDiff input
    then clamp (ofZ (scoreDiff input) / ofZ 17)%num (Fin 0) (ofZ 1)
    else Fin 0 in
  let momentumEdge :=
    clamp (ownMomentum input - opponentMomentum input)%num (dec (-28) 1) (dec 28 1) in
  let fieldGoalWeight :=
    (dec 34 2 + ownPenaltyPressure input * dec 7 2
     + leadingControl * (dec 8 2 + lateGameUrgency * dec 6 2))%num in
  let touchdownXpWeight :=
    (dec 49 2 + momentumEdge * dec 5 2 + ownScoringRate input * dec 2 1
     - ownPenaltyPressure input * dec 5 2)%num in
  let touchdownTwoPointWeight :=
    (dec 4 2 + trailingPressure * lateGameUrgency * dec 22 2
     + JS.max (Fin 0) momentumEdge * dec 2 2)%num in
  let touchdownMissedXpWeight :=
    (dec 3 2 + ownPenaltyPressure input * dec 2 2)%num in
  let safetyWeight :=
    (dec 1 2 + opponentTurnoverPressure input * dec 3 2
     + trailingPressure * lateGameUrgency * dec 25 3)%num in
  let defensiveTouchdownWeight :=
    (dec 2 2 + opponentTurnoverPressure input * dec 8 2
     + JS.max (Fin 0) momentumEdge * dec 1 2)%num in
  let '(touchdownTwoPointWeight, fieldGoalWeight) :=
    if ((remainingSeconds input <=? ofZ (3 * 60))%num
        && (trailingPressure >=? dec 2 1)%num)%bool
    then ((touchdownTwoPointWeight + dec 8 2)%num, (fieldGoalWeight * dec 9 1)%num)
    else (touchdownTwoPointWeight, fieldGoalWeight) in
  let '(fieldGoalWeight, touchdownTwoPointWeight) :=
    if ((remainingSeconds input <=? ofZ (2 * 60))%num
        && (leadingControl >=? dec 2 1)%num)%bool
    then ((fieldGoalWeight + dec 1 1)%num, (touchdownTwoPointWeight * dec 65 2)%num)
    else (fieldGoalWeight, touchdownTwoPointWeight) in
  let fieldGoalWeight := clamp fieldGoalWeight (dec 15 2) (dec 62 2) in
  let touchdownXpWeight := clamp touchdownXpWeight (dec 22 2) (dec 72 2) in
  let touchdownTwoPointWeight := clamp touchdownTwoPointWeight (dec 1 2) (dec 24 2) in
  let touchdownMissedXpWeight := clamp touchdownMissedXpWeight (dec 1 2) (dec 8 2) in
  let safetyWeight := clamp safetyWeight (dec 3 3) (dec 7 2) in
  let defensiveTouchdownWeight := clamp defensiveTouchdownWeight (dec 1 2) (dec 14 2) in
  let scoringOutcomes := normalizeScoringOutcomeWeights [
    {| ow_points := 3; weight := fieldGoalWeight |};
    {| ow_points := 7; weight := (touchdownXpWeight + defensiveTouchdownWeight)%num |};
    {| ow_points := 8; weight := touchdownTwoPointWeight |};
    {| ow_points := 6; weight := touchdownMissedXpWeight |};
    {| ow_points := 2; weight := safetyWeight |} ] in
  let expectedPointsPerEvent :=
    fold_left (fun sum outcome =>
                 (sum + ofZ (points outcome) * probability outcome)%num)
              scoringOutcomes (Fin 0) in
  let drivesPerTeam :=
    estimateRemainingDrivesPerTeam (remainingSeconds input)
      (in_playPacePerMinute input) trailingPressure in
  let rawExpectedEvents :=
    (expectedAdditionalPoints input / JS.max expectedPointsPerEvent (dec 25 1))%num in
  let paceMultiplier :=
    (ofZ 1 + clamp (in_playPacePerMinute input - dec 22 1) (dec (-12) 1) (dec 28 1)
             * dec 1 1)%num in
  let riskMultiplier :=
    (ofZ 1 + trailingPressure * lateGameUrgency * dec 25 2
     - leadingControl * lateGameUrgency * dec 15 2)%num in
  let disruptionMultiplier :=
    clamp (ofZ 1 - ownTurnoverPressure input * dec 1 1
           - ownPenaltyPressure input * dec 5 2)%num (dec 55 2) (dec 115 2) in
  let momentumMultiplier := (ofZ 1 + momentumEdge * dec 6 2)%num in
  let timeCompressionMultiplier :=
    (ofZ 1 + (ofZ 1 - remainingRatio) * dec 8 2)%num in
  let expectedScoringEvents :=
    clamp (rawExpectedEvents * paceMultiplier * riskMultiplier
           * disruptionMultiplier * momentumMultiplier
           * timeCompressionMultiplier)%num
          (Fin 0) (drivesPerTeam * dec 92 2)%num in
  {| expectedScoringEvents := expectedScoringEvents;
     scoringOutcomes := scoringOutcomes |}.

(** The running sums of the loop over the plays. *)
Record PlayTotals : Type := {
  homeScoring : num;
  awayScoring : num;
  homePenalties : num;
  awayPenalties : num;
  homeTurnovers : num;
  awayTurnovers : num;
  t_homeMomentum : num;
  t_awayMomentum : num;
  playWeightTotal : num;
}.

Definition noPlays : PlayTotals :=
  {| homeScoring := Fin 0; awayScoring := Fin 0;
     homePenalties := Fin 0; awayPenalties := Fin 0;
     homeTurnovers := Fin 0; awayTurnovers := Fin 0;
     t_homeMomentum := Fin 0; t_awayMomentum := Fin 0;
     playWeightTotal := Fin 0 |}.

(** [teamCode === code] for a code that may be null. *)
Definition isTeam (teamCode : option string) (code : string) : bool :=
  match teamCode with
  | Some t => Str.eqb t code
  | None => false
  end.

(** One side's share of a play: (scoring, penalties, turnovers, own
    momentum, opponent momentum) after the play. *)
Definition countPlay (play : LivePlayEvent) (recencyWeight : num)
    (scoring penalties turnovers own opponent : num)
  : num * num * num * num * num :=
  let '(scoring, own) :=
    if isScoringPlay play
    then ((scoring + recencyWeight)%num, (own + dec 17 1 * recencyWeight)%num)
    else (scoring, own) in
  let '(penalties, own) :=
    if isPenalty play
    then ((penalties + recencyWeight)%num, (own - dec 115 2 * recencyWeight)%num)
    else (penalties, own) in
  let '(turnovers, own, opponent) :=
    if isTurnover play
    then ((turnovers + recencyWeight)%num, (own - ofZ 2 * recencyWeight)%num,
          (opponent + dec 12 1 * recencyWeight)%num)
    else (turnovers, own, opponent) in
  let own :=
    if isExplosivePlay play then (own + dec 8 1 * recencyWeight)%num else own in
  let own := (own + sentimentScore play * dec 7 1 * recencyWeight)%num in
  (scoring, penalties, turnovers, own, opponent).

Section Features.
Context `{Runtime}.

(** The body of the loop over [plays], at [index] of [count] plays. *)
Definition addPlay (snapshot : LiveGameSnapshot) (count : Z)
    (totals : PlayTotals) (entry : nat * LivePlayEvent) : PlayTotals :=
  let '(index, play) := entry in
  let recencyWeight :=
    Math_exp (- ofZ (count - 1 - Z.of_nat index) / ofZ 13)%num in
  let totals :=
    if isTeam (teamCode play) (homeTeamCode snapshot) then
      let '(scoring, penalties, turnovers, own, opponent) :=
        countPlay play recencyWeight (homeScoring totals) (homePenalties totals)
          (homeTurnovers totals) (t_homeMomentum totals) (t_awayMomentum totals) in
      {| homeScoring := scoring; awayScoring := awayScoring totals;
         homePenalties := penalties; awayPenalties := awayPenalties totals;
         homeTurnovers := turnovers; awayTurnovers := awayTurnovers totals;
         t_homeMomentum := own; t_awayMomentum := opponent;
         playWeightTotal := playWeightTotal totals |}
    else if isTeam (teamCode play) (awayTeamCode snapshot) then
      let '(scoring, penalties, turnovers, own, opponent) :=
        countPlay play recencyWeight (awayScoring totals) (awayPenalties totals)
          (awayTurnovers totals) (t_awayMomentum totals) (t_homeMomentum totals) in
      {| homeScoring := homeScoring totals; awayScoring := scoring;
         homePenalties := homePenalties totals; awayPenalties := penalties;
         homeTurnovers := homeTurnovers totals; awayTurnovers := turnovers;
         t_homeMomentum := opponent; t_awayMomentum := own;
         playWeightTotal := playWeightTotal totals |}
    else
      {| homeScoring := homeScoring totals; awayScoring := awayScoring totals;
         homePenalties := homePenalties totals; awayPenalties := awayPenalties totals;
         homeTurnovers := homeTurnovers totals; awayTurnovers := awayTurnovers totals;
         t_homeMomentum :=
           (t_homeMomentum totals
            + sentiment_home (sentiment snapshot) * dec 15 2 * recencyWeight)%num;
         t_awayMomentum :=
           (t_awayMomentum totals
            + sentiment_away (sentiment snapshot) * dec 15 2 * recencyWeight)%num;
         playWeightTotal := playWeightTotal totals |} in
  {| homeScoring := homeScoring totals; awayScoring := awayScoring totals;
     homePenalties := homePenalties totals; awayPenalties := awayPenalties totals;
     homeTurnovers := homeTurnovers totals; awayTurnovers := awayTurnovers totals;
     t_homeMomentum := t_homeMomentum totals; t_awayMomentum := t_awayMomentum totals;
     playWeightTotal := (playWeightTotal totals + recencyWeight)%num |}.

Definition buildFeatureVector (snapshot : LiveGameSnapshot) : LiveFeatureVector :=
  let remainingGameSeconds :=
    match secondsRemainingGame (clock snapshot) with
    | Some seconds => ofZ seconds
    | None =>
        if bool_decide (status snapshot = final) then Fin 0
        else if bool_decide (status snapshot = pregame) then TOTAL_REGULATION_SECONDS
        else JS.max (Fin 0)
               (TOTAL_REGULATION_SECONDS
                - (ofZ (period (clock snapshot)) - ofZ 1) * ofZ 900)%num
    end in
  let elapsedGameSeconds :=
    clamp (TOTAL_REGULATION_SECONDS - remainingGameSeconds)%num
          (Fin 0) TOTAL_REGULATION_SECONDS in
  let plays := drop (length (plays snapshot) - 80) (plays snapshot) in
  let count := Z.of_nat (length plays) in
  let totals :=
    fold_left (addPlay snapshot count) (combine (seq 0 (length plays)) plays)
              noPlays in
  let effectiveWeight := JS.max (playWeightTotal totals) (ofZ 1) in
  let recentWindowMinutes :=
    clamp (JS.max (elapsedGameSeconds / ofZ 60)%num (ofZ 1)) (ofZ 1) (ofZ 60) in
  let playPacePerMinute := (ofZ count / recentWindowMinutes)%num in
  let homeRecentScoringRate := (homeScoring totals / effectiveWeight)%num in
  let awayRecentScoringRate := (awayScoring totals / effectiveWeight)%num in
  let homePenaltyPressure := (homePenalties totals / effectiveWeight)%num in
  let awayPenaltyPressure := (awayPenalties totals / effectiveWeight)%num in
  let homeTurnoverPressure := (homeTurnovers totals / effectiveWeight)%num in
  let awayTurnoverPressure := (awayTurnovers totals / effectiveWeight)%num in
  let homeMomentum :=
    (t_homeMomentum totals + sentiment_home (sentiment snapshot) * dec 125 2
     - homePenaltyPressure * dec 9 1 - homeTurnoverPressure * dec 135 2)%num in
  let awayMomentum :=
    (t_awayMomentum totals + sentiment_away (sentiment snapshot) * dec 125 2
     - awayPenaltyPressure * dec 9 1 - awayTurnoverPressure * dec 135 2)%num in
  {| remainingGameSeconds := remainingGameSeconds;
     elapsedGameSeconds := elapsedGameSeconds;
     homeMomentum := clamp homeMomentum (dec (-26) 1) (dec 26 1);
     awayMomentum := clamp awayMomentum (dec (-26) 1) (dec 26 1);
     homePenaltyPressure := clamp homePenaltyPressure (Fin 0) (dec 25 1);
     awayPenaltyPressure := clamp awayPenaltyPressure (Fin 0) (dec 25 1);
     homeTurnoverPressure := clamp homeTurnoverPressure (Fin 0) (dec 25 1);
     awayTurnoverPressure := clamp awayTurnoverPressure (Fin 0) (dec 25 1);
     homeRecentScoringRate := clamp homeRecentScoringRate (Fin 0) (ofZ 2);
     awayRecentScoringRate := clamp awayRecentScoringRate (Fin 0) (ofZ 2);
     playPacePerMinute := clamp playPacePerMinute (Fin 0) (ofZ 10) |}.

End Features.

(** [((score % 10) + 10) % 10], with the remainder of JavaScript. *)
Definition finalDigit (score : Z) : Z := Z.rem (Z.rem score 10 + 10) 10.

Definition buildDeterministicFinalMatrix (homeScore awayScore : Z)
  : DigitProbabilityMatrix :=
  let matrix := createZeroMatrix in
  let homeDigit := finalDigit homeScore in
  let awayDigit := finalDigit awayScore in
  alter (fun row => <[Z.to_nat awayDigit := ofZ 1]> row) (Z.to_nat homeDigit) matrix.

Definition blendMatrices (base live : DigitProbabilityMatrix) (liveWeight : num)
  : outcome DigitProbabilityMatrix :=
  let clampedLiveWeight := clamp liveWeight (Fin 0) (ofZ 1) in
  let baseWeight := (ofZ 1 - clampedLiveWeight)%num in
  output ← traverse (fun r =>
    traverse (fun c =>
      b ← cellAt base r c;
      l ← cellAt live r c;
      Ok (b * baseWeight + l * clampedLiveWeight)%num) digits) digits;
  Ok (normalizeMatrix output).

(** [matrix[homeDigit][awayDigit] += 1] on a 10 x 10 matrix.  A row
    that does not exist (a negative remainder) is a TypeError; a cell
    that does not exist becomes a property that is no element. *)
Definition incrementCell (matrix : DigitProbabilityMatrix) (homeDigit awayDigit : Z)
  : outcome DigitProbabilityMatrix :=
  if homeDigit <? 0 then TypeError
  else
    match matrix !! Z.to_nat homeDigit with
    | None => TypeError
    | Some row =>
        if awayDigit <? 0 then Ok matrix
        else Ok (<[Z.to_nat homeDigit :=
                     <[Z.to_nat awayDigit :=
                         (numberAt row (Z.to_nat awayDigit) + ofZ 1)%num]> row]> matrix)
    end.

Definition liftOutcome {A} (m : outcome A) : Rand A :=
  fun state => a ← m; Ok (a, state).

Definition seedBasis (snapshot : LiveGameSnapshot) : string :=
  Str.join "|" [
    eventId snapshot;
    statusText (status snapshot);
    statusDetail snapshot;
    Str.fromZ (homeScore snapshot);
    Str.fromZ (awayScore snapshot);
    Str.fromZ (period (clock snapshot));
    displayClock (clock snapshot);
    default "none" (play_id <$> last (plays snapshot));
    Str.fromZ (Z.of_nat (length (plays snapshot))) ].

Section Simulation.
Context `{Runtime}.

(** The body of the loop over the simulation runs, up to the two
    digits of the run. *)
Definition simulateRun (fuel : nat) (snapshot : LiveGameSnapshot) (remaining : num)
    (homeProfile awayProfile : TeamScoringSimulationProfile) : Rand (Z * Z) :=
  homeEventCount ← samplePoisson fuel (expectedScoringEvents homeProfile);
  awayEventCount ← samplePoisson fuel (expectedScoringEvents awayProfile);
  homeAdditional ← sumWhileBelow homeEventCount
    (sampleScoringOutcomePoints (scoringOutcomes homeProfile));
  awayAdditional ← sumWhileBelow awayEventCount
    (sampleScoringOutcomePoints (scoringOutcomes awayProfile));
  '(homeAdditional, awayAdditional) ←
    (if (remaining <=? ofZ (2 * 60))%num then
       chance ← rng;
       if (chance <? dec 28 2)%num then
         let projectedHome := homeScore snapshot + homeAdditional in
         let projectedAway := awayScore snapshot + awayAdditional in
         if projectedHome <? projectedAway then
           extra ← sampleScoringOutcomePoints (scoringOutcomes homeProfile);
           mret (homeAdditional + extra, awayAdditional)
         else if projectedAway <? projectedHome then
           extra ← sampleScoringOutcomePoints (scoringOutcomes awayProfile);
           mret (homeAdditional, awayAdditional + extra)
         else
           coin ← rng;
           if (coin <? dec 5 1)%num then
             extra ← sampleScoringOutcomePoints (scoringOutcomes homeProfile);
             mret (homeAdditional + extra, awayAdditional)
           else
             extra ← sampleScoringOutcomePoints (scoringOutcomes awayProfile);
             mret (homeAdditional, awayAdditional + extra)
       else mret (homeAdditional, awayAdditional)
     else mret (homeAdditional, awayAdditional) : Rand (Z * Z));
  mret (Z.rem (homeScore snapshot + homeAdditional) 10,
        Z.rem (awayScore snapshot + awayAdditional) 10).

Fixpoint simulateRuns (runs fuel : nat) (snapshot : LiveGameSnapshot)
    (remaining : num) (homeProfile awayProfile : TeamScoringSimulationProfile)
    (matrix : DigitProbabilityMatrix) : Rand DigitProbabilityMatrix :=
  match runs with
  | O => mret matrix
  | S runs' =>
      '(homeDigit, awayDigit) ←
        simulateRun fuel snapshot remaining homeProfile awayProfile;
      matrix ← liftOutcome (incrementCell matrix homeDigit awayDigit);
      simulateRuns runs' fuel snapshot remaining homeProfile awayProfile matrix
  end.

Definition buildSimulationMatrix (fuel : nat) (snapshot : LiveGameSnapshot)
    (featureVector : LiveFeatureVector)
    (expectedHomeAdditionalPoints expectedAwayAdditionalPoints : num)
  : outcome DigitProbabilityMatrix :=
  let remaining := remainingGameSeconds featureVector in
  let simulationRuns :=
    Z.to_nat (if (remaining <=? ofZ (8 * 60))%num then 12000
              else if (remaining <=? ofZ (20 * 60))%num then 10000
              else 8000) in
  let state := seedState (hashString (seedBasis snapshot)) in
  let matrix := createZeroMatrix in
  let scoreDiff := homeScore snapshot - awayScore snapshot in
  let homeProfile := buildTeamScoringProfile {|
    expectedAdditionalPoints := expectedHomeAdditionalPoints;
    ownMomentum := homeMomentum featureVector;
    opponentMomentum := awayMomentum featureVector;
    ownScoringRate := homeRecentScoringRate featureVector;
    ownPenaltyPressure := homePenaltyPressure featureVector;
    ownTurnoverPressure := homeTurnoverPressure featureVector;
    opponentTurnoverPressure := awayTurnoverPressure featureVector;
    in_playPacePerMinute := playPacePerMinute featureVector;
    remainingSeconds := remainingGameSeconds featureVector;
    scoreDiff := scoreDiff |} in
  let awayProfile := buildTeamScoringProfile {|
    expectedAdditionalPoints := expectedAwayAdditionalPoints;
    ownMomentum := awayMomentum featureVector;
    opponentMomentum := homeMomentum featureVector;
    ownScoringRate := awayRecentScoringRate featureVector;
    ownPenaltyPressure := awayPenaltyPressure featureVector;
    ownTurnoverPressure := awayTurnoverPressure featureVector;
    opponentTurnoverPressure := homeTurnoverPressure featureVector;
    in_playPacePerMinute := playPacePerMinute featureVector;
    remainingSeconds := remainingGameSeconds featureVector;
    scoreDiff := - scoreDiff |} in
  '(matrix, _) ← simulateRuns simulationRuns fuel snapshot remaining
                   homeProfile awayProfile matrix state;
  Ok (normalizeMatrix matrix).

End Simulation.

Definition estimateAdditionalPoints
    (baseExpectedPoints : num) (currentScore : Z)
    (ownMomentum opponentMomentum ownScoringRate ownPenaltyPressure
     ownTurnoverPressure playPacePerMinute remainingSeconds elapsedSeconds : num)
    (scoreDiff : Z) : num :=
  let remainingRatio :=
    clamp (remainingSeconds / TOTAL_REGULATION_SECONDS)%num (Fin 0) (ofZ 1) in
  let elapsedRatio :=
    clamp (elapsedSeconds / TOTAL_REGULATION_SECONDS)%num (Fin 0) (ofZ 1) in
  let baseRatePerSecond := (baseExpectedPoints / TOTAL_REGULATION_SECONDS)%num in
  let observedRatePerSecond :=
    (ofZ currentScore / JS.max elapsedSeconds (ofZ (8 * 60)))%num in
  let currentScoreWeight :=
    clamp (dec 4 1 + elapsedRatio * dec 38 2 + (ofZ 1 - remainingRatio) * dec 3 1)%num
          (dec 35 2) (dec 97 2) in
  let projectedRate :=
    (baseRatePerSecond * (ofZ 1 - currentScoreWeight)
     + observedRatePerSecond * currentScoreWeight)%num in
  let projectedRate := (projectedRate * (ofZ 1 + ownMomentum * dec 85 3))%num in
  let projectedRate := (projectedRate * (ofZ 1 + ownScoringRate * dec 32 2))%num in
  let projectedRate :=
    (projectedRate
     * (ofZ 1 + clamp (playPacePerMinute - dec 22 1) (dec (-14) 1) (dec 22 1)
                * dec 9 2))%num in
  let projectedRate :=
    (projectedRate * (ofZ 1 + (ofZ 1 - remainingRatio) * dec 1 1))%num in
  let projectedRate := (projectedRate * (ofZ 1 - ownPenaltyPressure * dec 22 2))%num in
  let projectedRate := (projectedRate * (ofZ 1 - ownTurnoverPressure * dec 34 2))%num in
  let projectedRate :=
    (projectedRate
     * (ofZ 1 - clamp opponentMomentum (dec (-15) 1) (dec 25 1) * dec 55 3))%num in
  let projectedRate :=
    if ((remainingSeconds <=? ofZ (9 * 60))%num && (scoreDiff <? 0))%bool
    then (projectedRate
          * (ofZ 1 + clamp (JS.abs (ofZ scoreDiff) / ofZ 15) (Fin 0) (dec 4 1)))%num
    else projectedRate in
  let projectedRate :=
    if ((remainingSeconds <=? ofZ (7 * 60))%num && (0 <? scoreDiff))%bool
    then (projectedRate
          * (ofZ 1 - clamp (ofZ scoreDiff / ofZ 18) (Fin 0) (dec 3 1)))%num
    else projectedRate in
  let expectedAdditional := (projectedRate * remainingSeconds)%num in
  let contextualCap :=
    clamp (ofZ 12 + baseExpectedPoints * (remainingRatio * dec 11 1 + dec 35 2))%num
          (ofZ 16) (ofZ 42) in
  clamp expectedAdditional (Fin 0) contextualCap.

Definition getLiveBlendWeight (featureVector : LiveFeatureVector)
    (snapshot : LiveGameSnapshot) : num :=
  if bool_decide (status snapshot = pregame) then dec 2 1
  else
    let elapsedRatio :=
      clamp (elapsedGameSeconds featureVector / TOTAL_REGULATION_SECONDS)%num
            (Fin 0) (ofZ 1) in
    let remainingRatio :=
      clamp (remainingGameSeconds featureVector / TOTAL_REGULATION_SECONDS)%num
            (Fin 0) (ofZ 1) in
    let scoreSignal :=
      clamp (ofZ (homeScore snapshot + awayScore snapshot) / ofZ 56)%num
            (Fin 0) (ofZ 1) in
    let scoreDiffSignal :=
      clamp (JS.abs (ofZ (homeScore snapshot - awayScore snapshot)) / ofZ 21)%num
            (Fin 0) (ofZ 1) in
    let lateGamePressure :=
      clamp ((ofZ (12 * 60) - remainingGameSeconds featureVector) / ofZ (12 * 60))%num
            (Fin 0) (ofZ 1) in
    if (remainingGameSeconds featureVector <=? ofZ (2 * 60))%num then dec 99 2
    else if (remainingGameSeconds featureVector <=? ofZ (5 * 60))%num then dec 95 2
    else if (remainingGameSeconds featureVector <=? ofZ (10 * 60))%num then dec 9 1
    else
      let blendedWeight :=
        (dec 36 2 + elapsedRatio * dec 34 2 + (ofZ 1 - remainingRatio) * dec 27 2
         + scoreSignal * dec 1 1 + scoreDiffSignal * dec 5 2
         + lateGamePressure * dec 8 2)%num in
      clamp blendedWeight (dec 36 2) (dec 95 2).

(** A [Set] filled in order and read back with [Array.from]: each
    source once, where it first came. *)
Definition addToSet (output : list SquareOddsComputationSource)
    (source : SquareOddsComputationSource) : list SquareOddsComputationSource :=
  if bool_decide (source ∈ output) then output else output ++ [source].

Definition appendUniqueSources
    (baseSources extras : list SquareOddsComputationSource)
  : list SquareOddsComputationSource :=
  let output := fold_left addToSet baseSources [] in
  fold_left addToSet extras output.

(** The value of the four variables the engine fixes in its
    [if (final || postponed) ... else ...] statement. *)
Record LiveEstimate : Type := {
  liveDigitMatrix : DigitProbabilityMatrix;
  liveBlendWeight : num;
  expectedHomeAdditional : num;
  expectedAwayAdditional : num;
}.

Section Engine.
Context `{Runtime}.

Definition estimateLive (fuel : nat) (input : BuildRealtimeSquareOddsInput)
    (featureVector : LiveFeatureVector) : outcome LiveEstimate :=
  let snap := snapshot input in
  if bool_decide (status snap = final \/ status snap = postponed) then
    Ok {| liveDigitMatrix :=
            buildDeterministicFinalMatrix (homeScore snap) (awayScore snap);
          liveBlendWeight := ofZ 1;
          expectedHomeAdditional := Fin 0;
          expectedAwayAdditional := Fin 0 |}
  else
    let scoreDiff := homeScore snap - awayScore snap in
    let expectedHomeAdditional :=
      estimateAdditionalPoints
        (expectedHomePoints (baseModel input)) (homeScore snap)
        (homeMomentum featureVector) (awayMomentum featureVector)
        (homeRecentScoringRate featureVector) (homePenaltyPressure featureVector)
        (homeTurnoverPressure featureVector) (playPacePerMinute featureVector)
        (remainingGameSeconds featureVector) (elapsedGameSeconds featureVector)
        scoreDiff in
    let expectedAwayAdditional :=
      estimateAdditionalPoints
        (expectedAwayPoints (baseModel input)) (awayScore snap)
        (awayMomentum featureVector) (homeMomentum featureVector)
        (awayRecentScoringRate featureVector) (awayPenaltyPressure featureVector)
        (awayTurnoverPressure featureVector) (playPacePerMinute featureVector)
        (remainingGameSeconds featureVector) (elapsedGameSeconds featureVector)
        (- scoreDiff) in
    liveDigitMatrix ← buildSimulationMatrix fuel snap featureVector
                        expectedHomeAdditional expectedAwayAdditional;
    Ok {| liveDigitMatrix := liveDigitMatrix;
          liveBlendWeight := getLiveBlendWeight featureVector snap;
          expectedHomeAdditional := expectedHomeAdditional;
          expectedAwayAdditional := expectedAwayAdditional |}.

(** [now] is what [new Date().toISOString()] returns during the
    call. *)
Definition buildRealtimeSquareOdds (fuel : nat) (now : string)
    (input : BuildRealtimeSquareOddsInput)
  : outcome RealtimeSquareOddsComputationResult :=
  let snap := snapshot input in
  let featureVector := buildFeatureVector snap in
  live ← estimateLive fuel input featureVector;
  digitProbabilities ←
    blendMatrices (digitProbabilities (baseModel input))
                  (liveDigitMatrix live) (liveBlendWeight live);
  board ← mapDigitMatrixToBoard digitProbabilities (rowLabels input) (colLabels input);
  let boardPercentages := finalizeBoardPercentages board in
  let liveExpectationWeight :=
    clamp (dec 8 2 + liveBlendWeight live * dec 92 2)%num (dec 8 2) (ofZ 1) in
  let expectedHomePoints :=
    if (liveBlendWeight live >=? dec 999 3)%num then ofZ (homeScore snap)
    else clamp (expectedHomePoints (baseModel input) * (ofZ 1 - liveExpectationWeight)
                + (ofZ (homeScore snap) + expectedHomeAdditional live)
                  * liveExpectationWeight)%num (Fin 0) (ofZ 70) in
  let expectedAwayPoints :=
    if (liveBlendWeight live >=? dec 999 3)%num then ofZ (awayScore snap)
    else clamp (expectedAwayPoints (baseModel input) * (ofZ 1 - liveExpectationWeight)
                + (ofZ (awayScore snap) + expectedAwayAdditional live)
                  * liveExpectationWeight)%num (Fin 0) (ofZ 70) in
  let warnings :=
    if bool_decide (status snap = pregame)
    then warnings (baseModel input) ++
         ["Live feed connected but game has not started. Realtime adjustments are minimal."]
    else warnings (baseModel input) in
  let sourcesUsed :=
    appendUniqueSources (sourcesUsed (baseModel input))
      [espn_live_scoreboard; espn_live_summary; live_commentary_sentiment] in
  Ok {|
    base := {|
      boardPercentages := boardPercentages;
      digitProbabilities := digitProbabilities;
      generatedAt := now;
      sourceMode := sourceMode (baseModel input);
      sourcesUsed := sourcesUsed;
      warnings := warnings;
      expectedHomePoints := expectedHomePoints;
      expectedAwayPoints := expectedAwayPoints |};
    engineMode := "realtime";
    liveEventId := eventId snap;
    liveStatus := status snap;
    liveStatusDetail := statusDetail snap;
    liveClock := "Q" +:+ Str.fromZ (period (clock snap)) +:+ " "
                 +:+ displayClock (clock snap);
    liveSnapshotAt := fetchedAt snap;
    featureVector := featureVector |}.

End Engine.

End Realtime.

(** ** Sample inputs

    A coarse runtime (low-order stand-ins for the Math functions, an
    integer reader for [parseFloat], the order of the code units for
    [localeCompare]) on which the model can be run;
    every theorem holds for every runtime. *)

Definition sampleRuntime : Runtime := {|
  Math_exp := fun x => match x with
                       | Fin q => if Qle_bool q 0
                                  then fin (1 / (1 - q + q * q / 2))
                                  else fin (1 + q + q * q / 2)
                       | NInf => Fin 0
                       | _ => x
                       end;
  Math_log := fun x => (x - ofZ 1)%num;
  Math_sqrt := fun x => ((x + ofZ 1) / ofZ 2)%num;
  Math_cos := fun x => (ofZ 1 - x * x / ofZ 2)%num;
  Math_PI := fin (355 # 113);
  Number_parseFloat := Str.parseInt;
  String_localeCompare := fun a b =>
    match String.compare a b with
    | Lt => -1
    | Eq => 0
    | Gt => 1
    end |}.

Definition sampleRow : Service.ClosingLineRow :=
  {| Service.game_id := "2023_01_DET_KC"; Service.type := "MONEYLINE"; Service.side := " kc "; Service.odds := "-110" |}.

(** A probability matrix with unequal cells: cell (r, c) weighs
    [r + 2c + 1], over the total 1450. *)
Definition sampleMatrix : DigitProbabilityMatrix :=
  map (fun r => map (fun c => fin (Z.of_nat (r + 2 * c + 1) # 1450)) digits) digits.

(** The labels of the scenario of the specification. *)
Definition sampleRowLabels : list num := map ofZ [5; 0; 1; 2; 3; 4; 6; 7; 8; 9].
Definition sampleColLabels : list num := map ofZ [0; 1; 2; 3; 4; 5; 6; 7; 8; 9].

(** A 10 x 10 matrix with one cell that is not a number: NaN at (0, 0),
    1 at (0, 1), 0 elsewhere. *)
Definition nanMatrix : DigitProbabilityMatrix :=
  <[0%nat := NaN :: ofZ 1 :: replicate 8 (Fin 0)]> createZeroMatrix.

(** A pre-game result for Seahawks against Patriots, as [buildSquareOdds]
    could have returned it. *)
Definition sampleBaseModel : SquareOddsComputationResult := {|
  boardPercentages := [];
  digitProbabilities := sampleMatrix;
  generatedAt := "2026-02-08T20:00:00.000Z";
  sourceMode := full;
  sourcesUsed := [nflverse_games; nflverse_closing_lines; espn_team_stats];
  warnings :=
    ["Recent form feed unavailable. Team trend model uses historical games only."];
  expectedHomePoints := ofZ 24;
  expectedAwayPoints := ofZ 21 |}.

Definition calmSentiment : LiveCommentarySentiment :=
  {| sentiment_home := Fin 0; sentiment_away := Fin 0; sentiment_neutral := ofZ 1 |}.

(** The final snapshot of the scenario: Seahawks 14, Patriots 10. *)
Definition finalSnapshot : LiveGameSnapshot := {|
  eventId := "401772988";
  fetchedAt := "2026-02-09T03:10:00.000Z";
  status := final;
  statusDetail := "Final";
  homeTeamCode := "SEA";
  awayTeamCode := "NE";
  homeTeamName := "Seattle Seahawks";
  awayTeamName := "New England Patriots";
  homeScore := 14;
  awayScore := 10;
  clock := {| period := 4; displayClock := "0:00";
              secondsRemainingInPeriod := Some 0; secondsRemainingGame := Some 0 |};
  plays := [];
  sentiment := calmSentiment |}.

(** The same game before kickoff. *)
Definition pregameSnapshot : LiveGameSnapshot := {|
  eventId := "401772988";
  fetchedAt := "2026-02-08T22:00:00.000Z";
  status := pregame;
  statusDetail := "Sun, February 8th at 6:30 PM EST";
  homeTeamCode := "SEA";
  awayTeamCode := "NE";
  homeTeamName := "Seattle Seahawks";
  awayTeamName := "New England Patriots";
  homeScore := 0;
  awayScore := 0;
  clock := {| period := 1; displayClock := "15:00";
              secondsRemainingInPeriod := Some 900; secondsRemainingGame := Some 3600 |};
  plays := [];
  sentiment := calmSentiment |}.

Definition finalInput : Realtime.BuildRealtimeSquareOddsInput := {|
  Realtime.baseModel := sampleBaseModel;
  Realtime.snapshot := finalSnapshot;
  Realtime.rowLabels := sampleRowLabels;
  Realtime.colLabels := sampleColLabels |}.

(** The game in the third quarter, after two plays. *)
Definition thirdQuarterSnapshot : LiveGameSnapshot := {|
  eventId := "401772988";
  fetchedAt := "2026-02-09T01:40:00.000Z";
  status := in_progress;
  statusDetail := "7:05 - 3rd Quarter";
  homeTeamCode := "SEA";
  awayTeamCode := "NE";
  homeTeamName := "Seattle Seahawks";
  awayTeamName := "New England Patriots";
  homeScore := 14;
  awayScore := 10;
  clock := {| period := 3; displayClock := "7:05";
              secondsRemainingInPeriod := Some 425; secondsRemainingGame := Some 1325 |};
  plays := [
    {| play_id := "4017729881201"; play_text := "K.Walker 24 yard touchdown run";
       teamCode := Some "SEA"; play_period := Some 3; play_clock := Some "9:12";
       isScoringPlay := true; isPenalty := false; isTurnover := false;
       isExplosivePlay := true; sentimentScore := dec 6 1 |};
    {| play_id := "4017729881244"; play_text := "Penalty on NE, holding, 10 yards";
       teamCode := Some "NE"; play_period := Some 3; play_clock := Some "7:05";
       isScoringPlay := false; isPenalty := true; isTurnover := false;
       isExplosivePlay := false; sentimentScore := dec (-6) 1 |} ];
  sentiment := {| sentiment_home := dec 6 1; sentiment_away := dec (-6) 1;
                  sentiment_neutral := ofZ 1 |} |}.

(** Row labels with a 10 in them. *)
Definition badRowLabels : list num := map ofZ [5; 0; 1; 2; 3; 4; 6; 7; 8; 10].

Definition badLabelsInput : Realtime.BuildRealtimeSquareOddsInput := {|
  Realtime.baseModel := sampleBaseModel;
  Realtime.snapshot := thirdQuarterSnapshot;
  Realtime.rowLabels := badRowLabels;
  Realtime.colLabels := sampleColLabels |}.

(** The final snapshot fetched again two seconds later, with other team
    names and another sentiment: the fields of the seed are the same. *)
Definition refetchedFinalSnapshot : LiveGameSnapshot := {|
  eventId := "401772988";
  fetchedAt := "2026-02-09T03:10:02.000Z";
  status := final;
  statusDetail := "Final";
  homeTeamCode := "SEA";
  awayTeamCode := "NE";
  homeTeamName := "Seahawks";
  awayTeamName := "Patriots";
  homeScore := 14;
  awayScore := 10;
  clock := {| period := 4; displayClock := "0:00";
              secondsRemainingInPeriod := None; secondsRemainingGame := Some 0 |};
  plays := [];
  sentiment := {| sentiment_home := dec 1 1; sentiment_away := Fin 0;
                  sentiment_neutral := ofZ 1 |} |}.

(** The final snapshot with the short names of the teams: the fields of
    the seed, the time of the fetch and the feature vector are the
    same. *)
Definition renamedFinalSnapshot : LiveGameSnapshot := {|
  eventId := "401772988";
  fetchedAt := "2026-02-09T03:10:00.000Z";
  status := final;
  statusDetail := "Final";
  homeTeamCode := "SEA";
  awayTeamCode := "NE";
  homeTeamName := "Seahawks";
  awayTeamName := "Patriots";
  homeScore := 14;
  awayScore := 10;
  clock := {| period := 4; displayClock := "0:00";
              secondsRemainingInPeriod := Some 0; secondsRemainingGame := Some 0 |};
  plays := [];
  sentiment := calmSentiment |}.

Definition renamedFinalInput : Realtime.BuildRealtimeSquareOddsInput := {|
  Realtime.baseModel := sampleBaseModel;
  Realtime.snapshot := renamedFinalSnapshot;
  Realtime.rowLabels := sampleRowLabels;
  Realtime.colLabels := sampleColLabels |}.

(** The module as it is loaded, in a browser with an empty storage. *)
Definition freshStore : Service.Store := {|
  Service.gamesPromise := None;
  Service.closingLinesPromise := None;
  Service.espnTeamsPromise := None;
  Service.espnStatsPromiseByTeam := ∅;
  Service.sportsDbPromiseByTeam := ∅;
  Service.modelMemoryCache := ∅;
  Service.localStorage := Some ∅;
  Service.requests := [] |}.

(** No network: every request is rejected.  The clock starts on
    2026-02-08 at 20:00 UTC and moves a quarter of a second a request. *)
Definition offlineEnvironment : Service.Environment := {|
  Service.games_csv := fun _ => Service.Rejected "Failed to fetch";
  Service.closing_lines_csv := fun _ => Service.Rejected "Failed to fetch";
  Service.espn_teams := fun _ => Service.Rejected "Failed to fetch";
  Service.espn_team_statistics := fun _ _ => Service.Rejected "Failed to fetch";
  Service.sportsdb_searchteams := fun _ _ => Service.Rejected "Failed to fetch";
  Service.sportsdb_eventslast := fun _ _ => Service.Rejected "Failed to fetch";
  Service.moneylinesSettleFirst := true;
  Service.Date_now := fun sent => 1770580800000 + 250 * Z.of_nat sent;
  Service.toISOString := fun time => "t=" +:+ Str.fromZ time;
  Service.JSON_parse := fun _ => None;
  Service.JSON_stringify := fun _ => "{}";
  Service.quotaExceeded := fun _ _ => false |}.

Definition sampleGameRows : list Service.GameRow := [
  {| Service.csv_season := "2024"; Service.csv_gameday := "2024-09-15";
     Service.away_team := "SEA"; Service.away_score := "23";
     Service.home_team := "NE"; Service.home_score := "20";
     Service.total_line := "38"; Service.spread_line := "-3" |};
  {| Service.csv_season := "2024"; Service.csv_gameday := "2024-10-20";
     Service.away_team := "ATL"; Service.away_score := "14";
     Service.home_team := "SEA"; Service.home_score := "34";
     Service.total_line := "51"; Service.spread_line := "3" |};
  {| Service.csv_season := "2023"; Service.csv_gameday := "2023-12-24";
     Service.away_team := "NE"; Service.away_score := "26";
     Service.home_team := "DEN"; Service.home_score := "23";
     Service.total_line := "35"; Service.spread_line := "7" |} ].

(** The two nflverse files answer, ESPN and TheSportsDB do not. *)
Definition nflverseOnly : Service.Environment := {|
  Service.games_csv := fun _ => Service.Fulfilled sampleGameRows;
  Service.closing_lines_csv := fun _ => Service.Fulfilled [sampleRow];
  Service.espn_teams := fun _ => Service.Rejected "Request failed (503)";
  Service.espn_team_statistics := fun _ _ => Service.Rejected "Request failed (503)";
  Service.sportsdb_searchteams := fun _ _ => Service.Rejected "Request failed (429)";
  Service.sportsdb_eventslast := fun _ _ => Service.Rejected "Request failed (429)";
  Service.moneylinesSettleFirst := true;
  Service.Date_now := fun sent => 1770580800000 + 250 * Z.of_nat sent;
  Service.toISOString := fun time => "t=" +:+ Str.fromZ time;
  Service.JSON_parse := fun _ => None;
  Service.JSON_stringify := fun _ => "{}";
  Service.quotaExceeded := fun _ _ => false |}.

Definition seahawksPatriots : Service.BuildSquareOddsInput := {|
  Service.homeTeamName := "Seahawks";
  Service.awayTeamName := "New England Patriots";
  Service.rowLabels := sampleRowLabels;
  Service.colLabels := sampleColLabels |}.

Definition martiansPatriots : Service.BuildSquareOddsInput := {|
  Service.homeTeamName := "Martians";
  Service.awayTeamName := "Patriots";
  Service.rowLabels := sampleRowLabels;
  Service.colLabels := sampleColLabels |}.

(** Supported teams, nine row labels. *)
Definition nineLabels : Service.BuildSquareOddsInput := {|
  Service.homeTeamName := "Seahawks";
  Service.awayTeamName := "Patriots";
  Service.rowLabels := map ofZ [0; 1; 2; 3; 4; 5; 6; 7; 8];
  Service.colLabels := sampleColLabels |}.

(** A model as [buildSmartDigitModel] could have cached it, and the
    state of the module half a minute after that: the model is in the
    memory cache, under the key of Seahawks against Patriots. *)
Definition sampleCachedModel : Service.CachedDigitModel := {|
  Service.c_digitProbabilities := sampleMatrix;
  Service.c_generatedAt := "2026-02-08T20:00:00.000Z";
  Service.c_sourceMode := full;
  Service.c_sourcesUsed := [nflverse_games; nflverse_closing_lines; espn_team_stats];
  Service.c_warnings :=
    ["Recent form feed unavailable. Team trend model uses historical games only."];
  Service.c_expectedHomePoints := ofZ 24;
  Service.c_expectedAwayPoints := ofZ 21 |}.

Definition sampleEntry : Service.CachedEntry := {|
  Service.expiresAt := ofZ (1770580800000 + 1800000);
  Service.value := sampleCachedModel |}.

Definition warmStore : Service.Store := {|
  Service.gamesPromise := None;
  Service.closingLinesPromise := None;
  Service.espnTeamsPromise := None;
  Service.espnStatsPromiseByTeam := ∅;
  Service.sportsDbPromiseByTeam := ∅;
  Service.modelMemoryCache := {[ "sb-lx-smart-odds-model-v1:SEA:NE" := sampleEntry ]};
  Service.localStorage := Some ∅;
  Service.requests := [] |}.

(** A runtime whose exponential underflows to 0: the Poisson
    distributions then put all their weight on the digit of the mean,
    and the recency weights vanish, which keeps the numbers of a whole
    call small enough to run it. *)
Definition underflowRuntime : Runtime := {|
  Math_exp := fun _ => Fin 0;
  Math_log := fun x => (x - ofZ 1)%num;
  Math_sqrt := fun x => ((x + ofZ 1) / ofZ 2)%num;
  Math_cos := fun x => (ofZ 1 - x * x / ofZ 2)%num;
  Math_PI := fin (355 # 113);
  Number_parseFloat := Str.parseInt;
  String_localeCompare := fun a b =>
    match String.compare a b with
    | Lt => -1
    | Eq => 0
    | Gt => 1
    end |}.

(** The response of games.csv comes and its body never ends. *)
Definition stalledGames : Service.Environment := {|
  Service.games_csv := fun _ => Service.Pending;
  Service.closing_lines_csv := fun _ => Service.Fulfilled [sampleRow];
  Service.espn_teams := fun _ => Service.Rejected "Request failed (503)";
  Service.espn_team_statistics := fun _ _ => Service.Rejected "Request failed (503)";
  Service.sportsdb_searchteams := fun _ _ => Service.Rejected "Request failed (429)";
  Service.sportsdb_eventslast := fun _ _ => Service.Rejected "Request failed (429)";
  Service.moneylinesSettleFirst := true;
  Service.Date_now := fun sent => 1770580800000 + 250 * Z.of_nat sent;
  Service.toISOString := fun time => "t=" +:+ Str.fromZ time;
  Service.JSON_parse := fun _ => None;
  Service.JSON_stringify := fun _ => "{}";
  Service.quotaExceeded := fun _ _ => false |}.

(** ** Vocabulary of the statements *)

(** The rational a finite number stands for (0 for the others). *)
Definition toQ (x : num) : Q :=
  match x with
  | Fin q => q
  | _ => 0%Q
  end.

Fixpoint Qsum (qs : list Q) : Q :=
  match qs with
  | [] => 0%Q
  | q :: r => (q + Qsum r)%Q
  end.

(** A finite number that is not negative. *)
Definition nonNegative (x : num) : Prop := exists q, x = Fin q /\ (0 <= q)%Q.

(** The score of a text with at least one token, as a rational. *)
Definition scoreValue (score : Z) (tokenCount : nat) : Q :=
  Qmin 1 (Qmax (-1)
    (inject_Z score / Qmax (inject_Z (Z.of_nat tokenCount)) 4 * (24 # 10))).


(** [matrix[r]] where the row is known to exist. *)
Definition rowAt (matrix : DigitProbabilityMatrix) (r : nat) : list num :=
  default [] (matrix !! r).

(** A 10 x 10 grid. *)
Definition isGrid (matrix : list (list num)) : Prop :=
  length matrix = DIGIT_COUNT /\ Forall (fun row => length row = DIGIT_COUNT) matrix.

(** A Digit Probability Matrix: a 10 x 10 grid of finite numbers, none
    negative, whose sum is 1. *)
Definition probabilityMatrix (matrix : DigitProbabilityMatrix) : Prop :=
  isGrid matrix
  /\ Forall (Forall nonNegative) matrix
  /\ isQ (sumNumbers (concat matrix)) 1.

(** The labels are ten digits, [ds] in order. *)
Definition labelDigits (labels : list num) (ds : list nat) : Prop :=
  Forall2 (fun label d => labelDigit label = Some d) labels ds
  /\ length ds = DIGIT_COUNT.

(** The labels are a permutation of the digits 0 .. 9. *)
Definition labelPermutation (labels : list num) (ds : list nat) : Prop :=
  labelDigits labels ds /\ Permutation ds digits.

(** The labels pass the checks of [mapDigitMatrixToBoard]. *)
Definition validLabels (labels : list num) : Prop :=
  length labels = DIGIT_COUNT /\ Forall (fun label => is_Some (labelDigit label)) labels.

(** The boolean form of [nonNegative]. *)
Definition nonNegativeb (x : num) : bool :=
  match x with
  | Fin q => Qle_bool 0 q
  | _ => false
  end.

(** The computation came to an end: it returned or it threw. *)
Definition settled {A} (m : outcome A) : Prop := m <> OutOfFuel.

(** A computation on the generator comes to an end from every state, and
    what it returns satisfies [P]. *)
Definition post {A} (m : Realtime.Rand A) (P : A -> Prop) : Prop :=
  forall state,
    match m state with
    | Ok (a, _) => P a
    | Throw _ => True
    | OutOfFuel => False
    end.

(** [2^-32], the step of the generator below 1. *)
Definition epsilon : Q := 1 # 4294967296.

(** [Math.exp] is finite and positive on [-30, 0], the arguments the
    Poisson sampler can give it. *)
Definition expPositive `{Runtime} : Prop :=
  forall q : Q, (-30 <= q <= 0)%Q -> exists r, Math_exp (Fin q) = Fin r /\ (0 < r)%Q.

(** A mean the sampler handles with its multiplication loop or at once:
    NaN, or a finite number up to 30. *)
Definition tameMean (lambda : num) : Prop :=
  lambda = NaN \/ exists q, lambda = Fin q /\ (q <= 30)%Q.

(** NaN, or a finite number up to [bound]. *)
Definition atMost (bound : Q) (x : num) : Prop :=
  x = NaN \/ exists q, x = Fin q /\ (q <= bound)%Q.

(** The result with its generation time replaced. *)
Definition withGeneratedAt (time : string) (result : RealtimeSquareOddsComputationResult)
  : RealtimeSquareOddsComputationResult :=
  {| base := {|
       boardPercentages := boardPercentages (base result);
       digitProbabilities := digitProbabilities (base result);
       generatedAt := time;
       sourceMode := sourceMode (base result);
       sourcesUsed := sourcesUsed (base result);
       warnings := warnings (base result);
       expectedHomePoints := expectedHomePoints (base result);
       expectedAwayPoints := expectedAwayPoints (base result) |};
     engineMode := engineMode result;
     liveEventId := liveEventId result;
     liveStatus := liveStatus result;
     liveStatusDetail := liveStatusDetail result;
     liveClock := liveClock result;
     liveSnapshotAt := liveSnapshotAt result;
     featureVector := featureVector result |}.

(** Two snapshots agree on what the seed is made of: event id, status,
    status detail, scores, period, display clock, id of the last play
    and number of plays. *)
Definition sameSeedFields (a b : LiveGameSnapshot) : Prop :=
  eventId a = eventId b
  /\ status a = status b
  /\ statusDetail a = statusDetail b
  /\ homeScore a = homeScore b
  /\ awayScore a = awayScore b
  /\ period (clock a) = period (clock b)
  /\ displayClock (clock a) = displayClock (clock b)
  /\ play_id <$> last (plays a) = play_id <$> last (plays b)
  /\ length (plays a) = length (plays b).

(** A computation on the store comes to an end from every store: it
    returns or it throws. *)
Definition settles {A} (m : Service.Eff A) : Prop :=
  forall store, settled (m store).2.

(** The team name or code is one of a supported team. *)
Definition supportedTeam (teamNameOrCode : string) : Prop :=
  is_Some (Service.findTeamByNameOrCode teamNameOrCode).

(** The message of the error for a team that is not supported. *)
Definition unsupportedTeamError (teamNameOrCode : string) : string :=
  "Unsupported team name or code: " +:+ teamNameOrCode.

(** A computation on the store that returns from no store. *)
Definition neverReturns {A} (m : Service.Eff A) : Prop :=
  forall store a, (m store).2 <> Ok a.

(** The scores of the game are whole numbers, as the loader makes them
    with [Math.round]. *)
Definition integerScores (game : Service.GameRecord) : Prop :=
  exists home away : Z,
    Service.homeScore game = ofZ home /\ Service.awayScore game = ofZ away.

(** A computation on the store that returns from every store. *)
Definition returnsAlways {A} (m : Service.Eff A) : Prop :=
  forall store, returns (m store).2.

(** A computation on the store that returns from every store, with a
    result that satisfies [P]. *)
Definition alwaysReturns {A} (m : Service.Eff A) (P : A -> Prop) : Prop :=
  forall store, exists a, (m store).2 = Ok a /\ P a.

(** The games the state has memoised, if any, have whole scores: what
    [loadGames] stores is what it made of the rows of games.csv. *)
Definition gamesFromLoader (store : Service.Store) : Prop :=
  match Service.gamesPromise store with
  | Some (Service.Fulfilled games) => Forall integerScores games
  | _ => True
  end.

(** What holds of every model [buildSmartDigitModel] returns: its
    matrix is a Digit Probability Matrix, it names a source, the mode
    [full] stands for three sources or more, and the mode [baseline]
    comes with a warning. *)
Definition soundModel (model : Service.CachedDigitModel) : Prop :=
  probabilityMatrix (Service.c_digitProbabilities model)
  /\ Service.c_sourcesUsed model <> []
  /\ (Service.c_sourceMode model = full <->
      (3 <= length (Service.c_sourcesUsed model))%nat)
  /\ (Service.c_sourceMode model = baseline -> Service.c_warnings model <> []).

(** The implied probability of American odds, in the words of the
    specification: [|odds| / (|odds| + 100)] for negative odds and
    [100 / (odds + 100)] for positive odds; even odds for 0. *)
Definition impliedProbabilityOf (odds : Q) : Q :=
  if Qlt_le_dec odds 0 then Qabs odds / (Qabs odds + 100)
  else if Qlt_le_dec 0 odds then 100 / (odds + 100)
  else 1 # 2.

(** The character of a decimal digit. *)
Definition digitChar (d : Z) : ascii := ascii_of_N (Z.to_N (48 + d)).

(** The text reads [minutes:seconds] on the game clock: one or two
    decimal digits, a colon and two decimal digits, with nothing around
    them but white space. *)
Definition clockReading (text : string) (minutes seconds : Z) : Prop :=
  exists m1 m2 s1 s2 : Z,
    0 <= m1 <= 9 /\ 0 <= m2 <= 9 /\ 0 <= s1 <= 9 /\ 0 <= s2 <= 9
    /\ (m1 = 0
        /\ Str.trim text
           = Str.ofChars [digitChar m2; ":"%char; digitChar s1; digitChar s2]
        \/ Str.trim text
           = Str.ofChars [digitChar m1; digitChar m2; ":"%char;
                          digitChar s1; digitChar s2])
    /\ minutes = 10 * m1 + m2
    /\ seconds = 10 * s1 + s2.

(** The seconds the pattern of the clock reads off the characters. *)
Definition clockSeconds (l : list ascii) : option Z :=
  match LiveGame.matchClock l with
  | None => None
  | Some (mins, secs) =>
      Some (LiveGame.clampZ (Str.digitsValue mins * 60 + Str.digitsValue secs) 0 (15 * 60))
  end.


(** The text the seed of the simulation is the hash of: the event id,
    status, status detail, scores, period, display clock, id of the last
    play ([none] without a play) and number of plays of the snapshot,
    joined by bars. *)
Definition seedText (snapshot : LiveGameSnapshot) : string :=
  eventId snapshot
  +:+ "|" +:+ statusText (status snapshot)
  +:+ "|" +:+ statusDetail snapshot
  +:+ "|" +:+ Str.fromZ (homeScore snapshot)
  +:+ "|" +:+ Str.fromZ (awayScore snapshot)
  +:+ "|" +:+ Str.fromZ (period (clock snapshot))
  +:+ "|" +:+ displayClock (clock snapshot)
  +:+ "|" +:+ match last (plays snapshot) with
              | Some play => play_id play
              | None => "none"
              end
  +:+ "|" +:+ Str.fromZ (Z.of_nat (length (plays snapshot))).

(** The simulation with its generator in a given state: the runs, each
    drawing from the generator after the one before, and the matrix of
    their digits, normalised. *)
Definition simulationFrom `{Runtime} (fuel : nat) (snapshot : LiveGameSnapshot)
    (featureVector : LiveFeatureVector) (runs : nat)
    (homeProfile awayProfile : Realtime.TeamScoringSimulationProfile) (state : Z)
  : outcome DigitProbabilityMatrix :=
  '(matrix, _) ← Realtime.simulateRuns runs fuel snapshot
                   (remainingGameSeconds featureVector) homeProfile awayProfile
                   createZeroMatrix state;
  Ok (Realtime.normalizeMatrix matrix).

(** *** The pre-game service and its sources *)

(** A promise that is fulfilled. *)
Definition fulfilled {A} (promise : Service.Promise A) : Prop :=
  exists a, promise = Service.Fulfilled a.

(** Every response that comes is read to its end: no answer of the
    environment stays pending. *)
Definition answersSettle `{Service.Environment} : Prop :=
  (forall n, Service.games_csv n <> Service.Pending)
  /\ (forall n, Service.closing_lines_csv n <> Service.Pending)
  /\ (forall n, Service.espn_teams n <> Service.Pending)
  /\ (forall id n, Service.espn_team_statistics id n <> Service.Pending)
  /\ (forall name n, Service.sportsdb_searchteams name n <> Service.Pending)
  /\ (forall id n, Service.sportsdb_eventslast id n <> Service.Pending).

(** A state the service leaves behind when the answers settle: no
    promise it holds is pending, the promises of the team statistics and
    of the recent form, which catch their errors, are fulfilled, and the
    games are those of the loader. *)
Definition serviceState (store : Service.Store) : Prop :=
  Service.gamesPromise store <> Some Service.Pending
  /\ Service.closingLinesPromise store <> Some Service.Pending
  /\ Service.espnTeamsPromise store <> Some Service.Pending
  /\ (forall teamCode promise,
        Service.espnStatsPromiseByTeam store !! teamCode = Some promise ->
        fulfilled promise)
  /\ (forall cacheKey promise,
        Service.sportsDbPromiseByTeam store !! cacheKey = Some promise ->
        fulfilled promise)
  /\ gamesFromLoader store.

(** The request sent as the [n]-th was answered by a rejection. *)
Definition rejectedAnswer `{Service.Environment} (request : Service.Request) (n : nat)
  : Prop :=
  match request with
  | Service.NFL_GAMES_CSV_URL => exists e, Service.games_csv n = Service.Rejected e
  | Service.NFL_CLOSING_LINES_CSV_URL =>
      exists e, Service.closing_lines_csv n = Service.Rejected e
  | Service.ESPN_TEAMS_URL => exists e, Service.espn_teams n = Service.Rejected e
  | Service.ESPN_TEAM_STATS_URL id =>
      exists e, Service.espn_team_statistics id n = Service.Rejected e
  | Service.SPORTS_DB_SEARCH_TEAMS_URL name =>
      exists e, Service.sportsdb_searchteams name n = Service.Rejected e
  | Service.SPORTS_DB_EVENTS_LAST_URL id =>
      exists e, Service.sportsdb_eventslast id n = Service.Rejected e
  end.

(** A request sent between two states failed. *)
Definition failedRequest `{Service.Environment} (store store' : Service.Store)
    (request : Service.Request) : Prop :=
  exists n,
    (length (Service.requests store) <= n)%nat
    /\ Service.requests store' !! n = Some request
    /\ rejectedAnswer request n.

(** From one state to a later one the log of the requests has grown,
    and every request added satisfies [C] at its place in the log. *)
Definition sent (C : Service.Request -> nat -> Prop) (store store' : Service.Store)
  : Prop :=
  exists new,
    Service.requests store' = Service.requests store ++ new
    /\ forall i request,
         new !! i = Some request -> C request (length (Service.requests store) + i)%nat.

(** The request is [request], and its answer is not a rejection. *)
Definition answered `{Service.Environment} (request : Service.Request)
  : Service.Request -> nat -> Prop :=
  fun sentRequest n => sentRequest = request /\ ~ rejectedAnswer sentRequest n.

(** The request is one of [kinds]. *)
Definition among (kinds : Service.Request -> Prop) : Service.Request -> nat -> Prop :=
  fun sentRequest _ => kinds sentRequest.

Definition noRequest : Service.Request -> nat -> Prop := fun _ _ => False.

Definition either (C D : Service.Request -> nat -> Prop)
  : Service.Request -> nat -> Prop :=
  fun sentRequest n => C sentRequest n \/ D sentRequest n.

(** The warnings of [buildSmartDigitModel]. *)
Definition gamesWarning : string :=
  "Unable to load NFL historical games dataset. Falling back to baseline simulation only.".
Definition moneylineWarning : string :=
  "Moneyline data could not be loaded. Market adjustments disabled.".
Definition teamsWarning : string :=
  "ESPN team metadata unavailable. Team-level API stats reduced.".
Definition statsWarning : string :=
  "ESPN team stats unavailable. Expected-points model uses historical-only inputs.".
Definition formWarning : string :=
  "Recent form feed unavailable. Team trend model uses historical games only.".

(** How the failures of the sources show in what the call returns: a
    failed request for the games leaves the simulated baseline whose
    only warning says so; a failed request for the closing lines or for
    the ESPN teams has its warning in the list; a failed request for the
    statistics or the recent form of a team is made up for by the other
    team (the source is then listed as used) or has its warning in the
    list. *)
Definition failuresReported `{Service.Environment} (store store' : Service.Store)
    (sources : list SquareOddsComputationSource) (warningList : list string) : Prop :=
  (failedRequest store store' Service.NFL_GAMES_CSV_URL ->
     warningList = [gamesWarning] /\ sources = [fallback_model])
  /\ (failedRequest store store' Service.NFL_CLOSING_LINES_CSV_URL ->
     moneylineWarning ∈ warningList)
  /\ (failedRequest store store' Service.ESPN_TEAMS_URL ->
     teamsWarning ∈ warningList)
  /\ (forall id, failedRequest store store' (Service.ESPN_TEAM_STATS_URL id) ->
     statsWarning ∈ warningList \/ espn_team_stats ∈ sources)
  /\ (forall name, failedRequest store store' (Service.SPORTS_DB_SEARCH_TEAMS_URL name) ->
     formWarning ∈ warningList \/ thesportsdb_recent_form ∈ sources)
  /\ (forall id, failedRequest store store' (Service.SPORTS_DB_EVENTS_LAST_URL id) ->
     formWarning ∈ warningList \/ thesportsdb_recent_form ∈ sources).

(** From a state that satisfies [P] the computation comes to an end: it
    returns [a] in a state with [Q a], or throws [e] in a state with
    [E e]. *)
Definition hoare {A} (P : Service.Store -> Prop) (m : Service.Eff A)
    (Q : A -> Service.Store -> Prop) (E : string -> Service.Store -> Prop) : Prop :=
  forall store,
    P store ->
    match m store with
    | (store', Ok a) => Q a store'
    | (store', Throw e) => E e store'
    | (_, OutOfFuel) => False
    end.

(** From a state of the service the computation comes to an end in a
    state of the service, having sent requests that satisfy [C]; what it
    returns satisfies [Q], and it throws only if [T]. *)
Definition stays {A} (C : Service.Request -> nat -> Prop) (m : Service.Eff A)
    (Q : A -> Prop) (T : Prop) : Prop :=
  forall store,
    hoare (fun s => s = store /\ serviceState store) m
      (fun a store' => serviceState store' /\ sent C store store' /\ Q a)
      (fun _ store' => serviceState store' /\ sent C store store' /\ T).

(** The kinds of requests. *)
Definition isTeamsRequest (request : Service.Request) : Prop :=
  request = Service.ESPN_TEAMS_URL.
Definition isStatsRequest (request : Service.Request) : Prop :=
  exists id, request = Service.ESPN_TEAM_STATS_URL id.
Definition isFormRequest (request : Service.Request) : Prop :=
  (exists name, request = Service.SPORTS_DB_SEARCH_TEAMS_URL name)
  \/ (exists id, request = Service.SPORTS_DB_EVENTS_LAST_URL id).

(** The requests of a call that has loaded the games: none for the
    games was rejected; none for the closing lines was if these were
    loaded, none for the ESPN teams if those were. *)
Definition traced `{Service.Environment} (moneylinesLoaded teamsLoaded : Prop)
  : Service.Request -> nat -> Prop :=
  fun request n =>
    match request with
    | Service.NFL_GAMES_CSV_URL => ~ rejectedAnswer request n
    | Service.NFL_CLOSING_LINES_CSV_URL => moneylinesLoaded -> ~ rejectedAnswer request n
    | Service.ESPN_TEAMS_URL => teamsLoaded -> ~ rejectedAnswer request n
    | _ => True
    end.

(** What holds of the model [buildSmartDigitModel] returns, between
    the state before and the state after. *)
Definition modelAccounts `{Service.Environment} (store store' : Service.Store)
    (model : Service.CachedDigitModel) : Prop :=
  probabilityMatrix (Service.c_digitProbabilities model)
  /\ failuresReported store store' (Service.c_sourcesUsed model)
       (Service.c_warnings model).

(** The state holds the ESPN teams that were loaded. *)
Definition teamsHeld (loadedTeams : option (gmap string Service.EspnTeamDescriptor))
    (store : Service.Store) : Prop :=
  match loadedTeams with
  | Some teams => Service.espnTeamsPromise store = Some (Service.Fulfilled teams)
  | None => True
  end.

(** * Part II: properties *)

Lemma Qltb_lt (a b : Q) : Qltb a b = true <-> (a < b)%Q.
Proof.
  unfold Qltb. rewrite negb_true_iff.
  destruct (Qle_bool b a) eqn:E.
  - apply Qle_bool_iff in E. split; [discriminate | intros; lra].
  - split; [intros _ | reflexivity].
    destruct (Qlt_le_dec a b) as [L | L]; [exact L |].
    apply Qle_bool_iff in L. congruence.
Qed.

Lemma Qltb_ge (a b : Q) : Qltb a b = false <-> (b <= a)%Q.
Proof.
  unfold Qltb. rewrite negb_false_iff. apply Qle_bool_iff.
Qed.

Lemma isQ_fin (q : Q) : isQ (fin q) q.
Proof. apply Qred_correct. Qed.

Lemma isQ_ofZ (z : Z) : isQ (ofZ z) (inject_Z z).
Proof. simpl. reflexivity. Qed.

Lemma isQ_proper (x : num) (p q : Q) : isQ x p -> (p == q)%Q -> isQ x q.
Proof. destruct x; simpl; try tauto. intros -> ?. assumption. Qed.

Lemma isQ_inv (x : num) (q : Q) : isQ x q -> exists p, x = Fin p /\ (p == q)%Q.
Proof. destruct x; simpl; try tauto. eauto. Qed.

Lemma isQ_add x y p q : isQ x p -> isQ y q -> isQ (x + y)%num (p + q).
Proof.
  intros (a & -> & Ha)%isQ_inv (b & -> & Hb)%isQ_inv. simpl.
  rewrite Qred_correct, Ha, Hb. reflexivity.
Qed.

Lemma isQ_neg x p : isQ x p -> isQ (- x)%num (- p).
Proof.
  intros (a & -> & Ha)%isQ_inv. simpl. rewrite Qred_correct, Ha. reflexivity.
Qed.

Lemma isQ_sub x y p q : isQ x p -> isQ y q -> isQ (x - y)%num (p - q).
Proof. intros Hx Hy. unfold JS.sub. apply isQ_add; [|apply isQ_neg]; assumption. Qed.

Lemma isQ_mul x y p q : isQ x p -> isQ y q -> isQ (x * y)%num (p * q).
Proof.
  intros (a & -> & Ha)%isQ_inv (b & -> & Hb)%isQ_inv. simpl.
  rewrite Qred_correct, Ha, Hb. reflexivity.
Qed.

Lemma isQ_div x y p q :
  isQ x p -> isQ y q -> ~ (q == 0)%Q -> isQ (x / y)%num (p / q).
Proof.
  intros (a & -> & Ha)%isQ_inv (b & -> & Hb)%isQ_inv Hq. simpl.
  destruct (Qeq_bool b 0) eqn:E.
  - apply Qeq_bool_iff in E. rewrite Hb in E. contradiction.
  - simpl. rewrite Qred_correct, Ha, Hb. reflexivity.
Qed.

Lemma isQ_max x y p q : isQ x p -> isQ y q -> isQ (JS.max x y) (Qmax p q).
Proof.
  intros (a & -> & Ha)%isQ_inv (b & -> & Hb)%isQ_inv. simpl.
  destruct (Qltb a b) eqn:E; simpl.
  - apply Qltb_lt in E. rewrite Q.max_r; [assumption | lra].
  - apply Qltb_ge in E. rewrite Q.max_l; [assumption | lra].
Qed.

Lemma isQ_min x y p q : isQ x p -> isQ y q -> isQ (JS.min x y) (Qmin p q).
Proof.
  intros (a & -> & Ha)%isQ_inv (b & -> & Hb)%isQ_inv. simpl.
  destruct (Qltb b a) eqn:E; simpl.
  - apply Qltb_lt in E. rewrite Q.min_r; [assumption | lra].
  - apply Qltb_ge in E. rewrite Q.min_l; [assumption | lra].
Qed.

Lemma isQ_abs x p : isQ x p -> isQ (JS.abs x) (Qabs p).
Proof.
  intros (a & -> & Ha)%isQ_inv. simpl. rewrite Qred_correct, Ha. reflexivity.
Qed.

Lemma isQ_clamp x lo hi p a b :
  isQ x p -> isQ lo a -> isQ hi b -> isQ (clamp x lo hi) (Qmin b (Qmax a p)).
Proof. intros. unfold clamp. apply isQ_min; [|apply isQ_max]; assumption. Qed.

Lemma isQ_dec n k : isQ (dec n k) (n # Z.to_pos (10 ^ Z.of_nat k)).
Proof. apply isQ_fin. Qed.

#[global] Arguments JS.add : simpl never.
#[global] Arguments JS.sub : simpl never.
#[global] Arguments JS.mul : simpl never.
#[global] Arguments JS.div : simpl never.
#[global] Arguments JS.neg : simpl never.
#[global] Arguments JS.abs : simpl never.
#[global] Arguments JS.max : simpl never.
#[global] Arguments JS.min : simpl never.
#[global] Arguments JS.ltb : simpl never.
#[global] Arguments JS.leb : simpl never.
#[global] Arguments JS.gtb : simpl never.
#[global] Arguments JS.geb : simpl never.
#[global] Arguments JS.round : simpl never.
#[global] Arguments clamp : simpl never.
#[global] Arguments dec : simpl never.
#[global] Arguments fin : simpl never.
#[global] Arguments ofZ : simpl never.

Lemma ltb_Fin (p q : Q) : (Fin p <? Fin q)%num = Qltb p q.
Proof. reflexivity. Qed.

Lemma leb_Fin (p q : Q) : (Fin p <=? Fin q)%num = Qle_bool p q.
Proof. reflexivity. Qed.




Lemma american_negative (q : Q) :
  (q < 0)%Q -> isQ (Service.americanOddsToImpliedProbability (Fin q)) (Qabs q / (Qabs q + 100)).
Proof.
  intros Hq. unfold Service.americanOddsToImpliedProbability. simpl JS.isFinite.
  simpl JS.eqb. destruct (Qeq_bool q 0) eqn:E.
  { apply Qeq_bool_iff in E. lra. }
  simpl. rewrite ltb_Fin.
  replace (Qltb q 0) with true by (symmetry; apply Qltb_lt; exact Hq).
  assert (Habs : (0 < Qabs q)%Q).
  { rewrite Qabs_neg by lra. lra. }
  apply isQ_div.
  - apply (isQ_abs (Fin q)). simpl. reflexivity.
  - apply isQ_add; [apply (isQ_abs (Fin q)); simpl; reflexivity | apply isQ_ofZ].
  - change (inject_Z 100) with 100%Q. lra.
Qed.

Lemma american_positive (q : Q) :
  (0 < q)%Q -> isQ (Service.americanOddsToImpliedProbability (Fin q)) (100 / (q + 100)).
Proof.
  intros Hq. unfold Service.americanOddsToImpliedProbability. simpl JS.isFinite.
  simpl JS.eqb. destruct (Qeq_bool q 0) eqn:E.
  { apply Qeq_bool_iff in E. lra. }
  simpl. rewrite ltb_Fin.
  replace (Qltb q 0) with false by (symmetry; apply Qltb_ge; lra).
  apply (isQ_div (ofZ 100) (Fin q + ofZ 100)%num).
  - apply isQ_ofZ.
  - apply (isQ_add (Fin q) (ofZ 100)); [simpl; reflexivity | apply isQ_ofZ].
  - change (inject_Z 100) with 100%Q. lra.
Qed.

Lemma american_range (x : num) :
  JS.isFinite x = true ->
  exists p, Service.americanOddsToImpliedProbability x = Fin p /\ (0 < p < 1)%Q.
Proof.
  destruct x as [| | |q]; try discriminate. intros _.
  destruct (Q_dec q 0) as [[Hlt | Hgt] | Heq].
  - destruct (isQ_inv _ _ (american_negative q Hlt)) as (p & -> & Hp).
    exists p. split; [reflexivity |]. rewrite Hp.
    assert (0 < Qabs q)%Q by (rewrite Qabs_neg by lra; lra).
    split.
    + apply Qlt_shift_div_l; lra.
    + apply Qlt_shift_div_r; lra.
  - destruct (isQ_inv _ _ (american_positive q Hgt)) as (p & -> & Hp).
    exists p. split; [reflexivity |]. rewrite Hp. split.
    + apply Qlt_shift_div_l; lra.
    + apply Qlt_shift_div_r; lra.
  - unfold Service.americanOddsToImpliedProbability. simpl.
    replace (Qeq_bool q 0) with true by (symmetry; apply Qeq_bool_iff; exact Heq).
    simpl. eexists. split; [reflexivity |]. vm_compute. split; reflexivity.
Qed.

Lemma clamp_Fin_range (p a b : Q) :
  (a <= b)%Q ->
  exists r, clamp (Fin p) (Fin a) (Fin b) = Fin r /\ (a <= r <= b)%Q.
Proof.
  intros Hab.
  destruct (isQ_inv _ _ (isQ_clamp (Fin p) (Fin a) (Fin b) p a b
              (Qeq_refl _) (Qeq_refl _) (Qeq_refl _))) as (r & -> & Hr).
  exists r. split; [reflexivity |]. rewrite Hr.
  split.
  - apply Q.min_glb; [exact Hab | apply Q.le_max_l].
  - apply Q.le_min_l.
Qed.

Lemma parseNumeric_finite `{Runtime} (value : string) (x : num) :
  Service.parseNumeric value = Some x -> JS.isFinite x = true.
Proof.
  unfold Service.parseNumeric.
  destruct (Str.eqb value "" || Str.eqb (Str.trim value) ""); [discriminate |].
  destruct (JS.isFinite (Number_parseFloat value)) eqn:E; [| discriminate].
  intros [= <-]. exact E.
Qed.

Lemma moneyline_probability_clamped `{Runtime} (row : Service.ClosingLineRow) (record : Service.MoneylineRecord) :
  Service.moneylineOfRow row = Some record ->
  exists p, Service.impliedProbability record = Fin p /\ (1 # 100 <= p <= 99 # 100)%Q.
Proof.
  unfold Service.moneylineOfRow.
  destruct (negb (Str.eqb (Service.type row) "MONEYLINE")); [discriminate |].
  destruct (Service.parseNumeric (Service.odds row)) as [oddsValue |] eqn:Eodds; [| discriminate].
  destruct (negb (JS.isInteger (Str.parseInt (Str.sliceTo 4 (Service.game_id row)))));
    [discriminate |].
  intros [= <-]. simpl.
  destruct (american_range oddsValue (parseNumeric_finite _ _ Eodds)) as (p & -> & _).
  apply (clamp_Fin_range p (1 # 100) (99 # 100)). lra.
Qed.

Lemma american_impliedProbabilityOf (q : Q) :
  isQ (Service.americanOddsToImpliedProbability (Fin q)) (impliedProbabilityOf q).
Proof.
  unfold impliedProbabilityOf.
  destruct (Qlt_le_dec q 0) as [Hneg | Hnonneg]; [exact (american_negative q Hneg) |].
  destruct (Qlt_le_dec 0 q) as [Hpos | Hnonpos]; [exact (american_positive q Hpos) |].
  assert (Hzero : (q == 0)%Q) by lra.
  unfold Service.americanOddsToImpliedProbability. simpl JS.isFinite. simpl JS.eqb.
  replace (Qeq_bool q 0) with true by (symmetry; apply Qeq_bool_iff; exact Hzero).
  simpl. vm_compute. reflexivity.
Qed.

(** The record of a row: the row is a moneyline, its odds parse to a
    finite number, and the probability stored is the implied probability
    of these odds, clamped to [0.01, 0.99]. *)
Lemma moneyline_probability_stored `{Runtime} (row : Service.ClosingLineRow)
    (record : Service.MoneylineRecord) :
  Service.moneylineOfRow row = Some record ->
  Service.type row = "MONEYLINE"
  /\ exists q p,
       Number_parseFloat (Service.odds row) = Fin q
       /\ Service.impliedProbability record = Fin p
       /\ (p == Qmin (99 # 100) (Qmax (1 # 100) (impliedProbabilityOf q)))%Q.
Proof.
  unfold Service.moneylineOfRow, Str.eqb.
  destruct (bool_decide (Service.type row = "MONEYLINE")) eqn:Htype; [| discriminate].
  apply bool_decide_eq_true_1 in Htype. cbn [negb].
  unfold Service.parseNumeric.
  destruct (_ || _)%bool; [discriminate |].
  destruct (Number_parseFloat (Service.odds row)) as [| | | q] eqn:Hodds;
    try discriminate.
  cbn [JS.isFinite].
  destruct (negb (JS.isInteger (Str.parseInt (Str.sliceTo 4 (Service.game_id row)))));
    [discriminate |].
  intros [= <-]. split; [exact Htype |]. exists q.
  cbn [Service.impliedProbability].
  pose proof (isQ_clamp _ (dec 1 2) (dec 99 2) _ (1 # 100) (99 # 100)
                (american_impliedProbabilityOf q) (isQ_dec 1 2) (isQ_dec 99 2)) as Hclamp.
  destruct (isQ_inv _ _ Hclamp) as (p & Hp & Hvalue).
  exists p. split; [reflexivity |]. split; [exact Hp | exact Hvalue].
Qed.

Lemma moneylineRecords_stored `{Runtime} (rows : list Service.ClosingLineRow)
    (record : Service.MoneylineRecord) :
  record ∈ Service.moneylineRecords rows ->
  exists row q p,
    row ∈ rows
    /\ Service.type row = "MONEYLINE"
    /\ Number_parseFloat (Service.odds row) = Fin q
    /\ Service.impliedProbability record = Fin p
    /\ (p == Qmin (99 # 100) (Qmax (1 # 100) (impliedProbabilityOf q)))%Q.
Proof.
  unfold Service.moneylineRecords. intros Hrecord.
  apply list_elem_of_omap in Hrecord. destruct Hrecord as (row & Hrow & Hsome).
  destruct (moneyline_probability_stored row record Hsome) as (Htype & q & p & Hq & Hp & Hv).
  exists row, q, p. repeat (split; [assumption |]). exact Hv.
Qed.

(** C7: American odds are converted to the implied probability
    [|odds| / (|odds| + 100)] when negative and [100 / (odds + 100)]
    when positive: -110 gives 110/210 and +150 gives 100/250 = 0.4.  A
    moneyline record is made of a row of type MONEYLINE whose odds parse
    to a finite number, and the probability it stores is the implied
    probability of these odds clamped to [0.01, 0.99]. *)
Theorem american_odds_implied_probability `{Runtime} :
  (forall q : Q, (q < 0)%Q ->
     isQ (Service.americanOddsToImpliedProbability (Fin q)) (Qabs q / (Qabs q + 100)))
  /\ (forall q : Q, (0 < q)%Q ->
     isQ (Service.americanOddsToImpliedProbability (Fin q)) (100 / (q + 100)))
  /\ Service.americanOddsToImpliedProbability (ofZ (-110)) = Fin (11 # 21)
  /\ (11 # 21 == 110 / 210)%Q
  /\ Service.americanOddsToImpliedProbability (ofZ 150) = Fin (2 # 5)
  /\ (2 # 5 == 100 / 250)%Q
  /\ (forall (row : Service.ClosingLineRow) (record : Service.MoneylineRecord),
        Service.moneylineOfRow row = Some record ->
        exists p, Service.impliedProbability record = Fin p /\ (1 # 100 <= p <= 99 # 100)%Q)
  /\ (forall (rows : list Service.ClosingLineRow) (record : Service.MoneylineRecord),
        record ∈ Service.moneylineRecords rows ->
        exists row q p,
          row ∈ rows
          /\ Service.type row = "MONEYLINE"
          /\ Number_parseFloat (Service.odds row) = Fin q
          /\ Service.impliedProbability record = Fin p
          /\ (p == Qmin (99 # 100) (Qmax (1 # 100) (impliedProbabilityOf q)))%Q).
Proof.
  split; [exact american_negative |].
  split; [exact american_positive |].
  split; [vm_compute; reflexivity |].
  split; [reflexivity |].
  split; [vm_compute; reflexivity |].
  split; [reflexivity |].
  split; [exact moneyline_probability_clamped |].
  exact moneylineRecords_stored.
Qed.

Lemma american_odds_implied_probability_witness :
  (-110 < 0)%Q /\ (0 < 150)%Q /\
  exists record, @Service.moneylineOfRow sampleRuntime sampleRow = Some record /\
    isQ (Service.americanOddsToImpliedProbability (Fin (-110))) (Qabs (-110) / (Qabs (-110) + 100)) /\
    isQ (Service.americanOddsToImpliedProbability (Fin 150)) (100 / (150 + 100)) /\
    (exists p, Service.impliedProbability record = Fin p /\ (1 # 100 <= p <= 99 # 100)%Q) /\
    record ∈ @Service.moneylineRecords sampleRuntime [sampleRow] /\
    exists row q p,
      row ∈ [sampleRow]
      /\ Service.type row = "MONEYLINE"
      /\ @Number_parseFloat sampleRuntime (Service.odds row) = Fin q
      /\ Service.impliedProbability record = Fin p
      /\ (p == Qmin (99 # 100) (Qmax (1 # 100) (impliedProbabilityOf q)))%Q.
Proof.
  destruct (@american_odds_implied_probability sampleRuntime)
    as (Hneg & Hpos & _ & _ & _ & _ & Hrow & Hrecords).
  split; [reflexivity |]. split; [reflexivity |].
  eexists. split; [vm_compute; reflexivity |].
  split; [apply Hneg; reflexivity |].
  split; [apply Hpos; reflexivity |].
  split; [apply (Hrow sampleRow); vm_compute; reflexivity |].
  assert (Hin : {| Service.ml_season := ofZ 2023; Service.ml_side := "KC";
                   Service.impliedProbability := Fin (11 # 21) |}
                ∈ @Service.moneylineRecords sampleRuntime [sampleRow]).
  { apply list_elem_of_In. vm_compute. left. reflexivity. }
  split; [exact Hin |]. exact (Hrecords [sampleRow] _ Hin).
Defined.

Example impliedProbabilityOf_samples :
  (impliedProbabilityOf (-110) == 110 / 210)%Q
  /\ (impliedProbabilityOf 150 == 100 / 250)%Q
  /\ (Qmin (99 # 100) (Qmax (1 # 100) (impliedProbabilityOf (-100000))) == 99 # 100)%Q
  /\ (Qmin (99 # 100) (Qmax (1 # 100) (impliedProbabilityOf 100000)) == 1 # 100)%Q.
Proof. repeat split; vm_compute; reflexivity. Qed.

(** ** The game clock (liveGameFeedService.ts) *)

Lemma clampZ_id (v lo hi : Z) : lo <= v <= hi -> LiveGame.clampZ v lo hi = v.
Proof. unfold LiveGame.clampZ. lia. Qed.

Lemma clampZ_range (v lo hi : Z) : lo <= hi -> lo <= LiveGame.clampZ v lo hi <= hi.
Proof. unfold LiveGame.clampZ. lia. Qed.

Lemma parseClockToSeconds_range (clock : option string) (s : Z) :
  LiveGame.parseClockToSeconds clock = Some s -> 0 <= s <= 900.
Proof.
  unfold LiveGame.parseClockToSeconds.
  destruct clock as [c |]; [| discriminate].
  destruct (Str.eqb c ""); [discriminate |].
  destruct (LiveGame.matchClock _) as [[mins secs] |]; [| discriminate].
  intros [= <-]. apply clampZ_range. lia.
Qed.

(** The derivation on a well-formed clock: a period from 1 on and
    seconds within one period. *)
Lemma calculateRemainingGameSeconds_spec
    (status : LiveGameStatus) (period : Z) (secondsInPeriod : option Z) :
  1 <= period ->
  (forall s, secondsInPeriod = Some s -> 0 <= s <= 900) ->
  LiveGame.calculateRemainingGameSeconds status period secondsInPeriod =
    match status with
    | final | postponed => Some 0
    | pregame => Some 3600
    | halftime => Some 1800
    | in_progress | unknown =>
        match secondsInPeriod with
        | None => None
        | Some s => if period <=? 4 then Some ((4 - period) * 900 + s) else Some s
        end
    end.
Proof.
  intros Hperiod Hseconds. unfold LiveGame.calculateRemainingGameSeconds.
  destruct status; simpl; try reflexivity;
    (destruct secondsInPeriod as [s |]; [| reflexivity]);
    specialize (Hseconds s eq_refl);
    (destruct (Z.leb_spec period 4);
      [rewrite !clampZ_id by lia; f_equal; lia | rewrite clampZ_id by lia; reflexivity]).
Qed.

Lemma parseClock_period (status : LiveGameStatus) (periodNumber : option Q)
    (node : option string) :
  1 <= period (LiveGame.parseClock status periodNumber node).
Proof. simpl. lia. Qed.

Lemma isDigit_digitChar (d : Z) :
  0 <= d <= 9 -> Str.isDigit (digitChar d) = true /\ Str.digitValue (digitChar d) = d.
Proof.
  intros Hd.
  assert (Hcases : d = 0 \/ d = 1 \/ d = 2 \/ d = 3 \/ d = 4 \/ d = 5 \/ d = 6
                   \/ d = 7 \/ d = 8 \/ d = 9) by lia.
  repeat (destruct Hcases as [-> | Hcases]; [split; reflexivity |]).
  subst d. split; reflexivity.
Qed.

Lemma isDigit_inv (c : ascii) :
  Str.isDigit c = true -> exists d, 0 <= d <= 9 /\ c = digitChar d /\ Str.digitValue c = d.
Proof.
  unfold Str.isDigit, Str.inRange, Str.digitValue, Str.code. intros Hc.
  apply andb_prop in Hc. destruct Hc as [Hlo Hhi].
  apply Z.leb_le in Hlo, Hhi.
  exists (Z.of_N (N_of_ascii c) - 48). split; [lia |]. split; [| reflexivity].
  unfold digitChar.
  replace (48 + (Z.of_N (N_of_ascii c) - 48)) with (Z.of_N (N_of_ascii c)) by lia.
  rewrite N2Z.id, ascii_N_embedding. reflexivity.
Qed.

Lemma chars_ofChars (l : list ascii) : Str.chars (Str.ofChars l) = l.
Proof. apply list_ascii_of_string_of_list_ascii. Qed.

Lemma clockSeconds_spec (l : list ascii) (v : Z) :
  clockSeconds l = Some v <->
  exists m1 m2 s1 s2 : Z,
    0 <= m1 <= 9 /\ 0 <= m2 <= 9 /\ 0 <= s1 <= 9 /\ 0 <= s2 <= 9
    /\ (m1 = 0 /\ l = [digitChar m2; ":"%char; digitChar s1; digitChar s2]
        \/ l = [digitChar m1; digitChar m2; ":"%char; digitChar s1; digitChar s2])
    /\ v = Z.min 900 (60 * (10 * m1 + m2) + (10 * s1 + s2)).
Proof.
  unfold clockSeconds. split.
  - destruct l as [| a [| b [| c [| d [| e [| f l]]]]]]; try discriminate.
    + unfold LiveGame.matchClock. destruct (bool_decide (b = ":"%char)) eqn:Hsep;
        [| discriminate].
      apply bool_decide_eq_true_1 in Hsep. subst b. cbn [andb forallb].
      destruct (Str.isDigit a) eqn:Ha; [| discriminate].
      destruct (Str.isDigit c) eqn:Hc; [| discriminate].
      destruct (Str.isDigit d) eqn:Hd; [| discriminate].
      cbn [andb]. intros [= <-].
      destruct (isDigit_inv a Ha) as (m2 & Hm2 & -> & Va).
      destruct (isDigit_inv c Hc) as (s1 & Hs1 & -> & Vc).
      destruct (isDigit_inv d Hd) as (s2 & Hs2 & -> & Vd).
      exists 0, m2, s1, s2. repeat (split; [lia |]).
      split; [left; split; reflexivity |].
      unfold Str.digitsValue, LiveGame.clampZ. cbn [fold_left]. rewrite Va, Vc, Vd. lia.
    + unfold LiveGame.matchClock. destruct (bool_decide (c = ":"%char)) eqn:Hsep;
        [| discriminate].
      apply bool_decide_eq_true_1 in Hsep. subst c. cbn [andb forallb].
      destruct (Str.isDigit a) eqn:Ha; [| discriminate].
      destruct (Str.isDigit b) eqn:Hb; [| discriminate].
      destruct (Str.isDigit d) eqn:Hd; [| discriminate].
      destruct (Str.isDigit e) eqn:He; [| discriminate].
      cbn [andb]. intros [= <-].
      destruct (isDigit_inv a Ha) as (m1 & Hm1 & -> & Va).
      destruct (isDigit_inv b Hb) as (m2 & Hm2 & -> & Vb).
      destruct (isDigit_inv d Hd) as (s1 & Hs1 & -> & Vd).
      destruct (isDigit_inv e He) as (s2 & Hs2 & -> & Ve).
      exists m1, m2, s1, s2. repeat (split; [lia |]).
      split; [right; reflexivity |].
      unfold Str.digitsValue, LiveGame.clampZ. cbn [fold_left].
      rewrite Va, Vb, Vd, Ve. lia.
  - intros (m1 & m2 & s1 & s2 & Hm1 & Hm2 & Hs1 & Hs2 & Hl & ->).
    destruct (isDigit_digitChar m1 Hm1) as [Dm1 Vm1].
    destruct (isDigit_digitChar m2 Hm2) as [Dm2 Vm2].
    destruct (isDigit_digitChar s1 Hs1) as [Ds1 Vs1].
    destruct (isDigit_digitChar s2 Hs2) as [Ds2 Vs2].
    destruct Hl as [[-> ->] | ->]; unfold LiveGame.matchClock;
      rewrite bool_decide_eq_true_2 by reflexivity; cbn [andb forallb].
    + rewrite Dm2, Ds1, Ds2. cbn [andb]. f_equal.
      unfold Str.digitsValue, LiveGame.clampZ. cbn [fold_left].
      rewrite Vm2, Vs1, Vs2. lia.
    + rewrite Dm1, Dm2, Ds1, Ds2. cbn [andb]. f_equal.
      unfold Str.digitsValue, LiveGame.clampZ. cbn [fold_left].
      rewrite Vm1, Vm2, Vs1, Vs2. lia.
Qed.

Lemma clockReading_seconds (text : string) (minutes seconds : Z) :
  clockReading text minutes seconds ->
  clockSeconds (Str.chars (Str.trim text)) = Some (Z.min 900 (60 * minutes + seconds)).
Proof.
  intros (m1 & m2 & s1 & s2 & Hm1 & Hm2 & Hs1 & Hs2 & Htext & -> & ->).
  apply clockSeconds_spec. exists m1, m2, s1, s2.
  repeat (split; [assumption |]). split; [| reflexivity].
  destruct Htext as [[-> Htext] | Htext]; [left; split; [reflexivity |] | right];
    rewrite Htext; apply chars_ofChars.
Qed.

Lemma parseClockToSeconds_reading (text : string) (v : Z) :
  LiveGame.parseClockToSeconds (Some text) = Some v <->
  exists minutes seconds,
    clockReading text minutes seconds /\ v = Z.min 900 (60 * minutes + seconds).
Proof.
  assert (Hparse : LiveGame.parseClockToSeconds (Some text)
                   = if Str.eqb text "" then None
                     else clockSeconds (Str.chars (Str.trim text))).
  { unfold LiveGame.parseClockToSeconds, clockSeconds, Str.trim.
    rewrite chars_ofChars. reflexivity. }
  rewrite Hparse. clear Hparse.
  split.
  - destruct (Str.eqb text ""); [discriminate |]. intros Hv.
    apply clockSeconds_spec in Hv.
    destruct Hv as (m1 & m2 & s1 & s2 & Hm1 & Hm2 & Hs1 & Hs2 & Hl & ->).
    exists (10 * m1 + m2), (10 * s1 + s2). split; [| reflexivity].
    exists m1, m2, s1, s2. repeat (split; [assumption |]).
    split; [| split; reflexivity].
    destruct Hl as [[-> Hl] | Hl]; [left; split; [reflexivity |] | right];
      rewrite <- Hl; unfold Str.trim; rewrite chars_ofChars; reflexivity.
  - intros (minutes & seconds & Hread & ->).
    apply clockReading_seconds in Hread.
    unfold Str.eqb. destruct (bool_decide (text = "")) eqn:Hempty; [| exact Hread].
    apply bool_decide_eq_true_1 in Hempty. subst text. discriminate Hread.
Qed.

(** The text of the clock a snapshot shows is the trimmed [displayClock]
    node of the feed when there is one. *)
Lemma parseClock_displayClock (status : LiveGameStatus) (periodNumber : option Q)
    (text : string) :
  Str.trim text <> "" ->
  displayClock (LiveGame.parseClock status periodNumber (Some text)) = Str.trim text.
Proof.
  intros Htext. unfold LiveGame.parseClock, LiveGame.getString. cbv zeta.
  cbn [displayClock]. unfold Str.eqb.
  rewrite (bool_decide_eq_false_2 (Str.trim text = "") Htext).
  cbn [default from_option].
  rewrite (bool_decide_eq_false_2 (Str.trim text = "") Htext). reflexivity.
Qed.

(** The seconds left in the period are read off the display clock of
    the snapshot, and off nothing else. *)
Lemma parseClock_reading (status : LiveGameStatus) (periodNumber : option Q)
    (node : option string) (v : Z) :
  let c := LiveGame.parseClock status periodNumber node in
  secondsRemainingInPeriod c = Some v <->
  exists minutes seconds,
    clockReading (displayClock c) minutes seconds
    /\ v = Z.min 900 (60 * minutes + seconds).
Proof.
  cbv zeta. unfold LiveGame.parseClock. cbv zeta.
  cbn [secondsRemainingInPeriod displayClock].
  set (shown := default _ (LiveGame.getString node)).
  unfold Str.eqb at 1. destruct (bool_decide (shown = "")) eqn:Hshown.
  - apply bool_decide_eq_true_1 in Hshown. rewrite Hshown. split; [discriminate |].
    intros (minutes & seconds & Hread & _).
    apply clockReading_seconds in Hread. discriminate Hread.
  - apply parseClockToSeconds_reading.
Qed.

(** C6: the remaining game seconds of a snapshot clock: 0 once the game
    is final or postponed, 3600 before it, 1800 at halftime; otherwise
    the periods still to play plus the seconds left in the period up to
    the fourth period and the seconds of the period alone in overtime.
    The seconds left in the period are what the display clock reads,
    [minutes:seconds], capped at 900; a display clock that does not read
    so gives null seconds in the period and, while the game is in
    progress, null remaining game seconds: never a number. *)
Theorem remaining_game_seconds_derivation
    (status : LiveGameStatus) (periodNumber : option Q) (node : option string) :
  let c := LiveGame.parseClock status periodNumber node in
  secondsRemainingGame c =
    match status with
    | final | postponed => Some 0
    | pregame => Some 3600
    | halftime => Some 1800
    | in_progress | unknown =>
        match secondsRemainingInPeriod c with
        | None => None
        | Some s =>
            if period c <=? 4 then Some ((4 - period c) * 900 + s) else Some s
        end
    end
  /\ (status = in_progress \/ status = unknown ->
      (secondsRemainingInPeriod c = None <-> secondsRemainingGame c = None))
  /\ (forall text, node = Some text -> Str.trim text <> "" ->
      displayClock c = Str.trim text)
  /\ (forall v,
        secondsRemainingInPeriod c = Some v <->
        exists minutes seconds,
          clockReading (displayClock c) minutes seconds
          /\ v = Z.min 900 (60 * minutes + seconds))
  /\ ((forall minutes seconds, ~ clockReading (displayClock c) minutes seconds) ->
      secondsRemainingInPeriod c = None
      /\ (status = in_progress \/ status = unknown -> secondsRemainingGame c = None)).
Proof.
  intros c.
  assert (Hderived :
    secondsRemainingGame c =
      match status with
      | final | postponed => Some 0
      | pregame => Some 3600
      | halftime => Some 1800
      | in_progress | unknown =>
          match secondsRemainingInPeriod c with
          | None => None
          | Some s =>
              if period c <=? 4 then Some ((4 - period c) * 900 + s) else Some s
          end
      end).
  { subst c. unfold LiveGame.parseClock.
    cbv beta zeta. cbn [secondsRemainingGame secondsRemainingInPeriod period].
    set (p := Z.max 1 _).
    set (sec := LiveGame.parseClockToSeconds _).
    exact (calculateRemainingGameSeconds_spec status p sec
             ltac:(subst p; lia) (fun s => parseClockToSeconds_range _ s)). }
  assert (Hnull : status = in_progress \/ status = unknown ->
                  (secondsRemainingInPeriod c = None <-> secondsRemainingGame c = None)).
  { intros Hstatus. rewrite Hderived.
    destruct Hstatus as [-> | ->]; destruct (secondsRemainingInPeriod c) as [s |];
      (split; [try discriminate; reflexivity |]);
      try reflexivity; destruct (period c <=? 4); discriminate. }
  assert (Hread := fun v => parseClock_reading status periodNumber node v).
  cbv zeta in Hread. fold c in Hread.
  split; [exact Hderived |]. split; [exact Hnull |].
  split; [intros text -> Htext; apply parseClock_displayClock, Htext |].
  split; [exact Hread |].
  intros Hunreadable.
  assert (Hperiod : secondsRemainingInPeriod c = None).
  { destruct (secondsRemainingInPeriod c) as [v |] eqn:Hv; [| reflexivity].
    destruct (proj1 (Hread v) eq_refl) as (minutes & seconds & Hr & _).
    destruct (Hunreadable _ _ Hr). }
  split; [exact Hperiod |]. intros Hstatus. apply (Hnull Hstatus), Hperiod.
Qed.

Example clock_reading_third_quarter : clockReading " 7:05 " 7 5.
Proof.
  exists 0, 7, 0, 5. repeat (split; [lia |]).
  split; [left; split; reflexivity | split; reflexivity].
Qed.

Example clock_end_of_quarter_unreadable (minutes seconds : Z) :
  ~ clockReading "End of 2nd" minutes seconds.
Proof.
  intros Hread. apply clockReading_seconds in Hread. discriminate Hread.
Qed.

Example clock_third_quarter :
  LiveGame.parseClock in_progress (Some (3 # 1)%Q) (Some "7:05")
  = {| period := 3; displayClock := "7:05";
       secondsRemainingInPeriod := Some 425; secondsRemainingGame := Some 1325 |}.
Proof. reflexivity. Qed.

Example clock_overtime :
  secondsRemainingGame (LiveGame.parseClock in_progress (Some (5 # 1)%Q) (Some "9:30"))
  = Some 570.
Proof. reflexivity. Qed.

Example clock_unparseable :
  LiveGame.parseClock in_progress (Some (2 # 1)%Q) (Some "End of 2nd")
  = {| period := 2; displayClock := "End of 2nd";
       secondsRemainingInPeriod := None; secondsRemainingGame := None |}.
Proof. reflexivity. Qed.

Example clock_missing :
  LiveGame.parseClock in_progress None None
  = {| period := 1; displayClock := "--:--";
       secondsRemainingInPeriod := None; secondsRemainingGame := None |}.
Proof. reflexivity. Qed.

(** ** The sentiment scorer (liveSentimentService.ts) *)

Lemma terms_disjoint (token : string) :
  token ∈ Sentiment.POSITIVE_TERMS -> token ∉ Sentiment.NEGATIVE_TERMS.
Proof.
  revert token. apply (set_Forall_elements _ Sentiment.POSITIVE_TERMS).
  apply (bool_decide_unpack _). vm_compute. reflexivity.
Qed.

Lemma tokenScore_positive (score : Z) (token : string) :
  token ∈ Sentiment.POSITIVE_TERMS -> Sentiment.tokenScore score token = score + 1.
Proof.
  intros Hpos. unfold Sentiment.tokenScore.
  rewrite (bool_decide_eq_true_2 _ Hpos).
  rewrite (bool_decide_eq_false_2 _ (terms_disjoint _ Hpos)). reflexivity.
Qed.

Lemma tokenScore_negative (score : Z) (token : string) :
  token ∈ Sentiment.NEGATIVE_TERMS -> Sentiment.tokenScore score token = score - 1.
Proof.
  intros Hneg. unfold Sentiment.tokenScore.
  assert (Hpos : token ∉ Sentiment.POSITIVE_TERMS).
  { intros Hpos. exact (terms_disjoint _ Hpos Hneg). }
  rewrite (bool_decide_eq_false_2 _ Hpos).
  rewrite (bool_decide_eq_true_2 _ Hneg). reflexivity.
Qed.

Lemma score_all_positive (tokens : list string) (score : Z) :
  Forall (fun t => t ∈ Sentiment.POSITIVE_TERMS) tokens ->
  fold_left Sentiment.tokenScore tokens score = score + Z.of_nat (length tokens).
Proof.
  intros Hall. revert score.
  induction Hall as [| t ts Ht _ IH]; intros score; simpl.
  - lia.
  - rewrite IH, (tokenScore_positive _ _ Ht). lia.
Qed.

Lemma score_all_negative (tokens : list string) (score : Z) :
  Forall (fun t => t ∈ Sentiment.NEGATIVE_TERMS) tokens ->
  fold_left Sentiment.tokenScore tokens score = score - Z.of_nat (length tokens).
Proof.
  intros Hall. revert score.
  induction Hall as [| t ts Ht _ IH]; intros score; simpl.
  - lia.
  - rewrite IH, (tokenScore_negative _ _ Ht). lia.
Qed.

Lemma scoreCommentaryText_value (text : string) :
  let tokens := Sentiment.tokenize text in
  length tokens <> 0%nat ->
  isQ (Sentiment.scoreCommentaryText text)
      (scoreValue (fold_left Sentiment.tokenScore tokens 0) (length tokens)).
Proof.
  intros tokens Hlen. unfold Sentiment.scoreCommentaryText. fold tokens.
  rewrite (bool_decide_eq_false_2 _ Hlen).
  unfold scoreValue.
  apply (isQ_clamp _ (ofZ (-1)) (ofZ 1) _ (-1) 1); [| reflexivity | reflexivity].
  apply isQ_mul; [| apply isQ_dec].
  apply isQ_div; [apply isQ_ofZ | |].
  - apply isQ_max; apply isQ_ofZ.
  - assert (4 <= Qmax (inject_Z (Z.of_nat (length tokens))) 4)%Q
      by apply Q.le_max_r.
    lra.
Qed.

Lemma scoreValue_range (score : Z) (tokenCount : nat) :
  (-1 <= scoreValue score tokenCount <= 1)%Q.
Proof.
  unfold scoreValue. split.
  - apply Q.min_glb; [lra | apply Q.le_max_l].
  - apply Q.le_min_l.
Qed.

Lemma scoreValue_sign (score : Z) (tokenCount : nat) :
  (0 < score -> (0 < scoreValue score tokenCount)%Q) /\
  (score < 0 -> (scoreValue score tokenCount < 0)%Q).
Proof.
  unfold scoreValue.
  set (d := Qmax (inject_Z (Z.of_nat tokenCount)) 4).
  assert (Hd : (4 <= d)%Q) by apply Q.le_max_r.
  split; intros Hs.
  - assert (0 < inject_Z score)%Q by (change 0%Q with (inject_Z 0); rewrite <- Zlt_Qlt; exact Hs).
    assert (0 < inject_Z score / d)%Q by (apply Qlt_shift_div_l; lra).
    apply Q.min_glb_lt; [lra |].
    apply Qlt_le_trans with (inject_Z score / d * (24 # 10))%Q; [| apply Q.le_max_r].
    nra.
  - assert (inject_Z score < 0)%Q by (change 0%Q with (inject_Z 0); rewrite <- Zlt_Qlt; exact Hs).
    assert (inject_Z score / d < 0)%Q by (apply Qlt_shift_div_r; lra).
    apply Qle_lt_trans with (Qmax (-1) (inject_Z score / d * (24 # 10)))%Q;
      [apply Q.le_min_r |].
    apply Q.max_lub_lt; [lra | nra].
Qed.

Lemma scoreCommentaryText_range (text : string) :
  exists q, Sentiment.scoreCommentaryText text = Fin q /\ (-1 <= q <= 1)%Q.
Proof.
  destruct (decide (length (Sentiment.tokenize text) = 0%nat)) as [Hlen | Hlen].
  - exists 0%Q. split; [| lra].
    unfold Sentiment.scoreCommentaryText.
    rewrite (bool_decide_eq_true_2 _ Hlen). reflexivity.
  - destruct (isQ_inv _ _ (scoreCommentaryText_value text Hlen)) as (q & -> & Hq).
    exists q. split; [reflexivity |]. rewrite Hq. apply scoreValue_range.
Qed.

(** C8: the sentiment scorer returns a value of [-1, 1] on every text
    and exactly 0 on the empty text, and a text of n >= 1 tokens that are
    all positive terms scores strictly more than a text of n tokens that
    are all negative terms. *)
Theorem sentiment_score_properties :
  (forall text : string,
     exists q, Sentiment.scoreCommentaryText text = Fin q /\ (-1 <= q <= 1)%Q)
  /\ Sentiment.scoreCommentaryText "" = Fin 0
  /\ (forall (positiveText negativeText : string) (n : nat),
        (1 <= n)%nat ->
        length (Sentiment.tokenize positiveText) = n ->
        length (Sentiment.tokenize negativeText) = n ->
        Forall (fun t => t ∈ Sentiment.POSITIVE_TERMS) (Sentiment.tokenize positiveText) ->
        Forall (fun t => t ∈ Sentiment.NEGATIVE_TERMS) (Sentiment.tokenize negativeText) ->
        exists p q,
          Sentiment.scoreCommentaryText positiveText = Fin p /\
          Sentiment.scoreCommentaryText negativeText = Fin q /\
          (q < p)%Q).
Proof.
  split; [exact scoreCommentaryText_range |].
  split; [reflexivity |].
  intros positiveText negativeText n Hn Hlp Hln Hpos Hneg.
  assert (Hp := scoreCommentaryText_value positiveText ltac:(lia)).
  assert (Hq := scoreCommentaryText_value negativeText ltac:(lia)).
  cbv zeta in Hp, Hq.
  rewrite (score_all_positive _ _ Hpos), Hlp in Hp.
  rewrite (score_all_negative _ _ Hneg), Hln in Hq.
  destruct (isQ_inv _ _ Hp) as (p & -> & Ep).
  destruct (isQ_inv _ _ Hq) as (q & -> & Eq).
  exists p, q. split; [reflexivity |]. split; [reflexivity |].
  rewrite Ep, Eq.
  destruct (scoreValue_sign (0 + Z.of_nat n) n) as [Hgt _]. 
  destruct (scoreValue_sign (0 - Z.of_nat n) n) as [_ Hlt].
  specialize (Hgt ltac:(lia)). specialize (Hlt ltac:(lia)). lra.
Qed.

Lemma sentiment_score_properties_witness :
  exists p q,
    Sentiment.scoreCommentaryText "Touchdown! Great win" = Fin p /\
    Sentiment.scoreCommentaryText "penalty, fumble, punt" = Fin q /\
    (q < p)%Q.
Proof.
  destruct sentiment_score_properties as (_ & _ & H).
  apply (H "Touchdown! Great win" "penalty, fumble, punt" 3%nat).
  - lia.
  - vm_compute. reflexivity.
  - vm_compute. reflexivity.
  - apply (bool_decide_unpack _). vm_compute. reflexivity.
  - apply (bool_decide_unpack _). vm_compute. reflexivity.
Defined.

Example tokenize_play :
  Sentiment.tokenize "  (12:41) R.Wilson pass INCOMPLETE -- penalty " =
  ["12"; "41"; "r"; "wilson"; "pass"; "incomplete"; "penalty"].
Proof. vm_compute. reflexivity. Qed.

Example score_one_positive : Sentiment.scoreCommentaryText "good" = Fin (3 # 5).
Proof. vm_compute. reflexivity. Qed.

Example score_repeated_positive :
  Sentiment.scoreCommentaryText "good good good good good" = Fin 1.
Proof. vm_compute. reflexivity. Qed.

Example score_repeated_negative :
  Sentiment.scoreCommentaryText "miss miss miss miss miss" = Fin (-1).
Proof. vm_compute. reflexivity. Qed.

Example score_mixed : Sentiment.scoreCommentaryText "touchdown after the penalty" = Fin 0.
Proof. vm_compute. reflexivity. Qed.

(** ** Sums of finite numbers *)

Lemma isQ_toQ (x : num) : JS.isFinite x = true -> isQ x (toQ x).
Proof. destruct x; try discriminate. intros _. simpl. reflexivity. Qed.

Lemma nonNegative_isQ (x : num) : nonNegative x -> isQ x (toQ x) /\ (0 <= toQ x)%Q.
Proof. intros (q & -> & Hq). simpl. split; [reflexivity | exact Hq]. Qed.

Lemma isQ_toQ_eq (x : num) (q : Q) : isQ x q -> (toQ x == q)%Q.
Proof. destruct x; simpl; tauto. Qed.

Lemma isQ_finite (x : num) (q : Q) : isQ x q -> JS.isFinite x = true.
Proof. destruct x; simpl; tauto. Qed.

Lemma isQ_fold_add (xs : list num) (acc : num) (a : Q) :
  Forall (fun x => JS.isFinite x = true) xs -> isQ acc a ->
  isQ (fold_left JS.add xs acc) (a + Qsum (map toQ xs)).
Proof.
  intros Hxs. revert acc a.
  induction Hxs as [| x xs Hx _ IH]; intros acc a Hacc; simpl.
  - eapply isQ_proper; [exact Hacc | ring].
  - eapply isQ_proper.
    + apply IH. apply isQ_add; [exact Hacc | apply isQ_toQ, Hx].
    + ring.
Qed.

Lemma isQ_sumNumbers (xs : list num) :
  Forall (fun x => JS.isFinite x = true) xs ->
  isQ (sumNumbers xs) (Qsum (map toQ xs)).
Proof.
  intros Hxs. unfold sumNumbers.
  eapply isQ_proper; [apply (isQ_fold_add xs (Fin 0) 0 Hxs); reflexivity | ring].
Qed.

(** A sum of numbers is finite only if every term is: NaN and the
    infinities never leave an accumulator. *)
Lemma fold_add_not_finite (xs : list num) (acc : num) :
  JS.isFinite acc = false -> JS.isFinite (fold_left JS.add xs acc) = false.
Proof.
  revert acc. induction xs as [| x xs IH]; intros acc Hacc; simpl; [exact Hacc |].
  apply IH. destruct acc, x; try discriminate; reflexivity.
Qed.

Lemma fold_add_finite (xs : list num) (acc : num) :
  JS.isFinite (fold_left JS.add xs acc) = true ->
  Forall (fun x => JS.isFinite x = true) xs.
Proof.
  revert acc. induction xs as [| x xs IH]; intros acc Hfin; [constructor |].
  simpl in Hfin. constructor.
  - destruct (JS.isFinite x) eqn:E; [reflexivity |].
    rewrite fold_add_not_finite in Hfin; [discriminate |].
    destruct acc, x; try discriminate; reflexivity.
  - exact (IH _ Hfin).
Qed.

Lemma Qsum_app (a b : list Q) : (Qsum (a ++ b) == Qsum a + Qsum b)%Q.
Proof. induction a as [| q a IH]; simpl; [ring | rewrite IH; ring]. Qed.

Lemma Qsum_nonneg (qs : list Q) : Forall (fun q => 0 <= q)%Q qs -> (0 <= Qsum qs)%Q.
Proof. induction 1 as [| q qs Hq _ IH]; simpl; lra. Qed.

Lemma Qsum_member_le (qs : list Q) (q : Q) :
  Forall (fun q => 0 <= q)%Q qs -> q ∈ qs -> (q <= Qsum qs)%Q.
Proof.
  intros Hqs. induction Hqs as [| p qs Hp Hqs IH]; intros Hin.
  - inversion Hin.
  - assert (0 <= Qsum qs)%Q by (apply Qsum_nonneg; exact Hqs).
    apply elem_of_cons in Hin as [-> | Hin]; simpl; [lra |].
    specialize (IH Hin). lra.
Qed.

Lemma Qsum_scale (k : Q) (qs : list Q) :
  (Qsum (map (fun q => q * k) qs) == Qsum qs * k)%Q.
Proof. induction qs as [| q qs IH]; simpl; [ring | rewrite IH; ring]. Qed.

Lemma Qsum_ext (f g : nat -> Q) (l : list nat) :
  (forall x, x ∈ l -> f x == g x)%Q -> (Qsum (map f l) == Qsum (map g l))%Q.
Proof.
  induction l as [| x l IH]; intros Hfg; simpl; [reflexivity |].
  rewrite (Hfg x) by (apply elem_of_cons; left; reflexivity).
  rewrite IH; [reflexivity |].
  intros y Hy. apply Hfg, elem_of_cons. right. exact Hy.
Qed.

Lemma Qsum_Permutation (f : nat -> Q) (l l' : list nat) :
  Permutation l l' -> (Qsum (map f l) == Qsum (map f l'))%Q.
Proof.
  induction 1 as [| x l l' _ IH | x y l | l l' l'' _ IH1 _ IH2]; simpl.
  - reflexivity.
  - rewrite IH. reflexivity.
  - ring.
  - rewrite IH1. exact IH2.
Qed.

Lemma Qsum_concat_map (F : nat -> list Q) (l : list nat) :
  (Qsum (concat (map F l)) == Qsum (map (fun x => Qsum (F x)) l))%Q.
Proof.
  induction l as [| x l IH]; simpl; [reflexivity |].
  rewrite Qsum_app, IH. reflexivity.
Qed.
(** ** finalizeBoardPercentages *)

Lemma concat_map_map {A B} (f : A -> B) (ll : list (list A)) :
  concat (map (map f) ll) = map f (concat ll).
Proof.
  induction ll as [| l ll IH]; simpl; [reflexivity |].
  rewrite IH, map_app. reflexivity.
Qed.

Lemma Forall_concat_2 {A} (P : A -> Prop) (ll : list (list A)) :
  Forall (Forall P) ll -> Forall P (concat ll).
Proof. induction 1; simpl; [constructor | apply Forall_app; split; assumption]. Qed.

Lemma elem_of_concat_row {A} (ll : list (list A)) (row : list A) (x : A) :
  row ∈ ll -> x ∈ row -> x ∈ concat ll.
Proof.
  intros Hrow Hx. induction ll as [| l ll IH]; [inversion Hrow |].
  simpl. apply elem_of_app.
  apply elem_of_cons in Hrow as [<- | Hrow]; [left; exact Hx | right; exact (IH Hrow)].
Qed.

Lemma Qsum_map_scaled (f : num -> num) (k : Q) (xs : list num) :
  Forall (fun x => isQ (f x) (toQ x * k)) xs ->
  (Qsum (map toQ (map f xs)) == Qsum (map toQ xs) * k)%Q.
Proof.
  induction 1 as [| x xs Hx _ IH]; simpl; [ring |].
  rewrite IH, (isQ_toQ_eq _ _ Hx). ring.
Qed.

Lemma nonNegative_finite (x : num) : nonNegative x -> JS.isFinite x = true.
Proof. intros (q & -> & _). reflexivity. Qed.

Lemma nonNegative_toQ (x : num) : nonNegative x -> (0 <= toQ x)%Q.
Proof. intros (q & -> & Hq). exact Hq. Qed.

(** Rescaling one cell of a board whose total [t] is positive. *)
Lemma finalize_cell (x scale : num) (t : Q) :
  nonNegative x -> (toQ x <= t)%Q -> (0 < t)%Q -> isQ scale (100 / t) ->
  isQ (clamp (x * scale)%num (Fin 0) (ofZ 100)) (toQ x * (100 / t))
  /\ (0 <= toQ x * (100 / t) <= 100)%Q.
Proof.
  intros (q & -> & Hq) Hle Ht Hscale. simpl in Hle |- *.
  assert (H1 : (0 <= q * (100 / t))%Q).
  { apply Qmult_le_0_compat; [exact Hq |]. apply Qle_shift_div_l; lra. }
  assert (H2 : (q * (100 / t) <= 100)%Q).
  { assert (E : (q * (100 / t) == q * 100 / t)%Q) by (field; lra).
    rewrite E. apply Qle_shift_div_r; [exact Ht |]. nra. }
  split; [| split; assumption].
  eapply isQ_proper.
  - apply (isQ_clamp _ (Fin 0) (ofZ 100) (q * (100 / t)) 0 100);
      [| reflexivity | reflexivity].
    apply isQ_mul; [reflexivity | exact Hscale].
  - rewrite Q.max_r by exact H1. rewrite Q.min_r by exact H2. reflexivity.
Qed.

(** Whatever the board, as long as its cells are finite and not
    negative: the finalized board has its cells in [0, 100] and sums to
    100; when the total is positive each cell is the input cell times
    [100 / total]. *)
Lemma finalizeBoardPercentages_spec (board : list (list num)) :
  Forall (Forall nonNegative) board ->
  let out := finalizeBoardPercentages board in
  let t := Qsum (map toQ (concat board)) in
  Forall (Forall (fun x => exists q, x = Fin q /\ (0 <= q <= 100)%Q)) out
  /\ isQ (sumNumbers (concat out)) 100
  /\ ((0 < t)%Q ->
      out = map (map (fun x => clamp (x * (ofZ 100 / sumNumbers (concat board)))%num
                                     (Fin 0) (ofZ 100))) board
      /\ Forall (Forall (fun x =>
           isQ (clamp (x * (ofZ 100 / sumNumbers (concat board)))%num (Fin 0) (ofZ 100))
               (toQ x * (100 / t))
           /\ (0 <= toQ x * (100 / t) <= 100)%Q)) board).
Proof.
  intros Hboard out t.
  assert (Hflat : Forall nonNegative (concat board)) by (apply Forall_concat_2, Hboard).
  assert (Hfin : Forall (fun x => JS.isFinite x = true) (concat board)).
  { eapply Forall_impl; [exact Hflat | exact nonNegative_finite]. }
  assert (Hq : Forall (fun q => 0 <= q)%Q (map toQ (concat board))).
  { apply Forall_fmap. eapply Forall_impl; [exact Hflat | exact nonNegative_toQ]. }
  assert (Htotal := isQ_sumNumbers _ Hfin). fold t in Htotal.
  destruct (isQ_inv _ _ Htotal) as (t' & Etotal & Et').
  assert (Ht0 : (0 <= t)%Q) by (apply Qsum_nonneg, Hq).
  subst out. unfold finalizeBoardPercentages. rewrite Etotal.
  simpl JS.isFinite. simpl negb. rewrite orb_false_l, leb_Fin.
  destruct (Qle_bool t' 0) eqn:Ele.
  - (* nothing to scale: the board of ones *)
    apply Qle_bool_iff in Ele.
    split; [| split].
    + apply Forall_replicate, Forall_replicate.
      exists 1%Q. split; [reflexivity | lra].
    + vm_compute. reflexivity.
    + intros Hpos. lra.
  - assert (Hpos : (0 < t)%Q).
    { rewrite <- Et'. destruct (Qlt_le_dec 0 t') as [L | L]; [exact L |].
      apply Qle_bool_iff in L. congruence. }
    assert (Hscale : isQ (ofZ 100 / Fin t')%num (100 / t)).
    { apply (isQ_div (ofZ 100) (Fin t') 100 t); [reflexivity | exact Et' | lra]. }
    assert (Hcells : Forall (Forall (fun x =>
              isQ (clamp (x * (ofZ 100 / Fin t'))%num (Fin 0) (ofZ 100))
                  (toQ x * (100 / t))
              /\ (0 <= toQ x * (100 / t) <= 100)%Q)) board).
    { assert (Hmem : forall x, x ∈ concat board -> (toQ x <= t)%Q).
      { intros x Hx. apply Qsum_member_le; [exact Hq |].
        apply list_elem_of_fmap. exists x. split; [reflexivity | exact Hx]. }
      apply Forall_forall. intros row Hrow. apply Forall_forall. intros x Hx.
      apply finalize_cell; [| | exact Hpos | exact Hscale].
      - rewrite Forall_forall in Hflat. apply Hflat.
        exact (elem_of_concat_row _ _ _ Hrow Hx).
      - apply Hmem. exact (elem_of_concat_row _ _ _ Hrow Hx). }
    split; [| split].
    + apply Forall_fmap. eapply Forall_impl; [exact Hcells |].
      intros row Hrow. apply Forall_fmap. eapply Forall_impl; [exact Hrow |].
      intros x [Hx Hbound]. simpl.
      destruct (isQ_inv _ _ Hx) as (q & -> & Eq). exists q.
      split; [reflexivity |]. rewrite Eq. exact Hbound.
    + rewrite concat_map_map.
      assert (Hflat' : Forall (fun x =>
                isQ (clamp (x * (ofZ 100 / Fin t'))%num (Fin 0) (ofZ 100))
                    (toQ x * (100 / t))) (concat board)).
      { apply Forall_concat_2. eapply Forall_impl; [exact Hcells |].
        intros row Hrow. eapply Forall_impl; [exact Hrow |]. intros x [Hx _]. exact Hx. }
      eapply isQ_proper.
      * apply isQ_sumNumbers. apply Forall_fmap.
        eapply Forall_impl; [exact Hflat' |]. intros x Hx. simpl.
        exact (isQ_finite _ _ Hx).
      * rewrite (Qsum_map_scaled _ (100 / t) _ Hflat'). fold t. field. lra.
    + intros _. split; [reflexivity | exact Hcells].
Qed.
(** ** mapDigitMatrixToBoard *)

Lemma traverse_ok {A B} (f : A -> outcome B) (g : A -> B) (l : list A) :
  (forall x, x ∈ l -> f x = Ok (g x)) -> traverse f l = Ok (map g l).
Proof.
  induction l as [| x l IH]; intros Hf; simpl; [reflexivity |].
  rewrite (Hf x) by (apply elem_of_cons; left; reflexivity). simpl.
  rewrite IH; [reflexivity |].
  intros y Hy. apply Hf, elem_of_cons. right. exact Hy.
Qed.

Lemma map_lookup_seq {A B} (d : A) (G : A -> B) (l : list A) :
  map (fun i => G (default d (l !! i))) (seq 0 (length l)) = map G l.
Proof.
  induction l as [| x l IH]; simpl; [reflexivity |].
  f_equal. rewrite <- seq_shift, map_map. exact IH.
Qed.

Lemma labelDigit_bound (label : num) (d : nat) :
  labelDigit label = Some d -> (d <= 9)%nat.
Proof.
  destruct label as [| | | q]; try discriminate. unfold labelDigit.
  destruct (JS.isInteger (Fin q)) eqn:Eint; [| discriminate].
  destruct (Fin q <? Fin 0)%num eqn:Elo; [discriminate |].
  destruct (Fin q >? ofZ 9)%num eqn:Ehi; [discriminate |].
  simpl. intros [= <-].
  unfold JS.gtb in Ehi. unfold ofZ in Ehi. rewrite ltb_Fin in Ehi, Elo.
  apply Qltb_ge in Ehi, Elo.
  unfold JS.isInteger in Eint. apply Pos.eqb_eq in Eint.
  assert (Hred := Qred_correct q).
  destruct (Qred q) as [n dn]. simpl in *. subst dn.
  rewrite <- Hred in Ehi, Elo. unfold Qle in Ehi, Elo. simpl in Ehi, Elo. lia.
Qed.

Lemma labelDigits_lookup (labels : list num) (ds : list nat) (i : nat) :
  labelDigits labels ds -> i ∈ digits ->
  labelDigit (numberAt labels i) = Some (default 0%nat (ds !! i)).
Proof.
  intros [Hall Hlen] Hi.
  apply elem_of_seq in Hi. unfold DIGIT_COUNT in *.
  assert (Hlen' : length labels = 10%nat) by (rewrite (Forall2_length _ _ _ Hall); exact Hlen).
  destruct (lookup_lt_is_Some_2 ds i ltac:(lia)) as [d Hd].
  destruct (lookup_lt_is_Some_2 labels i ltac:(lia)) as [l Hl].
  unfold numberAt. rewrite Hl, Hd. simpl.
  exact (Forall2_lookup_lr _ _ _ _ _ _ Hall Hl Hd).
Qed.

Lemma cellAt_ok (matrix : DigitProbabilityMatrix) (r c : nat) :
  (r < length matrix)%nat -> cellAt matrix r c = Ok (numberAt (rowAt matrix r) c).
Proof.
  intros Hr. unfold cellAt, rowAt.
  destruct (lookup_lt_is_Some_2 matrix r Hr) as [row ->]. reflexivity.
Qed.

(** With ten valid labels on each side and a matrix of ten rows the
    mapping returns the re-indexed cells, times 100. *)
Lemma mapDigitMatrixToBoardWith_ok (lengthMessage rowMessage colMessage : string)
    (matrix : DigitProbabilityMatrix) (rowLabels colLabels : list num)
    (rs cs : list nat) :
  labelDigits rowLabels rs -> labelDigits colLabels cs ->
  length matrix = DIGIT_COUNT ->
  mapDigitMatrixToBoardWith lengthMessage rowMessage colMessage
    matrix rowLabels colLabels
  = Ok (map (fun r => map (fun c => (numberAt (rowAt matrix r) c * ofZ 100)%num) cs) rs).
Proof.
  intros Hrows Hcols Hlen. unfold mapDigitMatrixToBoardWith.
  assert (Hlr : length rowLabels = DIGIT_COUNT).
  { destruct Hrows as [H1 H2]. rewrite (Forall2_length _ _ _ H1). exact H2. }
  assert (Hlc : length colLabels = DIGIT_COUNT).
  { destruct Hcols as [H1 H2]. rewrite (Forall2_length _ _ _ H1). exact H2. }
  rewrite bool_decide_eq_false_2 by tauto.
  set (G := fun r => map (fun c => (numberAt (rowAt matrix r) c * ofZ 100)%num) cs).
  rewrite (traverse_ok _ (fun i => G (default 0%nat (rs !! i)))).
  - f_equal. unfold digits. destruct Hrows as [_ <-]. apply map_lookup_seq.
  - intros i Hi. rewrite (labelDigits_lookup _ _ _ Hrows Hi).
    assert (Hr : (default 0%nat (rs !! i) <= 9)%nat).
    { eapply labelDigit_bound. symmetry. symmetry. exact (labelDigits_lookup _ _ _ Hrows Hi). }
    set (r := default 0%nat (rs !! i)) in *.
    rewrite (traverse_ok _ (fun j => (numberAt (rowAt matrix r) (default 0%nat (cs !! j)) * ofZ 100)%num)).
    + f_equal. unfold G, digits. destruct Hcols as [_ <-].
      apply (map_lookup_seq 0%nat (fun c => (numberAt (rowAt matrix r) c * ofZ 100)%num)).
    + intros j Hj. rewrite (labelDigits_lookup _ _ _ Hcols Hj).
      rewrite cellAt_ok by (rewrite Hlen; unfold DIGIT_COUNT; lia). reflexivity.
Qed.
(** ** The board of a probability matrix under a label permutation *)

Lemma grid_tabulate (matrix : list (list num)) :
  isGrid matrix ->
  matrix = map (fun r => map (fun c => numberAt (rowAt matrix r) c) digits) digits.
Proof.
  intros [Hlen Hrows].
  assert (E : digits = seq 0 (length matrix)) by (rewrite Hlen; reflexivity).
  transitivity (map (fun r => map (fun c => numberAt (rowAt matrix r) c) digits)
                    (seq 0 (length matrix))); [| rewrite <- E; reflexivity].
  unfold rowAt.
  rewrite (map_lookup_seq [] (fun row => map (fun c => numberAt row c) digits)).
  symmetry. rewrite <- (map_id matrix) at 2.
  apply Forall_fmap_ext_1. eapply Forall_impl; [exact Hrows |].
  intros row Hrow. cbv beta. unfold digits, numberAt. rewrite <- Hrow.
  rewrite (map_lookup_seq NaN (fun x => x)). apply map_id.
Qed.

Lemma grid_cell_nonNegative (matrix : list (list num)) (r c : nat) :
  isGrid matrix -> Forall (Forall nonNegative) matrix ->
  (r <= 9)%nat -> (c <= 9)%nat -> nonNegative (numberAt (rowAt matrix r) c).
Proof.
  intros [Hlen Hrows] Hnn Hr Hc. unfold DIGIT_COUNT in *.
  destruct (lookup_lt_is_Some_2 matrix r ltac:(lia)) as [row Hrow].
  assert (Hrl : length row = 10%nat).
  { rewrite Forall_forall in Hrows. apply Hrows. eapply list_elem_of_lookup_2, Hrow. }
  destruct (lookup_lt_is_Some_2 row c ltac:(lia)) as [x Hx].
  unfold rowAt, numberAt. rewrite Hrow. simpl. rewrite Hx. simpl.
  rewrite Forall_forall in Hnn.
  specialize (Hnn row ltac:(eapply list_elem_of_lookup_2, Hrow)).
  rewrite Forall_forall in Hnn. apply Hnn. eapply list_elem_of_lookup_2, Hx.
Qed.

Lemma nonNegative_times_100 (x : num) :
  nonNegative x ->
  nonNegative (x * ofZ 100)%num /\ (toQ (x * ofZ 100)%num == toQ x * 100)%Q.
Proof.
  intros (q & -> & Hq).
  assert (H := isQ_mul (Fin q) (ofZ 100) q 100 (Qeq_refl _) (Qeq_refl _)).
  destruct (isQ_inv _ _ H) as (p & Ep & Hp). rewrite Ep. simpl. split.
  - exists p. split; [reflexivity | lra].
  - exact Hp.
Qed.

Lemma digits_bound (ds : list nat) (d : nat) :
  Permutation ds digits -> d ∈ ds -> (d <= 9)%nat.
Proof.
  intros Hperm Hd. rewrite Hperm in Hd. apply elem_of_seq in Hd.
  unfold DIGIT_COUNT in Hd. lia.
Qed.

Lemma Qsum_grid (matrix : list (list num)) :
  isGrid matrix ->
  (Qsum (map toQ (concat matrix))
   == Qsum (map (fun r => Qsum (map (fun c => toQ (numberAt (rowAt matrix r) c)) digits))
              digits))%Q.
Proof.
  intros Hgrid.
  set (T := map (fun r => map (fun c => numberAt (rowAt matrix r) c) digits) digits).
  assert (E : matrix = T) by exact (grid_tabulate matrix Hgrid).
  transitivity (Qsum (map toQ (concat T))); [rewrite <- E; reflexivity |].
  unfold T. rewrite concat_map, map_map.
  rewrite (Qsum_concat_map (fun r => map toQ (map
             (fun c => numberAt (rowAt matrix r) c) digits)) digits).
  apply Qsum_ext. intros r _. rewrite map_map. reflexivity.
Qed.

(** The sum of the re-indexed board is 100 times the sum of the matrix. *)
Lemma board_total (matrix : DigitProbabilityMatrix) (rs cs : list nat) :
  isGrid matrix -> Forall (Forall nonNegative) matrix ->
  Permutation rs digits -> Permutation cs digits ->
  (Qsum (map toQ (concat
     (map (fun r => map (fun c => (numberAt (rowAt matrix r) c * ofZ 100)%num) cs) rs)))
   == Qsum (map toQ (concat matrix)) * 100)%Q.
Proof.
  intros Hgrid Hnn Hrs Hcs.
  rewrite (Qsum_grid matrix Hgrid).
  rewrite concat_map, map_map.
  rewrite (Qsum_concat_map (fun r => map toQ (map
             (fun c => (numberAt (rowAt matrix r) c * ofZ 100)%num) cs)) rs).
  rewrite (Qsum_Permutation _ rs digits Hrs).
  rewrite <- Qsum_scale, map_map.
  apply Qsum_ext. intros r Hr. rewrite !map_map.
  rewrite (Qsum_Permutation _ cs digits Hcs).
  rewrite <- Qsum_scale, map_map.
  apply Qsum_ext. intros c Hc.
  apply elem_of_seq in Hr, Hc. unfold DIGIT_COUNT in *.
  apply nonNegative_times_100, grid_cell_nonNegative; auto; lia.
Qed.
Lemma probabilityMatrix_total (matrix : DigitProbabilityMatrix) :
  probabilityMatrix matrix -> (Qsum (map toQ (concat matrix)) == 1)%Q.
Proof.
  intros (_ & Hnn & Hsum).
  assert (Hfin : Forall (fun x => JS.isFinite x = true) (concat matrix)).
  { apply Forall_concat_2. eapply Forall_impl; [exact Hnn |].
    intros row Hrow. eapply Forall_impl; [exact Hrow | exact nonNegative_finite]. }
  rewrite <- (isQ_toQ_eq _ _ (isQ_sumNumbers _ Hfin)).
  exact (isQ_toQ_eq _ _ Hsum).
Qed.

(** C4: for a probability matrix and two label permutations, the board
    that [mapDigitMatrixToBoard] and [finalizeBoardPercentages] produce
    (in the pre-game service and in the realtime service alike) is a
    10 x 10 grid whose cells lie in [0, 100] and sum to 100, each cell
    being 100 times the matrix entry its labels point at. *)
Theorem board_percentages_sum_to_100
    (matrix : DigitProbabilityMatrix) (rowLabels colLabels : list num)
    (rs cs : list nat) :
  probabilityMatrix matrix ->
  labelPermutation rowLabels rs ->
  labelPermutation colLabels cs ->
  exists board,
    Service.mapDigitMatrixToBoard matrix rowLabels colLabels = Ok board
    /\ Realtime.mapDigitMatrixToBoard matrix rowLabels colLabels = Ok board
    /\ let out := finalizeBoardPercentages board in
       isGrid out
       /\ Forall (Forall (fun x => exists q, x = Fin q /\ (0 <= q <= 100)%Q)) out
       /\ isQ (sumNumbers (concat out)) 100
       /\ Forall2 (Forall2 (fun y x => isQ y (100 * toQ x))) out
            (map (fun r => map (fun c => numberAt (rowAt matrix r) c) cs) rs).
Proof.
  intros Hm [Hrows Hrperm] [Hcols Hcperm].
  assert (Hgrid : isGrid matrix) by apply Hm.
  assert (Hnn : Forall (Forall nonNegative) matrix) by apply Hm.
  set (board := map (fun r => map (fun c =>
                 (numberAt (rowAt matrix r) c * ofZ 100)%num) cs) rs).
  exists board.
  split; [apply mapDigitMatrixToBoardWith_ok; [assumption | assumption | apply Hgrid] |].
  split; [apply mapDigitMatrixToBoardWith_ok; [assumption | assumption | apply Hgrid] |].
  assert (Hcell : forall r c, r ∈ rs -> c ∈ cs -> nonNegative (numberAt (rowAt matrix r) c)).
  { intros r c Hr Hc. apply grid_cell_nonNegative; try assumption.
    - exact (digits_bound _ _ Hrperm Hr).
    - exact (digits_bound _ _ Hcperm Hc). }
  assert (Hboard : Forall (Forall nonNegative) board).
  { apply Forall_fmap, Forall_forall. intros r Hr.
    apply Forall_fmap, Forall_forall. intros c Hc. simpl.
    apply nonNegative_times_100, Hcell; assumption. }
  assert (Ht : (Qsum (map toQ (concat board)) == 100)%Q).
  { unfold board. rewrite (board_total matrix rs cs Hgrid Hnn Hrperm Hcperm).
    rewrite (probabilityMatrix_total matrix Hm). reflexivity. }
  destruct (finalizeBoardPercentages_spec board Hboard) as (Hrange & Hsum & Hscaled).
  destruct (Hscaled ltac:(rewrite Ht; reflexivity)) as [Eout Hcells].
  cbv zeta. split; [| split; [exact Hrange | split; [exact Hsum |]]].
  - rewrite Eout. destruct Hrows as [_ Hlr], Hcols as [_ Hlc]. split.
    + unfold board. rewrite !length_map. exact Hlr.
    + unfold board. apply Forall_fmap, Forall_fmap, Forall_forall.
      intros r _. simpl. rewrite !length_map. exact Hlc.
  - rewrite Eout. unfold board.
    apply Forall2_fmap_l, Forall2_fmap, Forall_Forall2_diag, Forall_forall.
    intros r Hr. simpl.
    apply Forall2_fmap_l, Forall2_fmap, Forall_Forall2_diag, Forall_forall.
    intros c Hc. simpl.
    rewrite Forall_forall in Hcells.
    assert (Hrow : map (fun c0 => (numberAt (rowAt matrix r) c0 * ofZ 100)%num) cs ∈ board).
    { unfold board. apply list_elem_of_fmap. exists r. split; [reflexivity | exact Hr]. }
    specialize (Hcells _ Hrow). rewrite Forall_forall in Hcells.
    destruct (Hcells (numberAt (rowAt matrix r) c * ofZ 100)%num) as [Hval _].
    { apply list_elem_of_fmap. exists c. split; [reflexivity | exact Hc]. }
    eapply isQ_proper; [exact Hval |].
    destruct (nonNegative_times_100 _ (Hcell r c Hr Hc)) as [_ ->].
    fold board. rewrite Ht. field.
Qed.
Lemma nonNegativeb_spec (x : num) : nonNegativeb x = true -> nonNegative x.
Proof.
  destruct x as [| | | q]; try discriminate. simpl. intros Hq.
  exists q. split; [reflexivity | apply Qle_bool_iff, Hq].
Qed.

Lemma nonNegative_grid_check (matrix : list (list num)) :
  forallb (forallb nonNegativeb) matrix = true -> Forall (Forall nonNegative) matrix.
Proof.
  intros Hall. apply Forall_forall. intros row Hrow. apply Forall_forall. intros x Hx.
  apply nonNegativeb_spec.
  rewrite forallb_forall in Hall. specialize (Hall row ltac:(apply list_elem_of_In, Hrow)).
  rewrite forallb_forall in Hall. apply Hall, list_elem_of_In, Hx.
Qed.

Lemma nonNegative_grid_complete (matrix : list (list num)) :
  Forall (Forall nonNegative) matrix -> forallb (forallb nonNegativeb) matrix = true.
Proof.
  intros Hall. apply forallb_forall. intros row Hrow%list_elem_of_In.
  apply forallb_forall. intros x Hx%list_elem_of_In.
  rewrite Forall_forall in Hall. specialize (Hall row Hrow).
  rewrite Forall_forall in Hall. destruct (Hall x Hx) as (q & -> & Hq).
  simpl. apply Qle_bool_iff, Hq.
Qed.

Lemma labelDigits_check (labels : list num) (ds : list nat) :
  map labelDigit labels = map Some ds -> length ds = DIGIT_COUNT ->
  labelDigits labels ds.
Proof.
  intros Hmap Hlen. split; [| exact Hlen]. clear Hlen.
  revert ds Hmap. induction labels as [| l labels IH]; intros [| d ds] Hmap;
    try discriminate; [constructor |].
  injection Hmap as Hd Hrest. constructor; [exact Hd | exact (IH _ Hrest)].
Qed.

Lemma board_percentages_sum_to_100_witness :
  exists board,
    Service.mapDigitMatrixToBoard sampleMatrix sampleRowLabels sampleColLabels = Ok board
    /\ Realtime.mapDigitMatrixToBoard sampleMatrix sampleRowLabels sampleColLabels = Ok board
    /\ let out := finalizeBoardPercentages board in
       isGrid out
       /\ Forall (Forall (fun x => exists q, x = Fin q /\ (0 <= q <= 100)%Q)) out
       /\ isQ (sumNumbers (concat out)) 100
       /\ Forall2 (Forall2 (fun y x => isQ y (100 * toQ x))) out
            (map (fun r => map (fun c => numberAt (rowAt sampleMatrix r) c)
                               [0; 1; 2; 3; 4; 5; 6; 7; 8; 9]%nat)
                 [5; 0; 1; 2; 3; 4; 6; 7; 8; 9]%nat).
Proof.
  apply (board_percentages_sum_to_100 sampleMatrix sampleRowLabels sampleColLabels).
  - split; [| split].
    + split; [reflexivity |]. apply (bool_decide_unpack _). vm_compute. reflexivity.
    + apply nonNegative_grid_check. vm_compute. reflexivity.
    + vm_compute. reflexivity.
  - split; [apply labelDigits_check; reflexivity |].
    apply (bool_decide_unpack _). vm_compute. reflexivity.
  - split; [apply labelDigits_check; reflexivity |]. reflexivity.
Defined.

Example sampleMatrix_board :
  finalizeBoardPercentages <$>
    Realtime.mapDigitMatrixToBoard sampleMatrix sampleRowLabels sampleColLabels
  = Ok (map (fun r => map (fun c => numberAt (rowAt sampleMatrix r) c * ofZ 100)%num
                         [0; 1; 2; 3; 4; 5; 6; 7; 8; 9]%nat)
            [5; 0; 1; 2; 3; 4; 6; 7; 8; 9]%nat).
Proof. vm_compute. reflexivity. Qed.
(** ** normalizeMatrix *)

(** C5, at the failing input.  The realtime service counts a cell that
    is not finite as 0 in the total but divides the cell itself: a NaN
    cell next to a positive one comes back as NaN, so the result has a
    cell that is not >= 0, does not sum to 1 and is not the uniform
    matrix.  The pre-game service, on the same matrix, returns the
    uniform matrix. *)
Theorem normalizeMatrix_keeps_nan :
  let out := Realtime.normalizeMatrix nanMatrix in
  isGrid nanMatrix
  /\ numberAt (rowAt out 0) 0 = NaN
  /\ numberAt (rowAt out 0) 1 = Fin 1
  /\ ~ Forall (Forall nonNegative) out
  /\ sumNumbers (concat out) = NaN
  /\ out <> constantMatrix (ofZ 1 / ofZ 100)%num
  /\ Service.normalizeMatrix nanMatrix = Ok Service.createUniformDigitMatrix.
Proof.
  cbv zeta.
  split; [split; [reflexivity | apply (bool_decide_unpack _); vm_compute; reflexivity] |].
  split; [vm_compute; reflexivity |].
  split; [vm_compute; reflexivity |].
  split.
  { intros Hall%nonNegative_grid_complete.
    assert (Hno : forallb (forallb nonNegativeb) (Realtime.normalizeMatrix nanMatrix)
                  = false) by (vm_compute; reflexivity).
    congruence. }
  split; [vm_compute; reflexivity |].
  split; [vm_compute; discriminate |].
  vm_compute. reflexivity.
Qed.

(** ** The realtime engine on a finished game *)

Lemma finalDigit_mod (score : Z) : Realtime.finalDigit score = score mod 10.
Proof.
  unfold Realtime.finalDigit. Z.to_euclidean_division_equations. lia.
Qed.

Lemma finalDigit_range (score : Z) : 0 <= Realtime.finalDigit score <= 9.
Proof. rewrite finalDigit_mod. pose proof (Z.mod_pos_bound score 10). lia. Qed.

(** The cells of the matrix of a final score. *)
Lemma buildDeterministicFinalMatrix_cells (homeScore awayScore : Z) (r c : nat) :
  (r < 10)%nat -> (c < 10)%nat ->
  numberAt (rowAt (Realtime.buildDeterministicFinalMatrix homeScore awayScore) r) c
  = if bool_decide (Z.of_nat r = homeScore mod 10 /\ Z.of_nat c = awayScore mod 10)
    then ofZ 1 else Fin 0.
Proof.
  intros Hr Hc. unfold Realtime.buildDeterministicFinalMatrix.
  rewrite <- !finalDigit_mod.
  pose proof (finalDigit_range homeScore) as Hh.
  pose proof (finalDigit_range awayScore) as Ha.
  set (h := Realtime.finalDigit homeScore) in *.
  set (a := Realtime.finalDigit awayScore) in *.
  unfold rowAt, numberAt.
  destruct (decide (r = Z.to_nat h)) as [-> | Hne].
  - rewrite list_lookup_alter_eq. unfold createZeroMatrix, constantMatrix, DIGIT_COUNT.
    rewrite lookup_replicate_2 by lia. cbn [fmap option_fmap option_map default from_option id].
    destruct (decide (c = Z.to_nat a)) as [-> | Hnc].
    + rewrite list_lookup_insert_eq by (rewrite length_replicate; lia).
      cbn [default from_option id]. rewrite bool_decide_eq_true_2 by lia. reflexivity.
    + rewrite list_lookup_insert_ne by congruence.
      rewrite lookup_replicate_2 by lia. cbn [default from_option id].
      rewrite bool_decide_eq_false_2 by lia. reflexivity.
  - rewrite list_lookup_alter_ne by congruence.
    unfold createZeroMatrix, constantMatrix, DIGIT_COUNT.
    rewrite lookup_replicate_2 by lia. cbn [default from_option id].
    rewrite lookup_replicate_2 by lia. cbn [default from_option id].
    rewrite bool_decide_eq_false_2 by lia. reflexivity.
Qed.

Lemma buildDeterministicFinalMatrix_grid (homeScore awayScore : Z) :
  isGrid (Realtime.buildDeterministicFinalMatrix homeScore awayScore).
Proof.
  unfold Realtime.buildDeterministicFinalMatrix, isGrid.
  rewrite length_alter. split; [reflexivity |].
  apply Forall_forall. intros row Hrow.
  apply list_elem_of_lookup in Hrow as [i Hi].
  destruct (decide (i = Z.to_nat (Realtime.finalDigit homeScore))) as [-> | Hne].
  - rewrite list_lookup_alter_eq in Hi.
    destruct (createZeroMatrix !! _) as [row0 |] eqn:E; [| discriminate].
    injection Hi as <-. rewrite length_insert.
    apply lookup_replicate in E as [-> _]. reflexivity.
  - rewrite list_lookup_alter_ne in Hi by congruence.
    apply lookup_replicate in Hi as [-> _]. reflexivity.
Qed.

Lemma validLabels_digits (labels : list num) :
  validLabels labels -> exists ds, labelDigits labels ds.
Proof.
  intros [Hlen Hall].
  assert (Hex : exists ds, Forall2 (fun label d => labelDigit label = Some d) labels ds).
  { clear Hlen. induction Hall as [| l labels [d Hd] _ [ds IH]].
    - exists []. constructor.
    - exists (d :: ds). constructor; assumption. }
  destruct Hex as [ds Hds]. exists ds. split; [exact Hds |].
  rewrite <- (Forall2_length _ _ _ Hds). exact Hlen.
Qed.

Lemma normalizeMatrix_length (matrix : DigitProbabilityMatrix) :
  length matrix = DIGIT_COUNT -> length (Realtime.normalizeMatrix matrix) = DIGIT_COUNT.
Proof.
  intros Hlen. unfold Realtime.normalizeMatrix.
  destruct (_ || _)%bool; [reflexivity | rewrite length_map; exact Hlen].
Qed.

Lemma blendMatrices_ok (base live : DigitProbabilityMatrix) (liveWeight : num) :
  (DIGIT_COUNT <= length base)%nat -> (DIGIT_COUNT <= length live)%nat ->
  exists output,
    Realtime.blendMatrices base live liveWeight = Ok output
    /\ length output = DIGIT_COUNT.
Proof.
  intros Hbase Hlive. unfold Realtime.blendMatrices, DIGIT_COUNT in *.
  set (w := clamp liveWeight (Fin 0) (ofZ 1)).
  erewrite (traverse_ok _ (fun r => map (fun c =>
              (numberAt (rowAt base r) c * (ofZ 1 - w)
               + numberAt (rowAt live r) c * w)%num) digits)).
  - simpl. eexists. split; [reflexivity |].
    apply normalizeMatrix_length. reflexivity.
  - intros r Hr. apply elem_of_seq in Hr. unfold DIGIT_COUNT in Hr.
    apply traverse_ok. intros c _.
    rewrite !cellAt_ok by lia. reflexivity.
Qed.

Section FinishedGame.
Context `{Runtime}.

Lemma estimateLive_final (fuel : nat) (input : Realtime.BuildRealtimeSquareOddsInput)
    (featureVector : LiveFeatureVector) :
  status (Realtime.snapshot input) = final \/
  status (Realtime.snapshot input) = postponed ->
  Realtime.estimateLive fuel input featureVector
  = Ok {| Realtime.liveDigitMatrix :=
            Realtime.buildDeterministicFinalMatrix
              (homeScore (Realtime.snapshot input)) (awayScore (Realtime.snapshot input));
          Realtime.liveBlendWeight := ofZ 1;
          Realtime.expectedHomeAdditional := Fin 0;
          Realtime.expectedAwayAdditional := Fin 0 |}.
Proof.
  intros Hstatus. unfold Realtime.estimateLive.
  rewrite bool_decide_eq_true_2 by exact Hstatus. reflexivity.
Qed.

Lemma realtime_final_points (fuel : nat) (now : string)
    (input : Realtime.BuildRealtimeSquareOddsInput)
    (result : RealtimeSquareOddsComputationResult) :
  status (Realtime.snapshot input) = final \/
  status (Realtime.snapshot input) = postponed ->
  Realtime.buildRealtimeSquareOdds fuel now input = Ok result ->
  expectedHomePoints (base result) = ofZ (homeScore (Realtime.snapshot input))
  /\ expectedAwayPoints (base result) = ofZ (awayScore (Realtime.snapshot input)).
Proof.
  intros Hstatus. unfold Realtime.buildRealtimeSquareOdds.
  rewrite (estimateLive_final _ _ _ Hstatus). simpl.
  destruct (Realtime.blendMatrices _ _ _) as [probabilities | |]; try discriminate.
  simpl.
  destruct (Realtime.mapDigitMatrixToBoard _ _ _) as [board | |]; try discriminate.
  simpl. intros [= <-]. simpl. split; reflexivity.
Qed.

Lemma realtime_final_returns (fuel : nat) (now : string)
    (input : Realtime.BuildRealtimeSquareOddsInput) :
  status (Realtime.snapshot input) = final \/
  status (Realtime.snapshot input) = postponed ->
  validLabels (Realtime.rowLabels input) -> validLabels (Realtime.colLabels input) ->
  (DIGIT_COUNT <= length (digitProbabilities (Realtime.baseModel input)))%nat ->
  returns (Realtime.buildRealtimeSquareOdds fuel now input).
Proof.
  intros Hstatus [rs Hrs]%validLabels_digits [cs Hcs]%validLabels_digits Hbase.
  unfold Realtime.buildRealtimeSquareOdds.
  rewrite (estimateLive_final _ _ _ Hstatus). simpl.
  destruct (blendMatrices_ok (digitProbabilities (Realtime.baseModel input))
              (Realtime.buildDeterministicFinalMatrix
                 (homeScore (Realtime.snapshot input))
                 (awayScore (Realtime.snapshot input))) (ofZ 1) Hbase)
    as (probabilities & -> & Hlen).
  { rewrite (proj1 (buildDeterministicFinalMatrix_grid _ _)). reflexivity. }
  simpl. unfold Realtime.mapDigitMatrixToBoard.
  rewrite (mapDigitMatrixToBoardWith_ok _ _ _ _ _ _ rs cs Hrs Hcs Hlen).
  simpl. eexists. reflexivity.
Qed.

(** C3: when the status of the snapshot is final or postponed, the
    live matrix the engine blends has a single cell that is not 0, the
    cell of row [homeScore mod 10] and column [awayScore mod 10], with
    value 1; the live blend weight is 1; and the expected points of
    the result are the two scores themselves.  The engine returns such
    a result as soon as the labels are valid and the base matrix has
    its ten rows. *)
Theorem final_snapshot_single_cell (fuel : nat) (now : string)
    (input : Realtime.BuildRealtimeSquareOddsInput) :
  let snap := Realtime.snapshot input in
  status snap = final \/ status snap = postponed ->
  (exists live,
     Realtime.estimateLive fuel input (Realtime.buildFeatureVector snap) = Ok live
     /\ Realtime.liveBlendWeight live = ofZ 1
     /\ isGrid (Realtime.liveDigitMatrix live)
     /\ forall r c : nat, (r < 10)%nat -> (c < 10)%nat ->
          numberAt (rowAt (Realtime.liveDigitMatrix live) r) c
          = if bool_decide (Z.of_nat r = homeScore snap mod 10 /\
                            Z.of_nat c = awayScore snap mod 10)
            then ofZ 1 else Fin 0)
  /\ (forall result,
        Realtime.buildRealtimeSquareOdds fuel now input = Ok result ->
        expectedHomePoints (base result) = ofZ (homeScore snap)
        /\ expectedAwayPoints (base result) = ofZ (awayScore snap))
  /\ (validLabels (Realtime.rowLabels input) ->
      validLabels (Realtime.colLabels input) ->
      (DIGIT_COUNT <= length (digitProbabilities (Realtime.baseModel input)))%nat ->
      returns (Realtime.buildRealtimeSquareOdds fuel now input)).
Proof.
  intros snap Hstatus. split; [| split].
  - eexists. split; [apply estimateLive_final, Hstatus |]. simpl.
    split; [reflexivity |].
    split; [apply buildDeterministicFinalMatrix_grid |].
    apply buildDeterministicFinalMatrix_cells.
  - intros result. apply realtime_final_points, Hstatus.
  - apply realtime_final_returns, Hstatus.
Qed.

End FinishedGame.

Lemma validLabels_check (labels : list num) :
  length labels = DIGIT_COUNT ->
  forallb (fun label => bool_decide (is_Some (labelDigit label))) labels = true ->
  validLabels labels.
Proof.
  intros Hlen Hall. split; [exact Hlen |].
  apply Forall_forall. intros label Hlabel.
  rewrite forallb_forall in Hall.
  apply list_elem_of_In in Hlabel. exact (bool_decide_eq_true_1 _ (Hall label Hlabel)).
Qed.

Lemma final_snapshot_single_cell_witness :
  exists result,
    @Realtime.buildRealtimeSquareOdds sampleRuntime 0 "2026-02-09T03:10:01.000Z" finalInput
    = Ok result
    /\ expectedHomePoints (base result) = ofZ 14
    /\ expectedAwayPoints (base result) = ofZ 10
    /\ numberAt (rowAt (boardPercentages (base result)) 5) 0 = ofZ 100.
Proof.
  destruct (@final_snapshot_single_cell sampleRuntime 0 "2026-02-09T03:10:01.000Z"
              finalInput (or_introl eq_refl)) as (_ & Hpoints & Hreturns).
  destruct Hreturns as [result Hresult].
  - apply validLabels_check; reflexivity.
  - apply validLabels_check; reflexivity.
  - vm_compute. lia.
  - exists result. split; [exact Hresult |].
    destruct (Hpoints result Hresult) as [Hhome Haway].
    split; [exact Hhome |]. split; [exact Haway |].
    vm_compute in Hresult. injection Hresult as <-. reflexivity.
Defined.

(** ** The metadata of a realtime result *)

Lemma elem_of_addToSet (output : list SquareOddsComputationSource)
    (source s : SquareOddsComputationSource) :
  s ∈ Realtime.addToSet output source <-> s ∈ output \/ s = source.
Proof.
  unfold Realtime.addToSet. case_bool_decide as Hin.
  - split; [auto |]. intros [? | ->]; assumption.
  - rewrite elem_of_app, list_elem_of_singleton. reflexivity.
Qed.

Lemma elem_of_fold_addToSet (sources output : list SquareOddsComputationSource)
    (s : SquareOddsComputationSource) :
  s ∈ fold_left Realtime.addToSet sources output <-> s ∈ output \/ s ∈ sources.
Proof.
  revert output. induction sources as [| source sources IH]; intros output; simpl.
  - split; [auto |]. intros [? | Hin]; [assumption | inversion Hin].
  - rewrite IH, elem_of_addToSet, elem_of_cons. tauto.
Qed.

Lemma NoDup_fold_addToSet (sources output : list SquareOddsComputationSource) :
  NoDup output -> NoDup (fold_left Realtime.addToSet sources output).
Proof.
  revert output. induction sources as [| source sources IH]; intros output Hnd;
    simpl; [exact Hnd |].
  apply IH. unfold Realtime.addToSet. case_bool_decide as Hin; [exact Hnd |].
  apply NoDup_app. split; [exact Hnd |]. split.
  - intros x Hx ->%list_elem_of_singleton. contradiction.
  - apply NoDup_singleton.
Qed.

Lemma elem_of_appendUniqueSources (baseSources extras : list SquareOddsComputationSource)
    (s : SquareOddsComputationSource) :
  s ∈ Realtime.appendUniqueSources baseSources extras <-> s ∈ baseSources \/ s ∈ extras.
Proof.
  unfold Realtime.appendUniqueSources. rewrite !elem_of_fold_addToSet.
  split; [intros [[Hnil | ?] | ?]; [inversion Hnil | auto | auto] | tauto].
Qed.

Lemma NoDup_appendUniqueSources (baseSources extras : list SquareOddsComputationSource) :
  NoDup (Realtime.appendUniqueSources baseSources extras).
Proof. apply NoDup_fold_addToSet, NoDup_fold_addToSet, NoDup_nil_2. Qed.

Section Metadata.
Context `{Runtime}.

(** C10: a result of the realtime engine keeps the source mode of the
    base model, lists every source of the base model together with the
    three live sources (and nothing else, each once), and carries the
    warnings of the base model, in order, followed by one more warning
    exactly when the status of the snapshot is pregame. *)
Theorem realtime_preserves_base_metadata (fuel : nat) (now : string)
    (input : Realtime.BuildRealtimeSquareOddsInput)
    (result : RealtimeSquareOddsComputationResult) :
  Realtime.buildRealtimeSquareOdds fuel now input = Ok result ->
  let model := Realtime.baseModel input in
  sourceMode (base result) = sourceMode model
  /\ (forall s, s ∈ sourcesUsed (base result) <->
                s ∈ sourcesUsed model \/
                s ∈ [espn_live_scoreboard; espn_live_summary; live_commentary_sentiment])
  /\ NoDup (sourcesUsed (base result))
  /\ warnings (base result)
     = warnings model ++
       (if bool_decide (status (Realtime.snapshot input) = pregame)
        then ["Live feed connected but game has not started. Realtime adjustments are minimal."]
        else []).
Proof.
  unfold Realtime.buildRealtimeSquareOdds.
  destruct (Realtime.estimateLive _ _ _) as [live | |]; try discriminate. simpl.
  destruct (Realtime.blendMatrices _ _ _) as [probabilities | |]; try discriminate.
  simpl.
  destruct (Realtime.mapDigitMatrixToBoard _ _ _) as [board | |]; try discriminate.
  simpl. intros [= <-]. simpl.
  split; [reflexivity |].
  split; [intros s; apply elem_of_appendUniqueSources |].
  split; [apply NoDup_appendUniqueSources |].
  case_bool_decide; [reflexivity | rewrite app_nil_r; reflexivity].
Qed.

End Metadata.

Lemma realtime_preserves_base_metadata_witness :
  exists result,
    @Realtime.buildRealtimeSquareOdds sampleRuntime 0 "2026-02-09T03:10:01.000Z" finalInput
    = Ok result
    /\ sourceMode (base result) = full
    /\ sourcesUsed (base result)
       = [nflverse_games; nflverse_closing_lines; espn_team_stats;
          espn_live_scoreboard; espn_live_summary; live_commentary_sentiment]
    /\ warnings (base result) = warnings sampleBaseModel.
Proof.
  destruct (@realtime_final_returns sampleRuntime 0 "2026-02-09T03:10:01.000Z"
              finalInput (or_introl eq_refl)) as [result Hresult].
  - apply validLabels_check; reflexivity.
  - apply validLabels_check; reflexivity.
  - vm_compute. lia.
  - exists result. split; [exact Hresult |].
    destruct (@realtime_preserves_base_metadata sampleRuntime _ _ _ _ Hresult)
      as (Hmode & _ & _ & Hwarnings).
    split; [exact Hmode |].
    split; [vm_compute in Hresult; injection Hresult as <-; reflexivity |].
    rewrite Hwarnings. reflexivity.
Defined.

Example appendUniqueSources_dedup :
  Realtime.appendUniqueSources
    [nflverse_games; espn_live_summary; nflverse_games; fallback_model]
    [espn_live_scoreboard; espn_live_summary; live_commentary_sentiment]
  = [nflverse_games; espn_live_summary; fallback_model;
     espn_live_scoreboard; live_commentary_sentiment].
Proof. reflexivity. Qed.

(** ** Computations that come to an end *)

Lemma settled_Ok {A} (a : A) : settled (Ok a).
Proof. discriminate. Qed.

Lemma settled_Throw {A} (e : string) : settled (@Throw A e).
Proof. discriminate. Qed.

#[local] Hint Resolve settled_Ok settled_Throw : core.

Lemma settled_bind {A B} (m : outcome A) (f : A -> outcome B) :
  settled m -> (forall a, m = Ok a -> settled (f a)) -> settled (m ≫= f).
Proof.
  intros Hm Hf. destruct m as [a | e |]; simpl.
  - apply Hf. reflexivity.
  - discriminate.
  - contradiction.
Qed.

Lemma settled_cases {A} (m : outcome A) : settled m -> returns m \/ throws m.
Proof.
  destruct m as [a | e |]; intros Hm.
  - left. exists a. reflexivity.
  - right. exists e. reflexivity.
  - contradiction.
Qed.

Lemma traverse_settled {A B} (f : A -> outcome B) (l : list A) :
  (forall x, x ∈ l -> settled (f x)) -> settled (traverse f l).
Proof.
  induction l as [| x l IH]; intros Hf; simpl; [apply settled_Ok |].
  apply settled_bind; [apply Hf, elem_of_cons; left; reflexivity |].
  intros y _. apply settled_bind.
  - apply IH. intros z Hz. apply Hf, elem_of_cons. right. exact Hz.
  - intros ys _. apply settled_Ok.
Qed.

Lemma traverse_throws {A B} (f : A -> outcome B) (l : list A) (x : A) :
  (forall y, y ∈ l -> settled (f y)) -> x ∈ l -> throws (f x) ->
  throws (traverse f l).
Proof.
  intros Hf Hx Hthrow. induction l as [| y l IH]; [inversion Hx |].
  simpl. apply elem_of_cons in Hx as [<- | Hx].
  - destruct Hthrow as [e ->]. exists e. reflexivity.
  - assert (Hy := Hf y ltac:(apply elem_of_cons; left; reflexivity)).
    destruct (f y) as [b | e |]; simpl; [| exists e; reflexivity | contradiction].
    destruct IH as [e He]; [| exact Hx |].
    + intros z Hz. apply Hf, elem_of_cons. right. exact Hz.
    + rewrite He. exists e. reflexivity.
Qed.

Lemma cellAt_settled (matrix : DigitProbabilityMatrix) (r c : nat) :
  settled (cellAt matrix r c).
Proof. unfold cellAt. destruct (matrix !! r); [apply settled_Ok | apply settled_Throw]. Qed.

(** ** Labels that do not pass *)

Lemma invalid_label_index (labels : list num) :
  length labels = DIGIT_COUNT -> ~ validLabels labels ->
  exists i, i ∈ digits /\ labelDigit (numberAt labels i) = None.
Proof.
  intros Hlen Hinvalid.
  assert (Hex : Exists (fun label => ~ is_Some (labelDigit label)) labels).
  { apply not_Forall_Exists; [intros label; apply _ |].
    intros Hall. apply Hinvalid. split; assumption. }
  apply Exists_exists in Hex as (label & Hin & Hnone).
  apply list_elem_of_lookup in Hin as [i Hi].
  exists i. split.
  - apply elem_of_seq. apply lookup_lt_Some in Hi. rewrite Hlen in Hi. lia.
  - unfold numberAt. rewrite Hi. simpl.
    destruct (labelDigit label) eqn:E; [| reflexivity].
    exfalso. apply Hnone. exists n. reflexivity.
Qed.

(** The mapping throws as soon as one of the two label arrays is not
    ten digits, whatever the matrix. *)
Lemma mapDigitMatrixToBoardWith_throws (lengthMessage rowMessage colMessage : string)
    (matrix : DigitProbabilityMatrix) (rowLabels colLabels : list num) :
  ~ validLabels rowLabels \/ ~ validLabels colLabels ->
  throws (mapDigitMatrixToBoardWith lengthMessage rowMessage colMessage
            matrix rowLabels colLabels).
Proof.
  intros Hinvalid. unfold mapDigitMatrixToBoardWith.
  case_bool_decide as Hlen; [eexists; reflexivity |].
  assert (Hlr : length rowLabels = DIGIT_COUNT)
    by (destruct (decide (length rowLabels = DIGIT_COUNT)); tauto).
  assert (Hlc : length colLabels = DIGIT_COUNT)
    by (destruct (decide (length colLabels = DIGIT_COUNT)); tauto).
  set (inner := fun rowDigit : nat => traverse (fun colIndex =>
         match labelDigit (numberAt colLabels colIndex) with
         | None => Throw colMessage
         | Some colDigit =>
             value ← cellAt matrix rowDigit colDigit; Ok (value * ofZ 100)%num
         end) digits).
  assert (Hinner : forall rowDigit, settled (inner rowDigit)).
  { intros rowDigit. apply traverse_settled. intros j _. cbv beta.
    destruct (labelDigit _); [| apply settled_Throw].
    apply settled_bind; [apply cellAt_settled | intros; apply settled_Ok]. }
  assert (Hrows : forall i, i ∈ digits ->
            settled (match labelDigit (numberAt rowLabels i) with
                     | None => Throw rowMessage
                     | Some rowDigit => inner rowDigit
                     end)).
  { intros i _. cbv beta. destruct (labelDigit _); [apply Hinner | apply settled_Throw]. }
  destruct (decide (validLabels rowLabels)) as [Hvalid | Hrow].
  - (* the rows pass: every row stops at the first bad column *)
    assert (Hcol : ~ validLabels colLabels) by tauto.
    destruct (invalid_label_index colLabels Hlc Hcol) as (j & Hj & Hnone).
    apply (traverse_throws _ digits 0%nat Hrows); [apply elem_of_seq; unfold DIGIT_COUNT; lia |].
    destruct (labelDigit (numberAt rowLabels 0%nat)) as [rowDigit |];
      [| eexists; reflexivity].
    apply (traverse_throws _ digits j); [| exact Hj | rewrite Hnone; eexists; reflexivity].
    intros k _. cbv beta.
    destruct (labelDigit (numberAt colLabels k)); [| apply settled_Throw].
    apply settled_bind; [apply cellAt_settled | intros; apply settled_Ok].
  - destruct (invalid_label_index rowLabels Hlr Hrow) as (i & Hi & Hnone).
    apply (traverse_throws _ digits i Hrows Hi). rewrite Hnone. eexists. reflexivity.
Qed.

(** ** The generator and the loops that draw from it *)

Lemma post_ret {A} (a : A) (P : A -> Prop) : P a -> post (mret a) P.
Proof. intros Ha state. exact Ha. Qed.

Lemma post_bind {A B} (m : Realtime.Rand A) (f : A -> Realtime.Rand B)
    (P : A -> Prop) (Q : B -> Prop) :
  post m P -> (forall a, P a -> post (f a) Q) -> post (m ≫= f) Q.
Proof.
  intros Hm Hf state. specialize (Hm state).
  unfold mbind, Realtime.Rand_bind.
  destruct (m state) as [[a state'] | e |]; [| exact I | contradiction].
  apply Hf, Hm.
Qed.

Lemma post_weaken {A} (m : Realtime.Rand A) (P Q : A -> Prop) :
  post m P -> (forall a, P a -> Q a) -> post m Q.
Proof.
  intros Hm HPQ state. specialize (Hm state).
  destruct (m state) as [[a state'] | e |]; auto.
Qed.

Lemma post_liftOutcome {A} (m : outcome A) :
  settled m -> post (Realtime.liftOutcome m) (fun _ => True).
Proof.
  intros Hm state. unfold Realtime.liftOutcome.
  destruct m as [a | e |]; simpl; [exact I | exact I | contradiction].
Qed.

(** A draw is a finite number of [0, 1 - 2^-32]. *)
Lemma nextRandom_range (state : Z) :
  exists q, fst (Realtime.nextRandom state) = Fin q /\ (0 <= q <= 1 - epsilon)%Q.
Proof.
  unfold Realtime.nextRandom. cbv zeta. cbn [fst]. unfold fin.
  set (n := Int32.toUint32 _).
  exists (Qred (n # 4294967296)). split; [reflexivity |].
  rewrite Qred_correct.
  assert (Hn : 0 <= n < 4294967296).
  { subst n. unfold Int32.toUint32. apply Z.mod_pos_bound. reflexivity. }
  unfold epsilon, Qle, Qminus, Qplus, Qopp. simpl. lia.
Qed.

Lemma post_rng :
  post Realtime.rng (fun u => exists q, u = Fin q /\ (0 <= q <= 1 - epsilon)%Q).
Proof.
  intros state. unfold Realtime.rng.
  destruct (nextRandom_range state) as (q & Hq & Hrange).
  destruct (Realtime.nextRandom state) as [u state']. simpl in Hq. eauto.
Qed.

(** The factor of one turn of the Poisson loop. *)
Lemma poisson_factor (u : num) :
  (exists q, u = Fin q /\ (0 <= q <= 1 - epsilon)%Q) ->
  exists f, JS.max u (dec 1 10) = Fin f /\ (0 < f <= 1 - epsilon)%Q.
Proof.
  intros (q & -> & Hq).
  assert (H := isQ_max (Fin q) (dec 1 10) q _ (Qeq_refl q) (isQ_dec 1 10)).
  destruct (isQ_inv _ _ H) as (f & -> & Hf). exists f. split; [reflexivity |].
  rewrite Hf. unfold epsilon in *. split.
  - apply Qlt_le_trans with (1 # Z.to_pos (10 ^ Z.of_nat 10))%Q; [reflexivity |].
    apply Q.le_max_r.
  - apply Q.max_lub; [lra |]. vm_compute. discriminate.
Qed.

Section PoissonLoop.
Context `{Runtime}.

Lemma poissonLoop_eq (fuel : nat) (limit product : num) (count : Z) :
  Realtime.poissonLoop fuel limit product count
  = if (product >? limit)%num then
      match fuel with
      | O => Realtime.diverge
      | S fuel' =>
          r ← Realtime.rng;
          Realtime.poissonLoop fuel' limit (product * JS.max r (dec 1 10))%num (count + 1)
      end
    else mret count.
Proof. destruct fuel; reflexivity. Qed.

(** A product of at most [limit * (1 + k * 2^-32)] leaves the loop
    within [k] turns. *)
Lemma poissonLoop_settles (limit : Q) (k : nat) :
  (0 < limit)%Q ->
  forall (fuel : nat) (product : Q) (count : Z),
    (k <= fuel)%nat -> (0 < product)%Q ->
    (product <= limit * (1 + inject_Z (Z.of_nat k) * epsilon))%Q ->
    post (Realtime.poissonLoop fuel (Fin limit) (Fin product) count) (fun _ => True).
Proof.
  intros Hlimit. induction k as [| k IH]; intros fuel product count Hfuel Hpos Hle.
  - assert (Hexit : (Fin product >? Fin limit)%num = false).
    { unfold JS.gtb. rewrite ltb_Fin. apply Qltb_ge.
      change (inject_Z (Z.of_nat 0)) with 0%Q in Hle. lra. }
    rewrite poissonLoop_eq, Hexit. apply post_ret. exact I.
  - destruct fuel as [| fuel]; [lia |]. rewrite poissonLoop_eq.
    destruct (Fin product >? Fin limit)%num; [| apply post_ret; exact I].
    eapply post_bind; [exact post_rng |].
    intros u Hu. cbv beta.
    destruct (poisson_factor u Hu) as (f & -> & Hf).
    assert (Hprod := isQ_mul (Fin product) (Fin f) product f
                       (Qeq_refl _) (Qeq_refl _)).
    destruct (isQ_inv _ _ Hprod) as (p' & -> & Hp').
    apply IH; [lia | rewrite Hp'; nra |].
    rewrite Hp'.
    assert (Hk : (inject_Z (Z.of_nat (S k)) == inject_Z (Z.of_nat k) + 1)%Q).
    { rewrite Nat2Z.inj_succ, <- Z.add_1_r, inject_Z_plus. reflexivity. }
    rewrite Hk in Hle.
    assert (Hk0 : (0 <= inject_Z (Z.of_nat k))%Q).
    { change 0%Q with (inject_Z 0). rewrite <- Zle_Qle. lia. }
    unfold epsilon in *.
    set (K := inject_Z (Z.of_nat k)) in *.
    apply Qle_trans with (product * (1 - (1 # 4294967296)))%Q; [nra |].
    apply Qle_trans with
      (limit * (1 + (K + 1) * (1 # 4294967296)) * (1 - (1 # 4294967296)))%Q; [nra |].
    nra.
Qed.

(** Started at 1, the loop ends whatever the positive limit, given
    fuel enough. *)
Lemma poissonLoop_terminates (limit : Q) :
  (0 < limit)%Q ->
  exists k : nat, forall fuel : nat, (k <= fuel)%nat ->
    post (Realtime.poissonLoop fuel (Fin limit) (ofZ 1) 0) (fun _ => True).
Proof.
  intros Hlimit.
  exists (Z.to_nat (Qceiling (4294967296 / limit))).
  intros fuel Hfuel.
  apply (poissonLoop_settles limit (Z.to_nat (Qceiling (4294967296 / limit)))
           Hlimit fuel 1%Q 0); [exact Hfuel | reflexivity |].
  assert (Hc := Qle_ceiling (4294967296 / limit)).
  assert (Hdiv : (0 < 4294967296 / limit)%Q) by (apply Qlt_shift_div_l; lra).
  assert (Hcz : 0 <= Qceiling (4294967296 / limit)).
  { assert (Hq : (inject_Z 0 < inject_Z (Qceiling (4294967296 / limit)))%Q).
    { change (inject_Z 0) with 0%Q. lra. }
    rewrite <- Zlt_Qlt in Hq. lia. }
  rewrite Z2Nat.id by exact Hcz.
  assert (E : (4294967296 / limit * limit == 4294967296)%Q) by (field; lra).
  set (c := inject_Z (Qceiling (4294967296 / limit))) in *.
  set (X := (4294967296 / limit)%Q) in *.
  unfold epsilon.
  assert (Hcl : (4294967296 <= c * limit)%Q) by nra.
  change (inject_Z 1) with 1%Q. nra.
Qed.

End PoissonLoop.

(** ** The means the simulation samples from *)

Lemma max_Fin_not_NInf (lo : Q) (v : num) : JS.max (Fin lo) v <> NInf.
Proof.
  destruct v as [| | | q]; try discriminate.
  unfold JS.max. destruct (Fin lo <? Fin q)%num; discriminate.
Qed.

Lemma atMost_min (bound : Q) (a b : num) :
  atMost bound a -> b <> NInf -> atMost bound (JS.min a b).
Proof.
  intros [-> | (p & -> & Hp)] Hb; [left; reflexivity |].
  destruct b as [| | | q]; [left; reflexivity | | contradiction |].
  - right. exists p. split; [reflexivity | exact Hp].
  - right. unfold JS.min. rewrite ltb_Fin.
    destruct (Qltb q p) eqn:E.
    + apply Qltb_lt in E. exists q. split; [reflexivity | lra].
    + exists p. split; [reflexivity | exact Hp].
Qed.

Lemma atMost_clamp (value : num) (lo hi : Q) :
  atMost hi (clamp value (Fin lo) (Fin hi)).
Proof.
  unfold clamp. apply atMost_min; [| apply max_Fin_not_NInf].
  right. exists hi. split; [reflexivity | lra].
Qed.

Lemma atMost_scale (bound k : Q) (x y : num) :
  atMost bound x -> isQ y k -> (0 <= k)%Q -> atMost (bound * k) (x * y)%num.
Proof.
  intros [-> | (p & -> & Hp)] Hy Hk.
  - left. destruct y; reflexivity.
  - right. destruct (isQ_inv _ _ (isQ_mul (Fin p) y p k (Qeq_refl _) Hy)) as (r & -> & Hr).
    exists r. split; [reflexivity |]. rewrite Hr. nra.
Qed.

Lemma expectedScoringEvents_shape (input : Realtime.TeamScoringInput) :
  exists value drives,
    Realtime.expectedScoringEvents (Realtime.buildTeamScoringProfile input)
    = clamp value (Fin 0) (clamp drives (dec 35 2) (ofZ 13) * dec 92 2)%num.
Proof.
  unfold Realtime.buildTeamScoringProfile, Realtime.estimateRemainingDrivesPerTeam.
  cbv zeta.
  destruct (_ && _)%bool; destruct (_ && _)%bool; cbn [Realtime.expectedScoringEvents];
    eexists; eexists; reflexivity.
Qed.

(** The expected number of scoring events never exceeds 13 drives times
    0.92: the sampler is never asked for its Gaussian branch. *)
Lemma expectedScoringEvents_tame (input : Realtime.TeamScoringInput) :
  tameMean (Realtime.expectedScoringEvents (Realtime.buildTeamScoringProfile input)).
Proof.
  destruct (expectedScoringEvents_shape input) as (value & drives & ->).
  assert (Hhi : atMost (13 * (92 # 100))
                  (clamp drives (dec 35 2) (ofZ 13) * dec 92 2)%num).
  { apply atMost_scale; [apply (atMost_clamp drives _ 13) | apply isQ_dec | lra]. }
  assert (Hres : atMost (13 * (92 # 100))
                   (clamp value (Fin 0) (clamp drives (dec 35 2) (ofZ 13) * dec 92 2)%num)).
  { unfold clamp at 1. apply atMost_min; [exact Hhi | apply max_Fin_not_NInf]. }
  destruct Hres as [-> | (q & -> & Hq)]; [left; reflexivity |].
  right. exists q. split; [reflexivity | lra].
Qed.

(** ** The simulation comes to an end *)

Section SimulationEnds.
Context `{Runtime}.
Hypothesis exp_positive : expPositive.

Lemma samplePoisson_post (lambda : num) :
  tameMean lambda ->
  exists k : nat, forall fuel : nat, (k <= fuel)%nat ->
    post (Realtime.samplePoisson fuel lambda) (fun n => n <> PInf).
Proof.
  intros [-> | (q & -> & Hq)].
  - exists 0%nat. intros fuel _. apply post_ret. discriminate.
  - unfold Realtime.samplePoisson. cbn [JS.isFinite negb orb].
    rewrite leb_Fin.
    destruct (Qle_bool q 0) eqn:Epos.
    { exists 0%nat. intros fuel _. apply post_ret. discriminate. }
    assert (Hpos : (0 < q)%Q).
    { destruct (Qlt_le_dec 0 q) as [L | L]; [exact L |].
      apply Qle_bool_iff in L. congruence. }
    assert (Hbig : (Fin q >? ofZ 30)%num = false).
    { unfold JS.gtb, ofZ. rewrite ltb_Fin. apply Qltb_ge. exact Hq. }
    rewrite Hbig.
    destruct (exp_positive (Qred (- q))) as (limit & Elimit & Hlimit).
    { rewrite Qred_correct. lra. }
    destruct (poissonLoop_terminates limit Hlimit) as [k Hk].
    exists k. intros fuel Hfuel.
    change (- Fin q)%num with (Fin (Qred (- q))). rewrite Elimit.
    eapply post_bind; [exact (Hk fuel Hfuel) |].
    intros count _. apply post_ret.
    destruct (isQ_inv _ _ (isQ_max (Fin 0) (ofZ (count - 1)) _ _
                             (Qeq_refl _) (isQ_ofZ _))) as (r & -> & _).
    discriminate.
Qed.

Lemma sampleScoringOutcomePoints_post
    (outcomes : list Realtime.ScoringOutcomeProbability) :
  post (Realtime.sampleScoringOutcomePoints outcomes) (fun _ => True).
Proof.
  unfold Realtime.sampleScoringOutcomePoints.
  eapply post_bind; [exact post_rng |]. intros u _. apply post_ret. exact I.
Qed.

Lemma sumRepeat_post (n : nat) (body : Realtime.Rand Z) (acc : Z) :
  post body (fun _ => True) -> post (Realtime.sumRepeat n body acc) (fun _ => True).
Proof.
  intros Hbody. revert acc. induction n as [| n IH]; intros acc; simpl.
  - apply post_ret. exact I.
  - eapply post_bind; [exact Hbody |]. intros points _. apply IH.
Qed.

Lemma sumWhileBelow_post (count : num) (body : Realtime.Rand Z) :
  count <> PInf -> post body (fun _ => True) ->
  post (Realtime.sumWhileBelow count body) (fun _ => True).
Proof.
  intros Hcount Hbody. destruct count as [| | | q]; simpl.
  - apply post_ret. exact I.
  - contradiction.
  - apply post_ret. exact I.
  - apply sumRepeat_post, Hbody.
Qed.

Lemma simulateRun_post (fuel : nat) (snapshot : LiveGameSnapshot) (remaining : num)
    (homeProfile awayProfile : Realtime.TeamScoringSimulationProfile) :
  post (Realtime.samplePoisson fuel (Realtime.expectedScoringEvents homeProfile))
       (fun n => n <> PInf) ->
  post (Realtime.samplePoisson fuel (Realtime.expectedScoringEvents awayProfile))
       (fun n => n <> PInf) ->
  post (Realtime.simulateRun fuel snapshot remaining homeProfile awayProfile)
       (fun _ => True).
Proof.
  intros Hhome Haway. unfold Realtime.simulateRun.
  eapply post_bind; [exact Hhome |]. intros homeEventCount HhomeCount.
  eapply post_bind; [exact Haway |]. intros awayEventCount HawayCount.
  eapply post_bind;
    [apply sumWhileBelow_post;
       [exact HhomeCount | apply sampleScoringOutcomePoints_post] |].
  intros homeAdditional _.
  eapply post_bind;
    [apply sumWhileBelow_post;
       [exact HawayCount | apply sampleScoringOutcomePoints_post] |].
  intros awayAdditional _.
  eapply post_bind with (P := fun _ => True).
  - destruct (remaining <=? ofZ (2 * 60))%num; [| apply post_ret; exact I].
    eapply post_bind; [exact post_rng |]. intros chance _.
    destruct (chance <? dec 28 2)%num; [| apply post_ret; exact I].
    cbv zeta.
    destruct (_ <? _)%Z.
    { eapply post_bind; [apply sampleScoringOutcomePoints_post |].
      intros extra _. apply post_ret. exact I. }
    destruct (_ <? _)%Z.
    { eapply post_bind; [apply sampleScoringOutcomePoints_post |].
      intros extra _. apply post_ret. exact I. }
    eapply post_bind; [exact post_rng |]. intros coin _.
    destruct (coin <? dec 5 1)%num;
      (eapply post_bind; [apply sampleScoringOutcomePoints_post |]);
      intros extra _; apply post_ret; exact I.
  - intros [homeTotal awayTotal] _. apply post_ret. exact I.
Qed.

Lemma incrementCell_settled (matrix : DigitProbabilityMatrix) (homeDigit awayDigit : Z) :
  settled (Realtime.incrementCell matrix homeDigit awayDigit).
Proof.
  unfold Realtime.incrementCell.
  destruct (homeDigit <? 0); [apply settled_Throw |].
  destruct (matrix !! Z.to_nat homeDigit); [| apply settled_Throw].
  destruct (awayDigit <? 0); apply settled_Ok.
Qed.

Lemma simulateRuns_post (runs fuel : nat) (snapshot : LiveGameSnapshot)
    (remaining : num)
    (homeProfile awayProfile : Realtime.TeamScoringSimulationProfile)
    (matrix : DigitProbabilityMatrix) :
  post (Realtime.samplePoisson fuel (Realtime.expectedScoringEvents homeProfile))
       (fun n => n <> PInf) ->
  post (Realtime.samplePoisson fuel (Realtime.expectedScoringEvents awayProfile))
       (fun n => n <> PInf) ->
  post (Realtime.simulateRuns runs fuel snapshot remaining homeProfile awayProfile
          matrix) (fun _ => True).
Proof.
  intros Hhome Haway. revert matrix.
  induction runs as [| runs IH]; intros matrix; simpl.
  - apply post_ret. exact I.
  - eapply post_bind; [apply simulateRun_post; assumption |].
    intros [homeDigit awayDigit] _.
    eapply post_bind; [apply post_liftOutcome, incrementCell_settled |].
    intros matrix' _. apply IH.
Qed.

(** With fuel enough for the two means of the snapshot, the Monte
    Carlo simulation returns a matrix or throws. *)
Lemma buildSimulationMatrix_settles (snapshot : LiveGameSnapshot)
    (featureVector : LiveFeatureVector) (expectedHome expectedAway : num) :
  exists k : nat, forall fuel : nat, (k <= fuel)%nat ->
    settled (Realtime.buildSimulationMatrix fuel snapshot featureVector
               expectedHome expectedAway).
Proof.
  unfold Realtime.buildSimulationMatrix. cbv zeta.
  set (homeProfile := Realtime.buildTeamScoringProfile _).
  set (awayProfile := Realtime.buildTeamScoringProfile _).
  destruct (samplePoisson_post (Realtime.expectedScoringEvents homeProfile)
              (expectedScoringEvents_tame _)) as [kh Hkh].
  destruct (samplePoisson_post (Realtime.expectedScoringEvents awayProfile)
              (expectedScoringEvents_tame _)) as [ka Hka].
  exists (Nat.max kh ka). intros fuel Hfuel.
  set (runs := Z.to_nat _). set (state := Realtime.seedState _).
  assert (Hruns := simulateRuns_post runs fuel snapshot
                     (remainingGameSeconds featureVector) homeProfile awayProfile
                     createZeroMatrix (Hkh fuel ltac:(lia)) (Hka fuel ltac:(lia)) state).
  destruct (Realtime.simulateRuns _ _ _ _ _ _ _ _) as [[matrix state'] | e |];
    simpl; [apply settled_Ok | apply settled_Throw | contradiction].
Qed.

Lemma estimateLive_settles (input : Realtime.BuildRealtimeSquareOddsInput)
    (featureVector : LiveFeatureVector) :
  exists k : nat, forall fuel : nat, (k <= fuel)%nat ->
    settled (Realtime.estimateLive fuel input featureVector).
Proof.
  unfold Realtime.estimateLive. cbv zeta.
  case_bool_decide as Hstatus.
  - exists 0%nat. intros fuel _. apply settled_Ok.
  - destruct (buildSimulationMatrix_settles (Realtime.snapshot input) featureVector
      (Realtime.estimateAdditionalPoints
         (expectedHomePoints (Realtime.baseModel input))
         (homeScore (Realtime.snapshot input))
         (homeMomentum featureVector) (awayMomentum featureVector)
         (homeRecentScoringRate featureVector) (homePenaltyPressure featureVector)
         (homeTurnoverPressure featureVector) (playPacePerMinute featureVector)
         (remainingGameSeconds featureVector) (elapsedGameSeconds featureVector)
         (homeScore (Realtime.snapshot input) - awayScore (Realtime.snapshot input)))
      (Realtime.estimateAdditionalPoints
         (expectedAwayPoints (Realtime.baseModel input))
         (awayScore (Realtime.snapshot input))
         (awayMomentum featureVector) (homeMomentum featureVector)
         (awayRecentScoringRate featureVector) (awayPenaltyPressure featureVector)
         (awayTurnoverPressure featureVector) (playPacePerMinute featureVector)
         (remainingGameSeconds featureVector) (elapsedGameSeconds featureVector)
         (- (homeScore (Realtime.snapshot input) - awayScore (Realtime.snapshot input)))))
      as [k Hk].
    exists k. intros fuel Hfuel. apply settled_bind; [exact (Hk fuel Hfuel) |].
    intros matrix _. apply settled_Ok.
Qed.

Lemma blendMatrices_settled (base live : DigitProbabilityMatrix) (liveWeight : num) :
  settled (Realtime.blendMatrices base live liveWeight).
Proof.
  unfold Realtime.blendMatrices. cbv zeta.
  apply settled_bind; [| intros; apply settled_Ok].
  apply traverse_settled. intros r _. apply traverse_settled. intros c _.
  apply settled_bind; [apply cellAt_settled |]. intros b _.
  apply settled_bind; [apply cellAt_settled |]. intros l _. apply settled_Ok.
Qed.

End SimulationEnds.

Section InvalidLabels.
Context `{Runtime}.
Hypothesis exp_positive : expPositive.

(** C9: when the row labels or the column labels are not ten integers
    of 0 .. 9, a call of the realtime engine returns no result, for any
    fuel, and with fuel enough for its Poisson loops it ends in a
    throw. *)
Theorem invalid_labels_throw (now : string)
    (input : Realtime.BuildRealtimeSquareOddsInput) :
  ~ validLabels (Realtime.rowLabels input) \/
  ~ validLabels (Realtime.colLabels input) ->
  (forall fuel : nat, ~ returns (Realtime.buildRealtimeSquareOdds fuel now input))
  /\ exists k : nat, forall fuel : nat, (k <= fuel)%nat ->
       throws (Realtime.buildRealtimeSquareOdds fuel now input).
Proof.
  intros Hinvalid.
  assert (Hmap : forall probabilities,
            throws (Realtime.mapDigitMatrixToBoard probabilities
                      (Realtime.rowLabels input) (Realtime.colLabels input))).
  { intros probabilities. apply mapDigitMatrixToBoardWith_throws, Hinvalid. }
  split.
  - intros fuel [result Hresult]. revert Hresult.
    unfold Realtime.buildRealtimeSquareOdds. cbv zeta.
    destruct (Realtime.estimateLive _ _ _) as [live | |]; try discriminate. simpl.
    destruct (Realtime.blendMatrices _ _ _) as [probabilities | |]; try discriminate.
    simpl. destruct (Hmap probabilities) as [e ->]. discriminate.
  - destruct (estimateLive_settles exp_positive input
                (Realtime.buildFeatureVector (Realtime.snapshot input))) as [k Hk].
    exists k. intros fuel Hfuel. specialize (Hk fuel Hfuel).
    unfold Realtime.buildRealtimeSquareOdds. cbv zeta.
    destruct (Realtime.estimateLive _ _ _) as [live | e |];
      [| exists e; reflexivity | contradiction].
    simpl.
    assert (Hblend := blendMatrices_settled
                        (digitProbabilities (Realtime.baseModel input))
                        (Realtime.liveDigitMatrix live) (Realtime.liveBlendWeight live)).
    destruct (Realtime.blendMatrices _ _ _) as [probabilities | e |];
      [| exists e; reflexivity | contradiction].
    simpl. destruct (Hmap probabilities) as [e ->]. exists e. reflexivity.
Qed.

End InvalidLabels.

Lemma sampleRuntime_expPositive : @expPositive sampleRuntime.
Proof.
  intros q [_ Hq]. simpl.
  rewrite (proj2 (Qle_bool_iff q 0) Hq).
  eexists. split; [reflexivity |]. rewrite Qred_correct.
  assert (E : (1 - q + q * q / 2 == 1 - q + q * q * (1 # 2))%Q) by field.
  assert (Hden : (0 < 1 - q + q * q / 2)%Q) by (rewrite E; nra).
  apply Qlt_shift_div_l; [exact Hden | lra].
Qed.

Lemma badRowLabels_invalid : ~ validLabels badRowLabels.
Proof.
  intros [_ Hall]. rewrite Forall_forall in Hall.
  destruct (Hall (ofZ 10)) as [d Hd].
  - apply list_elem_of_In. simpl. tauto.
  - vm_compute in Hd. discriminate.
Qed.

Lemma invalid_labels_throw_witness :
  (forall fuel : nat,
     ~ returns (@Realtime.buildRealtimeSquareOdds sampleRuntime fuel
                  "2026-02-09T01:40:01.000Z" badLabelsInput))
  /\ exists k : nat, forall fuel : nat, (k <= fuel)%nat ->
       throws (@Realtime.buildRealtimeSquareOdds sampleRuntime fuel
                 "2026-02-09T01:40:01.000Z" badLabelsInput).
Proof.
  apply (@invalid_labels_throw sampleRuntime sampleRuntime_expPositive).
  left. exact badRowLabels_invalid.
Defined.

(** On a final snapshot no simulation runs and the throw can be read
    off: nine row labels. *)
Example nine_row_labels_throw :
  @Realtime.buildRealtimeSquareOdds sampleRuntime 0 "2026-02-09T03:10:01.000Z"
    {| Realtime.baseModel := sampleBaseModel;
       Realtime.snapshot := finalSnapshot;
       Realtime.rowLabels := map ofZ [5; 0; 1; 2; 3; 4; 6; 7; 8];
       Realtime.colLabels := sampleColLabels |}
  = Throw "Expected 10 row labels and 10 column labels for realtime heatmap.".
Proof. vm_compute. reflexivity. Qed.

Example fractional_column_label_throws :
  @Realtime.buildRealtimeSquareOdds sampleRuntime 0 "2026-02-09T03:10:01.000Z"
    {| Realtime.baseModel := sampleBaseModel;
       Realtime.snapshot := finalSnapshot;
       Realtime.rowLabels := sampleRowLabels;
       Realtime.colLabels := dec 45 1 :: map ofZ [1; 2; 3; 4; 5; 6; 7; 8; 9] |}
  = Throw "Invalid column label while mapping realtime probabilities.".
Proof. vm_compute. reflexivity. Qed.

(** ** Two invocations of the realtime engine *)

Section Determinism.
Context `{Runtime}.

(** The clock of the invocation reaches the result in [generatedAt]
    and nowhere else. *)
Lemma buildRealtimeSquareOdds_clock (fuel : nat) (now now' : string)
    (input : Realtime.BuildRealtimeSquareOddsInput) :
  Realtime.buildRealtimeSquareOdds fuel now input
  = withGeneratedAt now <$> Realtime.buildRealtimeSquareOdds fuel now' input.
Proof.
  unfold Realtime.buildRealtimeSquareOdds. cbv zeta.
  destruct (Realtime.estimateLive _ _ _) as [live | e |]; try reflexivity. simpl.
  destruct (Realtime.blendMatrices _ _ _) as [probabilities | e |]; try reflexivity.
  simpl.
  destruct (Realtime.mapDigitMatrixToBoard _ _ _) as [board | e |]; reflexivity.
Qed.

Lemma seedBasis_fields (a b : LiveGameSnapshot) :
  sameSeedFields a b -> Realtime.seedBasis a = Realtime.seedBasis b.
Proof.
  intros (H1 & H2 & H3 & H4 & H5 & H6 & H7 & H8 & H9).
  unfold Realtime.seedBasis. rewrite H1, H2, H3, H4, H5, H6, H7, H8, H9. reflexivity.
Qed.

Lemma seedBasis_text (snapshot : LiveGameSnapshot) :
  Realtime.seedBasis snapshot = seedText snapshot.
Proof.
  unfold Realtime.seedBasis, seedText. destruct (last (plays snapshot)); reflexivity.
Qed.

(** A simulated run reads the two scores of the snapshot and nothing
    else of it. *)
Lemma simulateRun_scores (fuel : nat) (a b : LiveGameSnapshot) (remaining : num)
    (homeProfile awayProfile : Realtime.TeamScoringSimulationProfile) :
  homeScore a = homeScore b -> awayScore a = awayScore b ->
  Realtime.simulateRun fuel a remaining homeProfile awayProfile
  = Realtime.simulateRun fuel b remaining homeProfile awayProfile.
Proof.
  intros Hhome Haway. unfold Realtime.simulateRun. rewrite Hhome, Haway. reflexivity.
Qed.

Lemma simulateRuns_scores (runs fuel : nat) (a b : LiveGameSnapshot) (remaining : num)
    (homeProfile awayProfile : Realtime.TeamScoringSimulationProfile)
    (matrix : DigitProbabilityMatrix) (state : Z) :
  homeScore a = homeScore b -> awayScore a = awayScore b ->
  Realtime.simulateRuns runs fuel a remaining homeProfile awayProfile matrix state
  = Realtime.simulateRuns runs fuel b remaining homeProfile awayProfile matrix state.
Proof.
  intros Hhome Haway. revert matrix state.
  induction runs as [| runs IH]; intros matrix state; [reflexivity |].
  cbn [Realtime.simulateRuns]. unfold mbind at 1, Realtime.Rand_bind at 1.
  unfold mbind at 2, Realtime.Rand_bind at 2.
  rewrite (simulateRun_scores fuel a b remaining homeProfile awayProfile Hhome Haway).
  destruct (Realtime.simulateRun fuel b remaining homeProfile awayProfile state)
    as [[[homeDigit awayDigit] state'] | e |]; try reflexivity.
  unfold mbind, Realtime.Rand_bind.
  destruct (Realtime.liftOutcome _ state') as [[matrix' state''] | e |];
    try reflexivity.
  apply IH.
Qed.

(** The generator of the simulation starts from the hash of the nine
    fields joined by bars. *)
Lemma buildSimulationMatrix_seed (fuel : nat) (snapshot : LiveGameSnapshot)
    (featureVector : LiveFeatureVector)
    (expectedHomeAdditionalPoints expectedAwayAdditionalPoints : num) :
  exists (runs : nat) (homeProfile awayProfile : Realtime.TeamScoringSimulationProfile),
    (Z.of_nat runs = 12000 \/ Z.of_nat runs = 10000 \/ Z.of_nat runs = 8000)
    /\ Realtime.buildSimulationMatrix fuel snapshot featureVector
         expectedHomeAdditionalPoints expectedAwayAdditionalPoints
       = simulationFrom fuel snapshot featureVector runs homeProfile awayProfile
           (Realtime.seedState (Realtime.hashString (seedText snapshot))).
Proof.
  unfold Realtime.buildSimulationMatrix, simulationFrom. cbv zeta.
  rewrite seedBasis_text.
  eexists _, _, _. split; [| reflexivity].
  destruct (_ <=? _)%num; [left; reflexivity |].
  destruct (_ <=? _)%num; [right; left | right; right]; reflexivity.
Qed.

(** Two snapshots that agree on the nine fields give the same
    simulation. *)
Lemma buildSimulationMatrix_fields (fuel : nat) (a b : LiveGameSnapshot)
    (featureVector : LiveFeatureVector)
    (expectedHomeAdditionalPoints expectedAwayAdditionalPoints : num) :
  sameSeedFields a b ->
  Realtime.buildSimulationMatrix fuel a featureVector
    expectedHomeAdditionalPoints expectedAwayAdditionalPoints
  = Realtime.buildSimulationMatrix fuel b featureVector
      expectedHomeAdditionalPoints expectedAwayAdditionalPoints.
Proof.
  intros Hsame. pose proof (seedBasis_fields a b Hsame) as Hseed.
  destruct Hsame as (_ & _ & _ & Hhome & Haway & _).
  unfold Realtime.buildSimulationMatrix. cbv zeta.
  rewrite Hseed, Hhome, Haway.
  rewrite (simulateRuns_scores _ fuel a b); [reflexivity | exact Hhome | exact Haway].
Qed.

Lemma getLiveBlendWeight_fields (featureVector : LiveFeatureVector)
    (a b : LiveGameSnapshot) :
  sameSeedFields a b ->
  Realtime.getLiveBlendWeight featureVector a = Realtime.getLiveBlendWeight featureVector b.
Proof.
  intros (_ & Hstatus & _ & Hhome & Haway & _).
  unfold Realtime.getLiveBlendWeight. rewrite Hstatus, Hhome, Haway. reflexivity.
Qed.

(** What the engine reads of a snapshot: the nine fields of the seed,
    the feature vector and the time of the fetch. *)
Lemma buildRealtimeSquareOdds_fields (fuel : nat) (now : string)
    (input input' : Realtime.BuildRealtimeSquareOddsInput) :
  Realtime.baseModel input = Realtime.baseModel input' ->
  Realtime.rowLabels input = Realtime.rowLabels input' ->
  Realtime.colLabels input = Realtime.colLabels input' ->
  sameSeedFields (Realtime.snapshot input) (Realtime.snapshot input') ->
  Realtime.buildFeatureVector (Realtime.snapshot input)
  = Realtime.buildFeatureVector (Realtime.snapshot input') ->
  fetchedAt (Realtime.snapshot input) = fetchedAt (Realtime.snapshot input') ->
  Realtime.buildRealtimeSquareOdds fuel now input
  = Realtime.buildRealtimeSquareOdds fuel now input'.
Proof.
  intros Hbase Hrows Hcols Hsame Hfeatures Hfetched.
  unfold Realtime.buildRealtimeSquareOdds, Realtime.estimateLive. cbv zeta.
  rewrite (buildSimulationMatrix_fields fuel _ _ _ _ _ Hsame).
  rewrite (getLiveBlendWeight_fields _ _ _ Hsame).
  destruct Hsame as (H1 & H2 & H3 & H4 & H5 & H6 & H7 & _).
  rewrite Hbase, Hrows, Hcols, Hfeatures, Hfetched, H1, H2, H3, H4, H5, H6, H7.
  reflexivity.
Qed.

(** C1, amended: for a fixed base model, labels and snapshot, two
    invocations of the realtime engine end the same way, and two
    results differ at most in [generatedAt], which is the time of each
    invocation.  The generator of the Monte Carlo simulation is seeded
    with the hash of the event id, status, status detail, scores,
    period, display clock, last play id and play count of the
    snapshot, joined by bars, and with nothing else: snapshots that
    agree on these nine fields give the same simulation, and with the
    same feature vector and fetch time the same result. *)
Theorem realtime_deterministic_up_to_generatedAt (fuel : nat) (now1 now2 : string)
    (input : Realtime.BuildRealtimeSquareOddsInput) :
  Realtime.buildRealtimeSquareOdds fuel now2 input
  = withGeneratedAt now2 <$> Realtime.buildRealtimeSquareOdds fuel now1 input
  /\ (forall result,
        Realtime.buildRealtimeSquareOdds fuel now1 input = Ok result ->
        generatedAt (base result) = now1)
  /\ (forall a b : LiveGameSnapshot,
        sameSeedFields a b ->
        Realtime.seedState (Realtime.hashString (Realtime.seedBasis a))
        = Realtime.seedState (Realtime.hashString (Realtime.seedBasis b)))
  /\ (forall (featureVector : LiveFeatureVector) (expectedHome expectedAway : num),
      exists (runs : nat)
             (homeProfile awayProfile : Realtime.TeamScoringSimulationProfile),
        (Z.of_nat runs = 12000 \/ Z.of_nat runs = 10000 \/ Z.of_nat runs = 8000)
        /\ Realtime.buildSimulationMatrix fuel (Realtime.snapshot input) featureVector
             expectedHome expectedAway
           = simulationFrom fuel (Realtime.snapshot input) featureVector runs
               homeProfile awayProfile
               (Realtime.seedState
                  (Realtime.hashString (seedText (Realtime.snapshot input)))))
  /\ (forall (other : LiveGameSnapshot) (featureVector : LiveFeatureVector)
             (expectedHome expectedAway : num),
        sameSeedFields (Realtime.snapshot input) other ->
        Realtime.buildSimulationMatrix fuel (Realtime.snapshot input) featureVector
          expectedHome expectedAway
        = Realtime.buildSimulationMatrix fuel other featureVector
            expectedHome expectedAway)
  /\ (forall input' : Realtime.BuildRealtimeSquareOddsInput,
        Realtime.baseModel input = Realtime.baseModel input' ->
        Realtime.rowLabels input = Realtime.rowLabels input' ->
        Realtime.colLabels input = Realtime.colLabels input' ->
        sameSeedFields (Realtime.snapshot input) (Realtime.snapshot input') ->
        Realtime.buildFeatureVector (Realtime.snapshot input)
        = Realtime.buildFeatureVector (Realtime.snapshot input') ->
        fetchedAt (Realtime.snapshot input) = fetchedAt (Realtime.snapshot input') ->
        Realtime.buildRealtimeSquareOdds fuel now1 input
        = Realtime.buildRealtimeSquareOdds fuel now1 input').
Proof.
  split; [apply buildRealtimeSquareOdds_clock |].
  split.
  { intros result. rewrite (buildRealtimeSquareOdds_clock fuel now1 now1).
    destruct (Realtime.buildRealtimeSquareOdds fuel now1 input) as [r | e |];
      try discriminate.
    simpl. intros [= <-]. reflexivity. }
  split.
  { intros a b Hsame. rewrite (seedBasis_fields a b Hsame). reflexivity. }
  split.
  { intros featureVector expectedHome expectedAway. apply buildSimulationMatrix_seed. }
  split.
  { intros other featureVector expectedHome expectedAway.
    apply buildSimulationMatrix_fields. }
  apply buildRealtimeSquareOdds_fields.
Qed.

End Determinism.

(** C1, as stated, fails: the same base model, labels and snapshot give
    two results that differ when the two invocations are not made at the
    same millisecond. *)
Lemma realtime_output_differs_with_clock :
  @Realtime.buildRealtimeSquareOdds sampleRuntime 0 "2026-02-09T03:10:01.000Z" finalInput
  <> @Realtime.buildRealtimeSquareOdds sampleRuntime 0 "2026-02-09T03:10:01.250Z" finalInput.
Proof.
  intros Heq.
  apply (f_equal (fmap (fun result => generatedAt (base result)))) in Heq.
  vm_compute in Heq. discriminate.
Qed.

Lemma realtime_deterministic_up_to_generatedAt_witness :
  sameSeedFields finalSnapshot refetchedFinalSnapshot
  /\ Realtime.seedState (Realtime.hashString (Realtime.seedBasis finalSnapshot))
     = Realtime.seedState (Realtime.hashString (Realtime.seedBasis refetchedFinalSnapshot))
  /\ (forall featureVector expectedHome expectedAway,
        @Realtime.buildSimulationMatrix sampleRuntime 0 finalSnapshot featureVector
          expectedHome expectedAway
        = @Realtime.buildSimulationMatrix sampleRuntime 0 refetchedFinalSnapshot
            featureVector expectedHome expectedAway)
  /\ @Realtime.buildRealtimeSquareOdds sampleRuntime 0 "2026-02-09T03:10:01.000Z"
       finalInput
     = @Realtime.buildRealtimeSquareOdds sampleRuntime 0 "2026-02-09T03:10:01.000Z"
         renamedFinalInput
  /\ exists result,
       @Realtime.buildRealtimeSquareOdds sampleRuntime 0 "2026-02-09T03:10:01.000Z"
         finalInput = Ok result
       /\ generatedAt (base result) = "2026-02-09T03:10:01.000Z"
       /\ @Realtime.buildRealtimeSquareOdds sampleRuntime 0 "2026-02-09T03:10:01.250Z"
            finalInput = Ok (withGeneratedAt "2026-02-09T03:10:01.250Z" result).
Proof.
  destruct (@realtime_deterministic_up_to_generatedAt sampleRuntime 0
              "2026-02-09T03:10:01.000Z" "2026-02-09T03:10:01.250Z" finalInput)
    as (Hsecond & Htime & Hseed & _ & Hsimulation & Hfields).
  assert (Hsame : sameSeedFields finalSnapshot refetchedFinalSnapshot).
  { repeat split; reflexivity. }
  split; [exact Hsame |]. split; [exact (Hseed _ _ Hsame) |].
  split.
  { intros featureVector expectedHome expectedAway.
    exact (Hsimulation refetchedFinalSnapshot featureVector expectedHome expectedAway
             Hsame). }
  split.
  { apply (Hfields renamedFinalInput); try reflexivity.
    repeat split; reflexivity. }
  destruct (@realtime_final_returns sampleRuntime 0 "2026-02-09T03:10:01.000Z"
              finalInput (or_introl eq_refl)) as [result Hresult].
  - apply validLabels_check; reflexivity.
  - apply validLabels_check; reflexivity.
  - vm_compute. lia.
  - exists result. split; [exact Hresult |]. split; [exact (Htime result Hresult) |].
    rewrite Hsecond, Hresult. reflexivity.
Defined.

Example seedBasis_final :
  Realtime.seedBasis finalSnapshot = "401772988|final|Final|14|10|4|0:00|none|0".
Proof. reflexivity. Qed.

Example seedBasis_third_quarter :
  Realtime.seedBasis thirdQuarterSnapshot
  = "401772988|in_progress|7:05 - 3rd Quarter|14|10|3|7:05|4017729881244|2".
Proof. reflexivity. Qed.

Example hashString_fnv1a :
  Realtime.hashString "" = 2166136261 /\ Realtime.hashString "abc" = 440920331.
Proof. split; vm_compute; reflexivity. Qed.


(** * Part III: the pre-game service *)

(** ** Matrices and vectors of the pre-game model *)

Lemma foldOutcome_settled {A B} (f : B -> A -> outcome B) (l : list A) (b : B) :
  (forall b x, settled (f b x)) -> settled (foldOutcome f l b).
Proof.
  intros Hf. revert b. induction l as [| x l IH]; intros b; simpl.
  - apply settled_Ok.
  - apply settled_bind; [apply Hf |]. intros b' _. apply IH.
Qed.

Lemma foldOutcome_ok {A B} (f : B -> A -> outcome B) (l : list A) (b : B) :
  (forall b x, x ∈ l -> returns (f b x)) -> returns (foldOutcome f l b).
Proof.
  revert b. induction l as [| x l IH]; intros b Hf; simpl.
  - exists b. reflexivity.
  - destruct (Hf b x) as [b' ->]; [apply elem_of_cons; left; reflexivity |].
    simpl. apply IH. intros b'' y Hy. apply Hf, elem_of_cons. right. exact Hy.
Qed.

Lemma service_normalizeMatrix_settled (matrix : DigitProbabilityMatrix) :
  settled (Service.normalizeMatrix matrix).
Proof.
  unfold Service.normalizeMatrix. apply settled_bind.
  - apply foldOutcome_settled. intros total [r c].
    apply settled_bind; [apply cellAt_settled |]. intros value _. apply settled_Ok.
  - intros total _. destruct (_ || _)%bool; apply settled_Ok.
Qed.

Lemma cells_rows (r c : nat) : (r, c) ∈ Service.cells -> (r < DIGIT_COUNT)%nat.
Proof.
  unfold Service.cells. intros Hin.
  apply list_elem_of_bind in Hin as (r' & Hin & Hr').
  apply list_elem_of_bind in Hin as (c' & Hin & _).
  apply list_elem_of_singleton in Hin. injection Hin as Hr Hc. subst r' c'.
  apply elem_of_seq in Hr'. unfold DIGIT_COUNT in *. lia.
Qed.

(** On a matrix of ten rows [normalizeMatrix] returns, and returns ten
    rows. *)
Lemma service_normalizeMatrix_rows (matrix : DigitProbabilityMatrix) :
  length matrix = DIGIT_COUNT ->
  exists normalized,
    Service.normalizeMatrix matrix = Ok normalized /\ length normalized = DIGIT_COUNT.
Proof.
  intros Hlen. unfold Service.normalizeMatrix.
  destruct (foldOutcome_ok
              (fun total '(r, c) =>
                 value ← cellAt matrix r c; Ok (total + JS.max value (Fin 0))%num)
              Service.cells (Fin 0)) as [total ->].
  { intros total [r c] Hin. apply cells_rows in Hin.
    unfold cellAt. destruct (lookup_lt_is_Some_2 matrix r) as [row ->]; [lia |].
    simpl. eexists. reflexivity. }
  simpl. destruct (_ || _)%bool; eexists; (split; [reflexivity |]).
  - unfold Service.createUniformDigitMatrix, constantMatrix. apply length_replicate.
  - rewrite length_map. exact Hlen.
Qed.

Lemma outerProduct_settled (a b : list num) : settled (Service.outerProduct a b).
Proof. apply service_normalizeMatrix_settled. Qed.

Lemma outerProduct_rows (a b : list num) :
  exists product,
    Service.outerProduct a b = Ok product /\ length product = DIGIT_COUNT.
Proof.
  apply service_normalizeMatrix_rows. rewrite length_map. apply length_seq.
Qed.

Lemma service_blendMatrices_settled (parts : list Service.MatrixPart) :
  settled (Service.blendMatrices parts).
Proof.
  unfold Service.blendMatrices. apply settled_bind.
  - apply foldOutcome_settled. intros [output weightTotal] part.
    destruct (_ <=? _)%num; [apply settled_Ok |].
    apply settled_bind; [| intros; apply settled_Ok].
    apply traverse_settled. intros r _. apply traverse_settled. intros c _.
    apply settled_bind; [apply cellAt_settled |]. intros; apply settled_Ok.
  - intros [output weightTotal] _.
    destruct (_ <=? _)%num; [apply settled_Ok | apply service_normalizeMatrix_settled].
Qed.

Lemma bumpCell_settled (counts : DigitProbabilityMatrix) (r c amount : num) :
  settled (Service.bumpCell counts r c amount).
Proof.
  unfold Service.bumpCell, TypeError.
  destruct (labelDigit r) as [i |]; [| apply settled_Throw].
  destruct (counts !! i); [apply settled_Ok | apply settled_Throw].
Qed.

Lemma buildBaselineMatrix_settled (games : list Service.GameRecord) (latestSeason : num) :
  settled (Service.buildBaselineMatrix games latestSeason).
Proof.
  unfold Service.buildBaselineMatrix. cbv zeta. apply settled_bind.
  - apply foldOutcome_settled. intros [counts sampleSize] game.
    destruct (_ <? _)%num; [apply settled_Ok |].
    destruct (_ || _)%bool; [apply settled_Ok |].
    apply settled_bind; [apply bumpCell_settled |]. intros; apply settled_Ok.
  - intros [counts sampleSize] _.
    apply settled_bind; [apply service_normalizeMatrix_settled |].
    intros; apply settled_Ok.
Qed.

Lemma buildTeamDigitMatrix_settled
    (homeContext awayContext : option Service.TeamContext)
    (homeSportsDb awaySportsDb : option Service.SportsDbRecentForm) :
  settled (Service.buildTeamDigitMatrix homeContext awayContext homeSportsDb awaySportsDb).
Proof. apply outerProduct_settled. Qed.

Lemma service_mapDigitMatrixToBoard_settled (matrix : DigitProbabilityMatrix)
    (rowLabels colLabels : list num) :
  settled (Service.mapDigitMatrixToBoard matrix rowLabels colLabels).
Proof.
  unfold Service.mapDigitMatrixToBoard, mapDigitMatrixToBoardWith.
  case_bool_decide; [apply settled_Throw |].
  apply traverse_settled. intros r _.
  destruct (labelDigit _); [| apply settled_Throw].
  apply traverse_settled. intros c _.
  destruct (labelDigit _); [| apply settled_Throw].
  apply settled_bind; [apply cellAt_settled |]. intros; apply settled_Ok.
Qed.


Lemma validLabels_dec (labels : list num) : validLabels labels \/ ~ validLabels labels.
Proof.
  unfold validLabels.
  destruct (decide (length labels = DIGIT_COUNT
                    /\ Forall (fun label => is_Some (labelDigit label)) labels));
    [left | right]; assumption.
Qed.

Lemma supportedTeam_dec (teamNameOrCode : string) :
  supportedTeam teamNameOrCode \/ ~ supportedTeam teamNameOrCode.
Proof.
  unfold supportedTeam.
  destruct (Service.findTeamByNameOrCode teamNameOrCode) as [team |].
  - left. exists team. reflexivity.
  - right. intros [team Hteam]. discriminate.
Qed.


Lemma liftOutcome_bind {A B} (m : outcome A) (f : A -> Service.Eff B)
    (store : Service.Store) :
  (Service.liftOutcome m ≫= f) store
  = match m with
    | Ok a => f a store
    | Throw e => (store, Throw e)
    | OutOfFuel => (store, OutOfFuel)
    end.
Proof. destruct m; reflexivity. Qed.

Lemma Eff_bind_eq {A B} (m : Service.Eff A) (f : A -> Service.Eff B)
    (store : Service.Store) :
  (m ≫= f) store
  = match m store with
    | (store', Ok a) => f a store'
    | (store', Throw e) => (store', Throw e)
    | (store', OutOfFuel) => (store', OutOfFuel)
    end.
Proof. reflexivity. Qed.


Lemma supportedTeam_check (teamNameOrCode : string) :
  bool_decide (is_Some (Service.findTeamByNameOrCode teamNameOrCode)) = true ->
  supportedTeam teamNameOrCode.
Proof. intros Hcheck. apply bool_decide_eq_true_1 in Hcheck. exact Hcheck. Qed.


(** ** Digits of scores *)

Lemma Qred_inject_Z (k : Z) : Qred (inject_Z k) = inject_Z k.
Proof.
  unfold Qred, inject_Z.
  pose proof (Z.ggcd_gcd k 1) as Hg.
  pose proof (Z.ggcd_correct_divisors k 1) as Hd.
  destruct (Z.ggcd k 1) as [g [a b]]. simpl in Hg, Hd.
  rewrite Z.gcd_1_r in Hg. subst g. destruct Hd as [Ha Hb].
  assert (Ea : a = k) by lia. assert (Eb : b = 1) by lia. clear Ha Hb.
  subst a b. reflexivity.
Qed.

Lemma fin_integer (q : Q) (k : Z) : (q == inject_Z k)%Q -> fin q = ofZ k.
Proof.
  intros Hq. unfold fin, ofZ. f_equal.
  rewrite (Qred_complete _ _ Hq). apply Qred_inject_Z.
Qed.

Lemma tenth_sign (a : Z) : (0 <= inject_Z a / inject_Z 10)%Q <-> 0 <= a.
Proof. unfold Qle. simpl. rewrite Z.mul_0_l, !Z.mul_1_r. reflexivity. Qed.

Lemma truncate_tenth (a : Z) :
  JS.truncate (inject_Z a / inject_Z 10) = Z.quot a 10.
Proof.
  unfold JS.truncate.
  destruct (Qle_bool 0 (inject_Z a / inject_Z 10)) eqn:Hsign.
  - apply Qle_bool_iff in Hsign. apply (proj1 (tenth_sign a)) in Hsign.
    rewrite <- Zdiv_Qdiv. symmetry. apply Z.quot_div_nonneg; lia.
  - assert (Ha : a < 0).
    { destruct (Z_lt_le_dec a 0) as [Hlt | Hge]; [exact Hlt |].
      apply (proj2 (tenth_sign a)) in Hge. apply Qle_bool_iff in Hge. congruence. }
    unfold Qceiling.
    assert (Hneg : (- (inject_Z a / inject_Z 10) == inject_Z (- a) / inject_Z 10)%Q).
    { rewrite inject_Z_opp. field. }
    rewrite (Qfloor_comp _ _ Hneg), <- Zdiv_Qdiv.
    rewrite <- (Z.opp_involutive a) at 2. rewrite Z.quot_opp_l by lia.
    rewrite Z.quot_div_nonneg by lia. reflexivity.
Qed.

Lemma rem_ten (a : Z) : JS.rem (ofZ a) (ofZ 10) = ofZ (Z.rem a 10).
Proof.
  unfold JS.rem, ofZ at 1 2.
  change (Qeq_bool (inject_Z 10) 0) with false. cbv iota.
  apply fin_integer. rewrite truncate_tenth.
  rewrite <- inject_Z_mult. unfold Qminus. rewrite <- inject_Z_opp, <- inject_Z_plus.
  apply inject_Z_injective. pose proof (Z.quot_rem' a 10). lia.
Qed.

Lemma double_rem_ten (score : Z) : Z.rem (Z.rem score 10 + 10) 10 = score mod 10.
Proof.
  pose proof (Z.rem_bound_abs score 10 ltac:(lia)) as Hbound.
  pose proof (Z.quot_rem' score 10) as Hquot.
  rewrite Z.rem_mod_nonneg by lia.
  replace (Z.rem score 10 + 10) with (score + (1 - Z.quot score 10) * 10) by lia.
  apply Z.mod_add. lia.
Qed.

Lemma toDigit_residue (score : Z) :
  Service.toDigit (ofZ score) = ofZ (score mod 10)
  /\ labelDigit (Service.toDigit (ofZ score)) = Some (Z.to_nat (score mod 10))
  /\ (Z.to_nat (score mod 10) < DIGIT_COUNT)%nat.
Proof.
  assert (Hdigit : Service.toDigit (ofZ score) = ofZ (score mod 10)).
  { unfold Service.toDigit. rewrite rem_ten.
    assert (Hsum : (ofZ (Z.rem score 10) + ofZ 10)%num = ofZ (Z.rem score 10 + 10)).
    { unfold JS.add, ofZ at 1 2. apply fin_integer. rewrite inject_Z_plus. reflexivity. }
    rewrite Hsum, rem_ten, double_rem_ten. reflexivity. }
  pose proof (Z.mod_pos_bound score 10 ltac:(lia)) as Hrange.
  split; [exact Hdigit |]. split; [| unfold DIGIT_COUNT; lia].
  rewrite Hdigit. unfold labelDigit, ofZ.
  assert (Hint : JS.isInteger (Fin (inject_Z (score mod 10))) = true).
  { unfold JS.isInteger. rewrite Qred_inject_Z. reflexivity. }
  assert (Hlo : (Fin (inject_Z (score mod 10)) <? Fin 0)%num = false).
  { rewrite ltb_Fin. apply Qltb_ge. change 0%Q with (inject_Z 0).
    rewrite <- Zle_Qle. lia. }
  assert (Hhi : (Fin (inject_Z (score mod 10)) >? Fin (inject_Z 9))%num = false).
  { unfold JS.gtb. rewrite ltb_Fin. apply Qltb_ge. rewrite <- Zle_Qle. lia. }
  unfold ofZ in Hhi. rewrite Hint, Hlo, Hhi. simpl. rewrite Qred_inject_Z. reflexivity.
Qed.

(** X1: [toDigit] gives the last decimal digit of every integer score,
    a negative one too: the residue modulo 10, which is an index of a
    vector of ten digits. *)
Theorem toDigit_is_residue (score : Z) :
  Service.toDigit (ofZ score) = ofZ (score mod 10)
  /\ labelDigit (Service.toDigit (ofZ score)) = Some (Z.to_nat (score mod 10))
  /\ (Z.to_nat (score mod 10) < DIGIT_COUNT)%nat.
Proof. exact (toDigit_residue score). Qed.

(** ** Normalisation in the pre-game service *)

(** [Math.max(value, 0)] is finite only when it is a number that is
    not negative. *)
Lemma clipped_nonNegative (x : num) :
  JS.isFinite (JS.max x (Fin 0)) = true -> nonNegative (JS.max x (Fin 0)).
Proof.
  destruct x as [| | | q]; unfold JS.max, JS.ltb; cbn [JS.isFinite]; try discriminate.
  - intros _. exists 0%Q. split; [reflexivity | lra].
  - destruct (Qltb q 0) eqn:E; intros _.
    + exists 0%Q. split; [reflexivity | lra].
    + exists q. split; [reflexivity | apply Qltb_ge, E].
Qed.

Lemma fold_left_clipped (values : list num) (acc : num) :
  fold_left (fun acc value => (acc + JS.max value (Fin 0))%num) values acc
  = fold_left JS.add (map (fun value => JS.max value (Fin 0)) values) acc.
Proof.
  revert acc. induction values as [| v values IH]; intros acc; simpl;
    [reflexivity | apply IH].
Qed.

(** Dividing the clipped terms of a finite positive total. *)
Lemma normalized_terms (values : list num) (t : Q) :
  Forall nonNegative (map (fun value => JS.max value (Fin 0)) values) ->
  (Qsum (map toQ (map (fun value => JS.max value (Fin 0)) values)) == t)%Q ->
  (0 < t)%Q ->
  let out := map (fun value => (JS.max value (Fin 0) / Fin t)%num) values in
  Forall nonNegative out /\ isQ (sumNumbers out) 1.
Proof.
  intros Hnn Hsum Ht out.
  assert (Hcell : Forall (fun value =>
            isQ (JS.max value (Fin 0) / Fin t)%num (toQ (JS.max value (Fin 0)) * / t)
            /\ (0 <= toQ (JS.max value (Fin 0)) * / t)%Q) values).
  { apply (proj1 (Forall_map _ _ _)) in Hnn. eapply Forall_impl; [exact Hnn |].
    intros value (q & Hq & Hpos). cbv beta in Hq. rewrite Hq. simpl toQ. split.
    - apply (isQ_div (Fin q) (Fin t) q t); [reflexivity | reflexivity | lra].
    - apply Qmult_le_0_compat; [exact Hpos |]. apply Qlt_le_weak, Qinv_lt_0_compat, Ht. }
  assert (Hout : Forall nonNegative out).
  { unfold out. apply (proj2 (Forall_map _ _ _)). eapply Forall_impl; [exact Hcell |].
    intros value [Hq Hpos]. cbv beta.
    destruct (isQ_inv _ _ Hq) as (p & Hp & Hpq). exists p.
    split; [exact Hp | rewrite Hpq; exact Hpos]. }
  split; [exact Hout |].
  eapply isQ_proper.
  - apply isQ_sumNumbers. eapply Forall_impl; [exact Hout | exact nonNegative_finite].
  - unfold out.
    transitivity (Qsum (map toQ (map (fun value => JS.max value (Fin 0)) values)) * / t)%Q.
    + clear Hnn Hsum Hout. induction Hcell as [| v vs [Hq _] _ IH]; simpl; [ring |].
      rewrite IH, (isQ_toQ_eq _ _ Hq). ring.
    + rewrite Hsum. field. lra.
Qed.

Lemma uniform_dist_sums_to_one :
  Forall nonNegative Service.createUniformDigitDist
  /\ isQ (sumNumbers Service.createUniformDigitDist) 1.
Proof.
  split.
  - apply Forall_forall. intros x Hx. apply nonNegativeb_spec.
    assert (Hall : forallb nonNegativeb Service.createUniformDigitDist = true)
      by (vm_compute; reflexivity).
    rewrite forallb_forall in Hall. apply Hall, list_elem_of_In, Hx.
  - vm_compute. reflexivity.
Qed.



Lemma foldOutcome_map_ok {A B C} (f : B -> A -> outcome B) (g : B -> C -> B)
    (h : A -> C) (l : list A) (b : B) :
  (forall b x, x ∈ l -> f b x = Ok (g b (h x))) ->
  foldOutcome f l b = Ok (fold_left g (map h l) b).
Proof.
  revert b. induction l as [| x l IH]; intros b Hf; simpl; [reflexivity |].
  rewrite Hf by (apply elem_of_cons; left; reflexivity). simpl.
  apply IH. intros b' y Hy. apply Hf, elem_of_cons. right. exact Hy.
Qed.

Lemma grid_cells (matrix : list (list num)) :
  isGrid matrix ->
  map (fun '(r, c) => numberAt (rowAt matrix r) c) Service.cells = concat matrix.
Proof.
  intros Hgrid.
  set (T := map (fun r => map (fun c => numberAt (rowAt matrix r) c) digits) digits).
  assert (E : matrix = T) by exact (grid_tabulate matrix Hgrid).
  transitivity (concat T); [reflexivity | rewrite <- E; reflexivity].
Qed.

Lemma uniform_matrix_probability : probabilityMatrix Service.createUniformDigitMatrix.
Proof.
  split; [| split].
  - split; [reflexivity |]. apply (bool_decide_unpack _). vm_compute. reflexivity.
  - apply nonNegative_grid_check. vm_compute. reflexivity.
  - vm_compute. reflexivity.
Qed.

Lemma normalizeMatrix_of_grid (matrix : DigitProbabilityMatrix) :
  isGrid matrix ->
  exists out,
    Service.normalizeMatrix matrix = Ok out
    /\ probabilityMatrix out
    /\ let total := sumNumbers (map (fun value => JS.max value (Fin 0)) (concat matrix)) in
       out = if (negb (JS.isFinite total) || (total <=? Fin 0)%num)%bool
             then constantMatrix (ofZ 1 / ofZ 100)%num
             else map (map (fun value => (JS.max value (Fin 0) / total)%num)) matrix.
Proof.
  intros Hgrid. unfold Service.normalizeMatrix.
  rewrite (foldOutcome_map_ok _ (fun total value => (total + JS.max value (Fin 0))%num)
             (fun '(r, c) => numberAt (rowAt matrix r) c)).
  2:{ intros total [r c] Hin. apply cells_rows in Hin.
      rewrite cellAt_ok by (rewrite (proj1 Hgrid); exact Hin). reflexivity. }
  rewrite (grid_cells matrix Hgrid), fold_left_clipped. simpl.
  set (clipped := map (fun value => JS.max value (Fin 0)) (concat matrix)).
  change (fold_left JS.add clipped (Fin 0)) with (sumNumbers clipped).
  destruct (JS.isFinite (sumNumbers clipped)) eqn:Hfinite;
    [| simpl; eexists; split; [reflexivity |];
       split; [exact uniform_matrix_probability | reflexivity]].
  destruct (sumNumbers clipped <=? Fin 0)%num eqn:Hpositive;
    [simpl; eexists; split; [reflexivity |];
     split; [exact uniform_matrix_probability | reflexivity] |].
  simpl. eexists. split; [reflexivity |]. split; [| reflexivity].
  assert (Hfin : Forall (fun x => JS.isFinite x = true) clipped)
    by exact (fold_add_finite _ _ Hfinite).
  assert (Hnn : Forall nonNegative clipped).
  { unfold clipped in *. apply (proj2 (Forall_map _ _ _)).
    apply (proj1 (Forall_map _ _ _)) in Hfin.
    eapply Forall_impl; [exact Hfin | exact clipped_nonNegative]. }
  pose proof (isQ_sumNumbers clipped Hfin) as Hsum.
  destruct (isQ_inv _ _ Hsum) as (t & Ht & Htq). rewrite Ht in Hpositive |- *.
  rewrite leb_Fin in Hpositive.
  assert (Htpos : (0 < t)%Q).
  { destruct (Qlt_le_dec 0 t) as [Hlt | Hle]; [exact Hlt |].
    apply Qle_bool_iff in Hle. congruence. }
  destruct (normalized_terms (concat matrix) t Hnn (symmetry Htq) Htpos) as [Hout Hone].
  rewrite <- concat_map_map in Hout, Hone.
  split; [| split; [apply Forall_concat, Hout | exact Hone]].
  destruct Hgrid as [Hlen Hrows]. split; [rewrite length_map; exact Hlen |].
  apply (proj2 (Forall_map _ _ _)). eapply Forall_impl; [exact Hrows |].
  intros row Hrow. cbv beta. rewrite length_map. exact Hrow.
Qed.

(** X3: on every 10 x 10 matrix, whatever its cells (NaN, infinities
    and negative numbers too), the [normalizeMatrix] of the pre-game
    service returns a Digit Probability Matrix: a 10 x 10 grid of finite
    numbers, none negative, that sum to 1.  It is the uniform 1/100
    matrix when the total of the clipped cells is not finite or not
    positive, and else every cell clipped at 0 and divided by the total. *)
Theorem service_normalizeMatrix_probability (matrix : DigitProbabilityMatrix) :
  isGrid matrix ->
  exists out,
    Service.normalizeMatrix matrix = Ok out
    /\ probabilityMatrix out
    /\ let total := sumNumbers (map (fun value => JS.max value (Fin 0)) (concat matrix)) in
       out = if (negb (JS.isFinite total) || (total <=? Fin 0)%num)%bool
             then constantMatrix (ofZ 1 / ofZ 100)%num
             else map (map (fun value => (JS.max value (Fin 0) / total)%num)) matrix.
Proof. exact (normalizeMatrix_of_grid matrix). Qed.


Lemma service_normalizeMatrix_probability_witness :
  exists out,
    Service.normalizeMatrix nanMatrix = Ok out /\ probabilityMatrix out.
Proof.
  destruct (service_normalizeMatrix_probability nanMatrix) as (out & Hout & Hprob & _).
  - split; [reflexivity |]. apply (bool_decide_unpack _). vm_compute. reflexivity.
  - exists out. split; [exact Hout | exact Hprob].
Defined.

(** ** The matrices the pre-game model is made of *)

Lemma product_grid (a b : list num) :
  isGrid (map (fun r => map (fun c => (numberAt a r * numberAt b c)%num) digits) digits).
Proof.
  split; [rewrite length_map; apply length_seq |].
  apply (proj2 (Forall_map _ _ _)), Forall_forall. intros r _.
  rewrite length_map. apply length_seq.
Qed.

Lemma outerProduct_probability (a b : list num) :
  exists out, Service.outerProduct a b = Ok out /\ probabilityMatrix out.
Proof.
  destruct (normalizeMatrix_of_grid _ (product_grid a b)) as (out & Hout & Hprob & _).
  exists out. split; [exact Hout | exact Hprob].
Qed.

(** X4: the two matrices the pre-game model multiplies out of digit
    distributions, the team matrix and the simulation matrix, are Digit
    Probability Matrices (10 x 10, finite, not negative, sum 1) for
    every input: missing team contexts, missing recent form, expected
    points that are NaN, and whatever [Math.exp] returns.  Neither
    function throws. *)
Theorem model_matrices_are_probabilities `{Runtime}
    (homeContext awayContext : option Service.TeamContext)
    (homeSportsDb awaySportsDb : option Service.SportsDbRecentForm)
    (homeExpectedPoints awayExpectedPoints : num) :
  (exists out,
     Service.buildTeamDigitMatrix homeContext awayContext homeSportsDb awaySportsDb
     = Ok out /\ probabilityMatrix out)
  /\ (exists out,
        Service.buildSimulationMatrix homeExpectedPoints awayExpectedPoints = Ok out
        /\ probabilityMatrix out).
Proof. split; apply outerProduct_probability. Qed.

(** ** Team names *)

(** ** Names of teams *)

(** The two pipelines agree after the collapse of white space, from the
    start of the text and inside a run of replaced characters. *)
Lemma collapse_blankRuns (l : list ascii) :
  (forall inRun, Sentiment.collapseSpaces inRun (Service.blankRuns false l)
                 = Sentiment.collapseSpaces inRun (Sentiment.blankOthers l))
  /\ Sentiment.collapseSpaces true (Service.blankRuns true l)
     = Sentiment.collapseSpaces true (Sentiment.blankOthers l).
Proof.
  induction l as [| c l [IH1 IH2]]; [split; reflexivity |].
  assert (Hclass :
    (Str.isLower c || Str.isDigit c = true /\ Str.isSpace c = false
     /\ (Str.code c =? 32) = false)
    \/ ((Str.code c =? 32) = true /\ Str.isSpace c = true
        /\ Str.isLower c || Str.isDigit c = false)
    \/ ((Str.code c =? 32) = false /\ Str.isLower c || Str.isDigit c = false)).
  { unfold Str.isLower, Str.isDigit, Str.isSpace, Str.inRange.
    destruct (Z.eqb_spec (Str.code c) 32) as [E | E].
    - right. left. rewrite E. repeat split; reflexivity.
    - destruct (_ || _)%bool eqn:Halnum; [left | right; right; split; reflexivity].
      split; [reflexivity |]. split; [| reflexivity].
      apply orb_true_iff in Halnum.
      apply orb_false_iff. split.
      + apply andb_false_iff.
        destruct Halnum as [Ha | Ha]; apply andb_true_iff in Ha as [Ha1 Ha2];
          apply Z.leb_le in Ha1, Ha2; right; apply Z.leb_gt; lia.
      + reflexivity. }
  assert (Hspace : Str.isSpace " "%char = true) by reflexivity.
  destruct Hclass as [(Halnum & Hns & Hn32) | [(H32 & Hsp & Halnum) | (Hn32 & Halnum)]].
  - (* a letter or a digit *)
    assert (E : forall r, Service.blankRuns r (c :: l) = c :: Service.blankRuns false l).
    { intros r. simpl. rewrite Hn32, orb_false_r, Halnum. reflexivity. }
    assert (E' : Sentiment.blankOthers (c :: l) = c :: Sentiment.blankOthers l).
    { simpl. rewrite Hns, orb_false_r, Halnum. reflexivity. }
    split; [intros inRun |]; rewrite E, E'; simpl; rewrite Hns, IH1; reflexivity.
  - (* the space *)
    assert (E : forall r, Service.blankRuns r (c :: l) = c :: Service.blankRuns false l).
    { intros r. simpl. rewrite H32, orb_true_r. reflexivity. }
    assert (E' : Sentiment.blankOthers (c :: l) = c :: Sentiment.blankOthers l).
    { simpl. rewrite Hsp, orb_true_r. reflexivity. }
    split; [intros inRun |]; rewrite E, E'; simpl; rewrite Hsp, IH1; reflexivity.
  - (* another character: replaced, or white space that is collapsed *)
    assert (E : Service.blankRuns false (c :: l) = " "%char :: Service.blankRuns true l).
    { simpl. rewrite Hn32, orb_false_r, Halnum. reflexivity. }
    assert (Et : Service.blankRuns true (c :: l) = Service.blankRuns true l).
    { simpl. rewrite Hn32, orb_false_r, Halnum. reflexivity. }
    assert (E' : exists s, Str.isSpace s = true
                 /\ Sentiment.blankOthers (c :: l) = s :: Sentiment.blankOthers l).
    { simpl. rewrite Halnum. simpl. destruct (Str.isSpace c) eqn:Hsp.
      - exists c. split; [exact Hsp | reflexivity].
      - exists " "%char. split; reflexivity. }
    destruct E' as (s & Hs & E').
    split; [intros inRun; rewrite E | rewrite Et]; rewrite E'; simpl; rewrite Hs.
    + destruct inRun; rewrite IH2; reflexivity.
    + exact IH2.
Qed.

Lemma service_normalizeText_eq (value : string) :
  Service.normalizeText value = LiveGame.normalizeText value.
Proof.
  unfold Service.normalizeText, LiveGame.normalizeText.
  rewrite (proj1 (collapse_blankRuns _)). reflexivity.
Qed.

(** X5: the three services normalise every text alike.  The pre-game
    service replaces each run of characters outside [a-z0-9 ] by one
    space, the sentiment service and the live feed replace each such
    character except white space; after the collapse of white space the
    results are the same, so a team name is looked up in the same form
    by all of them. *)
Theorem normalizeText_services_agree (value : string) :
  Service.normalizeText value = Sentiment.normalizeText value
  /\ LiveGame.normalizeText value = Sentiment.normalizeText value.
Proof.
  split; [apply service_normalizeText_eq | reflexivity].
Qed.

Lemma find_ext {A} (f g : A -> bool) (l : list A) :
  (forall x, f x = g x) -> List.find f l = List.find g l.
Proof.
  intros Hfg. induction l as [| x l IH]; simpl; [reflexivity |].
  rewrite Hfg, IH. reflexivity.
Qed.

Lemma firstOf_three {A} (a b c : option A) :
  Service.firstOf [a; b; c]
  = match a with
    | Some x => Some x
    | None => match b with
              | Some x => Some x
              | None => c
              end
    end.
Proof. destruct a, b, c; reflexivity. Qed.

#[local] Opaque Constants.NFL_TEAMS Service.normalizeText LiveGame.normalizeText.

(** The team the feed looks up is the team the pre-game service finds. *)
Lemma resolveTeam_find (teamNameOrCode : string) :
  LiveGame.resolveTeam teamNameOrCode
  = match Service.findTeamByNameOrCode teamNameOrCode with
    | Some team => Ok {| LiveGame.code := Str.toUpperCase (Constants.id team);
                         LiveGame.name := Constants.name team |}
    | None => Throw ("Unsupported team: " +:+ teamNameOrCode)
    end.
Proof.
  unfold LiveGame.resolveTeam, Service.findTeamByNameOrCode. cbv zeta.
  rewrite (find_ext
             (fun team => Str.eqb (Service.normalizeText (Constants.id team))
                                  (Service.normalizeText teamNameOrCode))
             (fun team => Str.eqb (LiveGame.normalizeText (Constants.id team))
                                  (LiveGame.normalizeText teamNameOrCode)))
    by (intros team; rewrite 2 service_normalizeText_eq; reflexivity).
  rewrite (find_ext
             (fun team => Str.eqb (Service.normalizeText (Constants.name team))
                                  (Service.normalizeText teamNameOrCode))
             (fun team => Str.eqb (LiveGame.normalizeText (Constants.name team))
                                  (LiveGame.normalizeText teamNameOrCode)))
    by (intros team; rewrite 2 service_normalizeText_eq; reflexivity).
  rewrite (find_ext
             (fun team => Str.endsWith (Service.normalizeText teamNameOrCode)
                                       (Service.normalizeText (Constants.name team)))
             (fun team => Str.endsWith (LiveGame.normalizeText teamNameOrCode)
                                       (LiveGame.normalizeText (Constants.name team))))
    by (intros team; rewrite 2 service_normalizeText_eq; reflexivity).
  rewrite firstOf_three. reflexivity.
Qed.

Lemma findTeam_listed (teamNameOrCode : string) (team : Constants.Team) :
  Service.findTeamByNameOrCode teamNameOrCode = Some team ->
  team ∈ Constants.NFL_TEAMS.
Proof.
  unfold Service.findTeamByNameOrCode. cbv zeta. rewrite firstOf_three.
  match goal with
  | |- match ?a with Some _ => _ | None => match ?b with Some _ => _ | None => ?c end end
       = _ -> _ =>
      generalize (fun t => proj1 (find_some _ _ (t : a = Some team)));
      generalize (fun t => proj1 (find_some _ _ (t : b = Some team)));
      generalize (fun t => proj1 (find_some _ _ (t : c = Some team)));
      generalize a, b, c
  end.
  intros a b c Hc Hb Ha Hfound. apply list_elem_of_In.
  destruct a as [t1 |]; [apply Ha; exact Hfound |].
  destruct b as [t2 |]; [apply Hb; exact Hfound |].
  apply Hc. exact Hfound.
Qed.

(** What holds of every team of the table can be checked on the table. *)
Lemma every_team (check : Constants.Team -> bool) (team : Constants.Team) :
  forallb check Constants.NFL_TEAMS = true -> team ∈ Constants.NFL_TEAMS ->
  check team = true.
Proof.
  intros Hall Hin. rewrite forallb_forall in Hall. apply Hall, list_elem_of_In, Hin.
Qed.

(** X6: the live feed and the pre-game service support the same team
    names: [resolveTeam] throws exactly when [resolveTeamCode] throws,
    and when they return, the code of the one is the code of the other
    and the name is the nickname of that team in the table. *)
Theorem feed_and_service_resolve_alike (teamNameOrCode : string) :
  match Service.resolveTeamCode teamNameOrCode with
  | Ok teamCode =>
      exists team,
        team ∈ Constants.NFL_TEAMS /\ Constants.id team = teamCode
        /\ LiveGame.resolveTeam teamNameOrCode
           = Ok {| LiveGame.code := teamCode; LiveGame.name := Constants.name team |}
  | Throw message =>
      message = "Unsupported team name or code: " +:+ teamNameOrCode
      /\ LiveGame.resolveTeam teamNameOrCode
         = Throw ("Unsupported team: " +:+ teamNameOrCode)
  | OutOfFuel => False
  end.
Proof.
  rewrite resolveTeam_find. unfold Service.resolveTeamCode.
  destruct (Service.findTeamByNameOrCode teamNameOrCode) as [team |] eqn:Hfound;
    [| split; reflexivity].
  pose proof (findTeam_listed _ _ Hfound) as Hin.
  exists team. split; [exact Hin |]. split; [reflexivity |].
  assert (Hupper : Str.eqb (Str.toUpperCase (Constants.id team)) (Constants.id team) = true).
  { apply (every_team (fun team => Str.eqb (Str.toUpperCase (Constants.id team))
                                            (Constants.id team)));
      [vm_compute; reflexivity | exact Hin]. }
  apply bool_decide_eq_true_1 in Hupper. rewrite Hupper. reflexivity.
Qed.



#[local] Transparent Constants.NFL_TEAMS Service.normalizeText LiveGame.normalizeText.

Example resolveTeamCode_samples :
  map Service.resolveTeamCode
    ["sea"; "Seattle Seahawks"; "49ers"; " new-england   patriots "; "Martians"; ""]
  = [Ok "SEA"; Ok "SEA"; Ok "SF"; Ok "NE";
     Throw "Unsupported team name or code: Martians";
     Throw "Unsupported team name or code: "].
Proof. vm_compute. reflexivity. Qed.

(** ** The games the loader makes of the rows *)

Section LoadedGames.
Context `{Runtime}.

Lemma gameOfRow_integers (row : Service.GameRow) (game : Service.GameRecord) :
  Service.gameOfRow row = Some game ->
  exists season home away : Z,
    Service.season game = ofZ season
    /\ Service.homeScore game = ofZ home
    /\ Service.awayScore game = ofZ away.
Proof.
  unfold Service.gameOfRow.
  destruct (Service.parseNumeric (Service.csv_season row)) as [season |] eqn:Hs;
    [| discriminate].
  destruct (Service.parseNumeric (Service.away_score row)) as [away |] eqn:Ha;
    [| discriminate].
  destruct (Service.parseNumeric (Service.home_score row)) as [home |] eqn:Hh;
    [| discriminate].
  destruct (_ || _)%bool; [discriminate |]. intros [= <-]. cbn.
  apply parseNumeric_finite in Hs, Ha, Hh.
  destruct season as [| | | s], away as [| | | a], home as [| | | h]; try discriminate.
  eexists _, _, _. repeat split; reflexivity.
Qed.

Lemma gameOfRow_integerScores (rows : list Service.GameRow) :
  Forall integerScores (omap Service.gameOfRow rows).
Proof.
  apply Forall_forall. intros game Hgame.
  apply list_elem_of_omap in Hgame as (row & _ & Hrow).
  destruct (gameOfRow_integers row game Hrow) as (s & h & a & _ & Hh & Ha).
  exists h, a. split; assumption.
Qed.

End LoadedGames.

Lemma omap_length_le {A B} (f : A -> option B) (l : list A) :
  (length (omap f l) <= length l)%nat.
Proof.
  induction l as [| x l IH]; [reflexivity |].
  change (omap f (x :: l))
    with (match f x with Some y => y :: omap f l | None => omap f l end).
  destruct (f x); simpl; lia.
Qed.

Lemma bump_length (counts : list num) (digit amount : num) :
  length (Service.bump counts digit amount) = length counts.
Proof.
  unfold Service.bump. destruct (labelDigit digit); [apply length_alter | reflexivity].
Qed.

Lemma bumpCell_grid (counts : DigitProbabilityMatrix) (r c amount : num) (i : nat) :
  isGrid counts -> labelDigit r = Some i ->
  exists counts', Service.bumpCell counts r c amount = Ok counts' /\ isGrid counts'.
Proof.
  intros [Hlen Hrows] Hdigit. unfold Service.bumpCell. rewrite Hdigit.
  pose proof (labelDigit_bound _ _ Hdigit) as Hbound.
  destruct (lookup_lt_is_Some_2 counts i) as [row Hrow];
    [rewrite Hlen; unfold DIGIT_COUNT; lia |].
  rewrite Hrow. eexists. split; [reflexivity |].
  split; [rewrite length_insert; exact Hlen |].
  apply Forall_insert; [exact Hrows |].
  rewrite bump_length. rewrite Forall_forall in Hrows.
  apply Hrows. apply list_elem_of_lookup. exists i. exact Hrow.
Qed.

Lemma baseline_counts (games : list Service.GameRecord) (latestSeason : num)
    (counts : DigitProbabilityMatrix) (sampleSize : Z) :
  Forall integerScores games -> isGrid counts ->
  exists counts' sampleSize',
    foldOutcome (fun '(counts, sampleSize) game =>
        if (Service.season game
            <? JS.max (ofZ 1999) (latestSeason - ofZ 15)%num)%num
        then Ok (counts, sampleSize)
        else if ((Service.homeScore game <? Fin 0)%num
                 || (Service.awayScore game <? Fin 0)%num)%bool
        then Ok (counts, sampleSize)
        else
          let homeDigit := Service.toDigit (Service.homeScore game) in
          let awayDigit := Service.toDigit (Service.awayScore game) in
          let age := (latestSeason - Service.season game)%num in
          let recencyWeight :=
            clamp (dec 11 1 - age * dec 5 2)%num (dec 35 2) (dec 11 1) in
          counts ← Service.bumpCell counts homeDigit awayDigit recencyWeight;
          Ok (counts, sampleSize + 1))
      games (counts, sampleSize) = Ok (counts', sampleSize')
    /\ isGrid counts'
    /\ sampleSize <= sampleSize' <= sampleSize + Z.of_nat (length games).
Proof.
  intros Hgames.
  match goal with
  | |- context [foldOutcome ?f games] => set (step := f)
  end.
  set (IHfold := fun counts n => foldOutcome step games (counts, n)).
  revert counts sampleSize. unfold IHfold. clear IHfold.
  induction Hgames as [| game games (h & a & Hh & Ha) _ IH]; intros counts sampleSize Hgrid.
  - exists counts, sampleSize. simpl. split; [reflexivity |]. split; [exact Hgrid | lia].
  - cbn [foldOutcome].
    assert (Hrest : forall counts1 n1,
              isGrid counts1 -> sampleSize <= n1 <= sampleSize + 1 ->
              exists counts' sampleSize',
                foldOutcome step games (counts1, n1) = Ok (counts', sampleSize')
                /\ isGrid counts'
                /\ sampleSize <= sampleSize'
                               <= sampleSize + Z.of_nat (length (game :: games))).
    { intros counts1 n1 Hgrid1 Hn1.
      destruct (IH counts1 n1 Hgrid1) as (counts' & n' & Hfold & Hgrid' & Hn').
      exists counts', n'. split; [exact Hfold |]. split; [exact Hgrid' |].
      rewrite length_cons. lia. }
    assert (Hfirst : exists counts1 n1,
              step (counts, sampleSize) game = Ok (counts1, n1)
              /\ isGrid counts1 /\ sampleSize <= n1 <= sampleSize + 1).
    { unfold step. cbv beta iota.
      destruct (_ <? _)%num;
        [exists counts, sampleSize; split; [reflexivity |]; split; [exact Hgrid | lia] |].
      destruct (_ || _)%bool;
        [exists counts, sampleSize; split; [reflexivity |]; split; [exact Hgrid | lia] |].
      cbv zeta. rewrite Hh.
      destruct (toDigit_residue h) as (_ & Hdigit & _).
      destruct (bumpCell_grid counts (Service.toDigit (ofZ h))
                  (Service.toDigit (Service.awayScore game))
                  (clamp (dec 11 1 - (latestSeason - Service.season game) * dec 5 2)%num
                         (dec 35 2) (dec 11 1))
                  _ Hgrid Hdigit) as (counts1 & Hbump & Hgrid1).
      rewrite Hbump. exists counts1, (sampleSize + 1). split; [reflexivity |].
      split; [exact Hgrid1 | lia]. }
    destruct Hfirst as (counts1 & n1 & Hfirst & Hgrid1 & Hn1).
    rewrite Hfirst. cbn [mbind outcome_bind]. apply Hrest; assumption.
Qed.

Lemma constantMatrix_grid (v : num) : isGrid (constantMatrix v).
Proof.
  unfold constantMatrix. split; [apply length_replicate |].
  apply Forall_replicate. apply length_replicate.
Qed.

Lemma buildBaselineMatrix_probability (games : list Service.GameRecord)
    (latestSeason : num) :
  Forall integerScores games ->
  exists matrix sampleSize,
    Service.buildBaselineMatrix games latestSeason = Ok (matrix, sampleSize)
    /\ probabilityMatrix matrix
    /\ 0 <= sampleSize <= Z.of_nat (length games).
Proof.
  intros Hgames. unfold Service.buildBaselineMatrix. cbv zeta.
  destruct (baseline_counts games latestSeason (constantMatrix (ofZ 1)) 0 Hgames
              (constantMatrix_grid _)) as (counts & n & Hfold & Hgrid & Hn).
  cbv zeta in Hfold. rewrite Hfold. cbn [mbind outcome_bind].
  destruct (normalizeMatrix_of_grid counts Hgrid) as (matrix & Hnorm & Hprob & _).
  rewrite Hnorm. exists matrix, n. split; [reflexivity |]. split; [exact Hprob | lia].
Qed.

(** X12: the baseline matrix is a Digit Probability Matrix for every
    games.csv.  For the records the loader makes of any rows, and any
    latest season (NaN too), [buildBaselineMatrix] returns, never
    throwing on a score: its matrix is a 10 x 10 grid of finite numbers,
    none negative, that sum to 1, and its sample size is at most the
    number of records. *)
Theorem baseline_of_loaded_games `{Runtime} (rows : list Service.GameRow)
    (latestSeason : num) :
  exists matrix sampleSize,
    Service.buildBaselineMatrix (omap Service.gameOfRow rows) latestSeason
    = Ok (matrix, sampleSize)
    /\ probabilityMatrix matrix
    /\ 0 <= sampleSize <= Z.of_nat (length rows).
Proof.
  destruct (buildBaselineMatrix_probability (omap Service.gameOfRow rows) latestSeason
              (gameOfRow_integerScores rows)) as (matrix & n & Hbase & Hprob & Hn).
  exists matrix, n. split; [exact Hbase |]. split; [exact Hprob |].
  pose proof (omap_length_le Service.gameOfRow rows) as Hlen. lia.
Qed.

(** ** Blends of matrices *)

Lemma tabulated_grid (g : nat -> nat -> num) :
  isGrid (map (fun r => map (fun c => g r c) digits) digits).
Proof.
  split; [rewrite length_map; apply length_seq |].
  apply (proj2 (Forall_map _ _ _)), Forall_forall. intros r _.
  rewrite length_map. apply length_seq.
Qed.

Lemma digits_lt (r : nat) : r ∈ digits -> (r < DIGIT_COUNT)%nat.
Proof. intros Hr. apply elem_of_seq in Hr. unfold DIGIT_COUNT in *. lia. Qed.

Lemma service_blendMatrices_probability (parts : list Service.MatrixPart) :
  Forall (fun part => length (Service.matrix part) = DIGIT_COUNT) parts ->
  exists out, Service.blendMatrices parts = Ok out /\ probabilityMatrix out.
Proof.
  intros Hparts. unfold Service.blendMatrices.
  match goal with
  | |- context [foldOutcome ?f parts] => set (step := f)
  end.
  assert (Hfold : forall output weightTotal, isGrid output ->
            exists output' weightTotal',
              foldOutcome step parts (output, weightTotal) = Ok (output', weightTotal')
              /\ isGrid output').
  { induction Hparts as [| part parts Hpart _ IH]; intros output weightTotal Hgrid.
    - exists output, weightTotal. split; [reflexivity | exact Hgrid].
    - cbn [foldOutcome].
      assert (Hfirst : exists output1 weight1,
                step (output, weightTotal) part = Ok (output1, weight1)
                /\ isGrid output1).
      { unfold step. cbv beta iota.
        destruct (_ <=? _)%num;
          [exists output, weightTotal; split; [reflexivity | exact Hgrid] |].
        rewrite (traverse_ok _
                   (fun r => map (fun c =>
                      (numberAt (default [] (output !! r)) c
                       + numberAt (rowAt (Service.matrix part) r) c
                         * Service.m_weight part)%num) digits)).
        - eexists _, _. split; [reflexivity |]. apply tabulated_grid.
        - intros r Hr. apply traverse_ok. intros c _.
          rewrite cellAt_ok by (rewrite Hpart; apply digits_lt, Hr). reflexivity. }
      destruct Hfirst as (output1 & weight1 & Hfirst & Hgrid1).
      rewrite Hfirst. cbn [mbind outcome_bind]. apply IH. exact Hgrid1. }
  destruct (Hfold createZeroMatrix (Fin 0) (constantMatrix_grid _))
    as (output & weightTotal & Hresult & Hgrid).
  rewrite Hresult. cbn [mbind outcome_bind]. cbv beta iota.
  destruct (_ <=? _)%num.
  - eexists. split; [reflexivity | exact uniform_matrix_probability].
  - destruct (normalizeMatrix_of_grid output Hgrid) as (out & Hout & Hprob & _).
    exists out. split; [exact Hout | exact Hprob].
Qed.

(** ** The model never throws *)



(** ** The pre-game service: running a call *)

Lemma sent_refl (C : Service.Request -> nat -> Prop) (store : Service.Store) :
  sent C store store.
Proof.
  exists []. split; [symmetry; apply app_nil_r |]. intros i request Hi.
  rewrite lookup_nil in Hi. discriminate.
Qed.

Lemma sent_trans (C : Service.Request -> nat -> Prop) (s1 s2 s3 : Service.Store) :
  sent C s1 s2 -> sent C s2 s3 -> sent C s1 s3.
Proof.
  intros (new1 & E1 & H1) (new2 & E2 & H2). exists (new1 ++ new2).
  split; [rewrite E2, E1, app_assoc; reflexivity |].
  intros i request Hi. apply lookup_app_Some in Hi.
  destruct Hi as [Hi | [Hlen Hi]]; [apply H1, Hi |].
  specialize (H2 _ _ Hi). rewrite E1, length_app in H2.
  replace (length (Service.requests s1) + i)%nat
    with (length (Service.requests s1) + length new1 + (i - length new1))%nat by lia.
  exact H2.
Qed.

Lemma sent_weaken (C D : Service.Request -> nat -> Prop) (s1 s2 : Service.Store) :
  (forall request n, C request n -> D request n) -> sent C s1 s2 -> sent D s1 s2.
Proof.
  intros HCD (new & E & Hnew). exists new. split; [exact E |].
  intros i request Hi. apply HCD, Hnew, Hi.
Qed.

Lemma sent_same (C : Service.Request -> nat -> Prop) (s1 s2 : Service.Store) :
  Service.requests s2 = Service.requests s1 -> sent C s1 s2.
Proof.
  intros E. exists []. split; [rewrite E; symmetry; apply app_nil_r |].
  intros i request Hi. rewrite lookup_nil in Hi. discriminate.
Qed.

Lemma sent_one (C : Service.Request -> nat -> Prop) (s1 s2 : Service.Store)
    (request : Service.Request) :
  Service.requests s2 = Service.requests s1 ++ [request] ->
  C request (length (Service.requests s1)) ->
  sent C s1 s2.
Proof.
  intros E HC. exists [request]. split; [exact E |].
  intros [| i] sentRequest Hi; [| destruct i; discriminate Hi].
  injection Hi as <-. rewrite Nat.add_0_r. exact HC.
Qed.

(** A request that failed between two states is one of those sent, and
    it was rejected where it stands. *)
Lemma failedRequest_sent `{Service.Environment} (C : Service.Request -> nat -> Prop)
    (s1 s2 : Service.Store) (request : Service.Request) :
  failedRequest s1 s2 request -> sent C s1 s2 ->
  exists n, C request n /\ rejectedAnswer request n.
Proof.
  intros (n & Hn & Hlookup & Hrejected) (new & E & Hnew).
  exists n. split; [| exact Hrejected].
  rewrite E in Hlookup. apply lookup_app_Some in Hlookup.
  destruct Hlookup as [Hlookup | [_ Hlookup]].
  - apply lookup_lt_Some in Hlookup. lia.
  - specialize (Hnew _ _ Hlookup).
    replace (length (Service.requests s1) + (n - length (Service.requests s1)))%nat
      with n in Hnew by lia.
    exact Hnew.
Qed.

(** *** Rules *)

Lemma hoare_bind {A B} (P : Service.Store -> Prop) (m : Service.Eff A)
    (f : A -> Service.Eff B) (Q : A -> Service.Store -> Prop)
    (R : B -> Service.Store -> Prop) (E : string -> Service.Store -> Prop) :
  hoare P m Q E -> (forall a, hoare (Q a) (f a) R E) -> hoare P (m ≫= f) R E.
Proof.
  intros Hm Hf store HP. specialize (Hm store HP).
  unfold mbind, Service.Eff_bind.
  destruct (m store) as [store' [a | e |]]; [apply (Hf a), Hm | exact Hm | exact Hm].
Qed.

Lemma hoare_consequence {A} (P P' : Service.Store -> Prop) (m : Service.Eff A)
    (Q Q' : A -> Service.Store -> Prop) (E E' : string -> Service.Store -> Prop) :
  hoare P m Q E ->
  (forall store, P' store -> P store) ->
  (forall a store, Q a store -> Q' a store) ->
  (forall e store, E e store -> E' e store) ->
  hoare P' m Q' E'.
Proof.
  intros Hm HP HQ HE store HP'. specialize (Hm store (HP _ HP')).
  destruct (m store) as [store' [a | e |]]; [apply HQ, Hm | apply HE, Hm | exact Hm].
Qed.

Lemma hoare_ret {A} (P : Service.Store -> Prop) (a : A)
    (Q : A -> Service.Store -> Prop) (E : string -> Service.Store -> Prop) :
  (forall store, P store -> Q a store) -> hoare P (mret a) Q E.
Proof. intros HQ store HP. apply HQ, HP. Qed.

Lemma hoare_liftOutcome {A} (P : Service.Store -> Prop) (m : outcome A) (a : A)
    (Q : A -> Service.Store -> Prop) (E : string -> Service.Store -> Prop) :
  m = Ok a -> (forall store, P store -> Q a store) -> hoare P (Service.liftOutcome m) Q E.
Proof. intros -> HQ store HP. apply HQ, HP. Qed.

Lemma hoare_modify (P : Service.Store -> Prop) (f : Service.Store -> Service.Store)
    (Q : unit -> Service.Store -> Prop) (E : string -> Service.Store -> Prop) :
  (forall store, P store -> Q tt (f store)) -> hoare P (Service.modify f) Q E.
Proof. intros HQ store HP. apply HQ, HP. Qed.

Lemma hoare_cases {A} (P : Service.Store -> Prop) (R : Prop) (m : Service.Eff A)
    (Q : A -> Service.Store -> Prop) (E : string -> Service.Store -> Prop) :
  (R -> hoare P m Q E) -> hoare (fun store => R /\ P store) m Q E.
Proof. intros Hm store [HR HP]. apply (Hm HR), HP. Qed.

Lemma hoare_exists {A X} (P : X -> Service.Store -> Prop) (m : Service.Eff A)
    (Q : A -> Service.Store -> Prop) (E : string -> Service.Store -> Prop) :
  (forall x, hoare (P x) m Q E) -> hoare (fun store => exists x, P x store) m Q E.
Proof. intros Hm store [x HP]. apply (Hm x), HP. Qed.

(** A computation that stays within the states of the service, run
    after requests that satisfy [G]. *)
Lemma stays_hoare {A} (C G : Service.Request -> nat -> Prop) (m : Service.Eff A)
    (Q : A -> Prop) (T : Prop) (origin : Service.Store) (F : Prop) :
  stays C m Q T ->
  hoare (fun store => serviceState store /\ sent G origin store /\ F) m
    (fun a store => serviceState store /\ sent (either G C) origin store /\ F /\ Q a)
    (fun _ store => serviceState store /\ sent (either G C) origin store /\ F /\ T).
Proof.
  intros Hm store (Hstate & Hsent & HF). specialize (Hm store store (conj eq_refl Hstate)).
  assert (Hsum : forall store', sent C store store' -> sent (either G C) origin store').
  { intros store' HC. apply (sent_trans _ origin store store').
    - apply (sent_weaken G); [intros request n HG; left; exact HG | exact Hsent].
    - apply (sent_weaken C); [intros request n HG; right; exact HG | exact HC]. }
  destruct (m store) as [store' [a | e |]]; [| | exact Hm];
    destruct Hm as (Hstate' & Hsent' & Hrest);
    (split; [exact Hstate' |]); (split; [apply Hsum, Hsent' |]);
    (split; [exact HF | exact Hrest]).
Qed.

Lemma stays_ret {A} (C : Service.Request -> nat -> Prop) (a : A) (Q : A -> Prop)
    (T : Prop) :
  Q a -> stays C (mret a) Q T.
Proof.
  intros HQ store s [-> Hstate]. split; [exact Hstate |].
  split; [apply sent_refl | exact HQ].
Qed.

Lemma stays_bind {A B} (C : Service.Request -> nat -> Prop) (m : Service.Eff A)
    (f : A -> Service.Eff B) (Q : A -> Prop) (R : B -> Prop) (T : Prop) :
  stays C m Q T -> (forall a, Q a -> stays C (f a) R T) -> stays C (m ≫= f) R T.
Proof.
  intros Hm Hf store s [-> Hstate]. specialize (Hm store store (conj eq_refl Hstate)).
  unfold mbind, Service.Eff_bind.
  destruct (m store) as [store' [a | e |]]; [| exact Hm | exact Hm].
  destruct Hm as (Hstate' & Hsent & HQ).
  specialize (Hf a HQ store' store' (conj eq_refl Hstate')).
  destruct (f a store') as [store'' [b | e |]]; [| | exact Hf];
    destruct Hf as (Hstate'' & Hsent' & Hrest);
    (split; [exact Hstate'' |]);
    (split; [exact (sent_trans C _ _ _ Hsent Hsent') | exact Hrest]).
Qed.

Lemma stays_weaken {A} (C D : Service.Request -> nat -> Prop) (m : Service.Eff A)
    (Q R : A -> Prop) (T U : Prop) :
  stays C m Q T ->
  (forall request n, C request n -> D request n) ->
  (forall a, Q a -> R a) -> (T -> U) ->
  stays D m R U.
Proof.
  intros Hm HCD HQR HTU store s HP. specialize (Hm store s HP).
  destruct (m s) as [store' [a | e |]]; [| | exact Hm];
    destruct Hm as (Hstate' & Hsent & Hrest);
    (split; [exact Hstate' |]); (split; [exact (sent_weaken C D _ _ HCD Hsent) |]);
    [apply HQR, Hrest | apply HTU, Hrest].
Qed.

Lemma stays_liftOutcome {A} (C : Service.Request -> nat -> Prop) (m : outcome A)
    (Q : A -> Prop) (T : Prop) :
  match m with
  | Ok a => Q a
  | Throw _ => T
  | OutOfFuel => False
  end ->
  stays C (Service.liftOutcome m) Q T.
Proof.
  intros Hm store s [-> Hstate]. unfold Service.liftOutcome.
  destruct m as [a | e |]; [| | exact Hm];
    (split; [exact Hstate |]); (split; [apply sent_refl | exact Hm]).
Qed.

Lemma stays_settled {A} (C : Service.Request -> nat -> Prop) (m : outcome A) :
  settled m -> stays C (Service.liftOutcome m) (fun _ => True) True.
Proof.
  intros Hm. apply stays_liftOutcome. destruct m; [exact I | exact I | apply Hm; reflexivity].
Qed.

Lemma stays_throw {A} (C : Service.Request -> nat -> Prop) (message : string)
    (Q : A -> Prop) :
  stays C (Service.throw message) Q True.
Proof. apply (stays_liftOutcome C (Throw message)). exact I. Qed.

Lemma stays_getStore (C : Service.Request -> nat -> Prop) (T : Prop) :
  stays C Service.getStore serviceState T.
Proof.
  intros store s [-> Hstate]. split; [exact Hstate |].
  split; [apply sent_refl | exact Hstate].
Qed.

Lemma stays_modify (C : Service.Request -> nat -> Prop)
    (f : Service.Store -> Service.Store) (T : Prop) :
  (forall store, serviceState store -> serviceState (f store)) ->
  (forall store, Service.requests (f store) = Service.requests store) ->
  stays C (Service.modify f) (fun _ => True) T.
Proof.
  intros Hstate Hrequests store s [-> Hs]. split; [apply Hstate, Hs |].
  split; [apply sent_same, Hrequests | exact I].
Qed.

Lemma stays_tryCatch {A} (C : Service.Request -> nat -> Prop) (body : Service.Eff A)
    (handler : string -> Service.Eff A) (Q : A -> Prop) (T U : Prop) :
  stays C body Q T -> (forall e, T -> stays C (handler e) Q U) ->
  stays C (Service.tryCatch body handler) Q U.
Proof.
  intros Hbody Hhandler store s [-> Hstate].
  specialize (Hbody store store (conj eq_refl Hstate)). unfold Service.tryCatch.
  destruct (body store) as [store' [a | e |]]; [exact Hbody | | exact Hbody].
  destruct Hbody as (Hstate' & Hsent & HT).
  specialize (Hhandler e HT store' store' (conj eq_refl Hstate')).
  destruct (handler e store') as [store'' [a | e' |]]; [| | exact Hhandler];
    destruct Hhandler as (Hstate'' & Hsent' & Hrest);
    (split; [exact Hstate'' |]);
    (split; [exact (sent_trans C _ _ _ Hsent Hsent') | exact Hrest]).
Qed.

Lemma stays_never {A} (C : Service.Request -> nat -> Prop) (m : Service.Eff A)
    (Q : A -> Prop) (U : Prop) :
  stays C m Q False -> stays C m Q U.
Proof.
  intros Hm. apply (stays_weaken C C m Q Q False U Hm);
    [intros request n HC; exact HC | intros a HQ; exact HQ | intros []].
Qed.

Lemma stays_attempt {A} (C : Service.Request -> nat -> Prop) (body : Service.Eff A)
    (Q : A -> Prop) (T U : Prop) :
  stays C body Q T ->
  stays C (Service.attempt body)
    (fun result => match result with Some a => Q a | None => T end) U.
Proof.
  intros Hbody. apply stays_never. unfold Service.attempt.
  apply (stays_tryCatch C _ _ _ T).
  - apply (stays_bind C _ _ Q).
    + apply (stays_weaken C C body Q Q T T Hbody); auto.
    + intros a HQ. apply stays_ret. exact HQ.
  - intros e HT. apply stays_ret. exact HT.
Qed.

Lemma stays_async {A} (C : Service.Request -> nat -> Prop) (body : Service.Eff A)
    (Q : A -> Prop) (T U : Prop) :
  stays C body Q T ->
  stays C (Service.async body)
    (fun promise =>
       match promise with
       | Service.Fulfilled a => Q a
       | Service.Rejected _ => T
       | Service.Pending => False
       end) U.
Proof.
  intros Hbody. apply stays_never. intros store s [-> Hstate].
  specialize (Hbody store store (conj eq_refl Hstate)). unfold Service.async.
  destruct (body store) as [store' [a | e |]];
    [exact Hbody | exact Hbody | destruct Hbody].
Qed.

Lemma stays_await {A} (C : Service.Request -> nat -> Prop) (promise : Service.Promise A)
    (Q : A -> Prop) (T : Prop) :
  match promise with
  | Service.Fulfilled a => Q a
  | Service.Rejected _ => T
  | Service.Pending => False
  end ->
  stays C (Service.await promise) Q T.
Proof.
  intros Hpromise. destruct promise as [a | e |]; cbn [Service.await].
  - apply stays_ret. exact Hpromise.
  - apply (stays_liftOutcome C (Throw e)). exact Hpromise.
  - destruct Hpromise.
Qed.

(** *** The states of the service *)

Lemma serviceState_logRequest (request : Service.Request) (store : Service.Store) :
  serviceState store -> serviceState (Service.logRequest request store).
Proof. intros Hstate. exact Hstate. Qed.

Lemma serviceState_setModelMemoryCache (cache : gmap string Service.CachedEntry)
    (store : Service.Store) :
  serviceState store -> serviceState (Service.setModelMemoryCache cache store).
Proof. intros Hstate. exact Hstate. Qed.

Lemma serviceState_setLocalStorage (items : option (gmap string string))
    (store : Service.Store) :
  serviceState store -> serviceState (Service.setLocalStorage items store).
Proof. intros Hstate. exact Hstate. Qed.

Lemma serviceState_setGamesPromise (promise : Service.Promise (list Service.GameRecord))
    (store : Service.Store) :
  match promise with
  | Service.Fulfilled games => Forall integerScores games
  | Service.Rejected _ => True
  | Service.Pending => False
  end ->
  serviceState store -> serviceState (Service.setGamesPromise (Some promise) store).
Proof.
  intros Hpromise (_ & Hclosing & Hteams & Hstats & Hform & _).
  split; [| split; [exact Hclosing | split; [exact Hteams | split;
    [exact Hstats | split; [exact Hform |]]]]].
  - cbn. intros [= ->]. exact Hpromise.
  - unfold gamesFromLoader. cbn. destruct promise; [exact Hpromise | exact I | exact I].
Qed.

Lemma serviceState_setClosingLinesPromise
    (promise : Service.Promise (list Service.MoneylineRecord)) (store : Service.Store) :
  promise <> Service.Pending ->
  serviceState store -> serviceState (Service.setClosingLinesPromise (Some promise) store).
Proof.
  intros Hpromise (Hgames & _ & Hrest).
  split; [exact Hgames |]. split; [| exact Hrest].
  cbn. intros [= ->]. apply Hpromise. reflexivity.
Qed.

Lemma serviceState_setEspnTeamsPromise
    (promise : Service.Promise (gmap string Service.EspnTeamDescriptor))
    (store : Service.Store) :
  promise <> Service.Pending ->
  serviceState store -> serviceState (Service.setEspnTeamsPromise (Some promise) store).
Proof.
  intros Hpromise (Hgames & Hclosing & _ & Hrest).
  split; [exact Hgames |]. split; [exact Hclosing |]. split; [| exact Hrest].
  cbn. intros [= ->]. apply Hpromise. reflexivity.
Qed.

Lemma serviceState_setEspnStatsPromise (teamCode : string)
    (promise : Service.Promise (option Service.EspnTeamStats)) (store : Service.Store) :
  fulfilled promise ->
  serviceState store -> serviceState (Service.setEspnStatsPromise teamCode promise store).
Proof.
  intros Hpromise (Hgames & Hclosing & Hteams & Hstats & Hrest).
  split; [exact Hgames |]. split; [exact Hclosing |]. split; [exact Hteams |].
  split; [| exact Hrest].
  cbn. intros code stored Hstored.
  destruct (decide (teamCode = code)) as [-> | Hne].
  - rewrite lookup_insert_eq in Hstored. injection Hstored as <-. exact Hpromise.
  - rewrite lookup_insert_ne in Hstored by exact Hne. exact (Hstats _ _ Hstored).
Qed.

Lemma serviceState_setSportsDbPromise (cacheKey : string)
    (promise : Service.Promise (option Service.SportsDbRecentForm))
    (store : Service.Store) :
  fulfilled promise ->
  serviceState store -> serviceState (Service.setSportsDbPromise cacheKey promise store).
Proof.
  intros Hpromise (Hgames & Hclosing & Hteams & Hstats & Hform & Hloader).
  split; [exact Hgames |]. split; [exact Hclosing |]. split; [exact Hteams |].
  split; [exact Hstats |]. split; [| exact Hloader].
  cbn. intros key stored Hstored.
  destruct (decide (cacheKey = key)) as [-> | Hne].
  - rewrite lookup_insert_eq in Hstored. injection Hstored as <-. exact Hpromise.
  - rewrite lookup_insert_ne in Hstored by exact Hne. exact (Hform _ _ Hstored).
Qed.

Lemma serviceState_settlePromises (store : Service.Store) :
  serviceState store -> serviceState (Service.settlePromises store).
Proof.
  intros (Hgames & Hclosing & Hteams & Hstats & Hform & Hloader).
  split; [| split; [| split; [| split; [exact Hstats | split; [exact Hform |]]]]]; cbn.
  - destruct (Service.gamesPromise store) as [[| |] |]; try discriminate.
    exact Hgames.
  - destruct (Service.closingLinesPromise store) as [[| |] |]; try discriminate.
    exact Hclosing.
  - destruct (Service.espnTeamsPromise store) as [[| |] |]; try discriminate.
    exact Hteams.
  - unfold gamesFromLoader in *. cbn.
    destruct (Service.gamesPromise store) as [[| |] |]; try exact I. exact Hloader.
Qed.

Section ServiceRuns.
Context `{Runtime} `{Service.Environment}.
Hypothesis Hanswers : answersSettle.

Lemma stays_now (C : Service.Request -> nat -> Prop) (T : Prop) :
  stays C Service.now (fun _ => True) T.
Proof.
  intros store s [-> Hstate]. split; [exact Hstate |]. split; [apply sent_refl | exact I].
Qed.

Lemma stays_isoNow (C : Service.Request -> nat -> Prop) (T : Prop) :
  stays C Service.isoNow (fun _ => True) T.
Proof.
  unfold Service.isoNow. apply (stays_bind C _ _ _ _ T (stays_now C T)).
  intros time _. apply stays_ret. exact I.
Qed.

(** A request: logged where it is sent, and answered. *)
Lemma stays_fetch {A} (C : Service.Request -> nat -> Prop) (request : Service.Request)
    (answer : nat -> Service.Promise A) :
  (forall n, answer n <> Service.Pending) ->
  (forall n, C request n) ->
  stays C (Service.fetch request answer) (fun _ => True) True.
Proof.
  intros Hanswer HC store s [-> Hstate]. unfold Service.fetch.
  cbv beta iota delta [mbind Service.Eff_bind Service.getStore Service.modify].
  pose proof (Hanswer (length (Service.requests store))) as Hn.
  assert (Hsent : sent C store (Service.logRequest request store)).
  { apply (sent_one C _ _ request); [reflexivity | apply HC]. }
  destruct (answer (length (Service.requests store))) as [a | e |]; cbn.
  - split; [exact Hstate |]. split; [exact Hsent | exact I].
  - split; [exact Hstate |]. split; [exact Hsent | exact I].
  - apply Hn. reflexivity.
Qed.

End ServiceRuns.

Section Loaders.
Context `{Runtime} `{Service.Environment}.
Hypothesis Hanswers : answersSettle.

(** The games: the loader sends at most one request; when it gives
    the games that request was answered, and the games have whole
    scores. *)
Lemma loadGames_trace (store : Service.Store) :
  serviceState store ->
  match Service.attempt Service.loadGames store with
  | (store', Ok (Some games)) =>
      serviceState store'
      /\ sent (answered Service.NFL_GAMES_CSV_URL) store store'
      /\ Forall integerScores games
  | (store', Ok None) =>
      serviceState store'
      /\ sent (among (fun request => request = Service.NFL_GAMES_CSV_URL)) store store'
  | _ => False
  end.
Proof.
  intros Hstate.
  unfold Service.attempt, Service.tryCatch, Service.loadGames.
  cbv beta iota delta [mbind Service.Eff_bind Service.getStore].
  destruct (Service.gamesPromise store) as [[games | e |] |] eqn:Hmemo.
  - cbn. split; [exact Hstate |]. split; [apply sent_refl |].
    destruct Hstate as (_ & _ & _ & _ & _ & Hloader).
    unfold gamesFromLoader in Hloader. rewrite Hmemo in Hloader. exact Hloader.
  - cbn. split; [exact Hstate | apply sent_refl].
  - destruct Hstate as (Hgames & _). destruct (Hgames Hmemo).
  - unfold Service.async, Service.fetch.
    cbv beta iota delta [mbind Service.Eff_bind Service.getStore Service.modify].
    destruct Hanswers as (Hsettle & _).
    pose proof (Hsettle (length (Service.requests store))) as Hn.
    destruct (Service.games_csv (length (Service.requests store)))
      as [rows | e |] eqn:Hanswer; [| | destruct (Hn eq_refl)]; cbn.
    + split.
      { apply serviceState_setGamesPromise;
          [apply gameOfRow_integerScores | exact Hstate]. }
      split; [| apply gameOfRow_integerScores].
      apply (sent_one _ _ _ Service.NFL_GAMES_CSV_URL); [reflexivity |].
      split; [reflexivity |]. intros [e He]. cbn in He. rewrite Hanswer in He.
      discriminate.
    + split.
      { apply serviceState_setGamesPromise; [exact I | exact Hstate]. }
      apply (sent_one _ _ _ Service.NFL_GAMES_CSV_URL); reflexivity.
Qed.

(** The closing lines, as the first [Promise.all] starts them. *)
Lemma loadClosingMoneylines_trace (store : Service.Store) :
  serviceState store ->
  match Service.async (Service.attempt Service.loadClosingMoneylines) store with
  | (store', Ok (Service.Fulfilled (Some moneylines))) =>
      serviceState store'
      /\ sent (answered Service.NFL_CLOSING_LINES_CSV_URL) store store'
      /\ Service.espnTeamsPromise store' = Service.espnTeamsPromise store
  | (store', Ok (Service.Fulfilled None)) =>
      serviceState store'
      /\ sent (among (fun request => request = Service.NFL_CLOSING_LINES_CSV_URL))
           store store'
      /\ Service.espnTeamsPromise store' = Service.espnTeamsPromise store
  | _ => False
  end.
Proof.
  intros Hstate.
  unfold Service.attempt, Service.tryCatch, Service.loadClosingMoneylines.
  unfold Service.async at 1.
  cbv beta iota delta [mbind Service.Eff_bind Service.getStore].
  destruct (Service.closingLinesPromise store) as [[moneylines | e |] |] eqn:Hmemo.
  - cbn. split; [exact Hstate |]. split; [apply sent_refl | reflexivity].
  - cbn. split; [exact Hstate |]. split; [apply sent_refl | reflexivity].
  - destruct Hstate as (_ & Hclosing & _). destruct (Hclosing Hmemo).
  - unfold Service.async, Service.fetch.
    cbv beta iota delta [mbind Service.Eff_bind Service.getStore Service.modify].
    destruct Hanswers as (_ & Hsettle & _).
    pose proof (Hsettle (length (Service.requests store))) as Hn.
    destruct (Service.closing_lines_csv (length (Service.requests store)))
      as [rows | e |] eqn:Hanswer; [| | destruct (Hn eq_refl)]; cbn.
    + split.
      { apply serviceState_setClosingLinesPromise; [discriminate | exact Hstate]. }
      split; [| reflexivity].
      apply (sent_one _ _ _ Service.NFL_CLOSING_LINES_CSV_URL); [reflexivity |].
      split; [reflexivity |]. intros [e He]. cbn in He. rewrite Hanswer in He.
      discriminate.
    + split.
      { apply serviceState_setClosingLinesPromise; [discriminate | exact Hstate]. }
      split; [| reflexivity].
      apply (sent_one _ _ _ Service.NFL_CLOSING_LINES_CSV_URL); reflexivity.
Qed.

(** The ESPN teams, as the first [Promise.all] starts them: when they
    come, the state holds them. *)
Lemma getEspnTeams_trace (store : Service.Store) :
  serviceState store ->
  match Service.async (Service.attempt Service.getEspnTeams) store with
  | (store', Ok (Service.Fulfilled (Some teams))) =>
      serviceState store'
      /\ sent (answered Service.ESPN_TEAMS_URL) store store'
      /\ Service.espnTeamsPromise store' = Some (Service.Fulfilled teams)
  | (store', Ok (Service.Fulfilled None)) =>
      serviceState store'
      /\ sent (among (fun request => request = Service.ESPN_TEAMS_URL)) store store'
  | _ => False
  end.
Proof.
  intros Hstate.
  unfold Service.attempt, Service.tryCatch, Service.getEspnTeams.
  unfold Service.async at 1.
  cbv beta iota delta [mbind Service.Eff_bind Service.getStore].
  destruct (Service.espnTeamsPromise store) as [[teams | e |] |] eqn:Hmemo.
  - cbn. split; [exact Hstate |]. split; [apply sent_refl | exact Hmemo].
  - cbn. split; [exact Hstate | apply sent_refl].
  - destruct Hstate as (_ & _ & Hteams & _). destruct (Hteams Hmemo).
  - unfold Service.async, Service.fetch.
    cbv beta iota delta [mbind Service.Eff_bind Service.getStore Service.modify].
    destruct Hanswers as (_ & _ & Hsettle & _).
    pose proof (Hsettle (length (Service.requests store))) as Hn.
    destruct (Service.espn_teams (length (Service.requests store)))
      as [entries | e |] eqn:Hanswer; [| | destruct (Hn eq_refl)]; cbn.
    + destruct (bool_decide (size (fold_left Service.espnTeamEntry entries ∅) = 0%nat));
        cbn.
      * split.
        { apply serviceState_setEspnTeamsPromise; [discriminate | exact Hstate]. }
        apply (sent_one _ _ _ Service.ESPN_TEAMS_URL); reflexivity.
      * split.
        { apply serviceState_setEspnTeamsPromise; [discriminate | exact Hstate]. }
        split; [| reflexivity].
        apply (sent_one _ _ _ Service.ESPN_TEAMS_URL); [reflexivity |].
        split; [reflexivity |]. intros [e He]. cbn in He. rewrite Hanswer in He.
        discriminate.
    + split.
      { apply serviceState_setEspnTeamsPromise; [discriminate | exact Hstate]. }
      apply (sent_one _ _ _ Service.ESPN_TEAMS_URL); reflexivity.
Qed.

End Loaders.

Section TeamSources.
Context `{Runtime} `{Service.Environment}.
Hypothesis Hanswers : answersSettle.

Lemma fulfilled_promise {A} (promise : Service.Promise A) :
  match promise with
  | Service.Fulfilled _ => True
  | Service.Rejected _ => False
  | Service.Pending => False
  end -> fulfilled promise.
Proof. destruct promise as [a | e |]; [exists a; reflexivity | intros [] | intros []]. Qed.

Lemma stays_getEspnTeams (C : Service.Request -> nat -> Prop) :
  (forall n, C Service.ESPN_TEAMS_URL n) ->
  stays C Service.getEspnTeams (fun _ => True) True.
Proof.
  intros HC. unfold Service.getEspnTeams.
  apply (stays_bind C _ _ _ _ True (stays_getStore C True)).
  intros store Hstate.
  destruct (Service.espnTeamsPromise store) as [promise |] eqn:Hmemo.
  - apply stays_await. destruct promise as [teams | e |]; [exact I | exact I |].
    destruct Hstate as (_ & _ & Hteams & _). apply Hteams, Hmemo.
  - eapply stays_bind.
    + apply (stays_async C _ (fun _ => True) True True).
      eapply stays_bind.
      * apply stays_fetch; [| exact HC].
        destruct Hanswers as (_ & _ & Hsettle & _). exact Hsettle.
      * intros entries _. cbv zeta.
        destruct (bool_decide _); [apply stays_throw | apply stays_ret; exact I].
    + intros promise Hpromise. cbv beta in Hpromise.
      eapply stays_bind.
      * apply stays_modify; [| reflexivity].
        intros store'. apply serviceState_setEspnTeamsPromise.
        intros ->. exact Hpromise.
      * intros _ _. apply stays_await.
        destruct promise; [exact I | exact I | exact Hpromise].
Qed.

(** The statistics of a team never throw: what fails leaves [null]. *)
Lemma stays_getEspnTeamStats (C : Service.Request -> nat -> Prop) (teamCode : string)
    (T : Prop) :
  (forall n, C Service.ESPN_TEAMS_URL n) ->
  (forall id n, C (Service.ESPN_TEAM_STATS_URL id) n) ->
  stays C (Service.getEspnTeamStats teamCode) fulfilled T.
Proof.
  intros Hteams Hstats. unfold Service.getEspnTeamStats.
  apply (stays_bind C _ _ _ _ T (stays_getStore C T)).
  intros store Hstate.
  destruct (Service.espnStatsPromiseByTeam store !! teamCode) as [cached |] eqn:Hmemo.
  - apply stays_ret. destruct Hstate as (_ & _ & _ & Hstored & _).
    exact (Hstored _ _ Hmemo).
  - eapply stays_bind.
    + apply (stays_async C _ (fun _ => True) False T).
      apply (stays_tryCatch C _ _ _ True).
      * eapply stays_bind; [apply (stays_getEspnTeams C Hteams) |].
        intros teams _. destruct (teams !! teamCode) as [team |];
          [| apply stays_ret; exact I].
        eapply stays_bind.
        { apply stays_fetch; [| apply Hstats].
          destruct Hanswers as (_ & _ & _ & Hsettle & _). apply Hsettle. }
        intros payload _. apply stays_ret. exact I.
      * intros e _. apply stays_ret. exact I.
    + intros promise Hpromise. cbv beta in Hpromise.
      apply fulfilled_promise in Hpromise.
      eapply stays_bind.
      * apply stays_modify; [| reflexivity].
        intros store'. apply serviceState_setEspnStatsPromise. exact Hpromise.
      * intros _ _. apply stays_ret. exact Hpromise.
Qed.

Lemma stays_searchSportsDbTeam (C : Service.Request -> nat -> Prop)
    (nameCandidates : list string) :
  (forall name n, C (Service.SPORTS_DB_SEARCH_TEAMS_URL name) n) ->
  stays C (Service.searchSportsDbTeam nameCandidates) (fun _ => True) True.
Proof.
  intros HC. induction nameCandidates as [| name rest IH]; cbn [Service.searchSportsDbTeam].
  - apply stays_ret. exact I.
  - eapply stays_bind.
    + apply stays_fetch; [| apply HC].
      destruct Hanswers as (_ & _ & _ & _ & Hsettle & _). apply Hsettle.
    + intros teams _. cbv zeta.
      destruct (_ ≫= _); [destruct (_ ≫= _) |];
        first [apply stays_ret; exact I | exact IH].
Qed.

Lemma stays_getSportsDbRecentForm (C : Service.Request -> nat -> Prop)
    (teamCode : string) (nameCandidates : list string) (T : Prop) :
  (forall name n, C (Service.SPORTS_DB_SEARCH_TEAMS_URL name) n) ->
  (forall id n, C (Service.SPORTS_DB_EVENTS_LAST_URL id) n) ->
  stays C (Service.getSportsDbRecentForm teamCode nameCandidates) fulfilled T.
Proof.
  intros Hsearch Hevents. unfold Service.getSportsDbRecentForm. cbv zeta.
  apply (stays_bind C _ _ _ _ T (stays_getStore C T)).
  intros store Hstate.
  destruct (Service.sportsDbPromiseByTeam store !! _) as [cached |] eqn:Hmemo.
  - apply stays_ret. destruct Hstate as (_ & _ & _ & _ & Hstored & _).
    exact (Hstored _ _ Hmemo).
  - eapply stays_bind.
    + apply (stays_async C _ (fun _ => True) False T).
      apply (stays_tryCatch C _ _ _ True).
      * eapply stays_bind; [apply (stays_searchSportsDbTeam C _ Hsearch) |].
        intros [[matchedTeamId matchedTeamName] |] _; [| apply stays_ret; exact I].
        eapply stays_bind.
        { apply stays_fetch; [| apply Hevents].
          destruct Hanswers as (_ & _ & _ & _ & _ & Hsettle). apply Hsettle. }
        intros events _. destruct (bool_decide _); apply stays_ret; exact I.
      * intros e _. apply stays_ret. exact I.
    + intros promise Hpromise. cbv beta in Hpromise.
      apply fulfilled_promise in Hpromise.
      eapply stays_bind.
      * apply stays_modify; [| reflexivity].
        intros store'. apply serviceState_setSportsDbPromise. exact Hpromise.
      * intros _ _. apply stays_ret. exact Hpromise.
Qed.

End TeamSources.

Section TeamStatistics.
Context `{Runtime} `{Service.Environment}.
Hypothesis Hanswers : answersSettle.

(** With the ESPN teams at hand the statistics of a team ask for
    nothing but statistics. *)
Lemma getEspnTeamStats_trace (teamCode : string)
    (teams : gmap string Service.EspnTeamDescriptor) (store : Service.Store) :
  serviceState store ->
  Service.espnTeamsPromise store = Some (Service.Fulfilled teams) ->
  match Service.getEspnTeamStats teamCode store with
  | (store', Ok promise) =>
      serviceState store'
      /\ sent (among isStatsRequest) store store'
      /\ fulfilled promise
      /\ Service.espnTeamsPromise store' = Some (Service.Fulfilled teams)
  | _ => False
  end.
Proof.
  intros Hstate Hteams. unfold Service.getEspnTeamStats.
  cbv beta iota delta [mbind Service.Eff_bind Service.getStore].
  destruct (Service.espnStatsPromiseByTeam store !! teamCode) as [cached |] eqn:Hmemo.
  - cbn. split; [exact Hstate |]. split; [apply sent_refl |].
    split; [| exact Hteams].
    destruct Hstate as (_ & _ & _ & Hstored & _). exact (Hstored _ _ Hmemo).
  - unfold Service.async, Service.tryCatch, Service.getEspnTeams.
    cbv beta iota delta [mbind Service.Eff_bind Service.getStore].
    rewrite Hteams. cbn [Service.await mret Service.Eff_ret].
    destruct (teams !! teamCode) as [team |].
    + unfold Service.fetch.
      cbv beta iota delta [mbind Service.Eff_bind Service.getStore Service.modify].
      destruct Hanswers as (_ & _ & _ & Hsettle & _).
      pose proof (Hsettle (Service.espn_id team) (length (Service.requests store)))
        as Hn.
      assert (Hsent : forall promise,
                sent (among isStatsRequest) store
                  (Service.setEspnStatsPromise teamCode promise
                     (Service.logRequest (Service.ESPN_TEAM_STATS_URL
                                            (Service.espn_id team)) store))).
      { intros promise.
        apply (sent_one _ _ _ (Service.ESPN_TEAM_STATS_URL (Service.espn_id team)));
          [reflexivity |].
        exists (Service.espn_id team). reflexivity. }
      destruct (Service.espn_team_statistics (Service.espn_id team)
                  (length (Service.requests store))) as [payload | e |];
        [| | destruct (Hn eq_refl)]; cbn.
      * split; [apply serviceState_setEspnStatsPromise;
                  [eexists; reflexivity | exact Hstate] |].
        split; [apply Hsent |]. split; [eexists; reflexivity | exact Hteams].
      * split; [apply serviceState_setEspnStatsPromise;
                  [eexists; reflexivity | exact Hstate] |].
        split; [apply Hsent |]. split; [eexists; reflexivity | exact Hteams].
    + cbn. split; [apply serviceState_setEspnStatsPromise;
                     [eexists; reflexivity | exact Hstate] |].
      split; [apply sent_same; reflexivity |].
      split; [eexists; reflexivity | exact Hteams].
Qed.

End TeamStatistics.

Lemma sent_to (C : Service.Request -> nat -> Prop) (s1 s2 s2' : Service.Store) :
  Service.requests s2' = Service.requests s2 -> sent C s1 s2 -> sent C s1 s2'.
Proof. intros E (new & E' & Hnew). exists new. split; [rewrite E; exact E' | exact Hnew]. Qed.

Lemma sent_either (G C : Service.Request -> nat -> Prop) (s1 s2 s3 : Service.Store) :
  sent G s1 s2 -> sent C s2 s3 -> sent (either G C) s1 s3.
Proof.
  intros HG HC. apply (sent_trans _ s1 s2 s3).
  - apply (sent_weaken G); [intros request n Hn; left; exact Hn | exact HG].
  - apply (sent_weaken C); [intros request n Hn; right; exact Hn | exact HC].
Qed.

Lemma sent_then (G C D : Service.Request -> nat -> Prop) (s1 s2 s3 : Service.Store) :
  (forall request n, G request n -> D request n) ->
  (forall request n, C request n -> D request n) ->
  sent G s1 s2 -> sent C s2 s3 -> sent D s1 s3.
Proof.
  intros HG HC H12 H23. apply (sent_trans _ s1 s2 s3).
  - exact (sent_weaken G D _ _ HG H12).
  - exact (sent_weaken C D _ _ HC H23).
Qed.

Lemma hoare_pre {A} (P : Service.Store -> Prop) (R : Prop) (m : Service.Eff A)
    (Q : A -> Service.Store -> Prop) (E : string -> Service.Store -> Prop) :
  (forall store, P store -> R) -> (R -> hoare P m Q E) -> hoare P m Q E.
Proof. intros HR Hm store HP. exact (Hm (HR store HP) store HP). Qed.

Lemma hoare_lift {A B} (P : Service.Store -> Prop) (m : outcome A) (a : A)
    (f : A -> Service.Eff B) (Q : B -> Service.Store -> Prop)
    (E : string -> Service.Store -> Prop) :
  m = Ok a -> hoare P (f a) Q E -> hoare P (Service.liftOutcome m ≫= f) Q E.
Proof. intros -> Hf store HP. exact (Hf store HP). Qed.

Lemma hoare_settlePromises (P : Service.Store -> Prop)
    (E : string -> Service.Store -> Prop) :
  (forall store, P store -> P (Service.settlePromises store)) ->
  hoare P (Service.modify Service.settlePromises) (fun _ => P) E.
Proof. intros HP. apply hoare_modify. exact HP. Qed.

Lemma hoare_await_fulfilled {A B} (P : Service.Store -> Prop) (a : A)
    (f : A -> Service.Eff B) (Q : B -> Service.Store -> Prop)
    (E : string -> Service.Store -> Prop) :
  hoare P (f a) Q E -> hoare P (Service.await (Service.Fulfilled a) ≫= f) Q E.
Proof. intros Hf store HP. exact (Hf store HP). Qed.

Lemma settlePromises_teams (teams : gmap string Service.EspnTeamDescriptor)
    (store : Service.Store) :
  Service.espnTeamsPromise store = Some (Service.Fulfilled teams) ->
  Service.espnTeamsPromise (Service.settlePromises store)
  = Some (Service.Fulfilled teams).
Proof. intros Hteams. cbn. rewrite Hteams. reflexivity. Qed.

Lemma elem_of_setAdd {A} `{EqDecision A} (set : list A) (x y : A) :
  y ∈ Service.setAdd set x <-> y ∈ set \/ y = x.
Proof.
  unfold Service.setAdd. case_bool_decide as Hx.
  - split; [intros Hy; left; exact Hy |]. intros [Hy | ->]; assumption.
  - rewrite elem_of_app, list_elem_of_singleton. reflexivity.
Qed.

Lemma hoare_false {A} (m : Service.Eff A) (Q : A -> Service.Store -> Prop)
    (E : string -> Service.Store -> Prop) :
  hoare (fun _ => False) m Q E.
Proof. intros store []. Qed.

Section Model.
Context `{Runtime} `{Service.Environment}.
Hypothesis Hanswers : answersSettle.

Lemma hoare_isoNow {B} (P : Service.Store -> Prop) (f : string -> Service.Eff B)
    (Q : B -> Service.Store -> Prop) (E : string -> Service.Store -> Prop) :
  (forall text, hoare P (f text) Q E) -> hoare P (Service.isoNow ≫= f) Q E.
Proof. intros Hf store HP. exact (Hf _ store HP). Qed.

Lemma buildTeamDigitMatrix_probability
    (homeContext awayContext : option Service.TeamContext)
    (homeSportsDb awaySportsDb : option Service.SportsDbRecentForm) :
  exists out,
    Service.buildTeamDigitMatrix homeContext awayContext homeSportsDb awaySportsDb
    = Ok out /\ probabilityMatrix out.
Proof. apply outerProduct_probability. Qed.

Lemma buildSimulationMatrix_probability (homeExpectedPoints awayExpectedPoints : num) :
  exists out,
    Service.buildSimulationMatrix homeExpectedPoints awayExpectedPoints = Ok out
    /\ probabilityMatrix out.
Proof. apply outerProduct_probability. Qed.

(** Nothing but the games was asked for: no other request failed. *)
Lemma failuresReported_baseline (origin store : Service.Store) :
  sent (among (fun request => request = Service.NFL_GAMES_CSV_URL)) origin store ->
  failuresReported origin store [fallback_model] [gamesWarning].
Proof.
  intros Hsent.
  assert (Hkind : forall request,
            failedRequest origin store request ->
            request = Service.NFL_GAMES_CSV_URL).
  { intros request Hfailed.
    destruct (failedRequest_sent _ _ _ _ Hfailed Hsent) as (n & Hn & _). exact Hn. }
  split; [intros _; split; reflexivity |].
  split; [intros Hf; discriminate (Hkind _ Hf) |].
  split; [intros Hf; discriminate (Hkind _ Hf) |].
  split; [intros id Hf; discriminate (Hkind _ Hf) |].
  split; [intros name Hf; discriminate (Hkind _ Hf) |].
  intros id Hf. discriminate (Hkind _ Hf).
Qed.

(** The games were loaded: what of the other sources failed shows in
    the warnings, or the source is among those used. *)
Lemma failuresReported_traced (origin store : Service.Store)
    (moneylinesLoaded teamsLoaded : Prop)
    (sources : list SquareOddsComputationSource) (warningList : list string) :
  sent (traced moneylinesLoaded teamsLoaded) origin store ->
  (~ moneylinesLoaded -> moneylineWarning ∈ warningList) ->
  (~ teamsLoaded -> teamsWarning ∈ warningList) ->
  statsWarning ∈ warningList \/ espn_team_stats ∈ sources ->
  formWarning ∈ warningList \/ thesportsdb_recent_form ∈ sources ->
  failuresReported origin store sources warningList.
Proof.
  intros Hsent Hmoney Hteams Hstats Hform.
  split.
  { intros Hf. destruct (failedRequest_sent _ _ _ _ Hf Hsent) as (n & Hn & Hrej).
    destruct (Hn Hrej). }
  split.
  { intros Hf. destruct (failedRequest_sent _ _ _ _ Hf Hsent) as (n & Hn & Hrej).
    apply Hmoney. intros Hloaded. exact (Hn Hloaded Hrej). }
  split.
  { intros Hf. destruct (failedRequest_sent _ _ _ _ Hf Hsent) as (n & Hn & Hrej).
    apply Hteams. intros Hloaded. exact (Hn Hloaded Hrej). }
  split; [intros id _; exact Hstats |].
  split; [intros name _; exact Hform | intros id _; exact Hform].
Qed.

Lemma traced_games (m t : Prop) (request : Service.Request) (n : nat) :
  answered Service.NFL_GAMES_CSV_URL request n -> traced m t request n.
Proof. intros [-> Hn]. exact Hn. Qed.

Lemma traced_closing (lm : option (list Service.MoneylineRecord)) (t : Prop)
    (request : Service.Request) (n : nat) :
  match lm with
  | Some _ => answered Service.NFL_CLOSING_LINES_CSV_URL request n
  | None => among (fun r => r = Service.NFL_CLOSING_LINES_CSV_URL) request n
  end ->
  traced (is_Some lm) t request n.
Proof.
  destruct lm as [moneylines |].
  - intros [-> Hn] _. exact Hn.
  - intros -> [moneylines Hsome]. discriminate Hsome.
Qed.

Lemma traced_teams (m : Prop) (lt : option (gmap string Service.EspnTeamDescriptor))
    (request : Service.Request) (n : nat) :
  match lt with
  | Some _ => answered Service.ESPN_TEAMS_URL request n
  | None => among (fun r => r = Service.ESPN_TEAMS_URL) request n
  end ->
  traced m (is_Some lt) request n.
Proof.
  destruct lt as [teams |].
  - intros [-> Hn] _. exact Hn.
  - intros -> [teams Hsome]. discriminate Hsome.
Qed.

Lemma traced_stats (m t : Prop) (request : Service.Request) (n : nat) :
  among isStatsRequest request n -> traced m t request n.
Proof. intros [id ->]. exact I. Qed.

Lemma traced_form (m t : Prop) (request : Service.Request) (n : nat) :
  among isFormRequest request n -> traced m t request n.
Proof. intros [[name ->] | [id ->]]; exact I. Qed.

Lemma traced_teams_stats (m : Prop) (request : Service.Request) (n : nat) :
  among (fun r => isTeamsRequest r \/ isStatsRequest r) request n ->
  traced m (is_Some (@None (gmap string Service.EspnTeamDescriptor))) request n.
Proof.
  intros [-> | [id ->]]; [| exact I]. intros [teams Hsome]. discriminate Hsome.
Qed.

(** The statistics of a team, in the course of a call. *)
Lemma getEspnTeamStats_step (teamCode : string) (origin : Service.Store) (m : Prop)
    (lt : option (gmap string Service.EspnTeamDescriptor)) (F : Prop) :
  hoare (fun store =>
           serviceState store /\ sent (traced m (is_Some lt)) origin store
           /\ teamsHeld lt store /\ F)
    (Service.getEspnTeamStats teamCode)
    (fun promise store =>
       match promise with
       | Service.Fulfilled _ =>
           serviceState store /\ sent (traced m (is_Some lt)) origin store
           /\ teamsHeld lt store /\ F
       | _ => False
       end)
    (fun _ _ => False).
Proof.
  intros store (Hstate & Hsent & Hheld & HF). destruct lt as [teams |].
  - pose proof (getEspnTeamStats_trace Hanswers teamCode teams store Hstate Hheld)
      as Htrace.
    destruct (Service.getEspnTeamStats teamCode store) as [store' [promise | e |]];
      try exact Htrace.
    destruct Htrace as (Hstate' & Hsent' & [stats ->] & Hheld').
    split; [exact Hstate' |]. split; [| split; [exact Hheld' | exact HF]].
    exact (sent_then _ _ _ _ _ _ (fun r n Hn => Hn) (traced_stats _ _) Hsent Hsent').
  - pose proof (stays_getEspnTeamStats Hanswers
                  (among (fun r => isTeamsRequest r \/ isStatsRequest r))
                  teamCode False
                  (fun n => or_introl eq_refl)
                  (fun id n => or_intror (ex_intro _ id eq_refl))
                  store store (conj eq_refl Hstate)) as Htrace.
    destruct (Service.getEspnTeamStats teamCode store) as [store' [promise | e |]];
      [| destruct Htrace as (_ & _ & []) | exact Htrace].
    destruct Htrace as (Hstate' & Hsent' & [stats ->]).
    split; [exact Hstate' |]. split; [| split; [exact I | exact HF]].
    exact (sent_then _ _ _ _ _ _ (fun r n Hn => Hn) (traced_teams_stats _) Hsent Hsent').
Qed.

(** The recent form of a team, in the course of a call. *)
Lemma getSportsDbRecentForm_step (teamCode : string) (nameCandidates : list string)
    (origin : Service.Store) (m t : Prop) (F : Prop) :
  hoare (fun store => serviceState store /\ sent (traced m t) origin store /\ F)
    (Service.getSportsDbRecentForm teamCode nameCandidates)
    (fun promise store =>
       match promise with
       | Service.Fulfilled _ =>
           serviceState store /\ sent (traced m t) origin store /\ F
       | _ => False
       end)
    (fun _ _ => False).
Proof.
  intros store (Hstate & Hsent & HF).
  pose proof (stays_getSportsDbRecentForm Hanswers (among isFormRequest)
                teamCode nameCandidates False
                (fun name n => or_introl (ex_intro _ name eq_refl))
                (fun id n => or_intror (ex_intro _ id eq_refl))
                store store (conj eq_refl Hstate)) as Htrace.
  destruct (Service.getSportsDbRecentForm teamCode nameCandidates store)
    as [store' [promise | e |]];
    [| destruct Htrace as (_ & _ & []) | exact Htrace].
  destruct Htrace as (Hstate' & Hsent' & [form ->]).
  split; [exact Hstate' |]. split; [| exact HF].
  exact (sent_then _ _ _ _ _ _ (fun r n Hn => Hn) (traced_form _ _) Hsent Hsent').
Qed.

End Model.

Section SmartModel.
Context `{Runtime} `{Service.Environment}.
Hypothesis Hanswers : answersSettle.
Variables homeTeamCode awayTeamCode : string.
Variable origin : Service.Store.
Hypothesis Horigin : serviceState origin.

Lemma buildSmartDigitModel_accounts :
  hoare (fun store => store = origin)
    (Service.buildSmartDigitModel homeTeamCode awayTeamCode)
    (fun model store => serviceState store /\ modelAccounts origin store model)
    (fun _ _ => False).
Proof.
  unfold Service.buildSmartDigitModel.
  apply (hoare_bind _ _ _
           (fun loaded store =>
              serviceState store
              /\ match loaded with
                 | Some games =>
                     sent (answered Service.NFL_GAMES_CSV_URL) origin store
                     /\ Forall integerScores games
                 | None =>
                     sent (among (fun request => request = Service.NFL_GAMES_CSV_URL))
                       origin store
                 end)).
  { intros store Hstore. rewrite Hstore. clear store Hstore.
    pose proof (loadGames_trace Hanswers origin Horigin) as Htrace.
    destruct (Service.attempt Service.loadGames origin) as [store [[games |] | e |]];
      exact Htrace. }
  intros loaded.
  eapply hoare_bind.
  { apply hoare_settlePromises. intros store [Hstate Hrest].
    split; [apply serviceState_settlePromises, Hstate |].
    destruct loaded as [games |];
      [split; [apply (sent_to _ _ store); [reflexivity | apply Hrest] | apply Hrest]
      | apply (sent_to _ _ store); [reflexivity | exact Hrest]]. }
  intros []. cbv beta. destruct loaded as [games |].
  2:{ cbv zeta.
      destruct (outerProduct_probability
                  (Service.poissonDigitDistribution (ofZ 23))
                  (Service.poissonDigitDistribution (ofZ 21)))
        as (simulated & Hsimulated & Hprob).
      apply (hoare_lift _ _ simulated); [exact Hsimulated |].
      apply hoare_isoNow. intros generatedAt. apply hoare_ret.
      intros store [Hstate Hsent]. split; [exact Hstate |].
      split; [exact Hprob |]. apply failuresReported_baseline, Hsent. }
  apply (hoare_pre _ (Forall integerScores games));
    [intros store (_ & _ & Hgames); exact Hgames |].
  intros Hgames. cbv zeta.
  destruct (buildBaselineMatrix_probability games (Service.getLatestSeason games)
              Hgames) as (baselineMatrix & sampleSize & Hbaseline & Hbase & _).
  apply (hoare_lift _ _ (baselineMatrix, sampleSize)); [exact Hbaseline |].
  (* the first Promise.all *)
  apply (hoare_bind _ _ _
           (fun promise store =>
              match promise with
              | Service.Fulfilled lm =>
                  serviceState store
                  /\ forall t, sent (traced (is_Some lm) t) origin store
              | _ => False
              end)).
  { intros store (Hstate & Hsent & _).
    pose proof (loadClosingMoneylines_trace Hanswers store Hstate) as Htrace.
    destruct (Service.async (Service.attempt Service.loadClosingMoneylines) store)
      as [store' [[[moneylines |] | e |] | e |]]; try exact Htrace;
      destruct Htrace as (Hstate' & Hsent' & _);
      (split; [exact Hstate' |]); intros t;
      [exact (sent_then _ _ _ _ _ _ (traced_games _ t)
                (traced_closing (Some moneylines) t) Hsent Hsent')
      | exact (sent_then _ _ _ _ _ _ (traced_games _ t)
                 (traced_closing None t) Hsent Hsent')]. }
  intros [loadedMoneylines | e |]; try apply hoare_false.
  apply (hoare_bind _ _ _
           (fun promise store =>
              match promise with
              | Service.Fulfilled lt =>
                  serviceState store
                  /\ sent (traced (is_Some loadedMoneylines) (is_Some lt)) origin store
                  /\ teamsHeld lt store /\ True
              | _ => False
              end)).
  { intros store (Hstate & Hsent).
    pose proof (getEspnTeams_trace Hanswers store Hstate) as Htrace.
    destruct (Service.async (Service.attempt Service.getEspnTeams) store)
      as [store' [[[teams |] | e |] | e |]]; try exact Htrace.
    - destruct Htrace as (Hstate' & Hsent' & Hheld).
      split; [exact Hstate' |]. split; [| split; [exact Hheld | exact I]].
      exact (sent_then _ _ _ _ _ _ (fun r n Hn => Hn)
               (traced_teams _ (Some teams)) (Hsent _) Hsent').
    - destruct Htrace as (Hstate' & Hsent').
      split; [exact Hstate' |]. split; [| split; exact I].
      exact (sent_then _ _ _ _ _ _ (fun r n Hn => Hn)
               (traced_teams _ None) (Hsent _) Hsent'). }
  intros [loadedTeams | e |]; try apply hoare_false.
  assert (Hsettle : forall store,
            serviceState store
            /\ sent (traced (is_Some loadedMoneylines) (is_Some loadedTeams)) origin store
            /\ teamsHeld loadedTeams store /\ True ->
            serviceState (Service.settlePromises store)
            /\ sent (traced (is_Some loadedMoneylines) (is_Some loadedTeams)) origin
                 (Service.settlePromises store)
            /\ teamsHeld loadedTeams (Service.settlePromises store) /\ True).
  { intros store (Hstate & Hsent & Hheld & _).
    split; [apply serviceState_settlePromises, Hstate |].
    split; [apply (sent_to _ _ store); [reflexivity | exact Hsent] |].
    split; [| exact I].
    destruct loadedTeams as [teams |]; [apply settlePromises_teams, Hheld | exact I]. }
  eapply hoare_bind; [apply hoare_settlePromises, Hsettle |].
  intros []. cbv beta. cbn [Service.PromiseAll].
  apply hoare_await_fulfilled. cbv beta iota.
  (* the second Promise.all *)
  eapply hoare_bind; [apply (getEspnTeamStats_step Hanswers) |].
  intros [homeEspnStats | e |]; try apply hoare_false.
  eapply hoare_bind; [apply (getEspnTeamStats_step Hanswers) |].
  intros [awayEspnStats | e |]; try apply hoare_false.
  eapply hoare_bind;
    [apply (hoare_consequence _ _ _ _ _ _ _
              (getSportsDbRecentForm_step Hanswers _ _ origin (is_Some loadedMoneylines)
                 (is_Some loadedTeams) (teamsHeld loadedTeams origin \/ True)));
     [intros store (Hstate & Hsent & _); split; [exact Hstate |];
      split; [exact Hsent | right; exact I]
     | intros a store Ha; exact Ha | intros e store []] |].
  intros [homeSportsDbRecent | e |]; try apply hoare_false.
  eapply hoare_bind; [apply (getSportsDbRecentForm_step Hanswers) |].
  intros [awaySportsDbRecent | e |]; try apply hoare_false.
  eapply hoare_bind.
  { apply hoare_settlePromises. intros store (Hstate & Hsent & HF).
    split; [apply serviceState_settlePromises, Hstate |].
    split; [apply (sent_to _ _ store); [reflexivity | exact Hsent] | exact HF]. }
  intros []. cbv beta. cbn [Service.PromiseAll].
  apply hoare_await_fulfilled. cbv beta iota.
  (* what the warnings and the sources hold *)
  match goal with
  | |- context [if Service.moneylinesSettleFirst then ?a else ?b] =>
      set (earlier := if Service.moneylinesSettleFirst then a else b)
  end.
  assert (Hmoney : ~ is_Some loadedMoneylines -> moneylineWarning ∈ earlier).
  { intros Hnone. subst earlier.
    destruct loadedMoneylines as [moneylines |];
      [destruct Hnone; eexists; reflexivity |].
    destruct Service.moneylinesSettleFirst; rewrite !elem_of_app;
      [right; left | right; right]; apply list_elem_of_singleton; reflexivity. }
  assert (Hteams : ~ is_Some loadedTeams -> teamsWarning ∈ earlier).
  { intros Hnone. subst earlier.
    destruct loadedTeams as [teams |]; [destruct Hnone; eexists; reflexivity |].
    destruct Service.moneylinesSettleFirst; rewrite !elem_of_app;
      [right; right | right; left]; apply list_elem_of_singleton; reflexivity. }
  clearbody earlier.
  lazymatch goal with
  | |- hoare _ (let '(_, _) := ?e in _) _ _ => set (withStats := e)
  end.
  assert (Hstats : (forall w, w ∈ earlier -> w ∈ withStats.2)
                   /\ (statsWarning ∈ withStats.2 \/ espn_team_stats ∈ withStats.1)).
  { subst withStats.
    destruct homeEspnStats as [homeStats |], awayEspnStats as [awayStats |];
      cbn [fst snd];
      (split; [intros w Hw; rewrite ?elem_of_app; auto |]);
      first [right; apply elem_of_setAdd; right; reflexivity
            | left; apply elem_of_app; right; apply list_elem_of_singleton;
              reflexivity]. }
  destruct withStats as [sourcesUsed warnings]. cbn [fst snd] in Hstats.
  destruct Hstats as [Hearlier Hstats].
  lazymatch goal with
  | |- hoare _ (let '(_, _) := ?e in _) _ _ => set (withForm := e)
  end.
  assert (Hform : (forall w, w ∈ warnings -> w ∈ withForm.2)
                   /\ (forall x, x ∈ sourcesUsed -> x ∈ withForm.1)
                   /\ (formWarning ∈ withForm.2
                       \/ thesportsdb_recent_form ∈ withForm.1)).
  { subst withForm.
    destruct homeSportsDbRecent as [homeForm |], awaySportsDbRecent as [awayForm |];
      cbn [fst snd];
      (split; [intros w Hw; rewrite ?elem_of_app; auto |]);
      (split; [intros x Hx; rewrite ?elem_of_setAdd; auto |]);
      first [right; apply elem_of_setAdd; right; reflexivity
            | left; apply elem_of_app; right; apply list_elem_of_singleton;
              reflexivity]. }
  destruct withForm as [sourcesUsed0 warnings0]. cbn [fst snd] in Hform.
  destruct Hform as (Hwarnings & Hsources & Hform).
  (* the matrices *)
  match goal with
  | |- context [Service.liftOutcome (Service.buildTeamDigitMatrix ?a ?b ?c ?d)] =>
      destruct (buildTeamDigitMatrix_probability a b c d)
        as (teamMatrix & Hteam & Hteamprob)
  end.
  apply (hoare_lift _ _ teamMatrix); [exact Hteam |].
  lazymatch goal with
  | |- hoare _ (let '(_, _) := ?e in _) _ _ =>
      destruct e as [expectedHomePoints expectedAwayPoints]
  end.
  destruct (buildSimulationMatrix_probability expectedHomePoints expectedAwayPoints)
    as (simulationMatrix & Hsimulation & Hsimprob).
  apply (hoare_lift _ _ simulationMatrix); [exact Hsimulation |].
  do 3 lazymatch goal with
       | |- hoare _ (let '(_, _) := ?e in _) _ _ => destruct e as [? ?]
       end.
  match goal with
  | |- context [Service.liftOutcome (Service.blendMatrices ?parts)] =>
      destruct (service_blendMatrices_probability parts)
        as (blended & Hblend & Hblendprob)
  end.
  { repeat constructor; cbn [Service.matrix fst].
    - exact (proj1 (proj1 Hbase)).
    - exact (proj1 (proj1 Hteamprob)).
    - exact (proj1 (proj1 Hsimprob)). }
  apply (hoare_lift _ _ blended); [exact Hblend |].
  apply hoare_isoNow. intros generatedAt. apply hoare_ret.
  intros store (Hstate & Hsent & _). split; [exact Hstate |].
  split; [exact Hblendprob |]. cbn [Service.c_sourcesUsed Service.c_warnings].
  apply (failuresReported_traced origin store (is_Some loadedMoneylines)
           (is_Some loadedTeams)); [exact Hsent | | | |].
  - intros Hnone. apply Hwarnings, Hearlier, Hmoney, Hnone.
  - intros Hnone. apply Hwarnings, Hearlier, Hteams, Hnone.
  - destruct Hstats as [Hw | Hs]; [left; apply Hwarnings, Hw | right; apply Hsources, Hs].
  - exact Hform.
Qed.

End SmartModel.

Lemma sent_noRequest (s1 s2 : Service.Store) :
  sent noRequest s1 s2 -> Service.requests s2 = Service.requests s1.
Proof.
  intros (new & E & Hnew). destruct new as [| request new].
  - rewrite E. apply app_nil_r.
  - destruct (Hnew 0%nat request eq_refl).
Qed.

Lemma failedRequest_requests `{Service.Environment} (s1 s2 s1' s2' : Service.Store)
    (request : Service.Request) :
  Service.requests s1' = Service.requests s1 ->
  Service.requests s2' = Service.requests s2 ->
  failedRequest s1' s2' request -> failedRequest s1 s2 request.
Proof.
  intros E1 E2 (n & Hn & Hlookup & Hrejected). exists n.
  rewrite <- E1, <- E2. split; [exact Hn |]. split; [exact Hlookup | exact Hrejected].
Qed.

Lemma failuresReported_requests `{Service.Environment} (s1 s2 s1' s2' : Service.Store)
    (sources : list SquareOddsComputationSource) (warningList : list string) :
  Service.requests s1' = Service.requests s1 ->
  Service.requests s2' = Service.requests s2 ->
  failuresReported s1 s2 sources warningList ->
  failuresReported s1' s2' sources warningList.
Proof.
  intros E1 E2 (Hgames & Hclosing & Hteams & Hstats & Hsearch & Hevents).
  assert (Hback : forall request,
            failedRequest s1' s2' request -> failedRequest s1 s2 request).
  { intros request. apply failedRequest_requests; assumption. }
  split; [intros Hf; apply Hgames, Hback, Hf |].
  split; [intros Hf; apply Hclosing, Hback, Hf |].
  split; [intros Hf; apply Hteams, Hback, Hf |].
  split; [intros id Hf; apply (Hstats id), Hback, Hf |].
  split; [intros name Hf; apply (Hsearch name), Hback, Hf |].
  intros id Hf. apply (Hevents id), Hback, Hf.
Qed.

(** No request was sent: none failed. *)
Lemma failuresReported_none `{Service.Environment} (store store' : Service.Store)
    (sources : list SquareOddsComputationSource) (warningList : list string) :
  Service.requests store' = Service.requests store ->
  failuresReported store store' sources warningList.
Proof.
  intros E.
  assert (Hnone : forall request, ~ failedRequest store store' request).
  { intros request (n & Hn & Hlookup & _). rewrite E in Hlookup.
    apply lookup_lt_Some in Hlookup. lia. }
  split; [intros Hf; destruct (Hnone _ Hf) |].
  split; [intros Hf; destruct (Hnone _ Hf) |].
  split; [intros Hf; destruct (Hnone _ Hf) |].
  split; [intros id Hf; destruct (Hnone _ Hf) |].
  split; [intros name Hf; destruct (Hnone _ Hf) |].
  intros id Hf. destruct (Hnone _ Hf).
Qed.

Lemma hoare_from {A} (P : Service.Store -> Prop) (m : Service.Eff A)
    (Q : Service.Store -> A -> Service.Store -> Prop)
    (E : Service.Store -> string -> Service.Store -> Prop) :
  (forall origin, P origin -> hoare (fun store => store = origin) m (Q origin) (E origin)) ->
  hoare P m (fun a store => exists origin, P origin /\ Q origin a store)
    (fun e store => exists origin, P origin /\ E origin e store).
Proof.
  intros Hm store HP. specialize (Hm store HP store eq_refl).
  destruct (m store) as [store' [a | e |]]; [| | exact Hm];
    exists store; (split; [exact HP | exact Hm]).
Qed.

Section Cache.
Context `{Runtime} `{Service.Environment}.

Lemma stays_readCachedEntry (key : string) (T : Prop) :
  stays noRequest (Service.readCachedEntry key) (fun _ => True) T.
Proof.
  unfold Service.readCachedEntry.
  apply (stays_bind _ _ _ _ _ T (stays_getStore _ T)). intros store Hstate.
  apply (stays_bind _ _ _ _ _ T (stays_now _ T)). intros time _. cbv zeta.
  assert (Hstorage :
    stays noRequest
      match Service.localStorage store with
      | None => mret None
      | Some items =>
          match Service.truthy (items !! key) with
          | None => mret None
          | Some raw =>
              match Service.JSON_parse raw with
              | Some parsed =>
                  if (Service.expiresAt parsed <=? ofZ time)%num
                  then Service.modify (Service.setLocalStorage (Some (delete key items)));;
                       mret None
                  else Service.modify (Service.setModelMemoryCache
                                         (<[key := parsed]> (Service.modelMemoryCache store)));;
                       mret (Some parsed)
              | None =>
                  Service.modify (Service.setLocalStorage (Some (delete key items)));;
                  mret None
              end
          end
      end (fun _ : option Service.CachedEntry => True) T).
  { destruct (Service.localStorage store) as [items |]; [| apply stays_ret; exact I].
    destruct (Service.truthy (items !! key)) as [raw |]; [| apply stays_ret; exact I].
    destruct (Service.JSON_parse raw) as [parsed |];
      [destruct (_ <=? _)%num |];
      (eapply stays_bind;
       [apply stays_modify; [intros s Hs; exact Hs | reflexivity]
       | intros _ _; apply stays_ret; exact I]). }
  destruct (Service.modelMemoryCache store !! key) as [inMemory |]; [| exact Hstorage].
  destruct (_ >? _)%num; [apply stays_ret; exact I | exact Hstorage].
Qed.

Lemma stays_writeCachedEntry (key : string) (value : Service.CachedDigitModel)
    (T : Prop) :
  stays noRequest (Service.writeCachedEntry key value) (fun _ => True) T.
Proof.
  unfold Service.writeCachedEntry.
  apply (stays_bind _ _ _ _ _ T (stays_now _ T)). intros time _. cbv zeta.
  apply (stays_bind _ _ _ _ _ T (stays_getStore _ T)). intros store Hstate.
  eapply stays_bind; [apply stays_modify; [intros s Hs; exact Hs | reflexivity] |].
  intros _ _. destruct (Service.localStorage store) as [items |];
    [| apply stays_ret; exact I].
  destruct (Service.quotaExceeded _ _); [apply stays_ret; exact I |].
  apply stays_modify; [intros s Hs; exact Hs | reflexivity].
Qed.

End Cache.

Lemma neverReturns_bind {A B} (m : Service.Eff A) (f : A -> Service.Eff B) :
  (forall a, neverReturns (f a)) -> neverReturns (m ≫= f).
Proof.
  intros Hf store b. unfold mbind, Service.Eff_bind.
  destruct (m store) as [store' [a | e |]]; simpl; [apply Hf | discriminate ..].
Qed.

Lemma neverReturns_throws {A B} (m : outcome A) (f : A -> Service.Eff B) :
  throws m -> neverReturns (Service.liftOutcome m ≫= f).
Proof. intros [e ->] store a. discriminate. Qed.

Lemma serviceState_freshStore : serviceState freshStore.
Proof.
  split; [discriminate |]. split; [discriminate |]. split; [discriminate |].
  split; [intros code promise Hp; unfold freshStore in Hp; cbn in Hp;
          rewrite lookup_empty in Hp; discriminate |].
  split; [intros key promise Hp; unfold freshStore in Hp; cbn in Hp;
          rewrite lookup_empty in Hp; discriminate | exact I].
Qed.

Section SquareOdds.
Context `{Runtime} `{Service.Environment}.
Variable input : Service.BuildSquareOddsInput.

Lemma resultOfModel_invalid (model : Service.CachedDigitModel) :
  ~ validLabels (Service.rowLabels input) \/ ~ validLabels (Service.colLabels input) ->
  neverReturns (Service.resultOfModel model input).
Proof.
  intros Hinvalid. unfold Service.resultOfModel.
  apply neverReturns_throws, mapDigitMatrixToBoardWith_throws, Hinvalid.
Qed.

Lemma resultOfModel_valid (model : Service.CachedDigitModel) (store : Service.Store) :
  validLabels (Service.rowLabels input) -> validLabels (Service.colLabels input) ->
  length (Service.c_digitProbabilities model) = DIGIT_COUNT ->
  exists result,
    Service.resultOfModel model input store = (store, Ok result)
    /\ sourcesUsed result = Service.c_sourcesUsed model
    /\ warnings result = Service.c_warnings model.
Proof.
  intros Hrows Hcols Hlen. unfold Service.resultOfModel.
  destruct (validLabels_digits _ Hrows) as [rs Hrs].
  destruct (validLabels_digits _ Hcols) as [cs Hcs].
  rewrite liftOutcome_bind. unfold Service.mapDigitMatrixToBoard.
  rewrite (mapDigitMatrixToBoardWith_ok _ _ _ _ _ _ rs cs Hrs Hcs Hlen).
  eexists. split; [reflexivity |]. split; reflexivity.
Qed.

(** [resultOfModel] changes nothing in the state. *)
Lemma resultOfModel_store (model : Service.CachedDigitModel) (store : Service.Store) :
  (Service.resultOfModel model input store).1 = store.
Proof.
  unfold Service.resultOfModel. rewrite liftOutcome_bind.
  destruct (Service.mapDigitMatrixToBoard _ _ _); reflexivity.
Qed.

Lemma resultOfModel_settled (model : Service.CachedDigitModel) (store : Service.Store) :
  settled (Service.resultOfModel model input store).2.
Proof.
  unfold Service.resultOfModel. rewrite liftOutcome_bind.
  pose proof (service_mapDigitMatrixToBoard_settled
                (Service.c_digitProbabilities model) (Service.rowLabels input)
                (Service.colLabels input)) as Hboard.
  destruct (Service.mapDigitMatrixToBoard _ _ _); [discriminate | discriminate |].
  destruct (Hboard eq_refl).
Qed.

Lemma buildSimulationMatrix_rows (homeExpectedPoints awayExpectedPoints : num) :
  exists simulated,
    Service.buildSimulationMatrix homeExpectedPoints awayExpectedPoints = Ok simulated
    /\ length simulated = DIGIT_COUNT.
Proof. apply outerProduct_rows. Qed.

(** The fallback model is made without a request: it returns when the
    labels are valid and throws when they are not. *)
Lemma buildFallbackModel_valid (store : Service.Store) :
  validLabels (Service.rowLabels input) -> validLabels (Service.colLabels input) ->
  exists fallback,
    Service.buildFallbackModel (Service.rowLabels input) (Service.colLabels input) store
    = (store, Ok fallback).
Proof.
  intros Hrows Hcols. unfold Service.buildFallbackModel.
  destruct (buildSimulationMatrix_rows (ofZ 23) (ofZ 21)) as (simulated & Hsim & Hlen).
  destruct (validLabels_digits _ Hrows) as [rs Hrs].
  destruct (validLabels_digits _ Hcols) as [cs Hcs].
  rewrite liftOutcome_bind, Hsim, liftOutcome_bind.
  unfold Service.mapDigitMatrixToBoard.
  rewrite (mapDigitMatrixToBoardWith_ok _ _ _ _ _ _ rs cs Hrs Hcs Hlen).
  eexists. reflexivity.
Qed.

Lemma buildFallbackModel_invalid (store : Service.Store) :
  ~ validLabels (Service.rowLabels input) \/ ~ validLabels (Service.colLabels input) ->
  exists e,
    Service.buildFallbackModel (Service.rowLabels input) (Service.colLabels input) store
    = (store, Throw e).
Proof.
  intros Hinvalid. unfold Service.buildFallbackModel.
  destruct (buildSimulationMatrix_rows (ofZ 23) (ofZ 21)) as (simulated & Hsim & Hlen).
  destruct (mapDigitMatrixToBoardWith_throws
              "Expected row and column labels to each have length 10."
              "Invalid row label while mapping digit probabilities."
              "Invalid column label while mapping digit probabilities."
              simulated _ _ Hinvalid) as [e He].
  exists e. rewrite liftOutcome_bind, Hsim, liftOutcome_bind.
  unfold Service.mapDigitMatrixToBoard. rewrite He. reflexivity.
Qed.

Lemma buildSquareOdds_unsupported_home (store : Service.Store) :
  ~ supportedTeam (Service.homeTeamName input) ->
  Service.buildSquareOdds input store
  = (store, Throw (unsupportedTeamError (Service.homeTeamName input))).
Proof.
  intros Hhome. unfold Service.buildSquareOdds, Service.resolveTeamCode.
  unfold supportedTeam in Hhome.
  destruct (Service.findTeamByNameOrCode (Service.homeTeamName input));
    [exfalso; apply Hhome; eexists; reflexivity | reflexivity].
Qed.

Lemma buildSquareOdds_unsupported_away (store : Service.Store) :
  supportedTeam (Service.homeTeamName input) ->
  ~ supportedTeam (Service.awayTeamName input) ->
  Service.buildSquareOdds input store
  = (store, Throw (unsupportedTeamError (Service.awayTeamName input))).
Proof.
  intros [home Hhome] Haway. unfold Service.buildSquareOdds, Service.resolveTeamCode.
  unfold supportedTeam in Haway. rewrite Hhome.
  destruct (Service.findTeamByNameOrCode (Service.awayTeamName input));
    [exfalso; apply Haway; eexists; reflexivity | reflexivity].
Qed.

(** With two supported teams the call is its [try] block, and on a
    throw of that the fallback model with the message added to its
    warnings. *)
Lemma buildSquareOdds_supported (store : Service.Store) :
  supportedTeam (Service.homeTeamName input) ->
  supportedTeam (Service.awayTeamName input) ->
  exists (homeTeamCode awayTeamCode cacheKey : string),
    Service.buildSquareOdds input store
    = Service.tryCatch
        (cached ← Service.readCachedEntry cacheKey;
         match cached with
         | Some entry => Service.resultOfModel (Service.value entry) input
         | None =>
             computed ← Service.buildSmartDigitModel homeTeamCode awayTeamCode;
             Service.writeCachedEntry cacheKey computed;;
             Service.resultOfModel computed input
         end)
        (fun message =>
           fallback ← Service.buildFallbackModel (Service.rowLabels input)
                        (Service.colLabels input);
           mret {| boardPercentages := boardPercentages fallback;
                   digitProbabilities := digitProbabilities fallback;
                   generatedAt := generatedAt fallback;
                   sourceMode := sourceMode fallback;
                   sourcesUsed := sourcesUsed fallback;
                   warnings := warnings fallback ++ [message];
                   expectedHomePoints := expectedHomePoints fallback;
                   expectedAwayPoints := expectedAwayPoints fallback |})
        store.
Proof.
  intros [home Hhome] [away Haway].
  unfold Service.buildSquareOdds, Service.resolveTeamCode.
  rewrite Hhome, liftOutcome_bind. cbv beta iota.
  rewrite Haway, liftOutcome_bind. cbv beta iota zeta.
  eexists _, _, _. reflexivity.
Qed.

(** Supported teams and valid labels: the call does not throw. *)
Lemma buildSquareOdds_valid_no_throw (store : Service.Store) :
  supportedTeam (Service.homeTeamName input) ->
  supportedTeam (Service.awayTeamName input) ->
  validLabels (Service.rowLabels input) ->
  validLabels (Service.colLabels input) ->
  ~ throws (Service.buildSquareOdds input store).2.
Proof.
  intros Hhome Haway Hrows Hcols [e He].
  destruct (buildSquareOdds_supported store Hhome Haway)
    as (homeTeamCode & awayTeamCode & cacheKey & Hcall).
  rewrite Hcall in He. clear Hcall. unfold Service.tryCatch in He.
  match type of He with
  | context [match ?body store with _ => _ end] =>
      destruct (body store) as [store' [result | e' |]]
  end; try discriminate He.
  rewrite Eff_bind_eq in He.
  destruct (buildFallbackModel_valid store' Hrows Hcols) as [fallback Hfallback].
  rewrite Hfallback in He. discriminate He.
Qed.

Section Settling.
Hypothesis Hanswers : answersSettle.
Variable store : Service.Store.
Hypothesis Hstore : serviceState store.
Variables homeTeamCode awayTeamCode cacheKey : string.

(** The [try] block on valid labels: it returns a result that
    accounts for the failures, or throws without having sent a
    request (on a cached model that is not a matrix). *)
Lemma tryBlock_valid :
  validLabels (Service.rowLabels input) -> validLabels (Service.colLabels input) ->
  hoare (fun s => s = store)
    (cached ← Service.readCachedEntry cacheKey;
     match cached with
     | Some entry => Service.resultOfModel (Service.value entry) input
     | None =>
         computed ← Service.buildSmartDigitModel homeTeamCode awayTeamCode;
         Service.writeCachedEntry cacheKey computed;;
         Service.resultOfModel computed input
     end)
    (fun result store' =>
       serviceState store'
       /\ failuresReported store store' (sourcesUsed result) (warnings result))
    (fun _ store' =>
       serviceState store' /\ Service.requests store' = Service.requests store).
Proof.
  intros Hrows Hcols.
  apply (hoare_bind _ _ _
           (fun _ s => serviceState s
                       /\ Service.requests s = Service.requests store)).
  { intros s ->.
    pose proof (stays_readCachedEntry cacheKey False store store
                  (conj eq_refl Hstore)) as Hread.
    destruct (Service.readCachedEntry cacheKey store) as [s' [cached | e |]];
      [| destruct Hread as (_ & _ & []) | exact Hread].
    destruct Hread as (Hstate & Hsent & _).
    split; [exact Hstate | apply sent_noRequest, Hsent]. }
  intros [entry |].
  - intros s [Hstate Hrequests].
    pose proof (resultOfModel_store (Service.value entry) s) as Hsame.
    pose proof (resultOfModel_settled (Service.value entry) s) as Hsettled.
    destruct (Service.resultOfModel (Service.value entry) input s)
      as [s' [result | e |]]; cbn in Hsame; subst s'.
    + split; [exact Hstate | apply failuresReported_none, Hrequests].
    + split; [exact Hstate | exact Hrequests].
    + destruct (Hsettled eq_refl).
  - apply (hoare_bind _ _ _
             (fun model s =>
                serviceState s
                /\ probabilityMatrix (Service.c_digitProbabilities model)
                /\ failuresReported store s (Service.c_sourcesUsed model)
                     (Service.c_warnings model))).
    { intros s [Hstate Hrequests].
      pose proof (buildSmartDigitModel_accounts Hanswers homeTeamCode awayTeamCode
                    s Hstate s eq_refl) as Hmodel.
      destruct (Service.buildSmartDigitModel homeTeamCode awayTeamCode s)
        as [s' [model | e |]]; [| destruct Hmodel | exact Hmodel].
      destruct Hmodel as (Hstate' & Hprob & Hreported).
      split; [exact Hstate' |]. split; [exact Hprob |].
      apply (failuresReported_requests s s');
        [symmetry; exact Hrequests | reflexivity | exact Hreported]. }
    intros model.
    apply (hoare_pre _ (probabilityMatrix (Service.c_digitProbabilities model)));
      [intros s (_ & Hp & _); exact Hp |].
    intros Hprob.
    apply (hoare_bind _ _ _
             (fun _ s =>
                serviceState s
                /\ failuresReported store s (Service.c_sourcesUsed model)
                     (Service.c_warnings model))).
    { intros s (Hstate & _ & Hreported).
      pose proof (stays_writeCachedEntry cacheKey model False s s
                    (conj eq_refl Hstate)) as Hwrite.
      destruct (Service.writeCachedEntry cacheKey model s) as [s' [[] | e |]];
        [| destruct Hwrite as (_ & _ & []) | exact Hwrite].
      destruct Hwrite as (Hstate' & Hsent & _).
      split; [exact Hstate' |].
      apply (failuresReported_requests store s);
        [reflexivity | apply sent_noRequest, Hsent | exact Hreported]. }
    intros [] s [Hstate Hreported].
    destruct (resultOfModel_valid model s Hrows Hcols (proj1 (proj1 Hprob)))
      as (result & Hresult & Hsources & Hwarnings).
    rewrite Hresult. split; [exact Hstate |]. rewrite Hsources, Hwarnings.
    exact Hreported.
Qed.

(** The [try] block on labels that are not valid: it throws. *)
Lemma tryBlock_invalid :
  ~ validLabels (Service.rowLabels input)
  \/ ~ validLabels (Service.colLabels input) ->
  hoare (fun s => s = store)
    (cached ← Service.readCachedEntry cacheKey;
     match cached with
     | Some entry => Service.resultOfModel (Service.value entry) input
     | None =>
         computed ← Service.buildSmartDigitModel homeTeamCode awayTeamCode;
         Service.writeCachedEntry cacheKey computed;;
         Service.resultOfModel computed input
     end)
    (fun _ _ => False)
    (fun _ store' => serviceState store').
Proof.
  intros Hinvalid.
  apply (hoare_bind _ _ _ (fun _ s => serviceState s)).
  { intros s ->.
    pose proof (stays_readCachedEntry cacheKey False store store
                  (conj eq_refl Hstore)) as Hread.
    destruct (Service.readCachedEntry cacheKey store) as [s' [cached | e |]];
      [| destruct Hread as (_ & _ & []) | exact Hread].
    exact (proj1 Hread). }
  assert (Hresult : forall model,
            hoare serviceState (Service.resultOfModel model input)
              (fun _ _ => False) (fun _ s => serviceState s)).
  { intros model s Hstate.
    pose proof (resultOfModel_store model s) as Hsame.
    pose proof (resultOfModel_settled model s) as Hsettled.
    pose proof (resultOfModel_invalid model Hinvalid s) as Hnever.
    destruct (Service.resultOfModel model input s) as [s' [result | e |]];
      cbn in Hsame; subst s'.
    - destruct (Hnever result eq_refl).
    - exact Hstate.
    - destruct (Hsettled eq_refl). }
  intros [entry |]; [apply Hresult |].
  apply (hoare_bind _ _ _ (fun _ s => serviceState s)).
  { intros s Hstate.
    pose proof (buildSmartDigitModel_accounts Hanswers homeTeamCode awayTeamCode
                  s Hstate s eq_refl) as Hmodel.
    destruct (Service.buildSmartDigitModel homeTeamCode awayTeamCode s)
      as [s' [model | e |]]; [exact (proj1 Hmodel) | destruct Hmodel | exact Hmodel]. }
  intros model.
  apply (hoare_bind _ _ _ (fun _ s => serviceState s)); [| intros []; apply Hresult].
  intros s Hstate.
  pose proof (stays_writeCachedEntry cacheKey model False s s
                (conj eq_refl Hstate)) as Hwrite.
  destruct (Service.writeCachedEntry cacheKey model s) as [s' [[] | e |]];
    [exact (proj1 Hwrite) | destruct Hwrite as (_ & _ & []) | exact Hwrite].
Qed.

End Settling.

Lemma buildSquareOdds_valid_returns (store : Service.Store) :
  answersSettle -> serviceState store ->
  supportedTeam (Service.homeTeamName input) ->
  supportedTeam (Service.awayTeamName input) ->
  validLabels (Service.rowLabels input) ->
  validLabels (Service.colLabels input) ->
  exists store' result,
    Service.buildSquareOdds input store = (store', Ok result)
    /\ serviceState store'
    /\ failuresReported store store' (sourcesUsed result) (warnings result).
Proof.
  intros Hanswers Hstore Hhome Haway Hrows Hcols.
  destruct (buildSquareOdds_supported store Hhome Haway)
    as (homeTeamCode & awayTeamCode & cacheKey & Hcall).
  rewrite Hcall. clear Hcall.
  pose proof (tryBlock_valid Hanswers store Hstore homeTeamCode awayTeamCode cacheKey
                Hrows Hcols store eq_refl) as Hbody.
  unfold Service.tryCatch.
  match goal with
  | |- context [match ?body store with _ => _ end] =>
      destruct (body store) as [store' [result | e |]]
  end.
  - exists store', result. split; [reflexivity | exact Hbody].
  - destruct Hbody as [Hstate Hrequests]. rewrite Eff_bind_eq.
    destruct (buildFallbackModel_valid store' Hrows Hcols) as [fallback Hfallback].
    rewrite Hfallback. eexists store', _. split; [reflexivity |].
    split; [exact Hstate | apply failuresReported_none, Hrequests].
  - destruct Hbody.
Qed.

(** With supported teams and labels that are not valid the call ends
    in the throw of the fallback model. *)
Lemma buildSquareOdds_invalid_throws (store : Service.Store) :
  answersSettle -> serviceState store ->
  supportedTeam (Service.homeTeamName input) ->
  supportedTeam (Service.awayTeamName input) ->
  ~ validLabels (Service.rowLabels input)
  \/ ~ validLabels (Service.colLabels input) ->
  exists store' e,
    serviceState store'
    /\ Service.buildFallbackModel (Service.rowLabels input) (Service.colLabels input)
         store' = (store', Throw e)
    /\ Service.buildSquareOdds input store = (store', Throw e).
Proof.
  intros Hanswers Hstore Hhome Haway Hlabels.
  destruct (buildSquareOdds_supported store Hhome Haway)
    as (homeTeamCode & awayTeamCode & cacheKey & Hcall).
  rewrite Hcall. clear Hcall.
  pose proof (tryBlock_invalid Hanswers store Hstore homeTeamCode awayTeamCode cacheKey
                Hlabels store eq_refl) as Hbody.
  unfold Service.tryCatch.
  match goal with
  | |- context [match ?body store with _ => _ end] =>
      destruct (body store) as [store' [result | e |]]
  end; [destruct Hbody | | destruct Hbody].
  destruct (buildFallbackModel_invalid store' Hlabels) as [e' He'].
  exists store', e'. split; [exact Hbody |]. split; [exact He' |].
  rewrite Eff_bind_eq, He'. reflexivity.
Qed.

(** Labels of the wrong number: the message is the one of the length
    check. *)
Lemma buildSquareOdds_wrong_length (store : Service.Store) :
  answersSettle -> serviceState store ->
  supportedTeam (Service.homeTeamName input) ->
  supportedTeam (Service.awayTeamName input) ->
  length (Service.rowLabels input) <> DIGIT_COUNT
  \/ length (Service.colLabels input) <> DIGIT_COUNT ->
  (Service.buildSquareOdds input store).2
  = Throw "Expected row and column labels to each have length 10.".
Proof.
  intros Hanswers Hstore Hhome Haway Hlength.
  destruct (buildSquareOdds_invalid_throws store Hanswers Hstore Hhome Haway)
    as (store' & e & _ & Hfb & ->).
  { destruct Hlength as [Hl | Hl]; [left | right]; intros [Hlen _]; exact (Hl Hlen). }
  revert Hfb. unfold Service.buildFallbackModel.
  destruct (buildSimulationMatrix_rows (ofZ 23) (ofZ 21)) as (simulated & Hsim & _).
  rewrite liftOutcome_bind, Hsim, liftOutcome_bind.
  unfold Service.mapDigitMatrixToBoard, mapDigitMatrixToBoardWith.
  rewrite bool_decide_eq_true_2 by exact Hlength.
  intros [= <-]. reflexivity.
Qed.


End SquareOdds.

Lemma answersSettle_offline : @answersSettle offlineEnvironment.
Proof. repeat split; intros; discriminate. Qed.

Lemma answersSettle_nflverseOnly : @answersSettle nflverseOnly.
Proof. repeat split; intros; discriminate. Qed.



(** The call of the witness, run: the two nflverse files came; the
    ESPN teams were asked for twice (the statistics of the home team
    ask again, those of the away team share the rejected promise) and
    TheSportsDB once a team; each failure is in the warnings. *)
Example buildSquareOdds_nflverse_only :
  let call := @Service.buildSquareOdds underflowRuntime nflverseOnly seahawksPatriots
                freshStore in
  Service.requests call.1
  = [Service.NFL_GAMES_CSV_URL; Service.NFL_CLOSING_LINES_CSV_URL;
     Service.ESPN_TEAMS_URL; Service.ESPN_TEAMS_URL;
     Service.SPORTS_DB_SEARCH_TEAMS_URL "Seahawks";
     Service.SPORTS_DB_SEARCH_TEAMS_URL "Patriots"]
  /\ (warnings <$> call.2)
     = Ok ["Limited team history found for one or both teams. Probabilities rely more heavily on league baseline.";
           teamsWarning; statsWarning; formWarning]
  /\ (sourcesUsed <$> call.2) = Ok [nflverse_games; nflverse_closing_lines]
  /\ (sourceMode <$> call.2) = Ok baseline.
Proof. vm_compute. repeat split; reflexivity. Qed.

(** Without the network the call returns the simulated baseline, with
    the one warning of the games. *)
Example buildSquareOdds_offline :
  let call := @Service.buildSquareOdds underflowRuntime offlineEnvironment
                seahawksPatriots freshStore in
  Service.requests call.1 = [Service.NFL_GAMES_CSV_URL]
  /\ (warnings <$> call.2) = Ok [gamesWarning]
  /\ (sourcesUsed <$> call.2) = Ok [fallback_model].
Proof. vm_compute. repeat split; reflexivity. Qed.

(** A promise of the games that never settles leaves the model, and
    with it the call, without a result: the hypothesis that the answers
    settle is needed. *)
Lemma buildSmartDigitModel_stalled `{Runtime} `{Service.Environment}
    (homeTeamCode awayTeamCode : string) (store : Service.Store) :
  Service.gamesPromise store = Some Service.Pending ->
  (Service.buildSmartDigitModel homeTeamCode awayTeamCode store).2 = OutOfFuel.
Proof.
  intros Hpending. unfold Service.buildSmartDigitModel. rewrite Eff_bind_eq.
  unfold Service.attempt, Service.tryCatch, Service.loadGames.
  cbv beta iota delta [mbind Service.Eff_bind Service.getStore].
  rewrite Hpending. reflexivity.
Qed.

Example buildSquareOdds_stalled :
  (@Service.buildSquareOdds sampleRuntime stalledGames seahawksPatriots freshStore).2
  = OutOfFuel.
Proof. vm_compute. reflexivity. Qed.

(** ** The cache of models *)

Lemma gtb_not_leb (a : num) (t : Z) :
  (a >? ofZ t)%num = true -> (a <=? ofZ t)%num = false.
Proof.
  unfold JS.gtb, JS.ltb, JS.leb, ofZ. destruct a as [| | | q]; try discriminate;
    try reflexivity.
  intros Hlt. apply Qltb_lt in Hlt.
  destruct (Qle_bool q (inject_Z t)) eqn:E; [| reflexivity].
  apply Qle_bool_iff in E. lra.
Qed.

Section Cache.
Context `{Runtime} `{Service.Environment}.


Lemma readCachedEntry_hit (key : string) (store : Service.Store)
    (entry : Service.CachedEntry) :
  Service.modelMemoryCache store !! key = Some entry ->
  (Service.expiresAt entry
   >? ofZ (Service.Date_now (length (Service.requests store))))%num = true ->
  Service.readCachedEntry key store = (store, Ok (Some entry)).
Proof.
  intros Hmemory Hfresh.
  cbv beta iota zeta delta [Service.readCachedEntry mbind mret Service.Eff_bind
    Service.Eff_ret Service.getStore Service.now Service.modify fst snd].
  rewrite Hmemory, Hfresh. reflexivity.
Qed.

Lemma writeCachedEntry_memory (key : string) (value : Service.CachedDigitModel)
    (store : Service.Store) :
  let written := (Service.writeCachedEntry key value store).1 in
  Service.modelMemoryCache written
  = <[key := {| Service.expiresAt :=
                  ofZ (Service.Date_now (length (Service.requests store))
                       + Service.MODEL_CACHE_TTL_MS);
                Service.value := value |}]> (Service.modelMemoryCache store)
  /\ Service.requests written = Service.requests store
  /\ (Service.writeCachedEntry key value store).2 = Ok tt.
Proof.
  cbv beta iota zeta delta [Service.writeCachedEntry mbind mret Service.Eff_bind
    Service.Eff_ret Service.getStore Service.now Service.modify fst snd].
  destruct (Service.localStorage store) as [items |];
    [destruct (Service.quotaExceeded _ _) |]; repeat split; reflexivity.
Qed.

(** X9: what [writeCachedEntry] stores, [readCachedEntry] gives back
    for thirty minutes: in every later state that still has the memory
    cache of the write and whose clock is less than 1 800 000 ms past
    the one of the write, the read returns the model that was written,
    with its expiry, and leaves the state as it is (no request, no
    access to the storage).  The write itself never throws, a full
    storage included. *)
Theorem cache_round_trip (key : string) (value : Service.CachedDigitModel)
    (store later : Service.Store) :
  let written := Service.writeCachedEntry key value store in
  let time := Service.Date_now (length (Service.requests store)) in
  Service.modelMemoryCache later = Service.modelMemoryCache written.1 ->
  Service.Date_now (length (Service.requests later)) < time + 1800000 ->
  written.2 = Ok tt
  /\ Service.readCachedEntry key later
     = (later, Ok (Some {| Service.expiresAt := ofZ (time + 1800000);
                           Service.value := value |})).
Proof.
  cbv zeta. intros Hsame Hclock.
  destruct (writeCachedEntry_memory key value store) as (Hmemory & _ & Hok).
  split; [exact Hok |].
  apply readCachedEntry_hit.
  - rewrite Hsame, Hmemory. apply lookup_insert_eq.
  - cbn [Service.expiresAt]. unfold JS.gtb, ofZ. rewrite ltb_Fin. apply Qltb_lt.
    rewrite <- Zlt_Qlt. exact Hclock.
Qed.

(** X10: a cache hit is served without the network.  With two
    supported teams, an entry for them in the memory cache that has
    not expired, valid labels and a matrix of ten rows in the entry,
    [buildSquareOdds] returns the cached model mapped on the labels:
    its matrix, its [generatedAt], mode, sources, warnings and
    expected points are those of the entry, and the state is left as
    it is, so that no request is sent. *)
Theorem buildSquareOdds_cache_hit (input : Service.BuildSquareOddsInput)
    (store : Service.Store) (homeTeamCode awayTeamCode : string)
    (entry : Service.CachedEntry) (rs cs : list nat) :
  Service.resolveTeamCode (Service.homeTeamName input) = Ok homeTeamCode ->
  Service.resolveTeamCode (Service.awayTeamName input) = Ok awayTeamCode ->
  Service.modelMemoryCache store
    !! (Service.MODEL_CACHE_PREFIX +:+ ":" +:+ homeTeamCode +:+ ":" +:+ awayTeamCode)
  = Some entry ->
  (Service.expiresAt entry
   >? ofZ (Service.Date_now (length (Service.requests store))))%num = true ->
  labelDigits (Service.rowLabels input) rs ->
  labelDigits (Service.colLabels input) cs ->
  length (Service.c_digitProbabilities (Service.value entry)) = DIGIT_COUNT ->
  let model := Service.value entry in
  Service.buildSquareOdds input store
  = (store,
     Ok {| boardPercentages :=
             finalizeBoardPercentages
               (map (fun r => map (fun c =>
                  (numberAt (rowAt (Service.c_digitProbabilities model) r) c
                   * ofZ 100)%num) cs) rs);
           digitProbabilities := Service.c_digitProbabilities model;
           generatedAt := Service.c_generatedAt model;
           sourceMode := Service.c_sourceMode model;
           sourcesUsed := Service.c_sourcesUsed model;
           warnings := Service.c_warnings model;
           expectedHomePoints := Service.c_expectedHomePoints model;
           expectedAwayPoints := Service.c_expectedAwayPoints model |}).
Proof.
  intros Hhome Haway Hmemory Hfresh Hrows Hcols Hlen. cbv zeta.
  unfold Service.buildSquareOdds.
  rewrite Hhome, liftOutcome_bind. cbv beta iota.
  rewrite Haway, liftOutcome_bind. cbv beta iota zeta.
  unfold Service.tryCatch. rewrite Eff_bind_eq.
  rewrite (readCachedEntry_hit _ _ _ Hmemory Hfresh). cbv beta iota.
  unfold Service.resultOfModel. rewrite liftOutcome_bind.
  unfold Service.mapDigitMatrixToBoard.
  rewrite (mapDigitMatrixToBoardWith_ok _ _ _ _ _ _ rs cs Hrows Hcols Hlen).
  reflexivity.
Qed.

End Cache.

Lemma cache_round_trip_witness :
  let written := @Service.writeCachedEntry offlineEnvironment
                   "sb-lx-smart-odds-model-v1:SEA:NE" sampleCachedModel freshStore in
  written.2 = Ok tt
  /\ @Service.readCachedEntry offlineEnvironment
       "sb-lx-smart-odds-model-v1:SEA:NE" written.1
     = (written.1, Ok (Some sampleEntry)).
Proof.
  cbv zeta.
  apply (@cache_round_trip offlineEnvironment "sb-lx-smart-odds-model-v1:SEA:NE"
           sampleCachedModel freshStore).
  - reflexivity.
  - vm_compute. reflexivity.
Defined.

Lemma buildSquareOdds_cache_hit_witness :
  exists result,
    @Service.buildSquareOdds sampleRuntime offlineEnvironment seahawksPatriots warmStore
    = (warmStore, Ok result)
    /\ generatedAt result = "2026-02-08T20:00:00.000Z"
    /\ digitProbabilities result = sampleMatrix.
Proof.
  eexists. split.
  - apply (@buildSquareOdds_cache_hit sampleRuntime offlineEnvironment seahawksPatriots
             warmStore "SEA" "NE" sampleEntry
             [5; 0; 1; 2; 3; 4; 6; 7; 8; 9]%nat [0; 1; 2; 3; 4; 5; 6; 7; 8; 9]%nat).
    + vm_compute. reflexivity.
    + vm_compute. reflexivity.
    + vm_compute. reflexivity.
    + vm_compute. reflexivity.
    + apply labelDigits_check; vm_compute; reflexivity.
    + apply labelDigits_check; vm_compute; reflexivity.
    + reflexivity.
  - split; reflexivity.
Defined.

(** ** The loaders *)

Section Loaders.
Context `{Runtime} `{Service.Environment}.

(** X11: the games are loaded once.  From a state without a memoised
    promise [loadGames] sends one request, the one for games.csv.  When
    it is fulfilled the records are kept: every later call returns them
    without a request.  When it is rejected the call throws the error
    and, once the rejection handler has run, the variable is null again,
    so that the next call sends the request anew.  When the body of
    the response never ends the call does not come back, and the
    pending promise stays in the variable: no later call comes back
    either. *)
Theorem loadGames_memoised (store : Service.Store) :
  Service.gamesPromise store = None ->
  let first := Service.loadGames store in
  Service.requests first.1 = Service.requests store ++ [Service.NFL_GAMES_CSV_URL]
  /\ match Service.games_csv (length (Service.requests store)) with
     | Service.Fulfilled rows =>
         first.2 = Ok (omap Service.gameOfRow rows)
         /\ Service.loadGames first.1 = first
         /\ Service.loadGames (Service.settlePromises first.1)
            = (Service.settlePromises first.1, first.2)
     | Service.Rejected message =>
         first.2 = Throw message
         /\ Service.gamesPromise (Service.settlePromises first.1) = None
     | Service.Pending =>
         first.2 = OutOfFuel
         /\ Service.loadGames (Service.settlePromises first.1)
            = (Service.settlePromises first.1, OutOfFuel)
     end.
Proof.
  intros Hnone. cbv zeta.
  cbv beta iota zeta delta [Service.loadGames Service.fetch Service.async Service.await
    Service.throw Service.liftOutcome mbind mret Service.Eff_bind Service.Eff_ret
    Service.getStore Service.modify fst snd].
  rewrite Hnone. cbv beta iota.
  destruct (Service.games_csv (length (Service.requests store)))
    as [rows | message |];
    cbv beta iota; cbn [Service.requests Service.logRequest Service.setGamesPromise
                        Service.gamesPromise Service.settlePromises];
    repeat split; reflexivity.
Qed.

End Loaders.

Lemma loadGames_memoised_witness :
  let first := @Service.loadGames sampleRuntime nflverseOnly freshStore in
  Service.requests first.1 = [Service.NFL_GAMES_CSV_URL]
  /\ first.2 = Ok (omap (@Service.gameOfRow sampleRuntime) sampleGameRows)
  /\ @Service.loadGames sampleRuntime nflverseOnly first.1 = first.
Proof.
  destruct (@loadGames_memoised sampleRuntime nflverseOnly freshStore eq_refl)
    as (Hrequests & Hfirst & Hagain & _).
  split; [exact Hrequests |]. split; [exact Hfirst | exact Hagain].
Defined.


